(** * Dive-computer communication core: Cressi Leonardo, Uwatec Smart, sockets

    A shallow embedding of the parts of [cressi_leonardo.c], [uwatec_smart.c]
    and [socket.c] that the specification talks about, followed by the
    theorems that settle each specified property.

    Conventions of the embedding:
    - a C array handed over as (pointer, size) is a [list byte] whose length
      is the size; a pointer into an array is the suffix of the list that
      starts at the pointed element ([ptr data off] is [data + off]);
    - [unsigned int] values are [Z]; where an operation can leave the 32-bit
      range the wrap-around is written out with [u32] (with [usub] for a
      difference of two values of the type);
    - a read or write outside an object is undefined behaviour in C: the
      model reports it as [Fault];
    - the operating system and the device are scripts of responses that the
      code consumes, one element per call. *)

From Stdlib Require Import ZArith List Bool Lia.
From Stdlib Require Import Strings.Byte.
From Stdlib Require Strings.String Strings.Ascii.
Import ListNotations.
Local Open Scope Z_scope.

(* ================================================================== *)
(** * Part I: the embedding *)
(* ================================================================== *)

(** ** Status codes, integers and byte arrays *)

Inductive dc_status_t : Type :=
  | DC_STATUS_SUCCESS
  | DC_STATUS_DONE
  | DC_STATUS_UNSUPPORTED
  | DC_STATUS_INVALIDARGS
  | DC_STATUS_NOMEMORY
  | DC_STATUS_NODEVICE
  | DC_STATUS_NOACCESS
  | DC_STATUS_IO
  | DC_STATUS_TIMEOUT
  | DC_STATUS_PROTOCOL
  | DC_STATUS_DATAFORMAT
  | DC_STATUS_CANCELLED.

Definition status_eqb (a b : dc_status_t) : bool :=
  match a, b with
  | DC_STATUS_SUCCESS, DC_STATUS_SUCCESS
  | DC_STATUS_DONE, DC_STATUS_DONE
  | DC_STATUS_UNSUPPORTED, DC_STATUS_UNSUPPORTED
  | DC_STATUS_INVALIDARGS, DC_STATUS_INVALIDARGS
  | DC_STATUS_NOMEMORY, DC_STATUS_NOMEMORY
  | DC_STATUS_NODEVICE, DC_STATUS_NODEVICE
  | DC_STATUS_NOACCESS, DC_STATUS_NOACCESS
  | DC_STATUS_IO, DC_STATUS_IO
  | DC_STATUS_TIMEOUT, DC_STATUS_TIMEOUT
  | DC_STATUS_PROTOCOL, DC_STATUS_PROTOCOL
  | DC_STATUS_DATAFORMAT, DC_STATUS_DATAFORMAT
  | DC_STATUS_CANCELLED, DC_STATUS_CANCELLED => true
  | _, _ => false
  end.

(** What a call does: it returns a status, or it touches memory outside the
    objects it was given, or (socket waits only) it never returns. *)
Inductive outcome : Type :=
  | Returns (rc : dc_status_t)
  | Fault
  | Hangs.

(** Wrap-around of [unsigned int]. *)
Definition u32 (x : Z) : Z := x mod 2 ^ 32.

(** The value of a byte. *)
Definition b2z (b : byte) : Z := Z.of_N (Byte.to_N b).

(** [data + off]. *)
Definition ptr (data : list byte) (off : Z) : list byte :=
  skipn (Z.to_nat off) data.

(** [size]: the number of elements of an array. *)
Definition size_of (data : list byte) : Z := Z.of_nat (length data).

(** The [n] bytes at a pointer; [None] when fewer than [n] are left in the
    object. *)
Definition bytes_at (p : list byte) (n : Z) : option (list byte) :=
  if n <=? size_of p then Some (firstn (Z.to_nat n) p) else None.

(** Modelled from the spec: [array_uint16_le], the little-endian 16-bit
    integer at a pointer (array.h is not part of the sources). *)
Definition array_uint16_le (p : list byte) : option Z :=
  match p with
  | b0 :: b1 :: _ => Some (b2z b0 + Z.shiftl (b2z b1) 8)
  | _ => None
  end.

(** Modelled from the spec: [array_uint16_be], the big-endian 16-bit integer
    at a pointer. *)
Definition array_uint16_be (p : list byte) : option Z :=
  match p with
  | b0 :: b1 :: _ => Some (Z.shiftl (b2z b0) 8 + b2z b1)
  | _ => None
  end.

(** Modelled from the spec: [array_uint32_le], the little-endian 32-bit
    integer at a pointer. *)
Definition array_uint32_le (p : list byte) : option Z :=
  match p with
  | b0 :: b1 :: b2 :: b3 :: _ =>
      Some (b2z b0 + Z.shiftl (b2z b1) 8 + Z.shiftl (b2z b2) 16
            + Z.shiftl (b2z b3) 24)
  | _ => None
  end.

(** The four bytes of a 32-bit value, least significant first (the inverse of
    [array_uint32_le]; used to say which bytes a stored timestamp holds). *)
Definition z2b (x : Z) : byte :=
  match Byte.of_N (Z.to_N (x mod 256)) with
  | Some b => b
  | None => x00
  end.

Definition uint32_le_bytes (x : Z) : list byte :=
  [z2b x; z2b (Z.shiftr x 8); z2b (Z.shiftr x 16); z2b (Z.shiftr x 24)].

Definition bytes_eqb (a b : list byte) : bool :=
  if list_eq_dec Byte.byte_eq_dec a b then true else false.

(** Modelled from the spec: [array_isequal (p, n, v)], whether the [n] bytes
    at [p] all equal [v]. *)
Definition array_isequal (p : list byte) (n : Z) (v : byte) : option bool :=
  match bytes_at p n with
  | Some bs => Some (forallb (Byte.eqb v) bs)
  | None => None
  end.

(** [memcmp (p, q, n) == 0]. *)
Definition memcmp_eq0 (p q : list byte) (n : Z) : option bool :=
  match bytes_at p n, bytes_at q n with
  | Some a, Some b => Some (bytes_eqb a b)
  | _, _ => None
  end.

(** [memcpy (dst + doff, src, n)]: the new contents of the object [dst]. *)
Definition memcpy (dst : list byte) (doff : Z) (src : list byte) (n : Z)
  : option (list byte) :=
  match bytes_at src n with
  | Some bs =>
      if doff + n <=? size_of dst
      then Some (firstn (Z.to_nat doff) dst ++ bs
                 ++ skipn (Z.to_nat (doff + n)) dst)
      else None
  | None => None
  end.

(** [memset (dst, v, n)] over a whole [n]-byte array. *)
Definition memset (v : byte) (n : Z) : list byte := repeat v (Z.to_nat n).

(** The dive callback: (data, size, fingerprint, fsize, userdata), returning
    nonzero ([true]) to go on; [U] is the type behind [void *userdata]. *)
Definition dc_dive_callback_t (U : Type) : Type :=
  list byte -> Z -> list byte -> Z -> U -> bool * U.

(** ** The ring buffer helper *)

Module Ringbuffer.

(** Modelled from the spec: the circular distance from [a] to [b] in a ring
    of [size] bytes (ringbuffer.c is not part of the sources); with mode 0
    equal pointers are an empty range. *)
Definition distance (a b mode size : Z) : Z :=
  if a <? b then (b - a) mod size
  else if a >? b then size - (a - b) mod size
  else if mode =? 0 then 0 else size.

Definition ringbuffer_distance (a b mode rb_begin rb_end : Z) : Z :=
  distance a b mode (rb_end - rb_begin).

End Ringbuffer.

(** ** Device handles

    [dc_device_t *abstract] points to one of the family structures; the
    vtable pointer that [ISINSTANCE] inspects is the constructor. *)

Record cressi_leonardo_device_t : Type := mk_leonardo {
  fingerprint : list byte            (* unsigned char fingerprint[5] *)
}.

Record uwatec_smart_device_t : Type := mk_smart {
  timestamp : Z;
  devtime : Z;
  systime : Z
}.

Inductive dc_device_t : Type :=
  | LeonardoDevice (d : cressi_leonardo_device_t)
  | SmartDevice (d : uwatec_smart_device_t)
  | OtherDevice.

(** ** Cressi Leonardo *)

Module CressiLeonardo.

Import Ringbuffer.

Definition SZ_MEMORY : Z := 32000.

Definition RB_LOGBOOK_BEGIN : Z := 0x0100.
Definition RB_LOGBOOK_END : Z := 0x1438.
Definition RB_LOGBOOK_SIZE : Z := 0x52.
Definition RB_LOGBOOK_COUNT : Z :=
  (RB_LOGBOOK_END - RB_LOGBOOK_BEGIN) / RB_LOGBOOK_SIZE.

Definition RB_PROFILE_BEGIN : Z := 0x1438.
Definition RB_PROFILE_END : Z := SZ_MEMORY.
Definition RB_PROFILE_DISTANCE (a b : Z) : Z :=
  ringbuffer_distance a b 0 RB_PROFILE_BEGIN RB_PROFILE_END.

Definition MAXRETRIES : Z := 4.
Definition PACKETSIZE : Z := 32.

(** [sizeof (device->fingerprint)]. *)
Definition SZ_FINGERPRINT : Z := 5.

Definition ISINSTANCE (abstract : dc_device_t) : bool :=
  match abstract with
  | LeonardoDevice _ => true
  | _ => false
  end.

(** *** cressi_leonardo_device_set_fingerprint *)

Definition cressi_leonardo_device_set_fingerprint
    (device : cressi_leonardo_device_t) (data : list byte)
  : outcome * cressi_leonardo_device_t :=
  let size := size_of data in
  if negb (size =? 0) && negb (size =? SZ_FINGERPRINT) then
    (Returns DC_STATUS_INVALIDARGS, device)
  else if negb (size =? 0) then
    match memcpy (fingerprint device) 0 data SZ_FINGERPRINT with
    | Some fp => (Returns DC_STATUS_SUCCESS, mk_leonardo fp)
    | None => (Fault, device)
    end
  else
    (Returns DC_STATUS_SUCCESS, mk_leonardo (memset x00 SZ_FINGERPRINT)).

(** *** The serial line, as the protocol code sees it

    One [exchange] is what the line does during one call of
    [cressi_leonardo_packet]: whether the device was cancelled, the status of
    the write, the status of the read and the bytes that arrive.  A port is
    the list of the exchanges still to come; on an exhausted list the
    instrument stays silent. *)

Record exchange : Type := mk_exchange {
  cancelled : bool;
  write_rc : dc_status_t;
  read_rc : dc_status_t;
  incoming : list byte
}.

Definition dc_serial_t : Type := list exchange.

Definition silent : exchange :=
  mk_exchange false DC_STATUS_SUCCESS DC_STATUS_TIMEOUT [].

Definition next_exchange (port : dc_serial_t) : exchange * dc_serial_t :=
  match port with
  | e :: port' => (e, port')
  | [] => (silent, [])
  end.

(** Modelled from the spec: [dc_serial_read] transfers exactly [asize] bytes
    or reports [Timeout] with what arrived (serial.h is not part of the
    sources). *)
Definition dc_serial_read (e : exchange) (asize : Z) (answer : list byte)
  : dc_status_t * list byte :=
  match read_rc e with
  | DC_STATUS_SUCCESS =>
      if asize <=? size_of (incoming e)
      then (DC_STATUS_SUCCESS,
            firstn (Z.to_nat asize) (incoming e) ++ skipn (Z.to_nat asize) answer)
      else (DC_STATUS_TIMEOUT,
            incoming e ++ skipn (length (incoming e)) answer)
  | rc => (rc, answer)
  end.

(** [dc_serial_sleep] and [dc_serial_purge] leave the exchanges to come as
    they are. *)
Definition dc_serial_sleep (port : dc_serial_t) (ms : Z) : dc_serial_t := port.
Definition dc_serial_purge (port : dc_serial_t) : dc_serial_t := port.

Section Protocol.

(** The helpers of checksum.h and array.h, which are not part of the sources:
    the CRC of a byte range and the conversion of hexadecimal digits to
    bytes. *)
Variable checksum_crc_ccitt_uint16 : list byte -> Z.
Variable array_convert_hex2bin : list byte -> list byte.

(** [a - b] on [unsigned int] operands: below zero the difference wraps
    around. *)
Definition usub (a b : Z) : Z := if a <? b then a - b + 2 ^ 32 else a - b.

(** [answer[i]] for an index [i] that is not negative; [None] outside the
    object. *)
Definition at_index (answer : list byte) (i : Z) : option byte :=
  nth_error answer (Z.to_nat i).

Definition cressi_leonardo_packet (port : dc_serial_t) (command : list byte)
    (answer : list byte) (asize : Z)
  : outcome * list byte * dc_serial_t :=
  let '(e, port') := next_exchange port in
  if cancelled e then (Returns DC_STATUS_CANCELLED, answer, port')
  else
    (* Send the command to the device. *)
    match write_rc e with
    | DC_STATUS_SUCCESS =>
        (* Receive the answer of the device. *)
        match dc_serial_read e asize answer with
        | (DC_STATUS_SUCCESS, answer') =>
            (* Verify the header and trailer of the packet: answer[0] and,
               read only when the header is right, answer[asize - 1], whose
               index wraps around when asize is 0. *)
            match at_index answer' 0 with
            | None => (Fault, answer', port')
            | Some first =>
                if negb (Byte.eqb first x7b)
                then (Returns DC_STATUS_PROTOCOL, answer', port')
                else
                match at_index answer' (usub asize 1) with
                | None => (Fault, answer', port')
                | Some last =>
                if negb (Byte.eqb last x7d)
                then (Returns DC_STATUS_PROTOCOL, answer', port')
                else
                (* Convert and verify the checksum of the packet.  The
                   pointer answer + asize - 5 lies before the buffer when
                   asize < 5, and the count asize - 6 wraps around when
                   asize < 6. *)
                if asize <? 5 then (Fault, answer', port')
                else
                match bytes_at (ptr answer' (asize - 5)) 4,
                      bytes_at (ptr answer' 1) (usub asize 6) with
                | Some digits, Some body =>
                    (* unsigned char checksum[2] = {0}, filled by the
                       conversion *)
                    let checksum :=
                      firstn 2 (array_convert_hex2bin digits ++ [x00; x00]) in
                    match array_uint16_be checksum with
                    | Some crc =>
                        let ccrc := checksum_crc_ccitt_uint16 body in
                        if negb (crc =? ccrc)
                        then (Returns DC_STATUS_PROTOCOL, answer', port')
                        else (Returns DC_STATUS_SUCCESS, answer', port')
                    | None => (Fault, answer', port')
                    end
                | _, _ => (Fault, answer', port')
                end
                end
            end
        | (status, answer') => (Returns status, answer', port')
        end
    | status => (Returns status, answer, port')
    end.

(** The loop of [cressi_leonardo_transfer], with the bound on the retries as
    a parameter; [fuel] bounds the iterations of the model. *)
Fixpoint transfer_loop (fuel : nat) (maxretries nretries : Z)
    (port : dc_serial_t) (command answer : list byte) (asize : Z)
  : option (outcome * list byte * dc_serial_t) :=
  match fuel with
  | O => None
  | S fuel' =>
      match cressi_leonardo_packet port command answer asize with
      | (Returns DC_STATUS_SUCCESS, answer', port') =>
          Some (Returns DC_STATUS_SUCCESS, answer', port')
      | (Returns rc, answer', port') =>
          (* Automatically discard a corrupted packet, and request a new one. *)
          if negb (status_eqb rc DC_STATUS_PROTOCOL)
             && negb (status_eqb rc DC_STATUS_TIMEOUT)
          then Some (Returns rc, answer', port')
          (* Abort if the maximum number of retries is reached. *)
          else if nretries >=? maxretries
          then Some (Returns rc, answer', port')
          else
            (* Discard any garbage bytes. *)
            let port'' := dc_serial_purge (dc_serial_sleep port' 100) in
            transfer_loop fuel' maxretries (nretries + 1) port'' command
              answer' asize
      | (o, answer', port') => Some (o, answer', port')
      end
  end.

Definition transfer_with (maxretries : Z) (port : dc_serial_t)
    (command answer : list byte) (asize : Z)
  : option (outcome * list byte * dc_serial_t) :=
  transfer_loop (S (Z.to_nat maxretries)) maxretries 0 port command answer
    asize.

Definition cressi_leonardo_transfer :=
  transfer_with MAXRETRIES.

End Protocol.

(** A status is worth a retry when it is [Protocol] or [Timeout]. *)
Definition retriable (rc : dc_status_t) : bool :=
  status_eqb rc DC_STATUS_PROTOCOL || status_eqb rc DC_STATUS_TIMEOUT.

(** *** cressi_leonardo_extract_dives *)

(** What the consumer was handed in one call: the [size] bytes at [data] and
    the [fsize] bytes at [fingerprint], as they were during the call (the
    scratch buffer is reused afterwards). *)
Record dive : Type := mk_dive {
  dive_data : list byte;
  dive_fingerprint : list byte
}.

(** The scan for the most recent dive: (count, latest, maximum). *)
Fixpoint scan_loop (n : nat) (data : list byte) (i count latest maximum : Z)
  : option (Z * Z * Z) :=
  match n with
  | O => Some (count, latest, maximum)
  | S n' =>
      let offset := RB_LOGBOOK_BEGIN + i * RB_LOGBOOK_SIZE in
      (* Ignore uninitialized header entries. *)
      match array_isequal (ptr data offset) RB_LOGBOOK_SIZE xff with
      | None => None
      | Some true => Some (count, latest, maximum)
      | Some false =>
          (* Get the internal dive number. *)
          match array_uint16_le (ptr data offset) with
          | None => None
          | Some current =>
              if current =? 0xFFFF then Some (count, latest, maximum)
              else if current >? maximum
              then scan_loop n' data (i + 1) (count + 1) i current
              else scan_loop n' data (i + 1) (count + 1) latest maximum
          end
      end
  end.

Definition scan_logbook (data : list byte) : option (Z * Z * Z) :=
  scan_loop (Z.to_nat RB_LOGBOOK_COUNT) data 0 0 0 0.

Section Extract.

Variable U : Type.

(** The local variables of the second loop, the scratch buffer, the user data
    and the calls made so far. *)
Record walk : Type := mk_walk {
  previous : Z;
  remaining : Z;
  buffer : list byte;
  freed : bool;
  user : U;
  calls : list dive
}.

Inductive flow : Type :=
  | Continue
  | Break
  | Exit (o : outcome).

Definition free (w : walk) : walk :=
  mk_walk (previous w) (remaining w) (buffer w) true (user w) (calls w).

(** [device && memcmp (p, device->fingerprint, sizeof (device->fingerprint)) == 0]. *)
Definition fingerprint_matches (device : option cressi_leonardo_device_t)
    (p : list byte) : option bool :=
  match device with
  | None => Some false
  | Some d => memcmp_eq0 p (fingerprint d) SZ_FINGERPRINT
  end.

(** The profile copy, in one piece or in two when the range crosses the end
    of the ring. *)
Definition copy_profile (buf data : list byte) (address length : Z)
  : option (list byte) :=
  if u32 (address + length) >? RB_PROFILE_END then
    let len_a := RB_PROFILE_END - address in
    let len_b := u32 (length - len_a) in
    match memcpy buf RB_LOGBOOK_SIZE (ptr data address) len_a with
    | Some buf' =>
        memcpy buf' (RB_LOGBOOK_SIZE + len_a) (ptr data RB_PROFILE_BEGIN) len_b
    | None => None
    end
  else memcpy buf RB_LOGBOOK_SIZE (ptr data address) length.

(** The call of the consumer and the end of the loop body. *)
Definition deliver (callback : option (dc_dive_callback_t U)) (w : walk)
    (buf : list byte) (header length remaining' : Z) : flow * walk :=
  match callback with
  | Some cb =>
      let size := u32 (RB_LOGBOOK_SIZE + length) in
      let '(go, user') := cb buf size (ptr buf 8) SZ_FINGERPRINT (user w) in
      let d := mk_dive (firstn (Z.to_nat size) buf)
                       (firstn (Z.to_nat SZ_FINGERPRINT) (ptr buf 8)) in
      if go
      then (Continue,
            mk_walk header remaining' buf (freed w) user' (calls w ++ [d]))
      else (Break,
            mk_walk (previous w) remaining' buf (freed w) user' (calls w ++ [d]))
  | None =>
      (Continue, mk_walk header remaining' buf (freed w) (user w) (calls w))
  end.

(** The body of the second loop for loop counter [i]. *)
Definition walk_step (device : option cressi_leonardo_device_t)
    (data : list byte) (callback : option (dc_dive_callback_t U))
    (latest i : Z) (w : walk) : flow * walk :=
  let idx := (latest + RB_LOGBOOK_COUNT - i) mod RB_LOGBOOK_COUNT in
  let offset := RB_LOGBOOK_BEGIN + idx * RB_LOGBOOK_SIZE in
  (* Get the ringbuffer pointers. *)
  match array_uint16_le (ptr data (offset + 2)),
        array_uint16_le (ptr data (offset + 4)) with
  | Some header, Some footer =>
      if (header <? RB_PROFILE_BEGIN) || (header + 2 >? RB_PROFILE_END)
         || (footer <? RB_PROFILE_BEGIN) || (footer + 2 >? RB_PROFILE_END)
      then (Exit (Returns DC_STATUS_DATAFORMAT), free w)
      else if negb (previous w =? 0) && negb (previous w =? footer + 2)
      then (Exit (Returns DC_STATUS_DATAFORMAT), free w)
      else
        (* Check the fingerprint data. *)
        match fingerprint_matches device (ptr data (offset + 8)) with
        | None => (Exit Fault, w)
        | Some true => (Break, w)
        | Some false =>
            (* Copy the logbook entry. *)
            match memcpy (buffer w) 0 (ptr data offset) RB_LOGBOOK_SIZE with
            | None => (Exit Fault, w)
            | Some buf =>
                (* Calculate the profile address and length. *)
                let address := header + 2 in
                let length := u32 (RB_PROFILE_DISTANCE header footer - 2) in
                if negb (remaining w =? 0)
                   && (remaining w >=? u32 (length + 4))
                then
                  (* Get the same pointers from the profile. *)
                  match array_uint16_le (ptr data footer),
                        array_uint16_le (ptr data header) with
                  | Some header2, Some footer2 =>
                      if negb (header2 =? header) || negb (footer2 =? footer)
                      then (Exit (Returns DC_STATUS_DATAFORMAT), free w)
                      else
                        (* Copy the profile data. *)
                        match copy_profile buf data address length with
                        | Some buf' =>
                            deliver callback w buf' header length
                              (u32 (remaining w - u32 (length + 4)))
                        | None => (Exit Fault, w)
                        end
                  | _, _ => (Exit Fault, w)
                  end
                else
                  (* No more profile data available! *)
                  deliver callback w buf header 0 0
            end
        end
  | _, _ => (Exit Fault, w)
  end.

(** The second loop: [n] iterations starting at loop counter [i]. *)
Fixpoint walk_loop (n : nat) (device : option cressi_leonardo_device_t)
    (data : list byte) (callback : option (dc_dive_callback_t U))
    (latest i : Z) (w : walk) : flow * walk :=
  match n with
  | O => (Continue, w)
  | S n' =>
      match walk_step device data callback latest i w with
      | (Continue, w') => walk_loop n' device data callback latest (i + 1) w'
      | stop => stop
      end
  end.

(** What a call of the extractor leaves behind. *)
Record run : Type := mk_run {
  result : outcome;
  dives : list dive;
  userdata : U;
  scratch_freed : bool       (* [true] once [free (buffer)] has run *)
}.

(** [malloc] hands over a block of the requested size with indeterminate
    contents, or NULL: the block is the argument [scratch]. *)
Definition SZ_SCRATCH : Z :=
  RB_LOGBOOK_SIZE + RB_PROFILE_END - RB_PROFILE_BEGIN.

Definition cressi_leonardo_extract_dives (abstract : option dc_device_t)
    (scratch : option (list byte)) (data : list byte)
    (callback : option (dc_dive_callback_t U)) (userdata0 : U) : run :=
  let device :=
    match abstract with
    | Some (LeonardoDevice d) => Some d
    | _ => None
    end in
  if match abstract with Some a => negb (ISINSTANCE a) | None => false end
  then mk_run (Returns DC_STATUS_INVALIDARGS) [] userdata0 false
  else if size_of data <? SZ_MEMORY
  then mk_run (Returns DC_STATUS_DATAFORMAT) [] userdata0 false
  else
    (* Locate the most recent dive. *)
    match scan_logbook data with
    | None => mk_run Fault [] userdata0 false
    | Some (count, latest, _) =>
        match scratch with
        | None => mk_run (Returns DC_STATUS_NOMEMORY) [] userdata0 false
        | Some buf =>
            let w0 := mk_walk 0 (RB_PROFILE_END - RB_PROFILE_BEGIN) buf false
                        userdata0 [] in
            match walk_loop (Z.to_nat count) device data callback latest 0 w0 with
            | (Exit o, w) => mk_run o (calls w) (user w) (freed w)
            | (_, w) =>
                mk_run (Returns DC_STATUS_SUCCESS) (calls w) (user w)
                  (freed (free w))
            end
        end
    end.

End Extract.

End CressiLeonardo.

(** ** Uwatec Smart *)

Module UwatecSmart.

Definition ISINSTANCE (abstract : dc_device_t) : bool :=
  match abstract with
  | SmartDevice _ => true
  | _ => false
  end.

(** *** uwatec_smart_device_set_fingerprint *)

Definition uwatec_smart_device_set_fingerprint
    (device : uwatec_smart_device_t) (data : list byte)
  : outcome * uwatec_smart_device_t :=
  let size := size_of data in
  if negb (size =? 0) && negb (size =? 4) then
    (Returns DC_STATUS_INVALIDARGS, device)
  else if negb (size =? 0) then
    match array_uint32_le data with
    | Some t =>
        (Returns DC_STATUS_SUCCESS, mk_smart t (devtime device) (systime device))
    | None => (Fault, device)
    end
  else
    (Returns DC_STATUS_SUCCESS, mk_smart 0 (devtime device) (systime device)).

(** *** uwatec_smart_extract_dives *)

(** The start marker of a dive. *)
Definition header : list byte := [xa5; xa5; x5a; x5a].

(** One call of the consumer: the record starts at [data + call_offset] and
    is announced with [call_size] bytes. *)
Record call : Type := mk_call {
  call_offset : Z;
  call_size : Z
}.

Section Extract.

Variable U : Type.

Record run : Type := mk_run {
  result : outcome;
  calls : list call;
  userdata : U
}.

(** The search loop; [fuel] bounds the iterations of the model, [None] is an
    exhausted bound. *)
Fixpoint search_loop (fuel : nat) (data : list byte)
    (callback : option (dc_dive_callback_t U)) (previous current : Z)
    (u : U) (done : list call) : option run :=
  match fuel with
  | O => None
  | S fuel' =>
      if current >? 0 then
        let current := current - 1 in
        match memcmp_eq0 (ptr data current) header 4 with
        | None => Some (mk_run Fault done u)
        | Some false =>
            search_loop fuel' data callback previous current u done
        | Some true =>
            (* Get the length of the profile data. *)
            match array_uint32_le (ptr data (current + 4)) with
            | None => Some (mk_run Fault done u)
            | Some len =>
                (* Check for a buffer overflow. *)
                if u32 (current + len) >? previous
                then Some (mk_run (Returns DC_STATUS_DATAFORMAT) done u)
                else
                  let next := if current >=? 4 then current - 4 else 0 in
                  match callback with
                  | Some cb =>
                      let '(go, u') :=
                        cb (ptr data current) len (ptr data (current + 8)) 4 u in
                      let done' := done ++ [mk_call current len] in
                      if go
                      then search_loop fuel' data callback current next u' done'
                      else Some (mk_run (Returns DC_STATUS_SUCCESS) done' u')
                  | None =>
                      search_loop fuel' data callback current next u done
                  end
            end
        end
      else Some (mk_run (Returns DC_STATUS_SUCCESS) done u)
  end.

Definition uwatec_smart_extract_dives (abstract : option dc_device_t)
    (data : list byte) (callback : option (dc_dive_callback_t U))
    (userdata0 : U) : option run :=
  if match abstract with Some a => negb (ISINSTANCE a) | None => false end
  then Some (mk_run (Returns DC_STATUS_INVALIDARGS) [] userdata0)
  else
    let size := size_of data in
    (* Search the data stream for start markers. *)
    let previous := size in
    let current := if size >=? 4 then size - 4 else 0 in
    search_loop (S (Z.to_nat current)) data callback previous current
      userdata0 [].

End Extract.

(** What holds of the calls made while the records above [previous] have
    already been handed over: each starts at a marker below the start of the
    one before, announces the length stored after its marker, and passed the
    length check, which compares the 32-bit sum. *)
Fixpoint emitted_ok (data : list byte) (previous : Z) (cs : list call)
  : Prop :=
  match cs with
  | [] => True
  | c :: cs' =>
      0 <= call_offset c < previous
      /\ memcmp_eq0 (ptr data (call_offset c)) header 4 = Some true
      /\ array_uint32_le (ptr data (call_offset c + 4)) = Some (call_size c)
      /\ u32 (call_offset c + call_size c) <= previous
      /\ emitted_ok data (call_offset c) cs'
  end.

End UwatecSmart.

(** ** Sockets *)

Module Socket.

Inductive s_errcode_t : Type :=
  | S_EINTR
  | S_EAGAIN
  | S_EINVAL
  | S_ENOMEM
  | S_EACCES
  | S_EAFNOSUPPORT
  | S_EOTHER.

Definition dc_socket_syserror (errcode : s_errcode_t) : dc_status_t :=
  match errcode with
  | S_EINVAL => DC_STATUS_INVALIDARGS
  | S_ENOMEM => DC_STATUS_NOMEMORY
  | S_EACCES => DC_STATUS_NOACCESS
  | S_EAFNOSUPPORT => DC_STATUS_UNSUPPORTED
  | _ => DC_STATUS_IO
  end.

Record dc_socket_t : Type := mk_socket {
  fd : Z;
  timeout : Z
}.

Definition dc_socket_set_timeout (socket : dc_socket_t) (t : Z)
  : dc_status_t * dc_socket_t :=
  (DC_STATUS_SUCCESS, mk_socket (fd socket) t).

Record timeval : Type := mk_timeval {
  tv_sec : Z;
  tv_usec : Z
}.

Definition microseconds (tv : timeval) : Z :=
  tv_sec tv * 1000000 + tv_usec tv.

(** *** The operating system, as the socket code sees it

    During one pass through a transfer loop the peer makes the socket ready
    after some delay, or never, or the wait itself fails; the transfer
    primitive then fails with an error code or moves some bytes (none at all
    when the peer has closed). *)

Inductive readiness : Type :=
  | ReadyAfter (us : Z)
  | NeverReady
  | WaitFails (e : s_errcode_t).

Inductive select_t : Type :=
  | SelectError (e : s_errcode_t)     (* rc < 0 *)
  | SelectExpired                     (* rc == 0 *)
  | SelectReady.                      (* rc > 0 *)

(** [select] on one descriptor with timeout [tmo] (NULL is [None]); [None]
    as a result: the call never returns. *)
Definition select (r : readiness) (tmo : option timeval) : option select_t :=
  match r, tmo with
  | WaitFails e, _ => Some (SelectError e)
  | ReadyAfter us, Some tv =>
      if us <=? microseconds tv then Some SelectReady else Some SelectExpired
  | ReadyAfter _, None => Some SelectReady
  | NeverReady, Some _ => Some SelectExpired
  | NeverReady, None => None
  end.

Inductive io_t (A : Type) : Type :=
  | IoError (e : s_errcode_t)         (* n < 0 *)
  | IoMoves (a : A).                  (* n >= 0 *)
Arguments IoError {A} e.
Arguments IoMoves {A} a.

(** [recv (fd, p, len, 0)]: at most [len] of the bytes that are there. *)
Definition recv (r : io_t (list byte)) (len : Z) : io_t (list byte) :=
  match r with
  | IoError e => IoError e
  | IoMoves bs => IoMoves (firstn (Z.to_nat len) bs)
  end.

(** [send (fd, p, len, 0)]: at most [len] bytes, as many as there is room
    for. *)
Definition send (r : io_t nat) (len : Z) : io_t Z :=
  match r with
  | IoError e => IoError e
  | IoMoves room => IoMoves (Z.min (Z.of_nat room) len)
  end.

Record turn (A : Type) : Type := mk_turn {
  ready : readiness;
  moves : io_t A
}.
Arguments mk_turn {A} ready moves.
Arguments ready {A} t.
Arguments moves {A} t.

(** Once the script is exhausted nothing happens on the peer's side any
    more. *)
Definition quiet {A : Type} (a : A) : turn A := mk_turn NeverReady (IoMoves a).

(** What one pass through a transfer loop does to the loop. *)
Inductive pass (A : Type) : Type :=
  | Retry                              (* continue *)
  | Moved (a : A)                      (* nbytes += n *)
  | Leave                              (* break *)
  | Fail (status : dc_status_t)        (* goto out *)
  | Blocked.                           (* select never returns *)
Arguments Retry {A}.
Arguments Moved {A} a.
Arguments Leave {A}.
Arguments Fail {A} status.
Arguments Blocked {A}.

(** What a transfer leaves behind: the status, the value stored through
    [actual] (if the pointer is not NULL), the bytes moved, and the timeout
    argument of every [select] call, in order. *)
Record run : Type := mk_run {
  result : outcome;
  actual_out : option Z;
  moved : list byte;
  waits : list (option timeval)
}.

(** *** dc_socket_read *)

(** The timeout argument that the read loop hands to [select]. *)
Definition read_wait (socket : dc_socket_t) : option timeval :=
  if timeout socket >? 0 then
    Some (mk_timeval (timeout socket / 1000) ((timeout socket mod 1000) * 1000))
  else if timeout socket =? 0 then
    Some (mk_timeval 0 0)
  else None.

Definition read_pass (socket : dc_socket_t) (size nbytes : Z)
    (t : turn (list byte)) : pass (list byte) :=
  match select (ready t) (read_wait socket) with
  | None => Blocked
  | Some (SelectError S_EINTR) => Retry
  | Some (SelectError errcode) => Fail (dc_socket_syserror errcode)
  | Some SelectExpired => Leave          (* Timeout. *)
  | Some SelectReady =>
      match recv (moves t) (size - nbytes) with
      | IoError S_EINTR | IoError S_EAGAIN => Retry
      | IoError errcode => Fail (dc_socket_syserror errcode)
      | IoMoves [] => Leave              (* EOF reached. *)
      | IoMoves bs => Moved bs
      end
  end.

(** The end of a transfer: the code after the loop and the label [out]. *)
Definition finish (want_actual : bool) (size nbytes : Z) (data : list byte)
    (ws : list (option timeval)) (jumped : option dc_status_t) : run :=
  let status :=
    match jumped with
    | Some status => status
    | None =>
        if negb (nbytes =? size) then DC_STATUS_TIMEOUT else DC_STATUS_SUCCESS
    end in
  mk_run (Returns status) (if want_actual then Some nbytes else None) data ws.

Fixpoint read_loop (socket : dc_socket_t) (want_actual : bool) (size : Z)
    (script : list (turn (list byte))) (nbytes : Z) (data : list byte)
    (ws : list (option timeval)) : run :=
  if nbytes <? size then
    let ws' := ws ++ [read_wait socket] in
    match script with
    | [] =>
        match read_pass socket size nbytes (quiet []) with
        | Leave => finish want_actual size nbytes data ws' None
        | Fail status => finish want_actual size nbytes data ws' (Some status)
        | _ => mk_run Hangs None data ws'
        end
    | t :: script' =>
        match read_pass socket size nbytes t with
        | Retry => read_loop socket want_actual size script' nbytes data ws'
        | Moved bs =>
            read_loop socket want_actual size script'
              (nbytes + size_of bs) (data ++ bs) ws'
        | Leave => finish want_actual size nbytes data ws' None
        | Fail status => finish want_actual size nbytes data ws' (Some status)
        | Blocked => mk_run Hangs None data ws'
        end
    end
  else finish want_actual size nbytes data ws None.

Definition dc_socket_read (socket : dc_socket_t) (size : Z)
    (want_actual : bool) (script : list (turn (list byte))) : run :=
  read_loop socket want_actual size script 0 [] [].

(** *** dc_socket_write *)

Definition write_wait (socket : dc_socket_t) : option timeval := None.

Definition write_pass (socket : dc_socket_t) (size nbytes : Z)
    (t : turn nat) : pass Z :=
  match select (ready t) (write_wait socket) with
  | None => Blocked
  | Some (SelectError S_EINTR) => Retry
  | Some (SelectError errcode) => Fail (dc_socket_syserror errcode)
  | Some SelectExpired => Leave          (* Timeout. *)
  | Some SelectReady =>
      match send (moves t) (size - nbytes) with
      | IoError S_EINTR | IoError S_EAGAIN => Retry
      | IoError errcode => Fail (dc_socket_syserror errcode)
      | IoMoves n => if n =? 0 then Leave (* EOF. *) else Moved n
      end
  end.

Fixpoint write_loop (socket : dc_socket_t) (want_actual : bool)
    (data : list byte) (script : list (turn nat)) (nbytes : Z)
    (ws : list (option timeval)) : run :=
  let size := size_of data in
  let sent := firstn (Z.to_nat nbytes) data in
  if nbytes <? size then
    let ws' := ws ++ [write_wait socket] in
    match script with
    | [] =>
        match write_pass socket size nbytes (quiet O) with
        | Leave => finish want_actual size nbytes sent ws' None
        | Fail status => finish want_actual size nbytes sent ws' (Some status)
        | _ => mk_run Hangs None sent ws'
        end
    | t :: script' =>
        match write_pass socket size nbytes t with
        | Retry => write_loop socket want_actual data script' nbytes ws'
        | Moved n => write_loop socket want_actual data script' (nbytes + n) ws'
        | Leave => finish want_actual size nbytes sent ws' None
        | Fail status => finish want_actual size nbytes sent ws' (Some status)
        | Blocked => mk_run Hangs None sent ws'
        end
    end
  else finish want_actual size nbytes sent ws None.

Definition dc_socket_write (socket : dc_socket_t) (data : list byte)
    (want_actual : bool) (script : list (turn nat)) : run :=
  write_loop socket want_actual data script 0 [].

(** *** What a script does to a read

    The vocabulary of the statements about [dc_socket_read]. *)

(** The socket becomes readable before the wait of this read expires. *)
Definition readable_in_time (socket : dc_socket_t) (t : turn (list byte))
  : bool :=
  match select (ready t) (read_wait socket) with
  | Some SelectReady => true
  | _ => false
  end.

(** An interrupted wait, or an interrupted or would-block [recv] after a
    wait that succeeded. *)
Definition read_retried (socket : dc_socket_t) (t : turn (list byte)) : bool :=
  match ready t with
  | WaitFails S_EINTR => true
  | _ =>
      readable_in_time socket t
      && match moves t with
         | IoError S_EINTR | IoError S_EAGAIN => true
         | _ => false
         end
  end.

(** The bytes that this turn delivers, if it delivers any. *)
Definition read_delivers (socket : dc_socket_t) (t : turn (list byte))
  : option (list byte) :=
  if readable_in_time socket t then
    match moves t with
    | IoMoves (b :: bs) => Some (b :: bs)
    | _ => None
    end
  else None.

(** The wait expires, or the peer has closed ([recv] returns 0). *)
Definition read_stops (socket : dc_socket_t) (t : turn (list byte)) : bool :=
  match select (ready t) (read_wait socket) with
  | Some SelectExpired => true
  | Some SelectReady =>
      match moves t with
      | IoMoves [] => true
      | _ => false
      end
  | _ => false
  end.

(** The bytes delivered by a run of turns each of which is retried or
    delivers something; [None] if some turn does neither. *)
Fixpoint delivered (socket : dc_socket_t) (pre : list (turn (list byte)))
  : option (list byte) :=
  match pre with
  | [] => Some []
  | t :: pre' =>
      if read_retried socket t then delivered socket pre'
      else
        match read_delivers socket t, delivered socket pre' with
        | Some bs, Some rest => Some (bs ++ rest)
        | _, _ => None
        end
  end.

End Socket.

(** ** Reading a memory image

    The fields of a logbook slot and the checks of the second loop, as
    functions of the image: the vocabulary of the statements in Part II. *)

Module Image.

Import CressiLeonardo.

Definition slot_offset (idx : Z) : Z :=
  RB_LOGBOOK_BEGIN + idx * RB_LOGBOOK_SIZE.

(** The slot visited by iteration [i] of the second loop. *)
Definition visited (latest i : Z) : Z :=
  (latest + RB_LOGBOOK_COUNT - i) mod RB_LOGBOOK_COUNT.

Definition slot_counter (data : list byte) (idx : Z) : option Z :=
  array_uint16_le (ptr data (slot_offset idx)).

Definition slot_header (data : list byte) (idx : Z) : option Z :=
  array_uint16_le (ptr data (slot_offset idx + 2)).

Definition slot_footer (data : list byte) (idx : Z) : option Z :=
  array_uint16_le (ptr data (slot_offset idx + 4)).

Definition slot_ident (data : list byte) (idx : Z) : list byte :=
  firstn (Z.to_nat SZ_FINGERPRINT) (ptr data (slot_offset idx + 8)).

Definition slot_bytes (data : list byte) (idx : Z) : list byte :=
  firstn (Z.to_nat RB_LOGBOOK_SIZE) (ptr data (slot_offset idx)).

(** A slot that was never written. *)
Definition slot_blank (data : list byte) (idx : Z) : bool :=
  forallb (Byte.eqb xff) (slot_bytes data idx).

Definition in_profile (p : Z) : bool :=
  (RB_PROFILE_BEGIN <=? p) && (p + 2 <=? RB_PROFILE_END).

(** The pointers of slot [idx] lie in the profile area and the dive ends
    where the dive visited before it ([newer], 0 if there is none) starts. *)
Definition pointers_ok (data : list byte) (idx newer : Z) : bool :=
  match slot_header data idx, slot_footer data idx with
  | Some h, Some f =>
      in_profile h && in_profile f && ((newer =? 0) || (newer =? f + 2))
  | _, _ => false
  end.

(** The profile of slot [idx] holds at least its two pointers and repeats
    them. *)
Definition profile_ok (data : list byte) (idx : Z) : bool :=
  match slot_header data idx, slot_footer data idx with
  | Some h, Some f =>
      (2 <=? RB_PROFILE_DISTANCE h f)
      && match array_uint16_le (ptr data f), array_uint16_le (ptr data h) with
         | Some h2, Some f2 => (h2 =? h) && (f2 =? f)
         | _, _ => false
         end
  | _, _ => false
  end.

Definition header_or_0 (data : list byte) (idx : Z) : Z :=
  match slot_header data idx with
  | Some h => h
  | None => 0
  end.

(** The [n] slots visited from iteration [i] on pass every check of the
    structure; [newer] is the header of the dive visited before them. *)
Fixpoint structure_ok (data : list byte) (latest i : Z) (n : nat) (newer : Z)
  : bool :=
  match n with
  | O => true
  | S n' =>
      let idx := visited latest i in
      pointers_ok data idx newer && profile_ok data idx
      && structure_ok data latest (i + 1) n' (header_or_0 data idx)
  end.


(** The value of [previous] after [n] iterations from iteration [i] on that
    all continue: the header of the last dive visited. *)
Fixpoint recorded (data : list byte) (latest i : Z) (n : nat) (newer : Z)
  : Z :=
  match n with
  | O => newer
  | S n' => recorded data latest (i + 1) n' (header_or_0 data (visited latest i))
  end.

(** The indices visited by iterations [i], [i+1], ..., [i+n-1]. *)
Fixpoint walked (latest i : Z) (n : nat) : list Z :=
  match n with
  | O => []
  | S n' => visited latest i :: walked latest (i + 1) n'
  end.

(** A structurally valid image: it is complete and every discovered slot,
    in the order of the walk, passes the checks. *)
Definition structurally_valid (data : list byte) : bool :=
  (SZ_MEMORY <=? size_of data)
  && match scan_logbook data with
     | Some (count, latest, _) => structure_ok data latest 0 (Z.to_nat count) 0
     | None => false
     end.

(** No slot of the list carries the fingerprint of the device. *)
Definition unmatched (device : option cressi_leonardo_device_t)
    (data : list byte) (idxs : list Z) : Prop :=
  forall idx, In idx idxs ->
    fingerprint_matches device (ptr data (slot_offset idx + 8)) = Some false.

(** A consumer that never asks to stop. *)
Definition always_goes {U : Type} (cb : dc_dive_callback_t U) : Prop :=
  forall (p : list byte) (n : Z) (q : list byte) (m : Z) (u : U),
    fst (cb p n q m u) = true.

(** The scratch buffer has its size and the remaining capacity is within
    the ring. *)
Definition sound {U : Type} (w : walk U) : Prop :=
  size_of (buffer U w) = SZ_SCRATCH
  /\ 0 <= remaining U w <= RB_PROFILE_END - RB_PROFILE_BEGIN.

(** The header of what the consumer was handed: its first slot-sized bytes. *)
Definition dive_slot (d : dive) : list byte :=
  firstn (Z.to_nat RB_LOGBOOK_SIZE) (dive_data d).

(** The internal dive number at the start of what the consumer was handed. *)
Definition dive_counter (d : dive) : option Z :=
  array_uint16_le (dive_data d).

End Image.

(** ** Concrete inputs *)

Module Fixtures.

Import CressiLeonardo Image.

(** An instance of the two helpers that the protocol code takes from
    checksum.h and array.h: CRC-16/CCITT (polynomial 0x1021, initial value
    0xFFFF) and ASCII hexadecimal digits. *)
Definition crc_bit (crc : Z) : Z :=
  if Z.testbit crc 15
  then Z.lxor (Z.land (Z.shiftl crc 1) 0xFFFF) 0x1021
  else Z.land (Z.shiftl crc 1) 0xFFFF.

Definition crc_byte (crc : Z) (b : byte) : Z :=
  Nat.iter 8 crc_bit (Z.lxor crc (Z.shiftl (b2z b) 8)).

Definition crc_ccitt (bs : list byte) : Z := fold_left crc_byte bs 0xFFFF.

Definition hex_digit (b : byte) : Z :=
  let v := b2z b in
  if (0x30 <=? v) && (v <=? 0x39) then v - 0x30
  else if (0x41 <=? v) && (v <=? 0x46) then v - 0x41 + 10
  else if (0x61 <=? v) && (v <=? 0x66) then v - 0x61 + 10
  else 0.

Fixpoint hex2bin (bs : list byte) : list byte :=
  match bs with
  | hi :: lo :: bs' => z2b (16 * hex_digit hi + hex_digit lo) :: hex2bin bs'
  | _ => []
  end.

(** The frame [{00 2EC9}] (its checksum is right) and the frame [{00 0000}]
    (its checksum is wrong). *)
Definition good_frame : list byte := [x7b; x30; x30; x32; x45; x43; x39; x7d].
Definition bad_frame : list byte := [x7b; x30; x30; x30; x30; x30; x30; x7d].

Definition arrives (frame : list byte) : exchange :=
  mk_exchange false DC_STATUS_SUCCESS DC_STATUS_SUCCESS frame.

(** Three corrupted answers, then a good one. *)
Definition noisy_line : dc_serial_t :=
  [arrives bad_frame; arrives bad_frame; arrives bad_frame; arrives good_frame].

(** A line that fails the first write. *)
Definition broken_line : dc_serial_t :=
  [mk_exchange false DC_STATUS_IO DC_STATUS_SUCCESS []; arrives good_frame].

Definition command : list byte := [x7b; x7d].
Definition zeroed (n : nat) : list byte := repeat x00 n.

(** Building a memory image. *)
Definition poke (off : Z) (bs data : list byte) : list byte :=
  firstn (Z.to_nat off) data ++ bs
  ++ skipn (Z.to_nat off + length bs) data.

Definition le16 (x : Z) : list byte := [z2b x; z2b (Z.shiftr x 8)].

Definition blank : list byte := repeat xff (Z.to_nat SZ_MEMORY).

Definition slot (counter h f : Z) (ident : list byte) : list byte :=
  le16 counter ++ le16 h ++ le16 f ++ [x00; x00] ++ ident
  ++ repeat x11 (Z.to_nat RB_LOGBOOK_SIZE - 8 - length ident).

(** Write one dive: its logbook slot and, in the profile area, the two
    pointers that frame its samples. *)
Definition put_dive (idx counter h f : Z) (ident : list byte)
    (data : list byte) : list byte :=
  poke f (le16 h)
    (poke h (le16 f) (poke (slot_offset idx) (slot counter h f ident) data)).

Definition ident_a : list byte := [x0d; x01; x02; x0a; x1e].
Definition ident_b : list byte := [x0d; x01; x03; x0b; x05].
Definition ident_c : list byte := [x0d; x01; x04; x09; x2d].
Definition ident_0 : list byte := [x00; x00; x00; x00; x00].

(** Three profiles, one after the other in the ring: A is the oldest. *)
Definition hA : Z := 5176.
Definition fA : Z := 5186.
Definition hB : Z := 5188.
Definition fB : Z := 5198.
Definition hC : Z := 5200.
Definition fC : Z := 5210.

(** Slots 0, 1, 2 with dive numbers 5, 6, 7. *)
Definition image_567 : list byte :=
  put_dive 2 7 hC fC ident_c
    (put_dive 1 6 hB fB ident_b (put_dive 0 5 hA fA ident_a blank)).

(** Slots 0, 1, 2 with dive numbers 5, 7, 6; the profiles follow the dive
    numbers. *)
Definition image_576 : list byte :=
  put_dive 1 7 hC fC ident_c
    (put_dive 2 6 hB fB ident_b (put_dive 0 5 hA fA ident_a blank)).

(** Slots 0, 1, 2 with dive numbers 5, 7, 6; the profiles follow the
    physical order of the slots below the most recent one. *)
Definition image_576_physical : list byte :=
  put_dive 2 6 hC fC ident_c
    (put_dive 1 7 hB fB ident_b (put_dive 0 5 hA fA ident_a blank)).

(** One dive whose identifier is five zero bytes. *)
Definition image_zero_ident : list byte :=
  put_dive 0 5 hA fA ident_0 blank.

(** Two dives that together claim more than the ring holds: the profile of
    the newer one (slot 1) has overwritten most of the older one (slot 0). *)
Definition hNew : Z := 20000.
Definition fNew : Z := 19990.
Definition hOld : Z := 19000.
Definition fOld : Z := 19998.
Definition image_overwritten : list byte :=
  put_dive 1 6 hNew fNew ident_b (put_dive 0 5 hOld fOld ident_a blank).

Definition scratch0 : list byte := repeat x00 (Z.to_nat SZ_SCRATCH).

Definition empty_fingerprint : cressi_leonardo_device_t :=
  mk_leonardo (memset x00 SZ_FINGERPRINT).

(** A consumer that counts the dives and always goes on, and one that stops
    at once. *)
Definition counting : dc_dive_callback_t nat :=
  fun _ _ _ _ n => (true, S n).

(** Uwatec: a marker at offset 1 that announces 0xFFFFFFFF bytes. *)
Definition smart_overflow : list byte :=
  [x00; xa5; xa5; x5a; x5a; xff; xff; xff; xff; x00; x00; x00; x00].

(** Uwatec: two dives of 12 bytes each. *)
Definition smart_two : list byte :=
  [xa5; xa5; x5a; x5a; x0c; x00; x00; x00; x01; x00; x00; x00;
   xa5; xa5; x5a; x5a; x0c; x00; x00; x00; x02; x00; x00; x00].

End Fixtures.

(** ** More vocabulary for the memory image *)

Module ImageMore.

Import CressiLeonardo Image.

(** The profile of slot [idx] is at least as long as its two pointers, or
    its pointers are rejected anyway: the footer is neither the header nor
    the byte after it. *)
Definition spans (data : list byte) (idx : Z) : bool :=
  match slot_header data idx, slot_footer data idx with
  | Some h, Some f =>
      negb (in_profile h && in_profile f) || (2 <=? RB_PROFILE_DISTANCE h f)
  | _, _ => true
  end.

(** The position in the image of the byte that lies [k] bytes after
    [address] in the profile ring. *)
Definition ring_position (address k : Z) : Z :=
  if address + k <? RB_PROFILE_END
  then address + k
  else address + k - (RB_PROFILE_END - RB_PROFILE_BEGIN).

(** The [n] bytes of the profile ring from [address] on, read one by one. *)
Definition ring_read (data : list byte) (address : Z) (n : nat) : list byte :=
  map (fun k => nth (Z.to_nat (ring_position address (Z.of_nat k))) data x00)
      (seq 0 n).

(** An image with one dive whose header and footer pointers coincide. *)
Definition image_degenerate : list byte :=
  Fixtures.put_dive 0 5 6000 6000 Fixtures.ident_a Fixtures.blank.

(** An image with one dive whose profile crosses the end of the ring. *)
Definition image_wrapped : list byte :=
  Fixtures.put_dive 0 5 31990 5180 Fixtures.ident_a
    (Fixtures.poke 31992 (repeat x22 8)
       (Fixtures.poke 5176 (repeat x33 4) Fixtures.blank)).

End ImageMore.

(** ** More vocabulary for the Uwatec data stream *)

Module SmartMore.

Import UwatecSmart.

(** The four bytes at offset [c] are the start marker of a dive. *)
Definition marker_at (data : list byte) (c : Z) : bool :=
  match memcmp_eq0 (ptr data c) header 4 with
  | Some true => true
  | _ => false
  end.

(** The length stored behind a marker at offset [c]; 0 when it cannot be
    read. *)
Definition length_at (data : list byte) (c : Z) : Z :=
  match array_uint32_le (ptr data (c + 4)) with
  | Some len => len
  | None => 0
  end.

(** The offsets [cs], highest first, are the starts of records that lie one
    behind the other below [previous]: each starts with a marker, holds at
    least its marker and its length field, and ends where the record above it
    starts or before. *)
Fixpoint records_ok (data : list byte) (previous : Z) (cs : list Z) : bool :=
  match cs with
  | [] => true
  | c :: cs' =>
      (0 <=? c) && marker_at data c && (8 <=? length_at data c)
      && (c + length_at data c <=? previous) && records_ok data c cs'
  end.

(** The offsets at which a marker leaves fewer than four bytes for its length
    field. *)
Definition late_offsets (data : list byte) : list Z :=
  [size_of data - 5; size_of data - 6; size_of data - 7].

Definition late_marker (data : list byte) : bool :=
  existsb (fun c => (0 <=? c) && marker_at data c) (late_offsets data).

(** A stream of 11 bytes whose last record starts 7 bytes before the end. *)
Definition smart_late : list byte :=
  [x00; x00; x00; x00; xa5; xa5; x5a; x5a; x0c; x00; x00].

End SmartMore.

(** ** More vocabulary for the Cressi protocol *)

Module ProtocolMore.

Import CressiLeonardo.

Section WithHelpers.

Variable checksum_crc_ccitt_uint16 : list byte -> Z.
Variable array_convert_hex2bin : list byte -> list byte.

(** The call number [k] (from 0) of [cressi_leonardo_packet] in a row of
    calls with the same command, each on the buffer and the line that the
    call before it left. *)
Fixpoint attempt (k : nat) (port : dc_serial_t) (command answer : list byte)
    (asize : Z) : outcome * list byte * dc_serial_t :=
  match k with
  | O =>
      cressi_leonardo_packet checksum_crc_ccitt_uint16 array_convert_hex2bin
        port command answer asize
  | S k' =>
      let '(_, answer', port') :=
        cressi_leonardo_packet checksum_crc_ccitt_uint16 array_convert_hex2bin
          port command answer asize in
      attempt k' port' command answer' asize
  end.

(** *** cressi_leonardo_make_ascii *)

(** Modelled from the spec: [array_convert_bin2hex] writes two hexadecimal
    digits for every byte of its input (array.h is not part of the
    sources). *)
Variable array_convert_bin2hex : list byte -> list byte.

(** The two bytes of a checksum, high byte first. *)
Definition checksum_bytes (crc : Z) : list byte :=
  [z2b (Z.land (Z.shiftr crc 8) 0xFF); z2b (Z.land crc 0xFF)].

(** The frame is built in the buffer [ascii] of the caller.  [None] stands
    for the failed assertion on the size of the buffer and for a conversion
    that does not fill its output. *)
Definition cressi_leonardo_make_ascii (raw ascii : list byte)
  : option (list byte) :=
  let rsize := size_of raw in
  let asize := size_of ascii in
  if negb (asize =? 2 * (rsize + 3)) then None
  else
    (* Header *)
    match memcpy ascii 0 [x7b] 1 with
    | None => None
    | Some a1 =>
        (* Data *)
        match memcpy a1 1 (array_convert_bin2hex raw) (2 * rsize) with
        | None => None
        | Some a2 =>
            (* Checksum *)
            match bytes_at (ptr a2 1) (2 * rsize) with
            | None => None
            | Some digits =>
                let crc := checksum_crc_ccitt_uint16 digits mod 2 ^ 16 in
                match memcpy a2 (1 + 2 * rsize)
                        (array_convert_bin2hex (checksum_bytes crc)) 4 with
                | None => None
                | Some a3 =>
                    (* Trailer *)
                    memcpy a3 (asize - 1) [x7d] 1
                end
            end
        end
    end.

(** *** cressi_leonardo_device_read *)

(** What a call of [cressi_leonardo_device_read] leaves behind: its status,
    the buffer of the caller, the line, and the commands it handed to
    [cressi_leonardo_transfer], in their order. *)
Record reading : Type := mk_reading {
  read_result : outcome;
  read_data : list byte;
  read_port : dc_serial_t;
  read_requests : list (list byte)
}.

(** The raw command for [len] bytes at [address]. *)
Definition raw_command (address len : Z) : list byte :=
  [z2b (Z.land (Z.shiftr address 8) 0xFF);  (* High *)
   z2b (Z.land address 0xFF);               (* Low *)
   z2b (Z.land (Z.shiftr len 8) 0xFF);      (* High *)
   z2b (Z.land len 0xFF)].                  (* Low *)

(** The loop of [cressi_leonardo_device_read]; [fuel] bounds the iterations
    of the model, [None] is an exhausted bound.  The conversion of the
    answer writes the bytes it produces, at most [len], into the buffer of
    the caller. *)
Fixpoint read_loop (fuel : nat) (port : dc_serial_t) (address : Z)
    (data : list byte) (size nbytes : Z) (requests : list (list byte))
  : option reading :=
  match fuel with
  | O => None
  | S fuel' =>
      if nbytes <? size then
        (* Calculate the packet size. *)
        let len := u32 (size - nbytes) in
        let len := if len >? PACKETSIZE then PACKETSIZE else len in
        (* Build the raw command. *)
        let raw := raw_command address len in
        (* Build the ascii command. *)
        match cressi_leonardo_make_ascii raw (memset x00 (2 * (4 + 3))) with
        | None => Some (mk_reading Fault data port requests)
        | Some command =>
            (* Send the command and receive the answer. *)
            let answer := memset x00 (2 * (PACKETSIZE + 3)) in
            match cressi_leonardo_transfer checksum_crc_ccitt_uint16
                    array_convert_hex2bin port command answer (2 * (len + 3))
            with
            | None => None
            | Some (Returns DC_STATUS_SUCCESS, answer', port') =>
                (* Extract the raw data from the packet. *)
                match bytes_at (ptr answer' 1) (2 * len) with
                | None =>
                    Some (mk_reading Fault data port' (requests ++ [command]))
                | Some digits =>
                    let out :=
                      firstn (Z.to_nat len) (array_convert_hex2bin digits) in
                    match memcpy data nbytes out (size_of out) with
                    | None =>
                        Some (mk_reading Fault data port'
                                (requests ++ [command]))
                    | Some data' =>
                        read_loop fuel' port' (u32 (address + len)) data' size
                          (u32 (nbytes + len)) (requests ++ [command])
                    end
                end
            | Some (o, _, port') =>
                Some (mk_reading o data port' (requests ++ [command]))
            end
        end
      else Some (mk_reading (Returns DC_STATUS_SUCCESS) data port requests)
  end.

Definition cressi_leonardo_device_read (port : dc_serial_t) (address : Z)
    (data : list byte) (size : Z) : option reading :=
  read_loop (S (Z.to_nat size)) port address data size 0 [].

(** The frame that carries [payload], built like a command; the empty list
    when it cannot be built. *)
Definition frame_of (payload : list byte) : list byte :=
  match cressi_leonardo_make_ascii payload
          (memset x00 (2 * (size_of payload + 3))) with
  | Some frame => frame
  | None => []
  end.

(** A line on which the instrument answers with the frames that carry
    [payload], [PACKETSIZE] bytes at a time, followed by [rest]. *)
Fixpoint answers (n : nat) (payload : list byte) (rest : dc_serial_t)
  : dc_serial_t :=
  match n with
  | O => rest
  | S n' =>
      match payload with
      | [] => rest
      | _ =>
          mk_exchange false DC_STATUS_SUCCESS DC_STATUS_SUCCESS
            (frame_of (firstn (Z.to_nat PACKETSIZE) payload))
          :: answers n' (skipn (Z.to_nat PACKETSIZE) payload) rest
      end
  end.

(** The request number [i] (from 0) of a read of [size] bytes at
    [address]. *)
Definition request (address size : Z) (i : nat) : list byte :=
  frame_of (raw_command (u32 (address + PACKETSIZE * Z.of_nat i))
              (Z.min PACKETSIZE (size - PACKETSIZE * Z.of_nat i))).

End WithHelpers.

(** The number of requests that a read of [size] bytes takes. *)
Definition request_count (size : Z) : Z :=
  (size + PACKETSIZE - 1) / PACKETSIZE.

(** The outcome is a status that is worth a retry. *)
Definition failed_retriably (o : outcome) : bool :=
  match o with
  | Returns rc => retriable rc
  | _ => false
  end.

End ProtocolMore.

(** ** More concrete inputs *)

Module FixturesMore.

Import CressiLeonardo Image ProtocolMore.

(** An instance of [array_convert_bin2hex]: two upper-case hexadecimal
    digits for every byte. *)
Definition hex_char (v : Z) : byte :=
  if v <? 10 then z2b (0x30 + v) else z2b (0x41 + v - 10).

Definition bin2hex (bs : list byte) : list byte :=
  flat_map (fun b => [hex_char (Z.shiftr (b2z b) 4);
                      hex_char (Z.land (b2z b) 0x0F)]) bs.

(** Two corrupted answers, then a read that fails, then a good answer. *)
Definition failing_line : dc_serial_t :=
  [Fixtures.arrives Fixtures.bad_frame; Fixtures.arrives Fixtures.bad_frame;
   mk_exchange false DC_STATUS_SUCCESS DC_STATUS_IO [];
   Fixtures.arrives Fixtures.good_frame].

(** Forty bytes to read: two packets. *)
Definition forty : list byte :=
  map (fun k => z2b (Z.of_nat k * 7 + 3)) (seq 0 40).

End FixturesMore.

(** ** The line to the instrument, and the downloads over it *)

Module Line.

(** Modelled from the spec: the serial port of serial.h and the I/O stream of
    iostream.h, which are not part of the sources.  The instrument sends the
    bytes [arriving] in their order; a read of [n] bytes delivers the next
    [n] of them, or reports [Timeout] with what is left when fewer remain.
    The status of every write and of every read and the answer to every
    question for the bytes available are taken from scripts, so that every
    behaviour of the line can be described; an exhausted script answers
    [Success] (and no byte available).  The writes that succeeded are kept in
    [sent]. *)
Record line : Type := mk_line {
  arriving : list byte;
  write_script : list dc_status_t;
  read_script : list dc_status_t;
  reports : list (dc_status_t * Z);
  sent : list (list byte)
}.

Definition next {A : Type} (default : A) (script : list A) : A * list A :=
  match script with
  | x :: script' => (x, script')
  | [] => (default, [])
  end.

Definition line_write (l : line) (data : list byte) : dc_status_t * line :=
  let '(rc, script') := next DC_STATUS_SUCCESS (write_script l) in
  match rc with
  | DC_STATUS_SUCCESS =>
      (rc, mk_line (arriving l) script' (read_script l) (reports l)
             (sent l ++ [data]))
  | _ =>
      (rc, mk_line (arriving l) script' (read_script l) (reports l) (sent l))
  end.

(** The status, the bytes delivered and the line afterwards. *)
Definition line_read (l : line) (size : Z)
  : dc_status_t * list byte * line :=
  let '(rc, script') := next DC_STATUS_SUCCESS (read_script l) in
  match rc with
  | DC_STATUS_SUCCESS =>
      if size <=? size_of (arriving l)
      then (DC_STATUS_SUCCESS, firstn (Z.to_nat size) (arriving l),
            mk_line (skipn (Z.to_nat size) (arriving l)) (write_script l)
              script' (reports l) (sent l))
      else (DC_STATUS_TIMEOUT, arriving l,
            mk_line [] (write_script l) script' (reports l) (sent l))
  | _ =>
      (rc, [],
       mk_line (arriving l) (write_script l) script' (reports l) (sent l))
  end.

Definition line_get_available (l : line) : dc_status_t * Z * line :=
  let '((rc, value), script') := next (DC_STATUS_SUCCESS, 0) (reports l) in
  (rc, value,
   mk_line (arriving l) (write_script l) (read_script l) script' (sent l)).

(** The bytes read, written over the start of the buffer [buf]. *)
Definition fill (buf bytes : list byte) : list byte :=
  bytes ++ skipn (length bytes) buf.

(** The events that a download emits. *)
Inductive event : Type :=
  | Progress (current maximum : Z)
  | Clock (systime devtime : Z)
  | Devinfo (model firmware serial : Z).

(** What a download leaves behind: its status, the contents of the buffer,
    the line, the progress counter and the events emitted. *)
Record download : Type := mk_download {
  dl_result : outcome;
  dl_data : list byte;
  dl_line : line;
  dl_current : Z;
  dl_events : list event
}.

(** The loop with which cressi_leonardo_device_dump (with a minimum packet
    size of 1024 and a total of [SZ_MEMORY]) and uwatec_smart_device_dump
    (with 32 and the announced length) receive the data; [fuel] bounds the
    iterations of the model, [None] is an exhausted bound. *)
Fixpoint receive_loop (fuel : nat) (minimum total : Z) (l : line)
    (data : list byte) (nbytes current maximum : Z) (events : list event)
  : option download :=
  match fuel with
  | O => None
  | S fuel' =>
      if nbytes <? total then
        (* Set the minimum packet size. *)
        let len := minimum in
        (* Increase the packet size if more data is immediately available. *)
        let '(status, available, l1) := line_get_available l in
        let len :=
          if status_eqb status DC_STATUS_SUCCESS && (available >? len)
          then u32 available else len in
        (* Limit the packet size to the total size. *)
        let len := if u32 (nbytes + len) >? total then total - nbytes else len in
        (* Read the packet. *)
        let '(status, bytes, l2) := line_read l1 len in
        match memcpy data nbytes bytes (size_of bytes) with
        | None => Some (mk_download Fault data l2 current events)
        | Some data' =>
            match status with
            | DC_STATUS_SUCCESS =>
                (* Update and emit a progress event. *)
                let current := u32 (current + len) in
                receive_loop fuel' minimum total l2 data' (u32 (nbytes + len))
                  current maximum (events ++ [Progress current maximum])
            | _ => Some (mk_download (Returns status) data' l2 current events)
            end
        end
      else
        Some (mk_download (Returns DC_STATUS_SUCCESS) data l current events)
  end.

(** The reports of the bytes available are such that a packet size taken
    from them cannot wrap around: each is below 2^32 - [total]. *)
Definition sane_reports (total : Z) (l : line) : bool :=
  forallb (fun r => (0 <=? snd r) && (snd r <? 2 ^ 32 - total)) (reports l).

(** A bound on the iterations of the loop: every pass either uses up a
    report of the line or receives at least one byte. *)
Definition receive_fuel (total : Z) (l : line) : nat :=
  S (length (reports l) + Z.to_nat total).

End Line.

Module CressiDump.

Import CressiLeonardo Line.

Section WithHelpers.

Variable checksum_crc_ccitt_uint16 : list byte -> Z.
Variable array_convert_hex2bin : list byte -> list byte.

(** Modelled from the spec: the initial progress counter of
    [EVENT_PROGRESS_INITIALIZER] (device-private.h is not part of the
    sources). *)
Variable progress_initial : Z.

Definition dump_command : list byte :=
  [x7b; x31; x32; x33; x44; x42; x41; x7d].

Definition dump_expected : list byte :=
  [x7b; x21; x44; x35; x42; x33; x7d].

(** [buffer] is the buffer of the caller ([None] for no buffer) and
    [resize_ok] tells whether its memory can be allocated. *)
Definition cressi_leonardo_device_dump (buffer : option (list byte))
    (resize_ok : bool) (l : line) : option download :=
  (* Erase the current contents of the buffer and pre-allocate the required
     amount of memory. *)
  match buffer with
  | None =>
      Some (mk_download (Returns DC_STATUS_NOMEMORY) [] l progress_initial [])
  | Some _ =>
      if negb resize_ok
      then Some (mk_download (Returns DC_STATUS_NOMEMORY) [] l
                   progress_initial [])
      else
        let data := memset x00 SZ_MEMORY in
        (* Enable progress notifications. *)
        let current := progress_initial in
        let maximum := SZ_MEMORY in
        let events := [Progress current maximum] in
        (* Send the command header to the dive computer. *)
        let '(status, l1) := line_write l dump_command in
        match status with
        | DC_STATUS_SUCCESS =>
            (* Receive the header packet. *)
            let '(status, bytes, l2) := line_read l1 7 in
            let header := fill (memset x00 7) bytes in
            match status with
            | DC_STATUS_SUCCESS =>
                (* Verify the header packet. *)
                match memcmp_eq0 header dump_expected 7 with
                | None => Some (mk_download Fault data l2 current events)
                | Some false =>
                    Some (mk_download (Returns DC_STATUS_PROTOCOL) data l2
                            current events)
                | Some true =>
                    match receive_loop (receive_fuel SZ_MEMORY l2) 1024
                            SZ_MEMORY l2 data 0 current maximum events with
                    | None => None
                    | Some d =>
                        match dl_result d with
                        | Returns DC_STATUS_SUCCESS =>
                            (* Receive the trailer packet. *)
                            let '(status, bytes, l3) :=
                              line_read (dl_line d) 4 in
                            let trailer := fill (memset x00 4) bytes in
                            match status with
                            | DC_STATUS_SUCCESS =>
                                (* Convert to a binary checksum. *)
                                let checksum :=
                                  firstn 2 (array_convert_hex2bin trailer
                                            ++ [x00; x00]) in
                                (* Verify the checksum. *)
                                match array_uint16_be checksum,
                                      bytes_at (dl_data d) SZ_MEMORY with
                                | Some csum1, Some image =>
                                    let csum2 :=
                                      checksum_crc_ccitt_uint16 image in
                                    if negb (csum1 =? csum2)
                                    then Some (mk_download
                                                 (Returns DC_STATUS_PROTOCOL)
                                                 (dl_data d) l3 (dl_current d)
                                                 (dl_events d))
                                    else Some (mk_download
                                                 (Returns DC_STATUS_SUCCESS)
                                                 (dl_data d) l3 (dl_current d)
                                                 (dl_events d))
                                | _, _ =>
                                    Some (mk_download Fault (dl_data d) l3
                                            (dl_current d) (dl_events d))
                                end
                            | _ =>
                                Some (mk_download (Returns status) (dl_data d)
                                        l3 (dl_current d) (dl_events d))
                            end
                        | _ => Some d
                        end
                    end
                end
            | _ => Some (mk_download (Returns status) data l2 current events)
            end
        | _ => Some (mk_download (Returns status) data l1 current events)
        end
  end.

(** What a call of [cressi_leonardo_device_foreach] leaves behind. *)
Record visit (U : Type) : Type := mk_visit {
  visit_result : outcome;
  visit_dives : list dive;
  visit_userdata : U;
  visit_line : line;
  visit_events : list event
}.

(** Modelled from the spec: [array_uint24_le], the little-endian 24-bit
    integer at a pointer. *)
Definition array_uint24_le (p : list byte) : option Z :=
  match p with
  | b0 :: b1 :: b2 :: _ =>
      Some (b2z b0 + Z.shiftl (b2z b1) 8 + Z.shiftl (b2z b2) 16)
  | _ => None
  end.

(** [new_ok] and [resize_ok] tell whether the buffer can be created and
    resized, [scratch] is the memory that the extractor obtains from
    malloc. *)
Definition cressi_leonardo_device_foreach (U : Type)
    (device : cressi_leonardo_device_t) (new_ok resize_ok : bool)
    (scratch : option (list byte)) (l : line)
    (callback : option (dc_dive_callback_t U)) (userdata : U)
  : option (visit U) :=
  if negb new_ok
  then Some (mk_visit U (Returns DC_STATUS_NOMEMORY) [] userdata l [])
  else
    match cressi_leonardo_device_dump (Some []) resize_ok l with
    | None => None
    | Some d =>
        match dl_result d with
        | Returns DC_STATUS_SUCCESS =>
            let data := dl_data d in
            match data, array_uint24_le (ptr data 1) with
            | model :: _, Some serial =>
                let events :=
                  dl_events d ++ [Devinfo (b2z model) 0 serial] in
                let r :=
                  cressi_leonardo_extract_dives U
                    (Some (LeonardoDevice device)) scratch data callback
                    userdata in
                Some (mk_visit U (CressiLeonardo.result U r)
                        (dives U r) (CressiLeonardo.userdata U r) (dl_line d)
                        events)
            | _, _ =>
                Some (mk_visit U Fault [] userdata (dl_line d) (dl_events d))
            end
        | rc => Some (mk_visit U rc [] userdata (dl_line d) (dl_events d))
        end
    end.

End WithHelpers.

End CressiDump.

Module SmartDump.

Import UwatecSmart Line.

(** *** uwatec_smart_transfer *)

(** The status, the answer buffer and the line after the transfer. *)
Definition uwatec_smart_transfer (l : line) (command : list byte) (csize : Z)
    (answer : list byte) (asize : Z) : outcome * list byte * line :=
  match bytes_at command csize with
  | None => (Fault, answer, l)
  | Some out =>
      let '(status, l1) := line_write l out in
      match status with
      | DC_STATUS_SUCCESS =>
          let '(status, bytes, l2) := line_read l1 asize in
          match memcpy answer 0 bytes (size_of bytes) with
          | None => (Fault, answer, l2)
          | Some answer' =>
              match status with
              | DC_STATUS_SUCCESS => (Returns DC_STATUS_SUCCESS, answer', l2)
              | _ => (Returns status, answer', l2)
              end
          end
      | _ => (Returns status, answer, l1)
      end
  end.

(** *** uwatec_smart_handshake *)

Definition uwatec_smart_handshake (l : line) : outcome * line :=
  (* Command template. *)
  let answer := [x00] in
  let command := [x00; x10; x27; x00; x00] in
  (* Handshake (stage 1). *)
  let command := x1b :: tl command in
  match uwatec_smart_transfer l command 1 answer 1 with
  | (Returns DC_STATUS_SUCCESS, answer, l1) =>
      (* Verify the answer. *)
      if negb (Byte.eqb (nth 0 answer x00) x01)
      then (Returns DC_STATUS_PROTOCOL, l1)
      else
        (* Handshake (stage 2). *)
        let command := x1c :: tl command in
        match uwatec_smart_transfer l1 command 5 answer 1 with
        | (Returns DC_STATUS_SUCCESS, answer, l2) =>
            (* Verify the answer. *)
            if negb (Byte.eqb (nth 0 answer x00) x01)
            then (Returns DC_STATUS_PROTOCOL, l2)
            else (Returns DC_STATUS_SUCCESS, l2)
        | (rc, _, l2) => (rc, l2)
        end
  | (rc, _, l1) => (rc, l1)
  end.

(** *** uwatec_smart_device_dump *)

(** What a call of [uwatec_smart_device_dump] leaves behind: the download
    and the device. *)
Record dumped : Type := mk_dumped {
  dumped_download : download;
  dumped_device : uwatec_smart_device_t
}.

(** The command template with its first byte set to [code]. *)
Definition dump_command (code : byte) (timestamp : Z) : list byte :=
  [code;
   z2b (Z.land timestamp 0xFF);
   z2b (Z.land (Z.shiftr timestamp 8) 0xFF);
   z2b (Z.land (Z.shiftr timestamp 16) 0xFF);
   z2b (Z.land (Z.shiftr timestamp 24) 0xFF);
   x10; x27; x00; x00].

(** Modelled from the spec: [dc_buffer_resize] keeps the bytes of the buffer
    up to the new size and clears the ones it adds (buffer.h is not part of
    the sources). *)
Definition dc_buffer_resize (buffer : list byte) (size : Z) : list byte :=
  firstn (Z.to_nat size) buffer
  ++ repeat x00 (Z.to_nat size - length buffer).

Section WithInitializer.

(** Modelled from the spec: the two fields of [EVENT_PROGRESS_INITIALIZER]
    (device-private.h is not part of the sources). *)
Variable progress_initial : Z.
Variable progress_maximum : Z.

(** [now] is the value of [dc_datetime_now ()], [buffer] the contents of the
    buffer of the caller and [resize_ok] tells whether its memory can be
    allocated. *)
Definition uwatec_smart_device_dump (device : uwatec_smart_device_t)
    (now : Z) (buffer : list byte) (resize_ok : bool) (l : line)
  : option dumped :=
  let stop (o : outcome) (data : list byte) (l' : line) (current : Z)
           (events : list event) (device' : uwatec_smart_device_t) :=
    Some (mk_dumped (mk_download o data l' current events) device') in
  (* Enable progress notifications. *)
  let current := progress_initial in
  let maximum := progress_maximum in
  let events := [Progress current maximum] in
  (* Read the model number. *)
  match uwatec_smart_transfer l [x10] 1 [x00] 1 with
  | (Returns DC_STATUS_SUCCESS, model, l1) =>
      (* Read the serial number. *)
      match uwatec_smart_transfer l1 [x14] 1 [x00; x00; x00; x00] 4 with
      | (Returns DC_STATUS_SUCCESS, serial, l2) =>
          (* Read the device clock. *)
          match uwatec_smart_transfer l2 [x1a] 1 [x00; x00; x00; x00] 4 with
          | (Returns DC_STATUS_SUCCESS, devtime, l3) =>
              match array_uint32_le devtime, array_uint32_le serial with
              | Some devtime_value, Some serial_value =>
                  (* Store the clock calibration values. *)
                  let device :=
                    mk_smart (timestamp device) devtime_value now in
                  (* Update and emit a progress event. *)
                  let current := u32 (current + 9) in
                  let events := events ++ [Progress current maximum] in
                  (* Emit a clock event. *)
                  let events := events ++ [Clock now devtime_value] in
                  (* Emit a device info event. *)
                  let events :=
                    events ++ [Devinfo (b2z (nth 0 model x00)) 0 serial_value]
                  in
                  (* Data Length. *)
                  let command := dump_command xc6 (timestamp device) in
                  match uwatec_smart_transfer l3 command 9
                          [x00; x00; x00; x00] 4 with
                  | (Returns DC_STATUS_SUCCESS, answer, l4) =>
                      match array_uint32_le answer with
                      | None => stop Fault buffer l4 current events device
                      | Some length =>
                          (* Update and emit a progress event. *)
                          let maximum :=
                            u32 (4 + 9
                                 + (if negb (length =? 0) then length + 4
                                    else 0)) in
                          let current := u32 (current + 4) in
                          let events := events ++ [Progress current maximum] in
                          if length =? 0
                          then stop (Returns DC_STATUS_SUCCESS) buffer l4
                                 current events device
                          else if negb resize_ok
                          then stop (Returns DC_STATUS_NOMEMORY) buffer l4
                                 current events device
                          else
                            (* Allocate the required amount of memory. *)
                            let data := dc_buffer_resize buffer length in
                            (* Data. *)
                            let command :=
                              dump_command xc4 (timestamp device) in
                            match uwatec_smart_transfer l4 command 9 answer 4
                            with
                            | (Returns DC_STATUS_SUCCESS, answer, l5) =>
                                match array_uint32_le answer with
                                | None =>
                                    stop Fault data l5 current events device
                                | Some total =>
                                    (* Update and emit a progress event. *)
                                    let current := u32 (current + 4) in
                                    let events :=
                                      events ++ [Progress current maximum] in
                                    if negb (total =? u32 (length + 4))
                                    then stop (Returns DC_STATUS_PROTOCOL) data
                                           l5 current events device
                                    else
                                      match receive_loop
                                              (receive_fuel length l5) 32
                                              length l5 data 0 current maximum
                                              events with
                                      | None => None
                                      | Some d => Some (mk_dumped d device)
                                      end
                                end
                            | (rc, _, l5) =>
                                stop rc data l5 current events device
                            end
                      end
                  | (rc, _, l4) => stop rc buffer l4 current events device
                  end
              | _, _ => stop Fault buffer l3 current events device
              end
          | (rc, _, l3) => stop rc buffer l3 current events device
          end
      | (rc, _, l2) => stop rc buffer l2 current events device
      end
  | (rc, _, l1) => stop rc buffer l1 current events device
  end.

(** What a call of [uwatec_smart_device_foreach] leaves behind. *)
Record visit (U : Type) : Type := mk_visit {
  visit_result : outcome;
  visit_calls : list call;
  visit_userdata : U;
  visit_device : uwatec_smart_device_t;
  visit_line : line;
  visit_events : list event
}.

(** [new_ok] and [resize_ok] tell whether the buffer can be created and
    resized.  [None] is an exhausted bound of the loops of the model. *)
Definition uwatec_smart_device_foreach (U : Type)
    (device : uwatec_smart_device_t) (now : Z) (new_ok resize_ok : bool)
    (l : line) (callback : option (dc_dive_callback_t U)) (userdata : U)
  : option (visit U) :=
  if negb new_ok
  then Some (mk_visit U (Returns DC_STATUS_NOMEMORY) [] userdata device l [])
  else
    match uwatec_smart_device_dump device now [] resize_ok l with
    | None => None
    | Some dd =>
        let d := dumped_download dd in
        match dl_result d with
        | Returns DC_STATUS_SUCCESS =>
            match uwatec_smart_extract_dives U
                    (Some (SmartDevice (dumped_device dd))) (dl_data d)
                    callback userdata with
            | None => None
            | Some r =>
                Some (mk_visit U (UwatecSmart.result U r)
                        (UwatecSmart.calls U r) (UwatecSmart.userdata U r)
                        (dumped_device dd) (dl_line d) (dl_events d))
            end
        | rc =>
            Some (mk_visit U rc [] userdata (dumped_device dd) (dl_line d)
                    (dl_events d))
        end
    end.

End WithInitializer.

End SmartDump.

(** ** Opening a device *)

Module Opening.

Import Stdlib.Strings.String.
Import CressiLeonardo Line.

(** Modelled from the spec: the memory of the device handle
    ([dc_device_allocate]), the serial port of serial.h, and the iterator,
    the entries and the socket of irda.h are not part of the sources.  What
    the open functions take and give back is recorded as they do it. *)
Inductive resource : Type :=
  | Device
  | Port (name : option string)
  | Iterator
  | Entry (k : nat)
  | Stream (address : Z).

Inductive dc_parity_t : Type :=
  | DC_PARITY_NONE | DC_PARITY_ODD | DC_PARITY_EVEN
  | DC_PARITY_MARK | DC_PARITY_SPACE.

Inductive dc_stopbits_t : Type :=
  | DC_STOPBITS_ONE | DC_STOPBITS_ONEPOINTFIVE | DC_STOPBITS_TWO.

Inductive dc_flowcontrol_t : Type :=
  | DC_FLOWCONTROL_NONE | DC_FLOWCONTROL_HARDWARE | DC_FLOWCONTROL_SOFTWARE.

Inductive dc_direction_t : Type :=
  | DC_DIRECTION_INPUT | DC_DIRECTION_OUTPUT | DC_DIRECTION_ALL.

(** The calls on an open serial port. *)
Inductive serial_call : Type :=
  | Configure (baudrate databits : Z) (parity : dc_parity_t)
      (stopbits : dc_stopbits_t) (flowcontrol : dc_flowcontrol_t)
  | SetTimeout (timeout : Z)
  | SetRts (level : Z)
  | SetDtr (level : Z)
  | Sleep (milliseconds : Z)
  | Purge (direction : dc_direction_t).

Inductive event : Type :=
  | Acquire (r : resource)
  | Release (r : resource)
  | Ask (c : serial_call).

Definition name_eqb (a b : option string) : bool :=
  match a, b with
  | Some x, Some y => String.eqb x y
  | None, None => true
  | _, _ => false
  end.

Definition resource_eqb (a b : resource) : bool :=
  match a, b with
  | Device, Device => true
  | Port x, Port y => name_eqb x y
  | Iterator, Iterator => true
  | Entry j, Entry k => Nat.eqb j k
  | Stream x, Stream y => Z.eqb x y
  | _, _ => false
  end.

Definition is_port (r : resource) : bool :=
  match r with
  | Port _ => true
  | _ => false
  end.

(** What is held after the events [t], starting with [held]; [None] when
    something is taken twice, given back without being held, or when the
    port is asked something while it is not open. *)
Fixpoint balance (held : list resource) (t : list event)
  : option (list resource) :=
  match t with
  | [] => Some held
  | Acquire r :: t' =>
      if existsb (resource_eqb r) held then None
      else balance (held ++ [r]) t'
  | Release r :: t' =>
      if existsb (resource_eqb r) held
      then balance (filter (fun x => negb (resource_eqb r x)) held) t'
      else None
  | Ask _ :: t' =>
      if existsb is_port held then balance held t' else None
  end.

(** *** cressi_leonardo_device_open *)

Record leonardo_opened : Type := mk_leonardo_opened {
  lo_result : dc_status_t;
  lo_device : option cressi_leonardo_device_t;
  lo_trace : list event
}.

(** [out_given] tells whether [out] is a pointer, [alloc_ok] whether the
    handle can be allocated; [script] holds the statuses of the calls on the
    serial port whose status the code looks at, in their order. *)
Definition cressi_leonardo_device_open (out_given alloc_ok : bool)
    (name : option string) (script : list dc_status_t) : leonardo_opened :=
  if negb out_given then mk_leonardo_opened DC_STATUS_INVALIDARGS None []
  else if negb alloc_ok then mk_leonardo_opened DC_STATUS_NOMEMORY None []
  else
    (* Allocate memory. *)
    let t := [Acquire Device] in
    (* Set the default values. *)
    let device := mk_leonardo (memset x00 SZ_FINGERPRINT) in
    let error_free (status : dc_status_t) (t : list event) :=
      mk_leonardo_opened status None (t ++ [Release Device]) in
    let error_close (status : dc_status_t) (t : list event) :=
      error_free status (t ++ [Release (Port name)]) in
    (* Open the device. *)
    let '(status, script) := next DC_STATUS_SUCCESS script in
    if negb (status_eqb status DC_STATUS_SUCCESS) then error_free status t
    else
    let t := t ++ [Acquire (Port name)] in
    (* Set the serial communication protocol (115200 8N1). *)
    let '(status, script) := next DC_STATUS_SUCCESS script in
    let t := t ++ [Ask (Configure 115200 8 DC_PARITY_NONE DC_STOPBITS_ONE
                          DC_FLOWCONTROL_NONE)] in
    if negb (status_eqb status DC_STATUS_SUCCESS) then error_close status t
    else
    (* Set the timeout for receiving data (1000 ms). *)
    let '(status, script) := next DC_STATUS_SUCCESS script in
    let t := t ++ [Ask (SetTimeout 1000)] in
    if negb (status_eqb status DC_STATUS_SUCCESS) then error_close status t
    else
    (* Set the RTS line. *)
    let '(status, script) := next DC_STATUS_SUCCESS script in
    let t := t ++ [Ask (SetRts 1)] in
    if negb (status_eqb status DC_STATUS_SUCCESS) then error_close status t
    else
    (* Set the DTR line. *)
    let '(status, script) := next DC_STATUS_SUCCESS script in
    let t := t ++ [Ask (SetDtr 1)] in
    if negb (status_eqb status DC_STATUS_SUCCESS) then error_close status t
    else
    let t := t ++ [Ask (Sleep 200)] in
    (* Clear the DTR line. *)
    let '(status, script) := next DC_STATUS_SUCCESS script in
    let t := t ++ [Ask (SetDtr 0)] in
    if negb (status_eqb status DC_STATUS_SUCCESS) then error_close status t
    else
    let t := t ++ [Ask (Sleep 100)] in
    let t := t ++ [Ask (Purge DC_DIRECTION_ALL)] in
    mk_leonardo_opened DC_STATUS_SUCCESS (Some device) t.

(** The status of the [i]-th checked call on the serial port. *)
Definition answer (script : list dc_status_t) (i : nat) : dc_status_t :=
  nth i script DC_STATUS_SUCCESS.

(** *** uwatec_smart_filter *)

Definition names : list string :=
  ["Aladin Smart Com";
   "Aladin Smart Pro";
   "Aladin Smart Tec";
   "Aladin Smart Z";
   "Uwatec Aladin";
   "UWATEC Galileo";
   "UWATEC Galileo Sol"]%string.

(** [tolower] and [strcasecmp (a, b) == 0] of the C locale. *)
Definition tolower (c : Ascii.ascii) : Ascii.ascii :=
  let n := Ascii.nat_of_ascii c in
  if (65 <=? n)%nat && (n <=? 90)%nat then Ascii.ascii_of_nat (n + 32)
  else c.

Fixpoint strcasecmp_eq0 (a b : string) : bool :=
  match a, b with
  | EmptyString, EmptyString => true
  | String x a', String y b' =>
      Ascii.eqb (tolower x) (tolower y) && strcasecmp_eq0 a' b'
  | _, _ => false
  end.

Definition uwatec_smart_filter (name : option string) : bool :=
  match name with
  | None => false
  | Some name => existsb (strcasecmp_eq0 name) names
  end.

(** *** uwatec_smart_device_open *)

(** Modelled from the spec: an entry of the IrDA enumeration, with what
    [dc_irda_device_get_address] and [dc_irda_device_get_name] give. *)
Record dc_irda_device_t : Type := mk_irda {
  irda_address : Z;
  irda_name : option string
}.

(** How the enumeration loop is left: with the entry number [k], or after
    [dc_iterator_next] gave no entry. *)
Inductive enumerated : Type :=
  | Picked (k : nat) (dev : dc_irda_device_t) (t : list event)
  | Exhausted (t : list event).

(** The enumeration loop over the entries that the iterator still has. *)
Fixpoint enumerate (found : list dc_irda_device_t) (k : nat)
    (t : list event) : enumerated :=
  match found with
  | [] => Exhausted t
  | current :: found' =>
      let t := t ++ [Acquire (Entry k)] in
      if uwatec_smart_filter (irda_name current)
      then Picked k current t
      else enumerate found' (S k) (t ++ [Release (Entry k)])
  end.

Record smart_opened : Type := mk_smart_opened {
  so_result : outcome;
  so_device : option uwatec_smart_device_t;
  so_trace : list event;
  so_line : line
}.

(** [iterator_rc] is the status of [dc_irda_iterator_new]; the iterator
    yields the entries [found] and then answers [stop] ([Done] at the end of
    the enumeration, or the error that interrupts it; a [Success] without an
    entry is outside what an iterator does and is reported as [Fault]);
    [open_rc] is the status of [dc_irda_open] and [l] the line behind the
    socket. *)
Definition uwatec_smart_device_open (out_given alloc_ok : bool)
    (iterator_rc : dc_status_t) (found : list dc_irda_device_t)
    (stop : dc_status_t) (open_rc : dc_status_t) (l : line) : smart_opened :=
  if negb out_given
  then mk_smart_opened (Returns DC_STATUS_INVALIDARGS) None [] l
  else if negb alloc_ok
  then mk_smart_opened (Returns DC_STATUS_NOMEMORY) None [] l
  else
    (* Allocate memory. *)
    let t := [Acquire Device] in
    (* Set the default values. *)
    let device := mk_smart 0 0 (-1) in
    let error_free (status : outcome) (t : list event) (l : line) :=
      mk_smart_opened status None (t ++ [Release Device]) l in
    let error_iterator_free (status : outcome) (t : list event) (l : line) :=
      error_free status (t ++ [Release Iterator]) l in
    let error_device_free (k : nat) (status : outcome) (t : list event)
        (l : line) :=
      error_iterator_free status (t ++ [Release (Entry k)]) l in
    let error_close (k : nat) (address : Z) (status : outcome)
        (t : list event) (l : line) :=
      error_device_free k status (t ++ [Release (Stream address)]) l in
    (* Create the irda device iterator. *)
    if negb (status_eqb iterator_rc DC_STATUS_SUCCESS)
    then error_free (Returns iterator_rc) t l
    else
    let t := t ++ [Acquire Iterator] in
    (* Enumerate the irda devices. *)
    match enumerate found 0 t with
    | Exhausted t =>
        if status_eqb stop DC_STATUS_SUCCESS
        then mk_smart_opened Fault None t l
        else if status_eqb stop DC_STATUS_DONE
        then error_iterator_free (Returns DC_STATUS_NODEVICE) t l
        else error_iterator_free (Returns stop) t l
    | Picked k dev t =>
        (* Open the irda socket. *)
        if negb (status_eqb open_rc DC_STATUS_SUCCESS)
        then error_device_free k (Returns open_rc) t l
        else
        let t := t ++ [Acquire (Stream (irda_address dev))] in
        (* Perform the handshaking. *)
        match SmartDump.uwatec_smart_handshake l with
        | (Returns DC_STATUS_SUCCESS, l') =>
            mk_smart_opened (Returns DC_STATUS_SUCCESS) (Some device) t l'
        | (status, l') => error_close k (irda_address dev) status t l'
        end
    end.

(** The entry that the enumeration loop stops at: the first one whose name
    passes the filter. *)
Definition first_match (found : list dc_irda_device_t)
  : option dc_irda_device_t :=
  find (fun d => uwatec_smart_filter (irda_name d)) found.

(** The events of the entries [k], ..., [k + n - 1] that the enumeration
    takes and gives back. *)
Definition passed (k n : nat) : list event :=
  flat_map (fun i => [Acquire (Entry i); Release (Entry i)]) (seq k n).

(** Questions to the port, as events. *)
Definition asks (cs : list serial_call) : list event := map Ask cs.

(** A name with its upper-case letters folded. *)
Fixpoint lower (s : string) : string :=
  match s with
  | EmptyString => EmptyString
  | String c s' => String (tolower c) (lower s')
  end.

(** Four entries of an enumeration; the third is the first that passes the
    filter. *)
Definition neighbourhood : list dc_irda_device_t :=
  [mk_irda 1 (Some "Printer"%string);
   mk_irda 2 None;
   mk_irda 7 (Some "uwatec GALILEO"%string);
   mk_irda 9 (Some "Aladin Smart Z"%string)].

(** A line that acknowledges both stages of the handshake. *)
Definition acknowledging : line := mk_line [x01; x01] [] [] [] [].

End Opening.

(** ** Concrete lines *)

Module FixturesLine.

Import CressiLeonardo Image ProtocolMore Line.

(** A line on which every write and read succeeds, the instrument sends
    [bytes] and no byte is ever reported as available. *)
Definition quiet_line (bytes : list byte) : line := mk_line bytes [] [] [] [].

(** The four digits that follow an image on the line: its checksum. *)
Definition trailer_of (image : list byte) : list byte :=
  FixturesMore.bin2hex (checksum_bytes (Fixtures.crc_ccitt image)).

(** The answer of a Leonardo to the dump command: the header, the image
    [image_567] and its checksum; and the same with a wrong checksum. *)
Definition leonardo_line : line :=
  quiet_line (CressiDump.dump_expected ++ Fixtures.image_567
              ++ trailer_of Fixtures.image_567 ++ []).

Definition leonardo_line_corrupt : line :=
  quiet_line (CressiDump.dump_expected ++ Fixtures.image_567
              ++ [x30; x30; x30; x30] ++ [x7d]).

(** The answers of a Smart to the commands of a dump: model, serial number,
    device time, the length of the data, the length with its own four
    bytes, and the two dives of [smart_two]. *)
Definition smart_serial : list byte := [x78; x56; x34; x12].
Definition smart_devtime : list byte := [x10; x27; x00; x00].

Definition smart_line : line :=
  quiet_line ([x10] ++ smart_serial ++ smart_devtime
              ++ uint32_le_bytes 24 ++ uint32_le_bytes (24 + 4)
              ++ Fixtures.smart_two ++ []).

(** The same instrument with nothing new to send. *)
Definition smart_line_empty : line :=
  quiet_line ([x10] ++ smart_serial ++ smart_devtime
              ++ [x00; x00; x00; x00] ++ []).

Definition smart_device : uwatec_smart_device_t := mk_smart 0x01020304 0 0.

End FixturesLine.

(* ================================================================== *)
(** * Part II: the properties *)
(* ================================================================== *)

(** ** Bytes, integers and arrays *)

Module ArrayFacts.

Lemma b2z_range (b : byte) : 0 <= b2z b < 256.
Proof.
  unfold b2z. pose proof (Byte.to_N_bounded b). lia.
Qed.

Lemma z2b_b2z (b : byte) (k : Z) : z2b (b2z b + 256 * k) = b.
Proof.
  unfold z2b.
  replace ((b2z b + 256 * k) mod 256) with (b2z b).
  - unfold b2z. rewrite N2Z.id, Byte.of_to_N. reflexivity.
  - pose proof (b2z_range b).
    rewrite (Z.mul_comm 256 k), Z.mod_add by lia.
    symmetry. apply Z.mod_small. lia.
Qed.

Lemma uint32_le_bytes_array (b0 b1 b2 b3 : byte) (rest : list byte) (t : Z) :
  array_uint32_le (b0 :: b1 :: b2 :: b3 :: rest) = Some t ->
  uint32_le_bytes t = [b0; b1; b2; b3].
Proof.
  intros H.
  assert (E : t = b2z b0 + Z.shiftl (b2z b1) 8 + Z.shiftl (b2z b2) 16
                  + Z.shiftl (b2z b3) 24)
    by (unfold array_uint32_le in H; congruence).
  subst t. clear H.
  pose proof (b2z_range b0). pose proof (b2z_range b1).
  pose proof (b2z_range b2). pose proof (b2z_range b3).
  unfold uint32_le_bytes. rewrite !Z.shiftr_div_pow2, !Z.shiftl_mul_pow2 by lia.
  change (2 ^ 8) with 256. change (2 ^ 16) with 65536.
  change (2 ^ 24) with 16777216.
  set (v := b2z b0 + b2z b1 * 256 + b2z b2 * 65536 + b2z b3 * 16777216).
  assert (E1 : v / 256 = b2z b1 + 256 * (b2z b2 + 256 * b2z b3))
    by (subst v; Z.div_mod_to_equations; lia).
  assert (E2 : v / 65536 = b2z b2 + 256 * b2z b3)
    by (subst v; Z.div_mod_to_equations; lia).
  assert (E3 : v / 16777216 = b2z b3 + 256 * 0)
    by (subst v; Z.div_mod_to_equations; lia).
  assert (E0 : v = b2z b0 + 256 * (b2z b1 + 256 * (b2z b2 + 256 * b2z b3)))
    by (subst v; lia).
  rewrite E1, E2, E3. rewrite E0 at 1.
  rewrite !z2b_b2z. reflexivity.
Qed.

Lemma size_of_nonneg (l : list byte) : 0 <= size_of l.
Proof. unfold size_of. lia. Qed.

Lemma size_of_ptr (data : list byte) (off : Z) :
  0 <= off <= size_of data -> size_of (ptr data off) = size_of data - off.
Proof.
  unfold size_of, ptr. intros H. rewrite length_skipn. lia.
Qed.

Lemma bytes_at_some (p : list byte) (n : Z) :
  n <= size_of p -> bytes_at p n = Some (firstn (Z.to_nat n) p).
Proof.
  intros H. unfold bytes_at.
  destruct (n <=? size_of p) eqn:E; [reflexivity | lia].
Qed.

Lemma bytes_eqb_true (a b : list byte) : bytes_eqb a b = true <-> a = b.
Proof.
  unfold bytes_eqb. destruct (list_eq_dec Byte.byte_eq_dec a b); split;
    congruence.
Qed.

Lemma bytes_eqb_false (a b : list byte) : bytes_eqb a b = false <-> a <> b.
Proof.
  unfold bytes_eqb. destruct (list_eq_dec Byte.byte_eq_dec a b); split;
    congruence.
Qed.

Lemma size_of_firstn (l : list byte) (n : Z) :
  0 <= n <= size_of l -> size_of (firstn (Z.to_nat n) l) = n.
Proof.
  unfold size_of. intros H. rewrite length_firstn. lia.
Qed.

(** [memcpy] keeps the size of the destination. *)
Lemma memcpy_size (dst src dst' : list byte) (doff n : Z) :
  0 <= doff -> 0 <= n ->
  memcpy dst doff src n = Some dst' -> size_of dst' = size_of dst.
Proof.
  intros Hd Hn. unfold memcpy, bytes_at.
  destruct (n <=? size_of src) eqn:E1; [|discriminate].
  destruct (doff + n <=? size_of dst) eqn:E2; [|discriminate].
  intros H. injection H as <-. unfold size_of in *.
  rewrite !length_app, length_firstn, length_firstn, length_skipn. lia.
Qed.

(** [memcpy] leaves what lies before the destination offset alone. *)
Lemma memcpy_prefix (dst src dst' : list byte) (doff n : Z) (k : nat) :
  0 <= doff -> 0 <= n -> (Z.of_nat k <= doff) ->
  memcpy dst doff src n = Some dst' -> firstn k dst' = firstn k dst.
Proof.
  intros Hd Hn Hk. unfold memcpy, bytes_at.
  destruct (n <=? size_of src) eqn:E1; [|discriminate].
  destruct (doff + n <=? size_of dst) eqn:E2; [|discriminate].
  intros H. injection H as <-. unfold size_of in *.
  rewrite firstn_app.
  rewrite length_firstn.
  replace (k - Nat.min (Z.to_nat doff) (length dst))%nat with O by lia.
  rewrite firstn_O, app_nil_r, firstn_firstn.
  f_equal. lia.
Qed.

(** [memcpy] to the start of the destination puts the source bytes there. *)
Lemma memcpy_start (dst src dst' : list byte) (n : Z) :
  0 <= n ->
  memcpy dst 0 src n = Some dst' -> firstn (Z.to_nat n) dst' = firstn (Z.to_nat n) src.
Proof.
  intros Hn. unfold memcpy, bytes_at.
  destruct (n <=? size_of src) eqn:E1; [|discriminate].
  destruct (0 + n <=? size_of dst) eqn:E2; [|discriminate].
  intros H. injection H as <-. unfold size_of in *.
  cbn [Z.to_nat firstn app].
  rewrite firstn_app, length_firstn.
  replace (Z.to_nat n - Nat.min (Z.to_nat n) (length src))%nat with O by lia.
  rewrite firstn_O, app_nil_r, firstn_firstn. f_equal. lia.
Qed.

Lemma memcpy_some (dst src : list byte) (doff n : Z) :
  n <= size_of src -> doff + n <= size_of dst ->
  exists dst', memcpy dst doff src n = Some dst'.
Proof.
  intros H1 H2. unfold memcpy. rewrite bytes_at_some by assumption.
  destruct (doff + n <=? size_of dst) eqn:E; [eauto | lia].
Qed.

End ArrayFacts.

(** ** Fingerprints *)

Module FingerprintProofs.

Import ArrayFacts.
Import CressiLeonardo UwatecSmart.

Lemma leonardo_wrong_size (d : cressi_leonardo_device_t) (data : list byte) :
  size_of data <> 0 -> size_of data <> SZ_FINGERPRINT ->
  cressi_leonardo_device_set_fingerprint d data
  = (Returns DC_STATUS_INVALIDARGS, d).
Proof.
  intros H0 H5. unfold cressi_leonardo_device_set_fingerprint.
  destruct (size_of data =? 0) eqn:E0; [lia|].
  destruct (size_of data =? SZ_FINGERPRINT) eqn:E5; [lia|]. reflexivity.
Qed.

Lemma smart_wrong_size (d : uwatec_smart_device_t) (data : list byte) :
  size_of data <> 0 -> size_of data <> 4 ->
  uwatec_smart_device_set_fingerprint d data
  = (Returns DC_STATUS_INVALIDARGS, d).
Proof.
  intros H0 H4. unfold uwatec_smart_device_set_fingerprint.
  destruct (size_of data =? 0) eqn:E0; [lia|].
  destruct (size_of data =? 4) eqn:E4; [lia|]. reflexivity.
Qed.

Lemma leonardo_right_size (d : cressi_leonardo_device_t) (data : list byte) :
  size_of (fingerprint d) = SZ_FINGERPRINT ->
  size_of data = SZ_FINGERPRINT ->
  cressi_leonardo_device_set_fingerprint d data
  = (Returns DC_STATUS_SUCCESS, mk_leonardo data).
Proof.
  intros Hd H5. unfold cressi_leonardo_device_set_fingerprint.
  rewrite H5. change (SZ_FINGERPRINT =? 0) with false.
  rewrite Z.eqb_refl. cbn [negb andb].
  unfold memcpy. rewrite bytes_at_some by lia.
  destruct (0 + SZ_FINGERPRINT <=? size_of (fingerprint d)) eqn:E; [|lia].
  unfold size_of, SZ_FINGERPRINT in *.
  change (Z.to_nat 0) with O. cbn [firstn app].
  rewrite (firstn_all2 (n := Z.to_nat 5) data) by lia.
  rewrite skipn_all2 by lia.
  rewrite app_nil_r. reflexivity.
Qed.

Lemma smart_right_size (d : uwatec_smart_device_t) (data : list byte) :
  size_of data = 4 ->
  exists t,
    uwatec_smart_device_set_fingerprint d data
    = (Returns DC_STATUS_SUCCESS, mk_smart t (devtime d) (systime d))
    /\ uint32_le_bytes t = data.
Proof.
  intros H4. unfold uwatec_smart_device_set_fingerprint. rewrite H4.
  cbn [Z.eqb negb andb].
  destruct data as [|b0 [|b1 [|b2 [|b3 [|b4 rest]]]]];
    try (unfold size_of in H4; cbn [length] in H4; lia).
  destruct (array_uint32_le [b0; b1; b2; b3]) as [t|] eqn:E;
    [|discriminate].
  exists t. split; [reflexivity|].
  eapply uint32_le_bytes_array; eassumption.
Qed.

Lemma clears_fingerprint (dl : cressi_leonardo_device_t)
    (ds : uwatec_smart_device_t) :
  cressi_leonardo_device_set_fingerprint dl []
  = (Returns DC_STATUS_SUCCESS, mk_leonardo [x00; x00; x00; x00; x00])
  /\ uwatec_smart_device_set_fingerprint ds []
     = (Returns DC_STATUS_SUCCESS, mk_smart 0 (devtime ds) (systime ds)).
Proof. split; reflexivity. Qed.

(** C7. A fingerprint of a size that is neither 0 nor the fixed length of
    the family (5 for the Cressi Leonardo, 4 for the Uwatec Smart) is
    rejected with [InvalidArgs] and the device is left as it was; a
    fingerprint of the fixed length is stored (the Uwatec Smart keeps it as
    the 32-bit value whose little-endian bytes are the given ones); size 0
    resets the fingerprint to the all-zero default. *)
Theorem set_fingerprint_checks_length :
  forall (dl : cressi_leonardo_device_t) (ds : uwatec_smart_device_t)
         (data : list byte),
    size_of (fingerprint dl) = SZ_FINGERPRINT ->
    (size_of data <> 0 -> size_of data <> 5 ->
       cressi_leonardo_device_set_fingerprint dl data
       = (Returns DC_STATUS_INVALIDARGS, dl))
    /\ (size_of data <> 0 -> size_of data <> 4 ->
       uwatec_smart_device_set_fingerprint ds data
       = (Returns DC_STATUS_INVALIDARGS, ds))
    /\ (size_of data = 5 ->
       cressi_leonardo_device_set_fingerprint dl data
       = (Returns DC_STATUS_SUCCESS, mk_leonardo data))
    /\ (size_of data = 4 ->
       exists t,
         uwatec_smart_device_set_fingerprint ds data
         = (Returns DC_STATUS_SUCCESS, mk_smart t (devtime ds) (systime ds))
         /\ uint32_le_bytes t = data)
    /\ (size_of data = 0 ->
       cressi_leonardo_device_set_fingerprint dl data
       = (Returns DC_STATUS_SUCCESS, mk_leonardo [x00; x00; x00; x00; x00])
       /\ uwatec_smart_device_set_fingerprint ds data
          = (Returns DC_STATUS_SUCCESS,
             mk_smart 0 (devtime ds) (systime ds))).
Proof.
  intros dl ds data Hd.
  split; [apply leonardo_wrong_size|].
  split; [apply smart_wrong_size|].
  split; [intros; apply leonardo_right_size; assumption|].
  split; [intros; apply smart_right_size; assumption|].
  intros H0. destruct data as [|b data].
  - apply clears_fingerprint.
  - unfold size_of in H0. cbn [length] in H0. lia.
Qed.

Lemma set_fingerprint_checks_length_witness :
  size_of (fingerprint (mk_leonardo Fixtures.ident_a)) = SZ_FINGERPRINT
  /\ cressi_leonardo_device_set_fingerprint (mk_leonardo Fixtures.ident_a)
       [x01; x02; x03]
     = (Returns DC_STATUS_INVALIDARGS, mk_leonardo Fixtures.ident_a)
  /\ uwatec_smart_device_set_fingerprint (mk_smart 7 1 2) [x01; x02; x03]
     = (Returns DC_STATUS_INVALIDARGS, mk_smart 7 1 2)
  /\ cressi_leonardo_device_set_fingerprint (mk_leonardo Fixtures.ident_a)
       Fixtures.ident_b
     = (Returns DC_STATUS_SUCCESS, mk_leonardo Fixtures.ident_b).
Proof.
  assert (Hd : size_of (fingerprint (mk_leonardo Fixtures.ident_a))
               = SZ_FINGERPRINT) by reflexivity.
  split; [exact Hd|].
  split.
  { apply (proj1 (set_fingerprint_checks_length
                    (mk_leonardo Fixtures.ident_a) (mk_smart 7 1 2)
                    [x01; x02; x03] Hd)); vm_compute; discriminate. }
  split.
  { apply (proj1 (proj2 (set_fingerprint_checks_length
                    (mk_leonardo Fixtures.ident_a) (mk_smart 7 1 2)
                    [x01; x02; x03] Hd))); vm_compute; discriminate. }
  apply (proj1 (proj2 (proj2 (set_fingerprint_checks_length
                    (mk_leonardo Fixtures.ident_a) (mk_smart 7 1 2)
                    Fixtures.ident_b Hd)))); reflexivity.
Defined.

End FingerprintProofs.

(** ** The framed transfer and its retries *)

Module TransferProofs.

Import CressiLeonardo ProtocolMore.

(** On operands in the range of [unsigned int], [usub] is the 32-bit
    difference. *)
Lemma usub_wraps (a b : Z) :
  0 <= a < 2 ^ 32 -> 0 <= b < 2 ^ 32 -> usub a b = u32 (a - b).
Proof.
  intros Ha Hb. unfold usub, u32.
  change (2 ^ 32) with 4294967296 in *.
  destruct (a <? b) eqn:E.
  - apply Z.ltb_lt in E. apply (Z.mod_unique (a - b) 4294967296 (-1)); lia.
  - apply Z.ltb_ge in E. symmetry. apply Z.mod_small. lia.
Qed.

Section WithHelpers.

Variable crc : list byte -> Z.
Variable hex2bin : list byte -> list byte.

Local Notation "'packet'" := (cressi_leonardo_packet crc hex2bin).
Local Notation "'loop'" := (transfer_loop crc hex2bin).
Local Notation "'transfer'" := (transfer_with crc hex2bin).

(** One call of [cressi_leonardo_packet] uses up exactly one exchange. *)
Lemma packet_consumes_one (port : dc_serial_t) (command answer : list byte)
    (asize : Z) :
  snd (packet port command answer asize) = tl port.
Proof.
  unfold cressi_leonardo_packet.
  destruct (next_exchange port) as [e port'] eqn:E.
  assert (Ht : port' = tl port)
    by (destruct port; cbn in E; injection E as _ <-; reflexivity).
  subst port'.
  repeat match goal with
         | |- context [match ?x with _ => _ end] => destruct x
         end; reflexivity.
Qed.

Lemma loop_success fuel maxretries n port command answer asize answer' port' :
  packet port command answer asize
  = (Returns DC_STATUS_SUCCESS, answer', port') ->
  loop (S fuel) maxretries n port command answer asize
  = Some (Returns DC_STATUS_SUCCESS, answer', port').
Proof. intros H. cbn [transfer_loop]. rewrite H. reflexivity. Qed.

Lemma loop_propagates fuel maxretries n port command answer asize rc answer'
    port' :
  packet port command answer asize = (Returns rc, answer', port') ->
  rc <> DC_STATUS_SUCCESS -> retriable rc = false ->
  loop (S fuel) maxretries n port command answer asize
  = Some (Returns rc, answer', port').
Proof.
  intros H Hs Hr. cbn [transfer_loop]. rewrite H.
  destruct rc; try reflexivity; try contradiction; discriminate.
Qed.

Lemma loop_gives_up fuel maxretries n port command answer asize rc answer'
    port' :
  packet port command answer asize = (Returns rc, answer', port') ->
  rc <> DC_STATUS_SUCCESS -> maxretries <= n ->
  loop (S fuel) maxretries n port command answer asize
  = Some (Returns rc, answer', port').
Proof.
  intros H Hs Hn. cbn [transfer_loop]. rewrite H.
  assert (E : (n >=? maxretries) = true) by lia.
  destruct rc; try contradiction; cbn [status_eqb negb andb]; rewrite ?E;
    reflexivity.
Qed.

Lemma loop_retries fuel maxretries n port command answer asize rc answer'
    port' :
  packet port command answer asize = (Returns rc, answer', port') ->
  retriable rc = true -> n < maxretries ->
  loop (S fuel) maxretries n port command answer asize
  = loop fuel maxretries (n + 1) port' command answer' asize.
Proof.
  intros H Hr Hn. cbn [transfer_loop]. rewrite H.
  assert (E : (n >=? maxretries) = false) by lia.
  destruct rc; try discriminate; cbn [status_eqb negb andb]; rewrite E;
    reflexivity.
Qed.

(** The loop ends within the attempts that the bound leaves, and each
    attempt uses up one exchange: the transfer makes at least one and at
    most [maxretries + 1] attempts. *)
Lemma loop_total fuel :
  forall maxretries n port command answer asize,
    (0 < fuel)%nat -> maxretries - n < Z.of_nat fuel ->
    exists o answer' k,
      loop fuel maxretries n port command answer asize
      = Some (o, answer', skipn k port)
      /\ (1 <= k)%nat /\ Z.of_nat k <= Z.max 1 (maxretries - n + 1).
Proof.
  induction fuel as [|fuel IH];
    intros maxretries n port command answer asize Hpos Hf.
  - lia.
  - pose proof (packet_consumes_one port command answer asize) as Hc.
    destruct (packet port command answer asize) as [[o answer'] port'] eqn:Hp.
    cbn [snd] in Hc. subst port'.
    assert (Hone : tl port = skipn 1 port) by (destruct port; reflexivity).
    destruct o as [rc| |].
    + destruct (status_eqb rc DC_STATUS_SUCCESS) eqn:Es.
      * destruct rc; try discriminate.
        exists (Returns DC_STATUS_SUCCESS), answer', 1%nat.
        rewrite <- Hone. split; [eapply loop_success; eassumption|]. lia.
      * assert (Hs : rc <> DC_STATUS_SUCCESS)
          by (intros ->; discriminate).
        destruct (retriable rc) eqn:Er.
        -- destruct (Z.lt_ge_cases n maxretries) as [Hlt|Hge].
           ++ destruct (IH maxretries (n + 1) (tl port) command answer' asize)
                as (o' & a'' & k & Hk & Hk1 & Hk2); [lia|lia|].
              exists o', a'', (S k).
              rewrite (loop_retries _ _ _ _ _ _ _ _ _ _ Hp Er Hlt).
              rewrite Hk. rewrite Hone, skipn_skipn.
              replace (k + 1)%nat with (S k) by lia.
              split; [reflexivity|]. lia.
           ++ exists (Returns rc), answer', 1%nat. rewrite <- Hone.
              split; [eapply loop_gives_up; eassumption|]. lia.
        -- exists (Returns rc), answer', 1%nat. rewrite <- Hone.
           split; [eapply loop_propagates; eassumption|]. lia.
    + exists Fault, answer', 1%nat. rewrite <- Hone.
      split; [cbn [transfer_loop]; rewrite Hp; reflexivity|]. lia.
    + exists Hangs, answer', 1%nat. rewrite <- Hone.
      split; [cbn [transfer_loop]; rewrite Hp; reflexivity|]. lia.
Qed.

(** [cressi_leonardo_transfer] always returns, after one to
    [maxretries + 1] attempts. *)
Lemma transfer_bounded (maxretries : Z) port command answer asize :
  0 <= maxretries ->
  exists o answer' k,
    transfer maxretries port command answer asize
    = Some (o, answer', skipn k port)
    /\ (1 <= k)%nat /\ Z.of_nat k <= maxretries + 1.
Proof.
  intros H. unfold transfer_with.
  destruct (loop_total (S (Z.to_nat maxretries)) maxretries 0 port command
              answer asize) as (o & a & k & Hk & H1 & H2); [lia|lia|].
  exists o, a, k. split; [exact Hk|]. lia.
Qed.

(** The line after call number [k] of a row of calls: one exchange is used
    up by each call. *)
Lemma attempt_port (command : list byte) (asize : Z) (k : nat) :
  forall (port : dc_serial_t) (answer : list byte),
    snd (attempt crc hex2bin k port command answer asize) = skipn (S k) port.
Proof.
  induction k as [|k IH]; intros port answer.
  - cbn [attempt]. rewrite packet_consumes_one. destruct port; reflexivity.
  - cbn [attempt].
    pose proof (packet_consumes_one port command answer asize) as Hc.
    destruct (packet port command answer asize) as [[o a'] p'].
    cbn [snd] in Hc. subst p'. rewrite IH.
    destruct port as [|e port]; [destruct k; reflexivity|reflexivity].
Qed.

Lemma loop_is_attempt (maxretries : Z) (command : list byte) (asize : Z)
    (k : nat) :
  forall (fuel : nat) (n : Z) (port : dc_serial_t) (answer : list byte),
    (k < fuel)%nat -> n + Z.of_nat k <= maxretries ->
    (forall j, (j < k)%nat ->
       failed_retriably
         (fst (fst (attempt crc hex2bin j port command answer asize)))
       = true) ->
    failed_retriably
      (fst (fst (attempt crc hex2bin k port command answer asize))) = false
    \/ n + Z.of_nat k = maxretries ->
    transfer_loop crc hex2bin fuel maxretries n port command answer asize
    = Some (attempt crc hex2bin k port command answer asize).
Proof.
  induction k as [|k IH]; intros fuel n port answer Hf Hn Hbefore Hlast.
  - destruct fuel as [|fuel]; [lia|].
    cbn [attempt] in *. cbn [transfer_loop].
    destruct (cressi_leonardo_packet crc hex2bin port command answer asize)
      as [[o a'] p'].
    cbn [fst] in Hlast.
    destruct o as [rc| |]; [|reflexivity|reflexivity].
    destruct Hlast as [Hfinal|Hmax].
    + destruct rc; try reflexivity; discriminate.
    + assert (E : (n >=? maxretries) = true) by lia.
      destruct rc; cbn [status_eqb negb andb]; rewrite ?E; reflexivity.
  - destruct fuel as [|fuel]; [lia|].
    pose proof (Hbefore O ltac:(lia)) as H0.
    cbn [attempt] in H0, Hlast |- *.
    destruct (cressi_leonardo_packet crc hex2bin port command answer asize)
      as [[o a'] p'] eqn:Hp.
    cbn [fst] in H0.
    destruct o as [rc| |]; try discriminate. cbn [failed_retriably] in H0.
    rewrite (loop_retries fuel maxretries n port command answer asize rc a'
               p' Hp H0 ltac:(lia)).
    apply IH; try lia.
    + intros j Hj. pose proof (Hbefore (S j) ltac:(lia)) as HS.
      cbn [attempt] in HS. rewrite Hp in HS. exact HS.
    + destruct Hlast as [Hfinal|Hmax]; [left; exact Hfinal|right; lia].
Qed.

(** C3, as the code has it.  When the first three attempts fail with
    [Protocol] and the fourth succeeds, the transfer succeeds with the fourth
    answer under a bound of 4 retries and also under a bound of 3 (three
    retries follow the first attempt); it fails with [Protocol], without a
    fourth attempt, under a bound of 2.  A status that is neither [Protocol]
    nor [Timeout] is returned at once whatever the bound and at whichever
    attempt it comes: when the calls before call number [k] (at most as many
    as the bound allows) failed with [Protocol] or [Timeout], the transfer
    returns what call number [k] returned, and the line is left as that call
    left it, [k + 1] exchanges on. *)
Theorem transfer_retries :
  forall (port0 port1 port2 port3 port4 : dc_serial_t)
         (command a0 a1 a2 a3 a4 : list byte) (asize : Z),
    packet port0 command a0 asize = (Returns DC_STATUS_PROTOCOL, a1, port1) ->
    packet port1 command a1 asize = (Returns DC_STATUS_PROTOCOL, a2, port2) ->
    packet port2 command a2 asize = (Returns DC_STATUS_PROTOCOL, a3, port3) ->
    packet port3 command a3 asize = (Returns DC_STATUS_SUCCESS, a4, port4) ->
    transfer_with crc hex2bin 4 port0 command a0 asize
    = Some (Returns DC_STATUS_SUCCESS, a4, port4)
    /\ transfer_with crc hex2bin 3 port0 command a0 asize
       = Some (Returns DC_STATUS_SUCCESS, a4, port4)
    /\ transfer_with crc hex2bin 2 port0 command a0 asize
       = Some (Returns DC_STATUS_PROTOCOL, a3, port3)
    /\ (forall (maxretries : Z) (port : dc_serial_t) (a a' : list byte)
               (port' : dc_serial_t) (rc : dc_status_t) (k : nat),
          Z.of_nat k <= maxretries ->
          (forall j, (j < k)%nat ->
             failed_retriably
               (fst (fst (attempt crc hex2bin j port command a asize)))
             = true) ->
          attempt crc hex2bin k port command a asize = (Returns rc, a', port') ->
          rc <> DC_STATUS_PROTOCOL -> rc <> DC_STATUS_TIMEOUT ->
          transfer_with crc hex2bin maxretries port command a asize
          = Some (Returns rc, a', port')
          /\ port' = skipn (S k) port).
Proof.
  intros port0 port1 port2 port3 port4 command a0 a1 a2 a3 a4 asize H1 H2 H3 H4.
  unfold transfer_with.
  change (Z.to_nat 4) with 4%nat. change (Z.to_nat 3) with 3%nat.
  change (Z.to_nat 2) with 2%nat.
  split; [|split; [|split]].
  - rewrite (loop_retries _ _ _ _ _ _ _ _ _ _ H1) by (reflexivity || lia).
    rewrite (loop_retries _ _ _ _ _ _ _ _ _ _ H2) by (reflexivity || lia).
    rewrite (loop_retries _ _ _ _ _ _ _ _ _ _ H3) by (reflexivity || lia).
    eapply loop_success; eassumption.
  - rewrite (loop_retries _ _ _ _ _ _ _ _ _ _ H1) by (reflexivity || lia).
    rewrite (loop_retries _ _ _ _ _ _ _ _ _ _ H2) by (reflexivity || lia).
    rewrite (loop_retries _ _ _ _ _ _ _ _ _ _ H3) by (reflexivity || lia).
    eapply loop_success; eassumption.
  - rewrite (loop_retries _ _ _ _ _ _ _ _ _ _ H1) by (reflexivity || lia).
    rewrite (loop_retries _ _ _ _ _ _ _ _ _ _ H2) by (reflexivity || lia).
    eapply loop_gives_up; [eassumption|discriminate|lia].
  - intros maxretries port a a' port' rc k Hk Hbefore Hp Hpr Ht.
    pose proof (attempt_port command asize k port a) as Hport.
    rewrite Hp in Hport. cbn [snd] in Hport.
    split; [|exact Hport].
    rewrite <- Hp.
    apply loop_is_attempt; try assumption; try lia.
    left. rewrite Hp. cbn [fst failed_retriably].
    destruct rc; try reflexivity; contradiction.
Qed.

End WithHelpers.

Import Fixtures.

(** The hypotheses of [transfer_retries] hold on a line that delivers three
    frames with a wrong checksum and then a good one; an I/O error after two
    such frames ends the transfer on the spot, at the third attempt. *)
Lemma transfer_retries_witness :
  transfer_with crc_ccitt hex2bin 4 noisy_line command (zeroed 8) 8
  = Some (Returns DC_STATUS_SUCCESS, good_frame, [])
  /\ transfer_with crc_ccitt hex2bin 3 noisy_line command (zeroed 8) 8
     = Some (Returns DC_STATUS_SUCCESS, good_frame, [])
  /\ transfer_with crc_ccitt hex2bin 2 noisy_line command (zeroed 8) 8
     = Some (Returns DC_STATUS_PROTOCOL, bad_frame, [arrives good_frame])
  /\ transfer_with crc_ccitt hex2bin 4 FixturesMore.failing_line command
       (zeroed 8) 8
     = Some (Returns DC_STATUS_IO, bad_frame, [arrives good_frame])
  /\ [arrives good_frame] = skipn 3 FixturesMore.failing_line.
Proof.
  assert (P1 : cressi_leonardo_packet crc_ccitt hex2bin noisy_line command
                 (zeroed 8) 8
               = (Returns DC_STATUS_PROTOCOL, bad_frame, skipn 1 noisy_line))
    by (vm_compute; reflexivity).
  assert (P2 : cressi_leonardo_packet crc_ccitt hex2bin (skipn 1 noisy_line)
                 command bad_frame 8
               = (Returns DC_STATUS_PROTOCOL, bad_frame, skipn 2 noisy_line))
    by (vm_compute; reflexivity).
  assert (P3 : cressi_leonardo_packet crc_ccitt hex2bin (skipn 2 noisy_line)
                 command bad_frame 8
               = (Returns DC_STATUS_PROTOCOL, bad_frame, skipn 3 noisy_line))
    by (vm_compute; reflexivity).
  assert (P4 : cressi_leonardo_packet crc_ccitt hex2bin (skipn 3 noisy_line)
                 command bad_frame 8
               = (Returns DC_STATUS_SUCCESS, good_frame, []))
    by (vm_compute; reflexivity).
  assert (P5 : attempt crc_ccitt hex2bin 2 FixturesMore.failing_line command
                 (zeroed 8) 8
               = (Returns DC_STATUS_IO, bad_frame, [arrives good_frame]))
    by (vm_compute; reflexivity).
  destruct (transfer_retries crc_ccitt hex2bin _ _ _ _ _ _ _ _ _ _ _ _
              P1 P2 P3 P4) as (H4 & H3 & H2 & Hother).
  split; [exact H4|]. split; [exact H3|]. split; [exact H2|].
  apply (Hother 4 FixturesMore.failing_line (zeroed 8) bad_frame
           [arrives good_frame] DC_STATUS_IO 2%nat);
    [lia| |exact P5|discriminate..].
  intros j Hj.
  destruct j as [|[|j]]; [vm_compute; reflexivity..|lia].
Defined.

(** With fewer than six bytes to receive the count of the checksummed bytes
    wraps around: a call for five bytes that finds both braces in place
    reads outside the answer. *)
Lemma packet_of_five_bytes :
  cressi_leonardo_packet crc_ccitt hex2bin
    [arrives [x7b; x30; x30; x30; x7d]] command (zeroed 5) 5
  = (Fault, [x7b; x30; x30; x30; x7d], []).
Proof. vm_compute. reflexivity. Qed.

(** C3 as stated fails: with a bound of 3 retries the fourth attempt is
    still made, and the transfer succeeds with its answer instead of failing
    with [Protocol]. *)
Lemma transfer_bound_3_counterexample :
  fst (fst (cressi_leonardo_packet crc_ccitt hex2bin noisy_line command
              (zeroed 8) 8)) = Returns DC_STATUS_PROTOCOL
  /\ fst (fst (cressi_leonardo_packet crc_ccitt hex2bin (skipn 1 noisy_line)
                 command bad_frame 8)) = Returns DC_STATUS_PROTOCOL
  /\ fst (fst (cressi_leonardo_packet crc_ccitt hex2bin (skipn 2 noisy_line)
                 command bad_frame 8)) = Returns DC_STATUS_PROTOCOL
  /\ fst (fst (cressi_leonardo_packet crc_ccitt hex2bin (skipn 3 noisy_line)
                 command bad_frame 8)) = Returns DC_STATUS_SUCCESS
  /\ transfer_with crc_ccitt hex2bin 3 noisy_line command (zeroed 8) 8
     = Some (Returns DC_STATUS_SUCCESS, good_frame, [])
  /\ ~ (exists answer port,
          transfer_with crc_ccitt hex2bin 3 noisy_line command (zeroed 8) 8
          = Some (Returns DC_STATUS_PROTOCOL, answer, port)).
Proof.
  repeat (split; [vm_compute; reflexivity|]).
  intros (answer & port & H). vm_compute in H. discriminate H.
Qed.

End TransferProofs.

(** ** The Uwatec Smart extractor *)

Module SmartProofs.

Import UwatecSmart.

Section WithConsumer.

Variable U : Type.

Lemma search_loop_spec (fuel : nat) :
  forall (data : list byte) (callback : option (dc_dive_callback_t U))
         (previous current : Z) (u : U) (done : list call),
    0 <= current <= previous -> current < Z.of_nat fuel ->
    exists r new,
      search_loop U fuel data callback previous current u done = Some r
      /\ calls U r = done ++ new
      /\ emitted_ok data previous new.
Proof.
  induction fuel as [|fuel IH]; intros data callback previous current u done
    Hc Hf; [lia|].
  cbn [search_loop].
  destruct (current >? 0) eqn:Epos.
  2:{ eexists. exists []. rewrite app_nil_r. repeat split. }
  destruct (memcmp_eq0 (ptr data (current - 1)) header 4) as [[|]|] eqn:Em.
  - destruct (array_uint32_le (ptr data (current - 1 + 4))) as [len|] eqn:El.
    2:{ eexists. exists []. rewrite app_nil_r. repeat split. }
    destruct (u32 (current - 1 + len) >? previous) eqn:Eo.
    { eexists. exists []. rewrite app_nil_r. repeat split. }
    set (next := if current - 1 >=? 4 then current - 1 - 4 else 0).
    assert (Hnext : 0 <= next <= current - 1 /\ next < Z.of_nat fuel)
      by (subst next; destruct (current - 1 >=? 4) eqn:E4; lia).
    destruct callback as [cb|].
    + destruct (cb (ptr data (current - 1)) len (ptr data (current - 1 + 8)) 4 u)
        as [go u'] eqn:Ecb.
      destruct go.
      * destruct (IH data (Some cb) (current - 1) next u'
                    (done ++ [mk_call (current - 1) len]))
          as (r & new & Hr & Hcalls & Hok); [lia|lia|].
        exists r, (mk_call (current - 1) len :: new).
        split; [exact Hr|]. split.
        { rewrite Hcalls, <- app_assoc. reflexivity. }
        cbn [emitted_ok call_offset call_size].
        repeat split; try assumption; lia.
      * eexists. exists [mk_call (current - 1) len].
        split; [reflexivity|]. split; [reflexivity|].
        cbn [emitted_ok call_offset call_size].
        repeat split; try assumption; lia.
    + destruct (IH data None (current - 1) next u done)
        as (r & new & Hr & Hcalls & Hok); [lia|lia|].
      exists r, new. split; [exact Hr|]. split; [exact Hcalls|].
      destruct new as [|c new']; [exact I|].
      cbn [emitted_ok] in *. repeat split; try apply Hok; lia.
  - destruct (IH data callback previous (current - 1) u done)
      as (r & new & Hr & Hcalls & Hok); [lia|lia|].
    exists r, new. auto.
  - eexists. exists []. rewrite app_nil_r. repeat split.
Qed.

(** The extractor always returns, and the calls it made satisfy
    [emitted_ok] from the end of the data downwards. *)
Lemma extract_dives_spec (abstract : option dc_device_t) (data : list byte)
    (callback : option (dc_dive_callback_t U)) (u : U) :
  exists r,
    uwatec_smart_extract_dives U abstract data callback u = Some r
    /\ emitted_ok data (size_of data) (calls U r).
Proof.
  unfold uwatec_smart_extract_dives.
  destruct (match abstract with
            | Some a => negb (ISINSTANCE a)
            | None => false
            end).
  { eexists. split; [reflexivity|exact I]. }
  pose proof (ArrayFacts.size_of_nonneg data) as Hs.
  destruct (search_loop_spec
              (S (Z.to_nat (if size_of data >=? 4 then size_of data - 4 else 0)))
              data callback (size_of data)
              (if size_of data >=? 4 then size_of data - 4 else 0) u [])
    as (r & new & Hr & Hcalls & Hok).
  - destruct (size_of data >=? 4) eqn:E; lia.
  - destruct (size_of data >=? 4) eqn:E; lia.
  - exists r. split; [exact Hr|]. rewrite Hcalls. exact Hok.
Qed.

(** An input of fewer than four bytes yields success and no call. *)
Lemma short_input (data : list byte) (callback : option (dc_dive_callback_t U))
    (u : U) :
  size_of data < 4 ->
  uwatec_smart_extract_dives U None data callback u
  = Some (mk_run U (Returns DC_STATUS_SUCCESS) [] u).
Proof.
  intros H. unfold uwatec_smart_extract_dives.
  destruct (size_of data >=? 4) eqn:E; [lia|]. reflexivity.
Qed.

End WithConsumer.

Import Fixtures.

(** C10, at the input on which the code breaks it.  The 13-byte array holds
    a marker at offset 1 followed by the length 0xFFFFFFFF.  The length check
    adds offset and length in 32 bits, the sum wraps to 0, and the consumer
    is called with a record of 4294967295 bytes that runs far beyond the end
    of the data (the start of the previous record), while the function
    returns success instead of [DataFormat]. *)
Theorem smart_length_check_wraps :
  uwatec_smart_extract_dives nat None smart_overflow (Some counting) O
  = Some (mk_run nat (Returns DC_STATUS_SUCCESS) [mk_call 1 4294967295] 1%nat)
  /\ memcmp_eq0 (ptr smart_overflow 1) header 4 = Some true
  /\ array_uint32_le (ptr smart_overflow (1 + 4)) = Some 4294967295
  /\ 1 + 4294967295 > size_of smart_overflow
  /\ u32 (1 + 4294967295) = 0.
Proof. repeat split; vm_compute; reflexivity. Qed.

End SmartProofs.

(** ** Socket transfers *)

Module SocketProofs.

Import ArrayFacts.
Import Socket.

(** A turn that is retried leaves the loop where it was. *)
Lemma read_pass_retried (socket : dc_socket_t) (size nbytes : Z)
    (t : turn (list byte)) :
  read_retried socket t = true -> read_pass socket size nbytes t = Retry.
Proof.
  unfold read_retried, readable_in_time, read_pass.
  destruct t as [r m]; cbn [ready moves].
  destruct r as [us| |e].
  - destruct (select (ReadyAfter us) (read_wait socket)) as [[e'| |]|];
      cbn [andb]; try discriminate.
    destruct m as [e|bs]; [|discriminate].
    destruct e; try discriminate; reflexivity.
  - destruct (select NeverReady (read_wait socket)) as [[e'| |]|];
      cbn [andb]; try discriminate.
    destruct m as [e|bs]; [|discriminate].
    destruct e; try discriminate; reflexivity.
  - destruct e; try reflexivity;
      cbn [select andb]; discriminate.
Qed.

(** A turn that delivers bytes which fit into the rest of the request moves
    exactly these bytes. *)
Lemma read_pass_delivers (socket : dc_socket_t) (size nbytes : Z)
    (t : turn (list byte)) (bs : list byte) :
  read_delivers socket t = Some bs -> size_of bs <= size - nbytes ->
  read_pass socket size nbytes t = Moved bs.
Proof.
  unfold read_delivers, readable_in_time, read_pass.
  destruct (select (ready t) (read_wait socket)) as [[e| |]|]; try discriminate.
  destruct (moves t) as [e|[|b bs']]; try discriminate.
  intros H Hfit. injection H as <-.
  cbn [recv]. unfold size_of in Hfit.
  rewrite firstn_all2 by lia. reflexivity.
Qed.

(** A turn on which the wait expires or the peer has closed ends the loop. *)
Lemma read_pass_stops (socket : dc_socket_t) (size nbytes : Z)
    (t : turn (list byte)) :
  read_stops socket t = true -> read_pass socket size nbytes t = Leave.
Proof.
  unfold read_stops, read_pass.
  destruct (select (ready t) (read_wait socket)) as [[e| |]|]; try discriminate.
  - reflexivity.
  - destruct (moves t) as [e|[|b bs']]; try discriminate.
    intros _. cbn [recv]. rewrite firstn_nil. reflexivity.
Qed.

Lemma read_delivers_nonempty (socket : dc_socket_t) (t : turn (list byte))
    (bs : list byte) :
  read_delivers socket t = Some bs -> 0 < size_of bs.
Proof.
  unfold read_delivers. destruct (readable_in_time socket t); [|discriminate].
  destruct (moves t) as [e|[|b bs']]; try discriminate.
  intros H. injection H as <-. unfold size_of. cbn [length]. lia.
Qed.

Lemma size_of_app (a b : list byte) : size_of (a ++ b) = size_of a + size_of b.
Proof. unfold size_of. rewrite length_app. lia. Qed.

(** The read loop over a run of retried and delivering turns followed by a
    turn that stops it. *)
Lemma read_loop_short (socket : dc_socket_t) (want_actual : bool) (size : Z)
    (pre : list (turn (list byte))) :
  forall (got : list byte) (stop : turn (list byte))
         (rest : list (turn (list byte))) (nbytes : Z) (data : list byte)
         (ws : list (option timeval)),
    delivered socket pre = Some got ->
    nbytes + size_of got < size ->
    read_stops socket stop = true ->
    read_loop socket want_actual size (pre ++ stop :: rest) nbytes data ws
    = mk_run (Returns DC_STATUS_TIMEOUT)
        (if want_actual then Some (nbytes + size_of got) else None)
        (data ++ got)
        (ws ++ repeat (read_wait socket) (S (length pre))).
Proof.
  induction pre as [|t pre IH]; intros got stop rest nbytes data ws Hd Hlt Hs.
  - cbn [delivered] in Hd. injection Hd as <-.
    change (size_of []) with 0 in *. rewrite Z.add_0_r in *.
    cbn [app read_loop length repeat].
    destruct (nbytes <? size) eqn:E; [|lia].
    rewrite (read_pass_stops _ _ _ _ Hs). unfold finish.
    destruct (nbytes =? size) eqn:E'; [lia|]. cbn [negb].
    rewrite app_nil_r. reflexivity.
  - pose proof (size_of_nonneg got) as Hg.
    cbn [delivered] in Hd. cbn [app read_loop].
    destruct (nbytes <? size) eqn:E; [|lia].
    destruct (read_retried socket t) eqn:Er.
    + rewrite (read_pass_retried _ _ _ _ Er).
      rewrite (IH got stop rest nbytes data _ Hd Hlt Hs).
      rewrite <- app_assoc. reflexivity.
    + destruct (read_delivers socket t) as [bs|] eqn:Eb; [|discriminate].
      destruct (delivered socket pre) as [got'|] eqn:Eg; [|discriminate].
      injection Hd as <-. rewrite size_of_app in Hlt.
      pose proof (size_of_nonneg got') as Hg'.
      rewrite (read_pass_delivers _ _ _ _ _ Eb) by lia.
      rewrite (IH got' stop rest (nbytes + size_of bs) (data ++ bs) _
                 eq_refl) by (assumption || lia).
      rewrite size_of_app, <- !app_assoc, Z.add_assoc. reflexivity.
Qed.

(** C8. When the turns of a read are retried (an interrupted wait, an
    interrupted or would-block [recv]) or deliver bytes, fewer than [size]
    bytes in all, and then a wait expires or the peer closes, the read
    returns [Timeout], stores the number of bytes received through [actual]
    (when that pointer is given) and has received exactly the bytes that were
    delivered; none of the retried conditions reaches the caller. *)
Theorem socket_read_short_is_timeout :
  forall (socket : dc_socket_t) (size : Z) (want_actual : bool)
         (pre : list (turn (list byte))) (stop : turn (list byte))
         (rest : list (turn (list byte))) (got : list byte),
    delivered socket pre = Some got ->
    size_of got < size ->
    read_stops socket stop = true ->
    let r := dc_socket_read socket size want_actual (pre ++ stop :: rest) in
    result r = Returns DC_STATUS_TIMEOUT
    /\ actual_out r = (if want_actual then Some (size_of got) else None)
    /\ moved r = got.
Proof.
  intros socket size want_actual pre stop rest got Hd Hlt Hs r. subst r.
  unfold dc_socket_read.
  rewrite (read_loop_short socket want_actual size pre got stop rest 0 [] []
             Hd) by (assumption || lia).
  cbn [result actual_out moved app]. rewrite Z.add_0_l. auto.
Qed.

(** A peer that sends two bytes of four, with an interrupted wait and a
    would-block [recv] in between, and then falls silent (timeout 1000 ms);
    and a peer that sends one byte and closes. *)
Lemma socket_read_short_is_timeout_witness :
  dc_socket_read (mk_socket 3 1000) 4 true
    [mk_turn (ReadyAfter 10) (IoMoves [x01]);
     mk_turn (WaitFails S_EINTR) (IoMoves []);
     mk_turn (ReadyAfter 0) (IoError S_EAGAIN);
     mk_turn (ReadyAfter 999999) (IoMoves [x02]);
     mk_turn (ReadyAfter 2000000) (IoMoves [x03; x04])]
  = mk_run (Returns DC_STATUS_TIMEOUT) (Some 2) [x01; x02]
      (repeat (Some (mk_timeval 1 0)) 5)
  /\ result (dc_socket_read (mk_socket 3 (-1)) 4 true
               [mk_turn (ReadyAfter 10) (IoMoves [x01]);
                mk_turn (ReadyAfter 10) (IoMoves [])])
     = Returns DC_STATUS_TIMEOUT.
Proof.
  split.
  - pose proof (socket_read_short_is_timeout (mk_socket 3 1000) 4 true
      [mk_turn (ReadyAfter 10) (IoMoves [x01]);
       mk_turn (WaitFails S_EINTR) (IoMoves []);
       mk_turn (ReadyAfter 0) (IoError S_EAGAIN);
       mk_turn (ReadyAfter 999999) (IoMoves [x02])]
      (mk_turn (ReadyAfter 2000000) (IoMoves [x03; x04])) [] [x01; x02]
      eq_refl eq_refl eq_refl) as H.
    cbv zeta in H. destruct H as (_ & _ & _). reflexivity.
  - exact (proj1 (socket_read_short_is_timeout (mk_socket 3 (-1)) 4 true
      [mk_turn (ReadyAfter 10) (IoMoves [x01])]
      (mk_turn (ReadyAfter 10) (IoMoves [])) [] [x01]
      eq_refl eq_refl eq_refl)).
Defined.

(** *** The waits *)

Lemma read_wait_is_timeout (socket : dc_socket_t) :
  0 <= timeout socket ->
  exists tv, read_wait socket = Some tv
             /\ microseconds tv = timeout socket * 1000.
Proof.
  intros H. unfold read_wait.
  destruct (timeout socket >? 0) eqn:E.
  - eexists. split; [reflexivity|]. unfold microseconds. cbn [tv_sec tv_usec].
    pose proof (Z.div_mod (timeout socket) 1000). lia.
  - destruct (timeout socket =? 0) eqn:E0; [|lia].
    eexists. split; [reflexivity|]. unfold microseconds. cbn [tv_sec tv_usec].
    lia.
Qed.

(** With a timeout every [select] returns. *)
Lemma select_returns (r : readiness) (tv : timeval) :
  exists s, select r (Some tv) = Some s.
Proof.
  destruct r as [us| |e]; cbn [select]; eauto.
  destruct (us <=? microseconds tv); eauto.
Qed.

Lemma read_pass_not_blocked (socket : dc_socket_t) (size nbytes : Z)
    (t : turn (list byte)) :
  0 <= timeout socket -> read_pass socket size nbytes t <> Blocked.
Proof.
  intros H. destruct (read_wait_is_timeout socket H) as (tv & Hw & _).
  unfold read_pass. rewrite Hw.
  destruct (select_returns (ready t) tv) as (s & ->).
  destruct s as [e| |].
  - destruct e; discriminate.
  - discriminate.
  - destruct (recv (moves t) (size - nbytes)) as [e|[|b bs]];
      try discriminate. destruct e; discriminate.
Qed.

Lemma read_pass_quiet (socket : dc_socket_t) (size nbytes : Z) :
  0 <= timeout socket -> read_pass socket size nbytes (quiet []) = Leave.
Proof.
  intros H. destruct (read_wait_is_timeout socket H) as (tv & Hw & _).
  unfold read_pass. rewrite Hw. reflexivity.
Qed.

(** With a non-negative timeout the read loop returns on every script, and
    every wait it made carried that timeout. *)
Lemma read_loop_returns (socket : dc_socket_t) (want_actual : bool) (size : Z)
    (script : list (turn (list byte))) :
  0 <= timeout socket ->
  forall (nbytes : Z) (data : list byte) (ws : list (option timeval)),
    Forall (fun w => w = read_wait socket) ws ->
    result (read_loop socket want_actual size script nbytes data ws) <> Hangs
    /\ Forall (fun w => w = read_wait socket)
         (waits (read_loop socket want_actual size script nbytes data ws)).
Proof.
  intros Ht. induction script as [|t script IH]; intros nbytes data ws Hws.
  - cbn [read_loop]. destruct (nbytes <? size).
    + rewrite (read_pass_quiet _ _ _ Ht). cbn [finish result waits].
      split; [discriminate|]. apply Forall_app. auto.
    + cbn [finish result waits]. split; [discriminate|assumption].
  - cbn [read_loop]. destruct (nbytes <? size).
    + assert (Hws' : Forall (fun w => w = read_wait socket)
                       (ws ++ [read_wait socket]))
        by (apply Forall_app; auto).
      pose proof (read_pass_not_blocked socket size nbytes t Ht) as Hnb.
      destruct (read_pass socket size nbytes t) as [|bs| |st|].
      * apply IH; assumption.
      * apply IH; assumption.
      * cbn [finish result waits]. split; [discriminate|assumption].
      * cbn [finish result waits]. split; [discriminate|assumption].
      * contradiction.
    + cbn [finish result waits]. split; [discriminate|assumption].
Qed.

(** The write loop hands no timeout to any of its waits. *)
Lemma write_loop_waits (socket : dc_socket_t) (want_actual : bool)
    (data : list byte) (script : list (turn nat)) :
  forall (nbytes : Z) (ws : list (option timeval)),
    Forall (fun w => w = None) ws ->
    Forall (fun w => w = None)
      (waits (write_loop socket want_actual data script nbytes ws)).
Proof.
  induction script as [|t script IH]; intros nbytes ws Hws.
  - cbn [write_loop]. destruct (nbytes <? size_of data).
    + assert (Hws' : Forall (fun w : option timeval => w = None)
                       (ws ++ [write_wait socket]))
        by (apply Forall_app; auto).
      destruct (write_pass socket (size_of data) nbytes (quiet O));
        cbn [finish waits]; assumption.
    + cbn [finish waits]. assumption.
  - cbn [write_loop]. destruct (nbytes <? size_of data).
    + assert (Hws' : Forall (fun w : option timeval => w = None)
                       (ws ++ [write_wait socket]))
        by (apply Forall_app; auto).
      destruct (write_pass socket (size_of data) nbytes t);
        cbn [finish waits]; try assumption; apply IH; assumption.
    + cbn [finish waits]. assumption.
Qed.

(** A write to a peer that never becomes ready never returns, whatever the
    timeout of the handle. *)
Lemma write_blocks (socket : dc_socket_t) (want_actual : bool)
    (data : list byte) (rest : list (turn nat)) (moves0 : io_t nat) :
  0 < size_of data ->
  result (dc_socket_write socket data want_actual []) = Hangs
  /\ result (dc_socket_write socket data want_actual
               (mk_turn NeverReady moves0 :: rest)) = Hangs.
Proof.
  intros H. unfold dc_socket_write. cbn [write_loop].
  destruct (0 <? size_of data) eqn:E; [|lia].
  split; reflexivity.
Qed.

(** Turns that are retried add one wait each and nothing else. *)
Lemma read_loop_retried (socket : dc_socket_t) (want_actual : bool)
    (size : Z) (pre : list (turn (list byte))) :
  forall (rest : list (turn (list byte))) (nbytes : Z) (data : list byte)
         (ws : list (option timeval)),
    forallb (read_retried socket) pre = true ->
    nbytes < size ->
    read_loop socket want_actual size (pre ++ rest) nbytes data ws
    = read_loop socket want_actual size rest nbytes data
        (ws ++ repeat (read_wait socket) (length pre)).
Proof.
  induction pre as [|t pre IH]; intros rest nbytes data ws Hall Hlt.
  - cbn [app length repeat]. rewrite app_nil_r. reflexivity.
  - cbn [forallb] in Hall. apply andb_prop in Hall. destruct Hall as [Ht Hall].
    cbn [app read_loop]. destruct (nbytes <? size) eqn:E; [|lia].
    rewrite (read_pass_retried _ _ _ _ Ht).
    rewrite IH by assumption.
    cbn [length repeat]. rewrite <- app_assoc. reflexivity.
Qed.

(** C9, as the code has it.  The framed transfer makes at most
    [maxretries + 1] attempts and returns.  With a non-negative timeout each
    readiness wait of [dc_socket_read] carries exactly the timeout of the
    handle; their number has no bound: every interrupted wait and every
    interrupted or would-block [recv] is answered by a new wait with the
    full timeout, so a read that meets [n] of them waits [n + 1] times.
    [dc_socket_write] hands no timeout to any of its readiness waits,
    whatever the handle's timeout: a write to a peer that never becomes
    ready never returns. *)
Theorem waits_and_retries_bounded :
  forall (crc : list byte -> Z) (hex2bin : list byte -> list byte)
         (maxretries : Z) (port : CressiLeonardo.dc_serial_t)
         (command answer : list byte) (asize : Z)
         (socket : dc_socket_t) (size : Z) (want_actual : bool)
         (rscript retried : list (turn (list byte))) (data : list byte)
         (wscript : list (turn nat)),
    0 <= maxretries ->
    0 <= timeout socket ->
    0 < size ->
    forallb (read_retried socket) retried = true ->
    0 < size_of data ->
    (exists o answer' k,
        CressiLeonardo.transfer_with crc hex2bin maxretries port command
          answer asize = Some (o, answer', skipn k port)
        /\ (1 <= k)%nat /\ Z.of_nat k <= maxretries + 1)
    /\ (exists tv,
          microseconds tv = timeout socket * 1000
          /\ Forall (fun w => w = Some tv)
               (waits (dc_socket_read socket size want_actual rscript))
          /\ waits (dc_socket_read socket size want_actual retried)
             = repeat (Some tv) (S (length retried)))
    /\ Forall (fun w => w = None)
         (waits (dc_socket_write socket data want_actual wscript))
    /\ result (dc_socket_write socket data want_actual []) = Hangs.
Proof.
  intros crc hex2bin maxretries port command answer asize socket size
    want_actual rscript retried data wscript Hm Ht Hsize Hretried Hd.
  split; [apply TransferProofs.transfer_bounded; assumption|].
  destruct (read_loop_returns socket want_actual size rscript Ht 0 [] [])
    as [_ Hw]; [constructor|].
  split.
  { destruct (read_wait_is_timeout socket Ht) as (tv & Hrw & Hus).
    exists tv. split; [exact Hus|].
    split; [unfold dc_socket_read; rewrite <- Hrw; exact Hw|].
    unfold dc_socket_read.
    rewrite <- (app_nil_r retried).
    rewrite read_loop_retried by (assumption || lia).
    cbn [read_loop app]. destruct (0 <? size) eqn:E; [|lia].
    rewrite (read_pass_quiet _ _ _ Ht). cbn [finish waits].
    rewrite Hrw.
    change [Some tv] with (repeat (Some tv) 1).
    rewrite <- repeat_app, length_app. f_equal. cbn [length]. lia. }
  split.
  { apply write_loop_waits. constructor. }
  apply (write_blocks socket want_actual data [] (IoMoves O) Hd).
Qed.

(** A read that is interrupted twice waits three times, a second each; a
    write on the same handle to a peer that never becomes ready does not
    return. *)
Lemma waits_and_retries_bounded_witness :
  (exists tv,
      microseconds tv = timeout (mk_socket 3 1000) * 1000
      /\ waits (dc_socket_read (mk_socket 3 1000) 1 true
                  [mk_turn (WaitFails S_EINTR) (IoMoves []);
                   mk_turn (ReadyAfter 0) (IoError S_EAGAIN)])
         = repeat (Some tv) 3)
  /\ result (dc_socket_write (mk_socket 3 1000) [x01] true []) = Hangs.
Proof.
  destruct (waits_and_retries_bounded Fixtures.crc_ccitt Fixtures.hex2bin 4
              Fixtures.noisy_line Fixtures.command (Fixtures.zeroed 8) 8
              (mk_socket 3 1000) 1 true []
              [mk_turn (WaitFails S_EINTR) (IoMoves []);
               mk_turn (ReadyAfter 0) (IoError S_EAGAIN)] [x01] [])
    as (_ & (tv & Hus & _ & Hn) & _ & Hw).
  - lia.
  - cbn [timeout]. lia.
  - lia.
  - reflexivity.
  - cbv. reflexivity.
  - split; [|exact Hw]. exists tv. split; [exact Hus|exact Hn].
Defined.

(** C9 as stated fails: on a handle with a timeout of 1000 ms, the readiness
    wait of a one-byte write carries no timeout and, the peer never becoming
    ready, the write never returns; the read on the same handle gives up
    with [Timeout]. *)
Lemma socket_write_counterexample :
  timeout (mk_socket 3 1000) = 1000
  /\ dc_socket_write (mk_socket 3 1000) [x01] true []
     = mk_run Hangs None [] [None]
  /\ dc_socket_read (mk_socket 3 1000) 1 true []
     = mk_run (Returns DC_STATUS_TIMEOUT) (Some 0) []
         [Some (mk_timeval 1 0)].
Proof. repeat split. Qed.

End SocketProofs.

(** ** The Cressi Leonardo extractor *)

Module ExtractProofs.

Import ArrayFacts.
Import Ringbuffer CressiLeonardo Image.

Lemma count_60 : RB_LOGBOOK_COUNT = 60.
Proof. reflexivity. Qed.

Lemma visited_range (latest i : Z) : 0 <= visited latest i < 60.
Proof.
  unfold visited. rewrite count_60. apply Z.mod_pos_bound. lia.
Qed.

Lemma slot_offset_range (idx : Z) :
  0 <= idx < 60 -> 256 <= slot_offset idx /\ slot_offset idx + 82 <= 5176.
Proof.
  unfold slot_offset, RB_LOGBOOK_BEGIN, RB_LOGBOOK_SIZE. lia.
Qed.

Lemma u32_small (x : Z) : 0 <= x < 2 ^ 32 -> u32 x = x.
Proof. intros H. unfold u32. apply Z.mod_small. exact H. Qed.

Lemma u32_range (x : Z) : 0 <= u32 x < 2 ^ 32.
Proof. unfold u32. apply Z.mod_pos_bound. lia. Qed.

Lemma in_profile_true (p : Z) :
  in_profile p = true -> 5176 <= p /\ p + 2 <= 32000.
Proof.
  unfold in_profile, RB_PROFILE_BEGIN, RB_PROFILE_END, SZ_MEMORY. lia.
Qed.

(** The distance between two pointers of the profile area is less than the
    size of the ring. *)
Lemma distance_range (h f : Z) :
  5176 <= h -> h + 2 <= 32000 -> 5176 <= f -> f + 2 <= 32000 ->
  0 <= RB_PROFILE_DISTANCE h f < 26824.
Proof.
  intros. unfold RB_PROFILE_DISTANCE, ringbuffer_distance, distance,
    RB_PROFILE_END, RB_PROFILE_BEGIN, SZ_MEMORY.
  change (32000 - 5176) with 26824.
  destruct (h <? f) eqn:E1.
  - rewrite Z.mod_small by lia. lia.
  - destruct (h >? f) eqn:E2.
    + rewrite Z.mod_small by lia. lia.
    + cbn. lia.
Qed.


(** The fields of a slot are read inside the image. *)
Lemma ptr_ptr (data : list byte) (a b : Z) :
  0 <= a -> 0 <= b -> ptr (ptr data a) b = ptr data (a + b).
Proof.
  intros Ha Hb. unfold ptr. rewrite skipn_skipn. f_equal. lia.
Qed.

Section WithConsumer.

Variable U : Type.

Local Notation "'walk_t'" := (walk U).

(** [walk_step] in the vocabulary of [Image]. *)
Lemma walk_step_eq (device : option cressi_leonardo_device_t)
    (data : list byte) (callback : option (dc_dive_callback_t U))
    (latest i : Z) (w : walk U) :
  walk_step U device data callback latest i w
  = let idx := visited latest i in
    let offset := slot_offset idx in
    match slot_header data idx, slot_footer data idx with
    | Some header, Some footer =>
        if negb (in_profile header && in_profile footer)
        then (Exit (Returns DC_STATUS_DATAFORMAT), free U w)
        else if negb (previous U w =? 0) && negb (previous U w =? footer + 2)
        then (Exit (Returns DC_STATUS_DATAFORMAT), free U w)
        else
          match fingerprint_matches device (ptr data (offset + 8)) with
          | None => (Exit Fault, w)
          | Some true => (Break, w)
          | Some false =>
              match memcpy (buffer U w) 0 (ptr data offset) RB_LOGBOOK_SIZE with
              | None => (Exit Fault, w)
              | Some buf =>
                  let length := u32 (RB_PROFILE_DISTANCE header footer - 2) in
                  if negb (remaining U w =? 0)
                     && (remaining U w >=? u32 (length + 4))
                  then
                    match array_uint16_le (ptr data footer),
                          array_uint16_le (ptr data header) with
                    | Some header2, Some footer2 =>
                        if negb (header2 =? header) || negb (footer2 =? footer)
                        then (Exit (Returns DC_STATUS_DATAFORMAT), free U w)
                        else
                          match copy_profile buf data (header + 2) length with
                          | Some buf' =>
                              deliver U callback w buf' header length
                                (u32 (remaining U w - u32 (length + 4)))
                          | None => (Exit Fault, w)
                          end
                    | _, _ => (Exit Fault, w)
                    end
                  else deliver U callback w buf header 0 0
              end
          end
    | _, _ => (Exit Fault, w)
    end.
Proof.
  unfold walk_step, slot_header, slot_footer, visited, slot_offset, in_profile.
  cbv zeta.
  destruct (array_uint16_le _) as [h|]; [|reflexivity].
  destruct (array_uint16_le _) as [f|]; [|reflexivity].
  assert (E : ((h <? RB_PROFILE_BEGIN) || (h + 2 >? RB_PROFILE_END)
               || (f <? RB_PROFILE_BEGIN) || (f + 2 >? RB_PROFILE_END))
              = negb ((RB_PROFILE_BEGIN <=? h) && (h + 2 <=? RB_PROFILE_END)
                      && ((RB_PROFILE_BEGIN <=? f)
                          && (f + 2 <=? RB_PROFILE_END)))).
  { destruct (h <? RB_PROFILE_BEGIN) eqn:E1,
             (h + 2 >? RB_PROFILE_END) eqn:E2,
             (f <? RB_PROFILE_BEGIN) eqn:E3,
             (f + 2 >? RB_PROFILE_END) eqn:E4,
             (RB_PROFILE_BEGIN <=? h) eqn:E5,
             (h + 2 <=? RB_PROFILE_END) eqn:E6,
             (RB_PROFILE_BEGIN <=? f) eqn:E7,
             (f + 2 <=? RB_PROFILE_END) eqn:E8; try reflexivity; lia. }
  rewrite E. reflexivity.
Qed.

(** The copy of the logbook entry. *)
Lemma slot_copy (data buf0 : list byte) (idx : Z) :
  SZ_MEMORY <= size_of data -> 0 <= idx < 60 ->
  size_of buf0 = SZ_SCRATCH ->
  exists buf,
    memcpy buf0 0 (ptr data (slot_offset idx)) RB_LOGBOOK_SIZE = Some buf
    /\ size_of buf = SZ_SCRATCH
    /\ firstn (Z.to_nat RB_LOGBOOK_SIZE) buf = slot_bytes data idx.
Proof.
  intros Hs Hi Hb. pose proof (slot_offset_range idx Hi) as Ho.
  unfold SZ_MEMORY in Hs.
  destruct (memcpy_some buf0 (ptr data (slot_offset idx)) 0 RB_LOGBOOK_SIZE)
    as [buf Hbuf].
  - rewrite size_of_ptr by lia. unfold RB_LOGBOOK_SIZE. lia.
  - rewrite Hb. vm_compute. discriminate.
  - exists buf. split; [exact Hbuf|]. split.
    + rewrite <- Hb. eapply memcpy_size; [| |exact Hbuf];
        unfold RB_LOGBOOK_SIZE; lia.
    + unfold slot_bytes. eapply memcpy_start; [|exact Hbuf].
      unfold RB_LOGBOOK_SIZE; lia.
Qed.

(** The copy of a profile that fits into the ring leaves the logbook entry
    at the start of the buffer alone. *)
Lemma copy_profile_ok (data buf : list byte) (h len : Z) :
  SZ_MEMORY <= size_of data -> size_of buf = SZ_SCRATCH ->
  5176 <= h -> h + 2 <= 32000 -> 0 <= len <= 26822 ->
  exists buf',
    copy_profile buf data (h + 2) len = Some buf'
    /\ size_of buf' = SZ_SCRATCH
    /\ firstn (Z.to_nat RB_LOGBOOK_SIZE) buf'
       = firstn (Z.to_nat RB_LOGBOOK_SIZE) buf.
Proof.
  intros Hs Hb Hh1 Hh2 Hl. unfold copy_profile.
  unfold SZ_MEMORY in Hs.
  assert (HS : SZ_SCRATCH = 26906) by reflexivity.
  rewrite (u32_small (h + 2 + len)) by lia.
  unfold RB_PROFILE_END, RB_PROFILE_BEGIN, SZ_MEMORY, RB_LOGBOOK_SIZE.
  destruct (h + 2 + len >? 32000) eqn:E.
  - rewrite (u32_small (len - (32000 - (h + 2)))) by lia.
    destruct (memcpy_some buf (ptr data (h + 2)) 82 (32000 - (h + 2)))
      as [b1 Hb1].
    { rewrite size_of_ptr by lia. lia. }
    { lia. }
    rewrite Hb1.
    assert (Hs1 : size_of b1 = SZ_SCRATCH).
    { rewrite <- Hb. eapply memcpy_size; [| |exact Hb1]; lia. }
    destruct (memcpy_some b1 (ptr data 5176) (82 + (32000 - (h + 2)))
                (len - (32000 - (h + 2)))) as [b2 Hb2].
    { rewrite size_of_ptr by lia. lia. }
    { lia. }
    exists b2. split; [exact Hb2|]. split.
    + rewrite <- Hs1. eapply memcpy_size; [| |exact Hb2]; lia.
    + transitivity (firstn (Z.to_nat 82) b1).
      * eapply memcpy_prefix; [| | |exact Hb2]; lia.
      * eapply memcpy_prefix; [| | |exact Hb1]; lia.
  - destruct (memcpy_some buf (ptr data (h + 2)) 82 len) as [b1 Hb1].
    { rewrite size_of_ptr by lia. lia. }
    { lia. }
    exists b1. split; [exact Hb1|]. split.
    + rewrite <- Hb. eapply memcpy_size; [| |exact Hb1]; lia.
    + eapply memcpy_prefix; [| | |exact Hb1]; lia.
Qed.

(** What the consumer is handed starts with the logbook entry. *)
Lemma dive_slot_delivered (buf fp : list byte) (len : Z) :
  0 <= len <= 26822 ->
  dive_slot (mk_dive (firstn (Z.to_nat (u32 (RB_LOGBOOK_SIZE + len))) buf) fp)
  = firstn (Z.to_nat RB_LOGBOOK_SIZE) buf.
Proof.
  intros H. unfold dive_slot. cbn [dive_data].
  unfold RB_LOGBOOK_SIZE. rewrite u32_small by lia.
  rewrite firstn_firstn. f_equal. lia.
Qed.

(** With a consumer that goes on, [deliver] records one call and
    continues. *)
Lemma deliver_goes (cb : dc_dive_callback_t U) (w : walk U)
    (buf : list byte) (h len rem : Z) :
  always_goes cb ->
  exists d u',
    deliver U (Some cb) w buf h len rem
    = (Continue, mk_walk U h rem buf (freed U w) u' (calls U w ++ [d]))
    /\ d = mk_dive (firstn (Z.to_nat (u32 (RB_LOGBOOK_SIZE + len))) buf)
              (firstn (Z.to_nat SZ_FINGERPRINT) (ptr buf 8)).
Proof.
  intros Hg. unfold deliver.
  pose proof (Hg buf (u32 (RB_LOGBOOK_SIZE + len)) (ptr buf 8) SZ_FINGERPRINT
                (user U w)) as H.
  destruct (cb buf (u32 (RB_LOGBOOK_SIZE + len)) (ptr buf 8) SZ_FINGERPRINT
              (user U w)) as [go u'].
  cbn [fst] in H. subst go. eauto.
Qed.

(** A slot that passes the checks of the structure and does not carry the
    fingerprint is handed over: the body of the loop ends in [deliver], with
    the logbook entry at the start of the buffer. *)
Lemma step_delivers (device : option cressi_leonardo_device_t)
    (data : list byte) (callback : option (dc_dive_callback_t U))
    (latest i : Z) (w : walk U) :
  SZ_MEMORY <= size_of data -> sound w ->
  pointers_ok data (visited latest i) (previous U w) = true ->
  profile_ok data (visited latest i) = true ->
  fingerprint_matches device (ptr data (slot_offset (visited latest i) + 8))
  = Some false ->
  exists buf len rem,
    walk_step U device data callback latest i w
    = deliver U callback w buf (header_or_0 data (visited latest i)) len rem
    /\ size_of buf = SZ_SCRATCH
    /\ firstn (Z.to_nat RB_LOGBOOK_SIZE) buf
       = slot_bytes data (visited latest i)
    /\ 0 <= len <= 26822
    /\ 0 <= rem <= RB_PROFILE_END - RB_PROFILE_BEGIN.
Proof.
  intros Hs [Hb Hr] Hp Hq Hf.
  pose proof (visited_range latest i) as Hi.
  rewrite walk_step_eq. cbv zeta.
  unfold pointers_ok in Hp. unfold profile_ok in Hq. unfold header_or_0.
  destruct (slot_header data (visited latest i)) as [h|]; [|discriminate].
  destruct (slot_footer data (visited latest i)) as [f|]; [|discriminate].
  apply andb_prop in Hp. destruct Hp as [Hp Hc].
  rewrite Hp. cbn [negb]. apply andb_prop in Hp. destruct Hp as [Hh Hfo].
  apply in_profile_true in Hh, Hfo.
  assert (Ec : negb (previous U w =? 0) && negb (previous U w =? f + 2)
               = false).
  { apply orb_prop in Hc. destruct Hc as [->| ->]; cbn [negb andb];
      [reflexivity|apply andb_false_r]. }
  rewrite Ec, Hf.
  destruct (slot_copy data (buffer U w) (visited latest i) Hs Hi Hb)
    as (buf & Hbuf & Hsz & Hslot).
  rewrite Hbuf.
  apply andb_prop in Hq. destruct Hq as [Hd He].
  pose proof (distance_range h f ltac:(lia) ltac:(lia) ltac:(lia) ltac:(lia))
    as Hdist.
  assert (Hlen : u32 (RB_PROFILE_DISTANCE h f - 2)
                 = RB_PROFILE_DISTANCE h f - 2) by (apply u32_small; lia).
  rewrite Hlen.
  assert (Hlen4 : u32 (RB_PROFILE_DISTANCE h f - 2 + 4)
                  = RB_PROFILE_DISTANCE h f + 2) by (rewrite u32_small; lia).
  rewrite Hlen4.
  assert (HR : RB_PROFILE_END - RB_PROFILE_BEGIN = 26824) by reflexivity.
  rewrite HR in *.
  destruct (negb (remaining U w =? 0)
            && (remaining U w >=? RB_PROFILE_DISTANCE h f + 2)) eqn:Efit.
  - destruct (array_uint16_le (ptr data f)) as [h2|]; [|discriminate].
    destruct (array_uint16_le (ptr data h)) as [f2|]; [|discriminate].
    apply andb_prop in He. destruct He as [-> ->]. cbn [negb orb].
    destruct (copy_profile_ok data buf h (RB_PROFILE_DISTANCE h f - 2))
      as (buf' & Hcp & Hsz' & Hpre); try lia; try assumption.
    rewrite Hcp.
    exists buf', (RB_PROFILE_DISTANCE h f - 2),
      (u32 (remaining U w - (RB_PROFILE_DISTANCE h f + 2))).
    split; [reflexivity|]. split; [exact Hsz'|].
    split; [rewrite Hpre; exact Hslot|]. split; [lia|].
    apply andb_prop in Efit. destruct Efit as [_ Ege].
    rewrite u32_small by lia. lia.
  - exists buf, 0, 0. split; [reflexivity|]. split; [exact Hsz|].
    split; [exact Hslot|]. lia.
Qed.

(** A dive that does not end where the dive visited before it starts ends
    the extraction: the buffer is freed, the consumer is not called. *)
Lemma step_discontinuous (device : option cressi_leonardo_device_t)
    (data : list byte) (callback : option (dc_dive_callback_t U))
    (latest i : Z) (w : walk U) (h f : Z) :
  slot_header data (visited latest i) = Some h ->
  slot_footer data (visited latest i) = Some f ->
  in_profile h = true -> in_profile f = true ->
  previous U w <> 0 -> previous U w <> f + 2 ->
  walk_step U device data callback latest i w
  = (Exit (Returns DC_STATUS_DATAFORMAT), free U w).
Proof.
  intros Hh Hf Ih If Hp Hne.
  rewrite walk_step_eq. cbv zeta. rewrite Hh, Hf, Ih, If. cbn [andb negb].
  destruct (previous U w =? 0) eqn:E0; [lia|].
  destruct (previous U w =? f + 2) eqn:E2; [lia|]. reflexivity.
Qed.

(** A slot that passes the checks on its pointers and carries the
    fingerprint ends the loop. *)
Lemma step_breaks (device : option cressi_leonardo_device_t)
    (data : list byte) (callback : option (dc_dive_callback_t U))
    (latest i : Z) (w : walk U) :
  pointers_ok data (visited latest i) (previous U w) = true ->
  fingerprint_matches device (ptr data (slot_offset (visited latest i) + 8))
  = Some true ->
  walk_step U device data callback latest i w = (Break, w).
Proof.
  intros Hp Hf. rewrite walk_step_eq. cbv zeta.
  unfold pointers_ok in Hp.
  destruct (slot_header data (visited latest i)) as [h|]; [|discriminate].
  destruct (slot_footer data (visited latest i)) as [f|]; [|discriminate].
  apply andb_prop in Hp. destruct Hp as [Hp Hc].
  rewrite Hp. cbn [negb].
  assert (Ec : negb (previous U w =? 0) && negb (previous U w =? f + 2)
               = false).
  { apply orb_prop in Hc. destruct Hc as [->| ->]; cbn [negb andb];
      [reflexivity|apply andb_false_r]. }
  rewrite Ec, Hf. reflexivity.
Qed.

(** The comparison of the fingerprints, in terms of the identifier of the
    slot. *)
Lemma fingerprint_matches_ident (d : cressi_leonardo_device_t)
    (data : list byte) (idx : Z) :
  SZ_MEMORY <= size_of data -> 0 <= idx < 60 ->
  size_of (fingerprint d) = SZ_FINGERPRINT ->
  fingerprint_matches (Some d) (ptr data (slot_offset idx + 8))
  = Some (bytes_eqb (slot_ident data idx) (fingerprint d)).
Proof.
  intros Hs Hi Hd. pose proof (slot_offset_range idx Hi) as Ho.
  unfold SZ_MEMORY in Hs.
  unfold fingerprint_matches, memcmp_eq0.
  rewrite bytes_at_some
    by (rewrite size_of_ptr by lia; unfold SZ_FINGERPRINT; lia).
  rewrite bytes_at_some by lia.
  unfold slot_ident. f_equal. f_equal.
  apply firstn_all2. unfold size_of in Hd. lia.
Qed.

Section Loop.

Variable device : option cressi_leonardo_device_t.
Variable data : list byte.
Variable cb : dc_dive_callback_t U.
Variable latest : Z.

Hypothesis image_complete : SZ_MEMORY <= size_of data.
Hypothesis consumer_goes : always_goes cb.

(** [n] iterations over slots that pass the checks and do not carry the
    fingerprint hand over these [n] slots, in the order of the walk. *)
Lemma walk_loop_emits (n : nat) :
  forall (i : Z) (w : walk U),
    sound w ->
    structure_ok data latest i n (previous U w) = true ->
    unmatched device data (walked latest i n) ->
    exists w',
      walk_loop U n device data (Some cb) latest i w = (Continue, w')
      /\ sound w' /\ freed U w' = freed U w
      /\ map dive_slot (calls U w')
         = map dive_slot (calls U w)
           ++ map (slot_bytes data) (walked latest i n)
      /\ previous U w' = recorded data latest i n (previous U w).
Proof.
  induction n as [|n IH]; intros i w Hw Hok Hun.
  - exists w. cbn [walk_loop walked map recorded]. rewrite app_nil_r. auto.
  - cbn [structure_ok] in Hok.
    apply andb_prop in Hok. destruct Hok as [Hok Hrest].
    apply andb_prop in Hok. destruct Hok as [Hp Hq].
    destruct (step_delivers device data (Some cb) latest i w image_complete
                Hw Hp Hq) as (buf & len & rem & Hstep & Hsz & Hslot & Hl & Hr).
    { apply Hun. cbn [walked]. left. reflexivity. }
    destruct (deliver_goes cb w buf (header_or_0 data (visited latest i)) len
                rem consumer_goes) as (d & u' & Hdel & Hd).
    cbn [walk_loop]. rewrite Hstep, Hdel.
    destruct (IH (i + 1)
                (mk_walk U (header_or_0 data (visited latest i)) rem buf
                   (freed U w) u' (calls U w ++ [d])))
      as (w' & Hloop & Hs' & Hfr & Hcalls & Hprev).
    + split; assumption.
    + exact Hrest.
    + intros idx Hin. apply Hun. cbn [walked]. right. exact Hin.
    + exists w'. split; [exact Hloop|]. split; [exact Hs'|].
      split; [exact Hfr|]. split; [|exact Hprev].
      rewrite Hcalls. cbn [calls walked map].
      rewrite map_app, <- app_assoc. cbn [map app].
      rewrite Hd, dive_slot_delivered by assumption.
      rewrite Hslot. reflexivity.
Qed.

(** When the iteration that follows [n] continuing iterations exits, the
    loop exits with it, however many iterations were still to come. *)
Lemma walk_loop_exits (callback : option (dc_dive_callback_t U))
    (n extra : nat) :
  forall (i : Z) (w w1 w2 : walk U) (o : outcome),
    walk_loop U n device data callback latest i w = (Continue, w1) ->
    walk_step U device data callback latest (i + Z.of_nat n) w1 = (Exit o, w2) ->
    walk_loop U (n + S extra) device data callback latest i w = (Exit o, w2).
Proof.
  induction n as [|n IH]; intros i w w1 w2 o Hloop Hstep.
  - cbn [walk_loop] in Hloop. injection Hloop as <-.
    rewrite Z.add_0_r in Hstep. cbn [Nat.add walk_loop]. rewrite Hstep.
    reflexivity.
  - cbn [walk_loop] in Hloop. cbn [Nat.add walk_loop].
    destruct (walk_step U device data callback latest i w) as [[| |o'] w'];
      try discriminate.
    eapply IH; [exact Hloop|].
    replace (i + 1 + Z.of_nat n) with (i + Z.of_nat (S n)) by lia.
    exact Hstep.
Qed.


End Loop.

(** The extractor around its second loop. *)
Lemma extract_dives_eq (d : cressi_leonardo_device_t)
    (scratch data : list byte) (callback : option (dc_dive_callback_t U))
    (u : U) (count latest maximum : Z) :
  SZ_MEMORY <= size_of data ->
  scan_logbook data = Some (count, latest, maximum) ->
  cressi_leonardo_extract_dives U (Some (LeonardoDevice d)) (Some scratch)
    data callback u
  = match walk_loop U (Z.to_nat count) (Some d) data callback latest 0
            (mk_walk U 0 (RB_PROFILE_END - RB_PROFILE_BEGIN) scratch false u [])
    with
    | (Exit o, w) => mk_run U o (calls U w) (user U w) (freed U w)
    | (_, w) => mk_run U (Returns DC_STATUS_SUCCESS) (calls U w) (user U w) true
    end.
Proof.
  intros Hs Hscan. unfold cressi_leonardo_extract_dives.
  cbn [ISINSTANCE negb].
  destruct (size_of data <? SZ_MEMORY) eqn:E; [lia|].
  rewrite Hscan. reflexivity.
Qed.

Lemma sound_start (scratch : list byte) (u : U) :
  size_of scratch = SZ_SCRATCH ->
  sound (mk_walk U 0 (RB_PROFILE_END - RB_PROFILE_BEGIN) scratch false u []).
Proof.
  intros H. split; [exact H|]. cbn [remaining].
  unfold RB_PROFILE_END, RB_PROFILE_BEGIN, SZ_MEMORY. lia.
Qed.

Lemma walked_range (latest : Z) (n : nat) :
  forall i idx, In idx (walked latest i n) -> 0 <= idx < 60.
Proof.
  induction n as [|n IH]; intros i idx Hin; [contradiction|].
  cbn [walked] in Hin. destruct Hin as [<-|Hin].
  - apply visited_range.
  - eapply IH; eassumption.
Qed.

Lemma walked_length (latest : Z) (n : nat) :
  forall i, length (walked latest i n) = n.
Proof.
  induction n as [|n IH]; intros i; [reflexivity|].
  cbn [walked length]. rewrite IH. reflexivity.
Qed.

(** Slots whose identifier differs from the fingerprint are unmatched. *)
Lemma unmatched_of_idents (d : cressi_leonardo_device_t) (data : list byte)
    (idxs : list Z) :
  SZ_MEMORY <= size_of data ->
  size_of (fingerprint d) = SZ_FINGERPRINT ->
  (forall idx, In idx idxs -> 0 <= idx < 60) ->
  (forall idx, In idx idxs -> slot_ident data idx <> fingerprint d) ->
  unmatched (Some d) data idxs.
Proof.
  intros Hs Hd Hr Hne idx Hin.
  rewrite fingerprint_matches_ident by auto.
  f_equal. apply bytes_eqb_false. auto.
Qed.

End WithConsumer.

End ExtractProofs.

(** ** The order and the number of the dives handed over *)

Module WalkProofs.

Import ArrayFacts ExtractProofs.
Import CressiLeonardo Image.

(** *** The scan for the most recent dive *)

Lemma isequal_blank (data : list byte) (idx : Z) :
  SZ_MEMORY <= size_of data -> 0 <= idx < 60 ->
  array_isequal (ptr data (slot_offset idx)) RB_LOGBOOK_SIZE xff
  = Some (slot_blank data idx).
Proof.
  intros Hs Hi. pose proof (slot_offset_range idx Hi) as Ho.
  unfold SZ_MEMORY in Hs. unfold array_isequal.
  rewrite bytes_at_some
    by (rewrite size_of_ptr by lia; unfold RB_LOGBOOK_SIZE; lia).
  reflexivity.
Qed.




(** The scan never discovers more slots than the logbook has. *)
Lemma scan_loop_count (data : list byte) (n : nat) :
  forall i count latest maximum count' latest' maximum',
    scan_loop n data i count latest maximum = Some (count', latest', maximum') ->
    count <= count' <= count + Z.of_nat n.
Proof.
  induction n as [|n IH]; intros i count latest maximum count' latest'
    maximum' H.
  - cbn [scan_loop] in H. injection H as <- _ _. lia.
  - cbn [scan_loop] in H.
    destruct (array_isequal _ _ _) as [[|]|]; try discriminate.
    + injection H as <- _ _. lia.
    + destruct (array_uint16_le _) as [c|]; [|discriminate].
      destruct (c =? 65535).
      * injection H as <- _ _. lia.
      * destruct (c >? maximum); apply IH in H; lia.
Qed.

Section WithConsumer.

Variable U : Type.





(** C5, as the code has it.  The fingerprint is empty (set with size 0: five
    zero bytes), the image is structurally valid, the consumer goes on and
    no discovered slot has five zero bytes as its identifier.  Then the
    extractor succeeds and has called the consumer once per discovered slot,
    in the order of the walk. *)
Theorem empty_fingerprint_extracts_all :
  forall (data scratch : list byte) (d0 : cressi_leonardo_device_t)
         (cb : dc_dive_callback_t U) (u : U) (count latest maximum : Z),
    structurally_valid data = true ->
    size_of scratch = SZ_SCRATCH ->
    scan_logbook data = Some (count, latest, maximum) ->
    (forall idx, In idx (walked latest 0 (Z.to_nat count)) ->
                 slot_ident data idx <> memset x00 SZ_FINGERPRINT) ->
    always_goes cb ->
    let device := snd (cressi_leonardo_device_set_fingerprint d0 []) in
    let r := cressi_leonardo_extract_dives U (Some (LeonardoDevice device))
               (Some scratch) data (Some cb) u in
    result U r = Returns DC_STATUS_SUCCESS
    /\ map dive_slot (dives U r)
       = map (slot_bytes data) (walked latest 0 (Z.to_nat count))
    /\ length (dives U r) = Z.to_nat count.
Proof.
  intros data scratch d0 cb u count latest maximum Hv Hb Hscan Hid Hgo device
    r. subst r device. cbn [cressi_leonardo_device_set_fingerprint snd].
  change (snd (cressi_leonardo_device_set_fingerprint d0 []))
    with (mk_leonardo (memset x00 SZ_FINGERPRINT)).
  unfold structurally_valid in Hv. rewrite Hscan in Hv.
  apply andb_prop in Hv. destruct Hv as [Hs Hok].
  apply Z.leb_le in Hs.
  rewrite (extract_dives_eq U _ _ _ _ _ _ _ _ Hs Hscan).
  destruct (walk_loop_emits U (Some (mk_leonardo (memset x00 SZ_FINGERPRINT)))
              data cb latest Hs Hgo (Z.to_nat count) 0
              (mk_walk U 0 (RB_PROFILE_END - RB_PROFILE_BEGIN) scratch false u
                 []))
    as (w' & Hloop & _ & _ & Hcalls & _).
  - apply sound_start. exact Hb.
  - exact Hok.
  - apply unmatched_of_idents; auto.
    apply walked_range.
  - rewrite Hloop. cbn [result dives calls map app] in *.
    split; [reflexivity|]. split; [exact Hcalls|].
    rewrite <- (length_map dive_slot), Hcalls, length_map.
    apply walked_length.
Qed.


Lemma recorded_last (data : list byte) (latest : Z) (n : nat) :
  forall i newer,
    recorded data latest i (S n) newer
    = header_or_0 data (visited latest (i + Z.of_nat n)).
Proof.
  induction n as [|n IH]; intros i newer.
  - cbn [recorded]. rewrite Z.add_0_r. reflexivity.
  - change (recorded data latest i (S (S n)) newer)
      with (recorded data latest (i + 1) (S n)
              (header_or_0 data (visited latest i))).
    rewrite IH. f_equal. f_equal. lia.
Qed.

Lemma structure_ok_last (data : list byte) (latest : Z) (n : nat) :
  forall i newer,
    structure_ok data latest i (S n) newer = true ->
    5176 <= header_or_0 data (visited latest (i + Z.of_nat n)).
Proof.
  induction n as [|n IH]; intros i newer H.
  - cbn [structure_ok] in H. rewrite Z.add_0_r.
    apply andb_prop in H. destruct H as [H _].
    apply andb_prop in H. destruct H as [H _].
    unfold pointers_ok in H. unfold header_or_0.
    destruct (slot_header data (visited latest i)) as [h|]; [|discriminate].
    destruct (slot_footer data (visited latest i)) as [f|]; [|discriminate].
    apply andb_prop in H. destruct H as [H _].
    apply andb_prop in H. destruct H as [H _].
    apply in_profile_true in H. lia.
  - change (structure_ok data latest i (S (S n)) newer)
      with (pointers_ok data (visited latest i) newer
            && profile_ok data (visited latest i)
            && structure_ok data latest (i + 1) (S n)
                 (header_or_0 data (visited latest i))) in H.
    apply andb_prop in H. destruct H as [_ H]. apply IH in H.
    replace (i + Z.of_nat (S n)) with (i + 1 + Z.of_nat n) by lia. exact H.
Qed.

(** The continuity check at the level of the whole extraction.  The first
    [j + 1] dives of the walk are handed over; the dive after them does not
    end where the last of them starts (its footer plus 2 is not the header of
    that dive): the extractor returns [DataFormat], the scratch buffer is
    freed, and the consumer has been called for the first [j + 1] dives
    only. *)
Lemma discontinuity_ends_extraction :
  forall (data scratch : list byte) (d : cressi_leonardo_device_t)
         (cb : dc_dive_callback_t U) (u : U) (count latest maximum : Z)
         (j : nat) (h f : Z),
    SZ_MEMORY <= size_of data ->
    size_of scratch = SZ_SCRATCH ->
    scan_logbook data = Some (count, latest, maximum) ->
    (S j < Z.to_nat count)%nat ->
    structure_ok data latest 0 (S j) 0 = true ->
    unmatched (Some d) data (walked latest 0 (S j)) ->
    always_goes cb ->
    slot_header data (visited latest (Z.of_nat (S j))) = Some h ->
    slot_footer data (visited latest (Z.of_nat (S j))) = Some f ->
    in_profile h = true -> in_profile f = true ->
    header_or_0 data (visited latest (Z.of_nat j)) <> f + 2 ->
    let r := cressi_leonardo_extract_dives U (Some (LeonardoDevice d))
               (Some scratch) data (Some cb) u in
    result U r = Returns DC_STATUS_DATAFORMAT
    /\ scratch_freed U r = true
    /\ map dive_slot (dives U r)
       = map (slot_bytes data) (walked latest 0 (S j)).
Proof.
  intros data scratch d cb u count latest maximum j h f Hs Hb Hscan Hj Hok Hun
    Hgo Hh Hf Ih If Hne r. subst r.
  rewrite (extract_dives_eq U _ _ _ _ _ _ _ _ Hs Hscan).
  destruct (walk_loop_emits U (Some d) data cb latest Hs Hgo (S j) 0
              (mk_walk U 0 (RB_PROFILE_END - RB_PROFILE_BEGIN) scratch false u
                 []))
    as (w' & Hloop & _ & Hfr & Hcalls & Hprev).
  - apply sound_start. exact Hb.
  - exact Hok.
  - exact Hun.
  - rewrite recorded_last in Hprev. rewrite Z.add_0_l in Hprev.
    pose proof (structure_ok_last data latest j 0 0 Hok) as Hpos.
    rewrite Z.add_0_l in Hpos.
    replace (Z.to_nat count) with (S j + S (Z.to_nat count - S (S j)))%nat
      by lia.
    rewrite (walk_loop_exits U (Some d) data latest (Some cb) (S j) _ 0 _ w'
               (free U w') (Returns DC_STATUS_DATAFORMAT) Hloop).
    + cbn [result scratch_freed dives calls free freed map app] in *.
      auto.
    + rewrite Z.add_0_l.
      apply (step_discontinuous U (Some d) data (Some cb) latest _ w' h f);
        try assumption; rewrite Hprev; lia.
Qed.

End WithConsumer.

End WalkProofs.

(** ** One iteration of the walk *)

Module StepProofs.

Import ArrayFacts ExtractProofs.
Import Ringbuffer CressiLeonardo Image.

Section WithConsumer.

Variable U : Type.

(** An iteration that continues has found the pointers of its slot in the
    profile area, has found no previous value or the footer pointer plus 2
    in it, and records the HEADER pointer of its dive for the next
    iteration. *)
Lemma step_continues (device : option cressi_leonardo_device_t)
    (data : list byte) (callback : option (dc_dive_callback_t U))
    (latest i : Z) (w w' : walk U) :
  walk_step U device data callback latest i w = (Continue, w') ->
  exists h f,
    slot_header data (visited latest i) = Some h
    /\ slot_footer data (visited latest i) = Some f
    /\ in_profile h = true /\ in_profile f = true
    /\ (previous U w = 0 \/ previous U w = f + 2)
    /\ previous U w' = h.
Proof.
  intros H. rewrite walk_step_eq in H. cbv zeta in H.
  destruct (slot_header data (visited latest i)) as [h|]; [|discriminate].
  destruct (slot_footer data (visited latest i)) as [f|];
    [|destruct h; discriminate].
  destruct (in_profile h && in_profile f) eqn:Ein; cbn [negb] in H;
    [|discriminate].
  apply andb_prop in Ein. destruct Ein as [Ih If].
  exists h, f. do 4 (split; [assumption || reflexivity|]).
  destruct (previous U w =? 0) eqn:E0; cbn [negb andb] in H.
  - split; [left; lia|]. unfold deliver in H.
    repeat match type of H with
           | context [match ?x with _ => _ end] => destruct x eqn:?
           end;
      try discriminate; injection H as <-; reflexivity.
  - destruct (previous U w =? f + 2) eqn:E2; cbn [negb] in H; [|discriminate].
    split; [right; lia|]. unfold deliver in H.
    repeat match type of H with
           | context [match ?x with _ => _ end] => destruct x eqn:?
           end;
      try discriminate; injection H as <-; reflexivity.
Qed.

(** In an iteration that reaches the copy of the profile (its pointers pass
    the checks and its slot does not carry the fingerprint) while the
    remaining capacity is 0 or fails the test of the code (it is smaller
    than the 32-bit sum of the 32-bit profile length and 4), the consumer is
    called with the bytes of the logbook slot alone, the remaining capacity
    becomes 0, and the loop goes on (or ends in success if the consumer asks
    to stop). *)
Lemma step_degrades :
  forall (device : option cressi_leonardo_device_t) (data : list byte)
         (callback : option (dc_dive_callback_t U)) (latest i : Z)
         (w : walk U) (h f : Z),
    SZ_MEMORY <= size_of data ->
    size_of (buffer U w) = SZ_SCRATCH ->
    slot_header data (visited latest i) = Some h ->
    slot_footer data (visited latest i) = Some f ->
    pointers_ok data (visited latest i) (previous U w) = true ->
    fingerprint_matches device (ptr data (slot_offset (visited latest i) + 8))
    = Some false ->
    remaining U w = 0
    \/ remaining U w < u32 (u32 (RB_PROFILE_DISTANCE h f - 2) + 4) ->
    exists (fl : flow) (w' : walk U),
      walk_step U device data callback latest i w = (fl, w')
      /\ (fl = Continue \/ fl = Break)
      /\ remaining U w' = 0
      /\ freed U w' = freed U w
      /\ match callback with
         | Some cb =>
             calls U w'
             = calls U w
               ++ [mk_dive (slot_bytes data (visited latest i))
                     (firstn (Z.to_nat SZ_FINGERPRINT)
                        (ptr (buffer U w') 8))]
             /\ (always_goes cb -> fl = Continue)
         | None => calls U w' = calls U w /\ fl = Continue
         end.
Proof.
  intros device data callback latest i w h f Hs Hb Hh Hf Hp Hm Hrem.
  pose proof (visited_range latest i) as Hi.
  rewrite walk_step_eq. cbv zeta. unfold pointers_ok in Hp.
  rewrite Hh, Hf in *.
  apply andb_prop in Hp. destruct Hp as [Hp Hc].
  rewrite Hp. cbn [negb].
  assert (Ec : negb (previous U w =? 0) && negb (previous U w =? f + 2)
               = false).
  { apply orb_prop in Hc. destruct Hc as [->| ->]; cbn [negb andb];
      [reflexivity|apply andb_false_r]. }
  rewrite Ec, Hm.
  destruct (slot_copy data (buffer U w) (visited latest i) Hs Hi Hb)
    as (buf & Hbuf & Hsz & Hslot).
  rewrite Hbuf.
  assert (Efit : negb (remaining U w =? 0)
                 && (remaining U w
                     >=? u32 (u32 (RB_PROFILE_DISTANCE h f - 2) + 4))
                 = false).
  { destruct Hrem as [-> | Hlt]; [reflexivity|].
    apply andb_false_iff. right. lia. }
  rewrite Efit. unfold deliver.
  change (Z.to_nat (u32 (RB_LOGBOOK_SIZE + 0)))
    with (Z.to_nat RB_LOGBOOK_SIZE).
  rewrite Hslot.
  destruct callback as [cb|].
  - destruct (cb buf (u32 (RB_LOGBOOK_SIZE + 0)) (ptr buf 8) SZ_FINGERPRINT
                (user U w)) as [go u'] eqn:Ecb.
    destruct go.
    + do 2 eexists. split; [reflexivity|]. cbn [remaining freed calls buffer].
      auto 6.
    + do 2 eexists. split; [reflexivity|]. cbn [remaining freed calls buffer].
      split; [auto|]. split; [reflexivity|]. split; [reflexivity|].
      split; [reflexivity|].
      intros Hgo. specialize (Hgo buf (u32 (RB_LOGBOOK_SIZE + 0)) (ptr buf 8)
                                SZ_FINGERPRINT (user U w)).
      rewrite Ecb in Hgo. discriminate Hgo.
  - do 2 eexists. split; [reflexivity|]. cbn [remaining freed calls].
    auto 6.
Qed.

End WithConsumer.

End StepProofs.

(** ** The statements on concrete images *)

Module Examples.

Import CressiLeonardo Image Fixtures.

Lemma counting_goes : always_goes counting.
Proof. intros p n q m u. reflexivity. Qed.



(** The same dive numbers with the profiles laid out along the physical
    order of the slots below the most recent one: the dives 7 and 5 are
    handed over, then the walk steps from slot 0 to the blank slot 59 and
    the extractor returns [DataFormat]. *)
Lemma three_slots_576_physical_order :
  let r := cressi_leonardo_extract_dives nat
             (Some (LeonardoDevice empty_fingerprint)) (Some scratch0)
             image_576_physical (Some counting) O in
  scan_logbook image_576_physical = Some (3, 1, 7)
  /\ walked 1 0 3 = [1; 0; 59]
  /\ slot_blank image_576_physical 59 = true
  /\ result nat r = Returns DC_STATUS_DATAFORMAT
  /\ map dive_counter (dives nat r) = [Some 7; Some 5].
Proof. repeat split; vm_compute; reflexivity. Qed.

Lemma empty_fingerprint_extracts_all_witness :
  let r := cressi_leonardo_extract_dives nat
             (Some (LeonardoDevice
                      (snd (cressi_leonardo_device_set_fingerprint
                              (mk_leonardo ident_a) []))))
             (Some scratch0) image_567 (Some counting) O in
  result nat r = Returns DC_STATUS_SUCCESS
  /\ map dive_slot (dives nat r)
     = map (slot_bytes image_567) (walked 2 0 (Z.to_nat 3))
  /\ length (dives nat r) = Z.to_nat 3.
Proof.
  apply (WalkProofs.empty_fingerprint_extracts_all nat image_567 scratch0
           (mk_leonardo ident_a) counting O 3 2 7).
  - vm_compute. reflexivity.
  - vm_compute. reflexivity.
  - vm_compute. reflexivity.
  - intros idx [<-|[<-|[<-|[]]]]; vm_compute; discriminate.
  - exact counting_goes.
Defined.

(** C5 as stated fails.  The image is structurally valid and holds one
    dive, whose identifier is five zero bytes; with the empty fingerprint
    (five zero bytes as well) the walk ends at the comparison of the
    fingerprints and the consumer is never called. *)
Lemma zero_identifier_counterexample :
  structurally_valid image_zero_ident = true
  /\ scan_logbook image_zero_ident = Some (1, 0, 5)
  /\ snd (cressi_leonardo_device_set_fingerprint (mk_leonardo ident_a) [])
     = empty_fingerprint
  /\ let r := cressi_leonardo_extract_dives nat
                (Some (LeonardoDevice empty_fingerprint)) (Some scratch0)
                image_zero_ident (Some counting) O in
     result nat r = Returns DC_STATUS_SUCCESS
     /\ dives nat r = []
     /\ userdata nat r = O.
Proof. repeat split; vm_compute; reflexivity. Qed.

(** C2 as stated fails.  In [image_567] the walk visits slot 2 and then
    slot 1.  The footer pointer of the dive of slot 2 (5210) differs from the
    footer pointer of the dive of slot 1 plus 2 (5200), yet the extraction
    goes on and succeeds with all three dives: what the second iteration
    compares with 5200 is the header pointer of the dive of slot 2. *)
Lemma footer_continuity_counterexample :
  slot_footer image_567 2 = Some 5210
  /\ slot_footer image_567 1 = Some 5198
  /\ slot_header image_567 2 = Some 5200
  /\ 5210 <> 5198 + 2
  /\ let r := cressi_leonardo_extract_dives nat
                (Some (LeonardoDevice empty_fingerprint)) (Some scratch0)
                image_567 (Some counting) O in
     result nat r = Returns DC_STATUS_SUCCESS
     /\ map dive_counter (dives nat r) = [Some 7; Some 6; Some 5].
Proof.
  repeat split; try (vm_compute; reflexivity). lia.
Qed.

End Examples.

(** ** The Cressi Leonardo extractor on arbitrary images *)

Module RobustProofs.

Import ArrayFacts ExtractProofs.
Import Ringbuffer CressiLeonardo Image.

Lemma memcpy_bounds (dst src dst' : list byte) (doff n : Z) :
  memcpy dst doff src n = Some dst' ->
  n <= size_of src /\ doff + n <= size_of dst.
Proof.
  unfold memcpy, bytes_at.
  destruct (n <=? size_of src) eqn:E1; [|discriminate].
  destruct (doff + n <=? size_of dst) eqn:E2; [|discriminate].
  intros _. lia.
Qed.

Lemma u32_wrapped (x : Z) :
  2 ^ 32 <= x < 2 * 2 ^ 32 -> u32 x = x - 2 ^ 32.
Proof.
  intros H. unfold u32. symmetry.
  apply (Z.mod_unique x (2 ^ 32) 1); lia.
Qed.

(** A profile copy that succeeds keeps the size of the buffer and the
    logbook entry at its start, and the profile fits behind the entry. *)
Lemma copy_profile_general (buf data buf' : list byte) (address length : Z) :
  0 <= address <= RB_PROFILE_END -> 0 <= length < 2 ^ 32 ->
  copy_profile buf data address length = Some buf' ->
  size_of buf' = size_of buf
  /\ firstn (Z.to_nat RB_LOGBOOK_SIZE) buf' = firstn (Z.to_nat RB_LOGBOOK_SIZE) buf
  /\ RB_LOGBOOK_SIZE + length <= size_of buf.
Proof.
  intros Ha Hl. unfold copy_profile.
  assert (HE : RB_PROFILE_END = 32000) by reflexivity.
  assert (HS : RB_LOGBOOK_SIZE = 82) by reflexivity.
  rewrite HE, HS in *.
  destruct (u32 (address + length) >? 32000) eqn:E.
  - assert (Hsmall : address + length < 2 ^ 32).
    { destruct (Z_lt_le_dec (address + length) (2 ^ 32)) as [|Hbig];
        [assumption|].
      rewrite u32_wrapped in E by lia. lia. }
    rewrite u32_small in E by lia.
    rewrite (u32_small (length - (32000 - address))) by lia.
    destruct (memcpy buf 82 (ptr data address) (32000 - address))
      as [b1|] eqn:E1; [|discriminate].
    intros E2.
    pose proof (memcpy_bounds _ _ _ _ _ E1) as B1.
    pose proof (memcpy_bounds _ _ _ _ _ E2) as B2.
    assert (S1 : size_of b1 = size_of buf)
      by (eapply memcpy_size; [| |exact E1]; lia).
    assert (S2 : size_of buf' = size_of b1)
      by (eapply memcpy_size; [| |exact E2]; lia).
    split; [lia|]. split; [|lia].
    transitivity (firstn (Z.to_nat 82) b1).
    + eapply memcpy_prefix; [| | |exact E2]; lia.
    + eapply memcpy_prefix; [| | |exact E1]; lia.
  - intros E1.
    pose proof (memcpy_bounds _ _ _ _ _ E1) as B1.
    split; [eapply memcpy_size; [| |exact E1]; lia|].
    split; [|lia].
    eapply memcpy_prefix; [| | |exact E1]; lia.
Qed.

Section WithConsumer.

Variable U : Type.

(** What one iteration with a consumer does, whatever the image holds: it
    keeps the walk sound, hands over at most one record, which starts with
    the bytes of the visited slot, and hands one over whenever it
    continues; an exit with a status is [DataFormat], after [free], without
    a call. *)
Lemma step_general (device : option cressi_leonardo_device_t)
    (data : list byte) (cb : dc_dive_callback_t U) (latest i : Z)
    (w w' : walk U) (fl : flow) :
  sound w ->
  walk_step U device data (Some cb) latest i w = (fl, w') ->
  sound w'
  /\ match fl with
     | Continue =>
         freed U w' = freed U w
         /\ exists d, calls U w' = calls U w ++ [d]
                      /\ dive_slot d = slot_bytes data (visited latest i)
     | Break =>
         freed U w' = freed U w
         /\ (calls U w' = calls U w
             \/ exists d, calls U w' = calls U w ++ [d]
                          /\ dive_slot d = slot_bytes data (visited latest i))
     | Exit (Returns rc) =>
         rc = DC_STATUS_DATAFORMAT /\ freed U w' = true
         /\ calls U w' = calls U w
     | Exit Fault => freed U w' = freed U w /\ calls U w' = calls U w
     | Exit Hangs => False
     end.
Proof.
  intros [Hb Hr] H. rewrite walk_step_eq in H. cbv zeta in H.
  assert (HR : RB_PROFILE_END - RB_PROFILE_BEGIN = 26824) by reflexivity.
  rewrite HR in *.
  assert (Hfree : sound (free U w)) by (split; cbn; [exact Hb|lia]).
  assert (Hsame : sound w) by (split; [exact Hb|lia]).
  destruct (slot_header data (visited latest i)) as [h|];
    [|injection H as <- <-; auto].
  destruct (slot_footer data (visited latest i)) as [f|];
    [|injection H as <- <-; auto].
  destruct (in_profile h && in_profile f) eqn:Ein; cbn [negb] in H;
    [|injection H as <- <-; cbn; auto].
  apply andb_prop in Ein. destruct Ein as [Ih If].
  apply in_profile_true in Ih, If.
  destruct (negb (previous U w =? 0) && negb (previous U w =? f + 2));
    [injection H as <- <-; cbn; auto|].
  destruct (fingerprint_matches device
              (ptr data (slot_offset (visited latest i) + 8))) as [[|]|];
    [injection H as <- <-; auto | | injection H as <- <-; auto].
  destruct (memcpy (buffer U w) 0 (ptr data (slot_offset (visited latest i)))
              RB_LOGBOOK_SIZE) as [buf|] eqn:Ebuf;
    [|injection H as <- <-; auto].
  assert (Hsz : size_of buf = SZ_SCRATCH).
  { rewrite <- Hb. eapply memcpy_size; [| |exact Ebuf];
      unfold RB_LOGBOOK_SIZE; lia. }
  assert (Hslot : firstn (Z.to_nat RB_LOGBOOK_SIZE) buf
                  = slot_bytes data (visited latest i)).
  { unfold slot_bytes. eapply memcpy_start; [|exact Ebuf].
    unfold RB_LOGBOOK_SIZE. lia. }
  set (length := u32 (RB_PROFILE_DISTANCE h f - 2)) in *.
  pose proof (u32_range (RB_PROFILE_DISTANCE h f - 2)) as Hlen.
  fold length in Hlen.
  pose proof (u32_range (length + 4)) as Hlen4.
  (* what [deliver] does with a buffer that starts with the slot *)
  assert (Hdeliver :
    forall buf0 len rem,
      size_of buf0 = SZ_SCRATCH ->
      firstn (Z.to_nat RB_LOGBOOK_SIZE) buf0
      = slot_bytes data (visited latest i) ->
      0 <= len -> RB_LOGBOOK_SIZE + len <= SZ_SCRATCH ->
      0 <= rem <= 26824 ->
      deliver U (Some cb) w buf0 h len rem = (fl, w') ->
      sound w'
      /\ match fl with
         | Continue =>
             freed U w' = freed U w
             /\ exists d, calls U w' = calls U w ++ [d]
                          /\ dive_slot d = slot_bytes data (visited latest i)
         | Break =>
             freed U w' = freed U w
             /\ (calls U w' = calls U w
                 \/ exists d, calls U w' = calls U w ++ [d]
                              /\ dive_slot d
                                 = slot_bytes data (visited latest i))
         | Exit (Returns rc) =>
             rc = DC_STATUS_DATAFORMAT /\ freed U w' = true
             /\ calls U w' = calls U w
         | Exit Fault => freed U w' = freed U w /\ calls U w' = calls U w
         | Exit Hangs => False
         end).
  { intros buf0 len rem Hs0 Hsl0 Hl0 Hl1 Hrem Hd. unfold deliver in Hd.
    assert (Hds : dive_slot
                    (mk_dive (firstn (Z.to_nat (u32 (RB_LOGBOOK_SIZE + len)))
                                buf0)
                       (firstn (Z.to_nat SZ_FINGERPRINT) (ptr buf0 8)))
                  = slot_bytes data (visited latest i)).
    { unfold dive_slot. cbn [dive_data].
      assert (HS : SZ_SCRATCH = 26906) by reflexivity.
      unfold RB_LOGBOOK_SIZE in *. rewrite u32_small by lia.
      rewrite firstn_firstn.
      replace (Nat.min (Z.to_nat 82) (Z.to_nat (82 + len)))
        with (Z.to_nat 82) by lia.
      exact Hsl0. }
    destruct (cb buf0 (u32 (RB_LOGBOOK_SIZE + len)) (ptr buf0 8)
                SZ_FINGERPRINT (user U w)) as [go u'].
    destruct go; injection Hd as <- <-; (split; [split; cbn; [exact Hs0|lia]|]);
      cbn [freed calls]; eauto. }
  destruct (negb (remaining U w =? 0)
            && (remaining U w >=? u32 (length + 4))) eqn:Efit.
  - destruct (array_uint16_le (ptr data f)) as [h2|];
      [|injection H as <- <-; auto].
    destruct (array_uint16_le (ptr data h)) as [f2|];
      [|injection H as <- <-; auto].
    destruct (negb (h2 =? h) || negb (f2 =? f));
      [injection H as <- <-; cbn; auto|].
    destruct (copy_profile buf data (h + 2) length) as [buf'|] eqn:Ecp;
      [|injection H as <- <-; auto].
    destruct (copy_profile_general buf data buf' (h + 2) length)
      as (Hs' & Hpre & Hfit); try assumption.
    { unfold RB_PROFILE_END, SZ_MEMORY. lia. }
    apply andb_prop in Efit. destruct Efit as [_ Ege].
    eapply Hdeliver; [| | | | |exact H]; try lia.
    + rewrite Hpre. exact Hslot.
    + rewrite u32_small; lia.
  - eapply Hdeliver; [| | | | |exact H]; try assumption; try lia.
    vm_compute. discriminate.
Qed.

(** The second loop on an arbitrary image: the records handed over are
    those of the first [k] slots of the walk, one each and in its order. *)
Lemma walk_loop_general (device : option cressi_leonardo_device_t)
    (data : list byte) (cb : dc_dive_callback_t U) (latest : Z) (n : nat) :
  forall (i : Z) (w w' : walk U) (fl : flow),
    sound w ->
    walk_loop U n device data (Some cb) latest i w = (fl, w') ->
    (exists k, (k <= n)%nat
               /\ map dive_slot (calls U w')
                  = map dive_slot (calls U w)
                    ++ map (slot_bytes data) (walked latest i k))
    /\ match fl with
       | Exit (Returns rc) => rc = DC_STATUS_DATAFORMAT /\ freed U w' = true
       | Exit Hangs => False
       | _ => freed U w' = freed U w
       end.
Proof.
  induction n as [|n IH]; intros i w w' fl Hw H.
  - cbn [walk_loop] in H. injection H as <- <-.
    split; [|reflexivity]. exists O. split; [lia|].
    cbn [walked map]. rewrite app_nil_r. reflexivity.
  - cbn [walk_loop] in H.
    destruct (walk_step U device data (Some cb) latest i w) as [fl1 w1] eqn:E1.
    destruct (step_general device data cb latest i w w1 fl1 Hw E1)
      as [Hw1 Hstep].
    destruct fl1 as [| |o].
    + destruct Hstep as (Hfr & d & Hc & Hd).
      destruct (IH (i + 1) w1 w' fl Hw1 H) as [(k & Hk & Hcalls) Hfl].
      split.
      * exists (S k). split; [lia|].
        rewrite Hcalls, Hc, map_app, <- app_assoc. cbn [map app walked].
        rewrite Hd. reflexivity.
      * destruct fl as [| |[rc| |]]; try rewrite <- Hfr; exact Hfl.
    + injection H as <- <-. destruct Hstep as [Hfr [Hc|(d & Hc & Hd)]].
      * split; [|exact Hfr]. exists O. split; [lia|].
        rewrite Hc. cbn [walked map]. rewrite app_nil_r. reflexivity.
      * split; [|exact Hfr]. exists 1%nat. split; [lia|].
        rewrite Hc, map_app. cbn [map app walked]. rewrite Hd. reflexivity.
    + injection H as <- <-. destruct o as [rc| |].
      * destruct Hstep as (Hrc & Hfr & Hc). split; [|auto].
        exists O. split; [lia|].
        rewrite Hc. cbn [walked map]. rewrite app_nil_r. reflexivity.
      * destruct Hstep as (Hfr & Hc). split; [|auto].
        exists O. split; [lia|].
        rewrite Hc. cbn [walked map]. rewrite app_nil_r. reflexivity.
      * contradiction.
Qed.

End WithConsumer.

End RobustProofs.

(** ** The scan for the most recent dive, and memory safety *)

Module ScanProofs.

Import ArrayFacts ExtractProofs WalkProofs RobustProofs.
Import Ringbuffer CressiLeonardo Image ImageMore.

Lemma uint16_some (data : list byte) (off : Z) :
  0 <= off -> off + 2 <= size_of data ->
  exists v, array_uint16_le (ptr data off) = Some v /\ 0 <= v < 65536.
Proof.
  intros H0 H2. pose proof (size_of_ptr data off ltac:(lia)) as Hs.
  destruct (ptr data off) as [|b0 [|b1 rest]];
    try (unfold size_of in *; cbn [length] in *; lia).
  eexists. split; [reflexivity|].
  pose proof (b2z_range b0). pose proof (b2z_range b1).
  rewrite Z.shiftl_mul_pow2 by lia. change (2 ^ 8) with 256. lia.
Qed.

Lemma slot_counter_some (data : list byte) (idx : Z) :
  SZ_MEMORY <= size_of data -> 0 <= idx < 60 ->
  exists c, slot_counter data idx = Some c /\ 0 <= c < 65536.
Proof.
  intros Hs Hi. pose proof (slot_offset_range idx Hi).
  unfold SZ_MEMORY in Hs. apply uint16_some; lia.
Qed.

(** What the first loop has done when it stops. *)
Lemma scan_loop_spec (data : list byte) (n : nat) :
  forall (i count latest maximum : Z),
    SZ_MEMORY <= size_of data -> 0 <= i -> i + Z.of_nat n <= 60 ->
    exists count' latest' maximum',
      scan_loop n data i count latest maximum
      = Some (count', latest', maximum')
      /\ 0 <= count' - count <= Z.of_nat n
      /\ (forall j, i <= j < i + (count' - count) ->
            exists c, slot_counter data j = Some c /\ c <> 65535
                      /\ c <= maximum' /\ slot_blank data j = false)
      /\ ((latest' = latest /\ maximum' = maximum)
          \/ (i <= latest' < i + (count' - count)
              /\ slot_counter data latest' = Some maximum'
              /\ maximum < maximum'
              /\ forall j, i <= j < latest' ->
                   exists c, slot_counter data j = Some c /\ c < maximum'))
      /\ (count' - count < Z.of_nat n ->
            slot_blank data (i + (count' - count)) = true
            \/ slot_counter data (i + (count' - count)) = Some 65535).
Proof.
  induction n as [|n IH]; intros i count latest maximum Hs Hi Hn.
  - exists count, latest, maximum. cbn [scan_loop].
    split; [reflexivity|]. split; [lia|]. split; [intros j Hj; lia|].
    split; [auto|]. lia.
  - cbn [scan_loop].
    change (RB_LOGBOOK_BEGIN + i * RB_LOGBOOK_SIZE) with (slot_offset i).
    rewrite isequal_blank by (assumption || lia).
    destruct (slot_blank data i) eqn:Eb.
    { exists count, latest, maximum.
      split; [reflexivity|]. split; [lia|]. split; [intros j Hj; lia|].
      split; [auto|]. intros _. rewrite Z.sub_diag, Z.add_0_r. auto. }
    destruct (slot_counter_some data i Hs ltac:(lia)) as (c & Hc & Hcr).
    unfold slot_counter in Hc. rewrite Hc. fold (slot_counter data i) in Hc.
    destruct (c =? 65535) eqn:Ef.
    { exists count, latest, maximum.
      split; [reflexivity|]. split; [lia|]. split; [intros j Hj; lia|].
      split; [auto|]. intros _. rewrite Z.sub_diag, Z.add_0_r.
      right. rewrite Hc. f_equal. lia. }
    destruct (c >? maximum) eqn:Eg.
    + destruct (IH (i + 1) (count + 1) i c Hs ltac:(lia) ltac:(lia))
        as (c' & l' & m' & Hscan & Hk & Hall & Hlatest & Hstop).
      exists c', l', m'. split; [exact Hscan|]. split; [lia|].
      assert (Hcm : c <= m')
        by (destruct Hlatest as [[_ ->]|(_ & _ & Hlt & _)]; lia).
      split; [|split].
      * intros j Hj. destruct (Z.eq_dec j i) as [->|Hne].
        -- exists c. repeat split; try assumption; lia.
        -- apply Hall. lia.
      * right. destruct Hlatest as [[-> ->]|(Hr & Hcl & Hlt & Hbefore)].
        -- split; [lia|]. split; [exact Hc|]. split; [lia|].
           intros j Hj. lia.
        -- split; [lia|]. split; [exact Hcl|]. split; [lia|].
           intros j Hj. destruct (Z.eq_dec j i) as [->|Hne].
           ++ exists c. split; [exact Hc|lia].
           ++ apply Hbefore. lia.
      * intros Hlt.
        replace (i + (c' - count)) with (i + 1 + (c' - (count + 1))) by lia.
        apply Hstop. lia.
    + destruct (IH (i + 1) (count + 1) latest maximum Hs ltac:(lia)
                  ltac:(lia))
        as (c' & l' & m' & Hscan & Hk & Hall & Hlatest & Hstop).
      exists c', l', m'. split; [exact Hscan|]. split; [lia|].
      assert (Hcm : maximum <= m')
        by (destruct Hlatest as [[_ ->]|(_ & _ & Hlt & _)]; lia).
      split; [|split].
      * intros j Hj. destruct (Z.eq_dec j i) as [->|Hne].
        -- exists c. repeat split; try assumption; lia.
        -- apply Hall. lia.
      * destruct Hlatest as [[-> ->]|(Hr & Hcl & Hlt & Hbefore)]; [auto|].
        right. split; [lia|]. split; [exact Hcl|]. split; [lia|].
        intros j Hj. destruct (Z.eq_dec j i) as [->|Hne].
        -- exists c. split; [exact Hc|lia].
        -- apply Hbefore. lia.
      * intros Hlt.
        replace (i + (c' - count)) with (i + 1 + (c' - (count + 1))) by lia.
        apply Hstop. lia.
Qed.

Lemma scan_logbook_some (data : list byte) :
  SZ_MEMORY <= size_of data ->
  exists count latest maximum,
    scan_logbook data = Some (count, latest, maximum) /\ 0 <= count <= 60.
Proof.
  intros Hs. unfold scan_logbook.
  change (Z.to_nat RB_LOGBOOK_COUNT) with 60%nat.
  destruct (scan_loop_spec data 60 0 0 0 0 Hs ltac:(lia) ltac:(lia))
    as (c' & l' & m' & Hscan & Hk & _).
  exists c', l', m'. split; [exact Hscan|lia].
Qed.

(** X1.  The first loop of the extractor: on a complete image it discovers the
    written slots in front of the first blank slot (or slot with dive number
    0xFFFF), at most 60, and selects the first slot that holds the highest
    dive number among them. *)
Theorem scan_finds_most_recent :
  forall (data : list byte),
    SZ_MEMORY <= size_of data ->
    exists count latest maximum,
      scan_logbook data = Some (count, latest, maximum)
      /\ 0 <= count <= 60
      /\ (forall j, 0 <= j < count ->
            exists c, slot_counter data j = Some c /\ c <> 65535
                      /\ c <= maximum /\ slot_blank data j = false)
      /\ (count < 60 ->
            slot_blank data count = true
            \/ slot_counter data count = Some 65535)
      /\ (0 < count ->
            0 <= latest < count
            /\ slot_counter data latest = Some maximum
            /\ forall j, 0 <= j < latest ->
                 exists c, slot_counter data j = Some c /\ c < maximum)
      /\ (count = 0 -> latest = 0 /\ maximum = 0).
Proof.
  intros data Hs. unfold scan_logbook.
  change (Z.to_nat RB_LOGBOOK_COUNT) with 60%nat.
  destruct (scan_loop_spec data 60 0 0 0 0 Hs ltac:(lia) ltac:(lia))
    as (c' & l' & m' & Hscan & Hk & Hall & Hlatest & Hstop).
  rewrite Z.sub_0_r in *. rewrite Z.add_0_l in *.
  exists c', l', m'. split; [exact Hscan|]. split; [lia|].
  split; [exact Hall|]. split; [intros H; apply Hstop; lia|].
  split.
  - intros Hpos.
    destruct Hlatest as [[-> ->]|(Hr & Hcl & Hlt & Hbefore)].
    + split; [lia|]. split; [|intros j Hj; lia].
      destruct (Hall 0 ltac:(lia)) as (c & Hc & _ & Hle & _).
      destruct (slot_counter_some data 0 Hs ltac:(lia)) as (c0 & Hc0 & Hr0).
      rewrite Hc in Hc0. injection Hc0 as <-.
      rewrite Hc. f_equal. lia.
    + split; [lia|]. split; [exact Hcl|exact Hbefore].
  - intros H0. destruct Hlatest as [[-> ->]|(Hr & _)]; [auto|lia].
Qed.

Lemma scan_finds_most_recent_witness :
  exists count latest maximum,
    scan_logbook Fixtures.image_576 = Some (count, latest, maximum)
    /\ 0 <= count <= 60
    /\ (forall j, 0 <= j < count ->
          exists c, slot_counter Fixtures.image_576 j = Some c /\ c <> 65535
                    /\ c <= maximum
                    /\ slot_blank Fixtures.image_576 j = false)
    /\ (count < 60 ->
          slot_blank Fixtures.image_576 count = true
          \/ slot_counter Fixtures.image_576 count = Some 65535)
    /\ (0 < count ->
          0 <= latest < count
          /\ slot_counter Fixtures.image_576 latest = Some maximum
          /\ forall j, 0 <= j < latest ->
               exists c, slot_counter Fixtures.image_576 j = Some c
                         /\ c < maximum)
    /\ (count = 0 -> latest = 0 /\ maximum = 0).
Proof.
  apply (scan_finds_most_recent Fixtures.image_576).
  apply Z.leb_le. vm_compute. reflexivity.
Defined.

Section WithConsumer.

Variable U : Type.

(** X2.  Whatever a complete image holds, the records handed to the consumer
    are those of the first [k] slots of the walk, for some [k] up to the
    number of discovered slots: one record per slot, in the order of the
    walk, each starting with the 82 bytes of its slot.  The extractor
    returns success or [DataFormat], in both cases after freeing its
    buffer, unless it leaves the image or the buffer. *)
Theorem hands_over_a_prefix_of_the_walk :
  forall (data scratch : list byte) (d : cressi_leonardo_device_t)
         (cb : dc_dive_callback_t U) (u : U),
    SZ_MEMORY <= size_of data ->
    size_of scratch = SZ_SCRATCH ->
    exists (count latest maximum : Z) (k : nat),
      scan_logbook data = Some (count, latest, maximum)
      /\ Z.of_nat k <= count <= 60
      /\ let r := cressi_leonardo_extract_dives U (Some (LeonardoDevice d))
                    (Some scratch) data (Some cb) u in
         map dive_slot (dives U r) = map (slot_bytes data) (walked latest 0 k)
         /\ (result U r = Returns DC_STATUS_SUCCESS
             \/ result U r = Returns DC_STATUS_DATAFORMAT
             \/ result U r = Fault)
         /\ (result U r <> Fault -> scratch_freed U r = true).
Proof.
  intros data scratch d cb u Hs Hb.
  destruct (scan_logbook_some data Hs)
    as (count & latest & maximum & Hscan & Hc).
  destruct (walk_loop U (Z.to_nat count) (Some d) data (Some cb) latest 0
              (mk_walk U 0 (RB_PROFILE_END - RB_PROFILE_BEGIN) scratch false u
                 [])) as [fl w'] eqn:Eloop.
  destruct (walk_loop_general U (Some d) data cb latest (Z.to_nat count) 0 _
              w' fl (sound_start U scratch u Hb) Eloop)
    as [(k & Hk & Hcalls) Hfl].
  exists count, latest, maximum, k. split; [exact Hscan|]. split; [lia|].
  cbv zeta. rewrite (extract_dives_eq U _ _ _ _ _ _ _ _ Hs Hscan), Eloop.
  cbn [calls map app] in Hcalls.
  destruct fl as [| |[rc| |]]; cbn [result dives scratch_freed].
  - split; [exact Hcalls|]. auto.
  - split; [exact Hcalls|]. auto.
  - destruct Hfl as [-> Hfr]. split; [exact Hcalls|]. auto.
  - split; [exact Hcalls|]. split; [auto|]. intros H. congruence.
  - contradiction.
Qed.

End WithConsumer.

Lemma hands_over_a_prefix_of_the_walk_witness :
  exists (count latest maximum : Z) (k : nat),
    scan_logbook Fixtures.image_576 = Some (count, latest, maximum)
    /\ Z.of_nat k <= count <= 60
    /\ let r := cressi_leonardo_extract_dives nat
                  (Some (LeonardoDevice Fixtures.empty_fingerprint))
                  (Some Fixtures.scratch0) Fixtures.image_576
                  (Some Fixtures.counting) O in
       map dive_slot (dives nat r)
       = map (slot_bytes Fixtures.image_576) (walked latest 0 k)
       /\ (result nat r = Returns DC_STATUS_SUCCESS
           \/ result nat r = Returns DC_STATUS_DATAFORMAT
           \/ result nat r = Fault)
       /\ (result nat r <> Fault -> scratch_freed nat r = true).
Proof.
  apply (hands_over_a_prefix_of_the_walk nat Fixtures.image_576
           Fixtures.scratch0 Fixtures.empty_fingerprint Fixtures.counting O).
  - apply Z.leb_le. vm_compute. reflexivity.
  - vm_compute. reflexivity.
Defined.

End ScanProofs.

(** ** Memory safety and the contents of a record *)

Module RecordProofs.

Import ArrayFacts ExtractProofs WalkProofs RobustProofs ScanProofs.
Import Ringbuffer CressiLeonardo Image ImageMore.

Lemma spans_distance (data : list byte) (idx h f : Z) :
  spans data idx = true ->
  slot_header data idx = Some h -> slot_footer data idx = Some f ->
  in_profile h = true -> in_profile f = true ->
  2 <= RB_PROFILE_DISTANCE h f.
Proof.
  unfold spans. intros H Hh Hf Ih If. rewrite Hh, Hf, Ih, If in H.
  cbn [andb negb orb] in H. lia.
Qed.

Section WithConsumer.

Variable U : Type.

(** An iteration over a slot whose profile spans its two pointers stays
    inside the image and the scratch buffer. *)
Lemma step_safe (device : option cressi_leonardo_device_t)
    (data : list byte) (callback : option (dc_dive_callback_t U))
    (latest i : Z) (w w' : walk U) (fl : flow) :
  SZ_MEMORY <= size_of data -> sound w ->
  (forall d, device = Some d -> size_of (fingerprint d) = SZ_FINGERPRINT) ->
  spans data (visited latest i) = true ->
  walk_step U device data callback latest i w = (fl, w') ->
  fl <> Exit Fault.
Proof.
  intros Hs [Hb Hr] Hd Hsp H.
  pose proof (visited_range latest i) as Hi.
  pose proof (slot_offset_range _ Hi) as Ho.
  assert (Hs' : 32000 <= size_of data) by exact Hs.
  rewrite walk_step_eq in H. cbv zeta in H.
  destruct (uint16_some data (slot_offset (visited latest i) + 2))
    as (h & Hh & _); [lia|lia|].
  destruct (uint16_some data (slot_offset (visited latest i) + 4))
    as (f & Hf & _); [lia|lia|].
  fold (slot_header data (visited latest i)) in Hh.
  fold (slot_footer data (visited latest i)) in Hf.
  rewrite Hh, Hf in H.
  destruct (in_profile h && in_profile f) eqn:Ein; cbn [negb] in H;
    [|injection H as <- _; discriminate].
  apply andb_prop in Ein. destruct Ein as [Ih If].
  pose proof (spans_distance data _ h f Hsp Hh Hf Ih If) as Hdist.
  apply in_profile_true in Ih, If.
  destruct (negb (previous U w =? 0) && negb (previous U w =? f + 2));
    [injection H as <- _; discriminate|].
  assert (Hfp : exists b,
             fingerprint_matches device
               (ptr data (slot_offset (visited latest i) + 8)) = Some b).
  { destruct device as [d|]; [|eexists; reflexivity].
    rewrite fingerprint_matches_ident by auto. eauto. }
  destruct Hfp as (b & Hfp). rewrite Hfp in H.
  destruct b; [injection H as <- _; discriminate|].
  destruct (slot_copy data (buffer U w) (visited latest i) Hs Hi Hb)
    as (buf & Hbuf & Hsz & Hslot).
  rewrite Hbuf in H.
  pose proof (distance_range h f ltac:(lia) ltac:(lia) ltac:(lia) ltac:(lia))
    as Hrange.
  rewrite (u32_small (RB_PROFILE_DISTANCE h f - 2)) in H by lia.
  assert (Hdel : forall b0 len rem,
                   deliver U callback w b0 h len rem = (fl, w') ->
                   fl <> Exit Fault).
  { intros b0 len rem Hdl. unfold deliver in Hdl.
    destruct callback as [cb|].
    - destruct (cb b0 (u32 (RB_LOGBOOK_SIZE + len)) (ptr b0 8) SZ_FINGERPRINT
                  (user U w)) as [[|] u'];
        injection Hdl as <- _; discriminate.
    - injection Hdl as <- _; discriminate. }
  destruct (negb (remaining U w =? 0)
            && (remaining U w >=? u32 (RB_PROFILE_DISTANCE h f - 2 + 4))).
  - destruct (uint16_some data f) as (h2 & Hh2 & _); [lia|lia|].
    destruct (uint16_some data h) as (f2 & Hf2 & _); [lia|lia|].
    rewrite Hh2, Hf2 in H.
    destruct (negb (h2 =? h) || negb (f2 =? f));
      [injection H as <- _; discriminate|].
    destruct (copy_profile_ok data buf h (RB_PROFILE_DISTANCE h f - 2))
      as (buf' & Hcp & _); try assumption; try lia.
    rewrite Hcp in H. eapply Hdel. exact H.
  - eapply Hdel. exact H.
Qed.

Lemma walk_loop_safe (d : cressi_leonardo_device_t) (data : list byte)
    (cb : dc_dive_callback_t U) (latest : Z) (n : nat) :
  SZ_MEMORY <= size_of data ->
  size_of (fingerprint d) = SZ_FINGERPRINT ->
  (forall idx, 0 <= idx < 60 -> spans data idx = true) ->
  forall (i : Z) (w w' : walk U) (fl : flow),
    sound w ->
    walk_loop U n (Some d) data (Some cb) latest i w = (fl, w') ->
    fl <> Exit Fault.
Proof.
  intros Hs Hd Hsp. induction n as [|n IH]; intros i w w' fl Hw H.
  - cbn [walk_loop] in H. injection H as <- _. discriminate.
  - cbn [walk_loop] in H.
    destruct (walk_step U (Some d) data (Some cb) latest i w) as [fl1 w1]
      eqn:E1.
    assert (Hsafe : fl1 <> Exit Fault).
    { eapply (step_safe (Some d) data (Some cb) latest i w w1 fl1);
        try assumption.
      - intros d0 E. injection E as <-. exact Hd.
      - apply Hsp. apply visited_range. }
    destruct (step_general U (Some d) data cb latest i w w1 fl1 Hw E1)
      as [Hw1 _].
    destruct fl1 as [| |o].
    + eapply IH; eassumption.
    + injection H as <- _. discriminate.
    + injection H as <- _. exact Hsafe.
Qed.

(** X3.  Memory safety.  On a complete image in which no slot with pointers in the
    profile area has its footer at its header or one byte behind it, the
    extractor never reads or writes outside the image and its scratch
    buffer: it returns success or [DataFormat], with the buffer freed. *)
Theorem extraction_stays_in_bounds :
  forall (data scratch : list byte) (d : cressi_leonardo_device_t)
         (cb : dc_dive_callback_t U) (u : U),
    SZ_MEMORY <= size_of data ->
    size_of scratch = SZ_SCRATCH ->
    size_of (fingerprint d) = SZ_FINGERPRINT ->
    (forall idx, 0 <= idx < 60 -> spans data idx = true) ->
    let r := cressi_leonardo_extract_dives U (Some (LeonardoDevice d))
               (Some scratch) data (Some cb) u in
    (result U r = Returns DC_STATUS_SUCCESS
     \/ result U r = Returns DC_STATUS_DATAFORMAT)
    /\ scratch_freed U r = true.
Proof.
  intros data scratch d cb u Hs Hb Hd Hsp r. subst r.
  destruct (scan_logbook_some data Hs)
    as (count & latest & maximum & Hscan & _).
  rewrite (extract_dives_eq U _ _ _ _ _ _ _ _ Hs Hscan).
  destruct (walk_loop U (Z.to_nat count) (Some d) data (Some cb) latest 0
              (mk_walk U 0 (RB_PROFILE_END - RB_PROFILE_BEGIN) scratch false u
                 [])) as [fl w'] eqn:Eloop.
  pose proof (walk_loop_safe d data cb latest (Z.to_nat count) Hs Hd Hsp 0 _
                w' fl (sound_start U scratch u Hb) Eloop) as Hsafe.
  destruct (walk_loop_general U (Some d) data cb latest (Z.to_nat count) 0 _
              w' fl (sound_start U scratch u Hb) Eloop) as [_ Hfl].
  destruct fl as [| |[rc| |]]; cbn [result scratch_freed]; auto.
  - destruct Hfl as [-> Hfr]. auto.
  - congruence.
  - contradiction.
Qed.

End WithConsumer.

Lemma all_span_567 :
  forall idx, 0 <= idx < 60 -> spans Fixtures.image_567 idx = true.
Proof.
  intros idx H.
  assert (E : forallb (spans Fixtures.image_567) (map Z.of_nat (seq 0 60))
              = true) by (vm_compute; reflexivity).
  rewrite forallb_forall in E. apply E.
  apply in_map_iff. exists (Z.to_nat idx). split; [lia|].
  apply in_seq. lia.
Qed.

Lemma extraction_stays_in_bounds_witness :
  let r := cressi_leonardo_extract_dives nat
             (Some (LeonardoDevice Fixtures.empty_fingerprint))
             (Some Fixtures.scratch0) Fixtures.image_567
             (Some Fixtures.counting) O in
  (result nat r = Returns DC_STATUS_SUCCESS
   \/ result nat r = Returns DC_STATUS_DATAFORMAT)
  /\ scratch_freed nat r = true.
Proof.
  apply (extraction_stays_in_bounds nat Fixtures.image_567 Fixtures.scratch0
           Fixtures.empty_fingerprint Fixtures.counting O).
  - apply Z.leb_le. vm_compute. reflexivity.
  - vm_compute. reflexivity.
  - vm_compute. reflexivity.
  - exact all_span_567.
Defined.

(** Without the condition of [extraction_stays_in_bounds]: a dive whose
    footer pointer equals its header pointer, and whose profile repeats that
    pointer, makes the length wrap to 0xFFFFFFFE and the profile copy leave
    the image. *)
Lemma degenerate_profile_faults :
  spans image_degenerate 0 = false
  /\ result nat
       (cressi_leonardo_extract_dives nat
          (Some (LeonardoDevice Fixtures.empty_fingerprint))
          (Some Fixtures.scratch0) image_degenerate
          (Some Fixtures.counting) O) = Fault.
Proof. split; vm_compute; reflexivity. Qed.

End RecordProofs.

(** ** The bytes of a record *)

Module ContentProofs.

Import ArrayFacts ExtractProofs WalkProofs RobustProofs.
Import Ringbuffer CressiLeonardo Image ImageMore.

Lemma memcpy_content (dst src dst' : list byte) (doff n : Z) :
  0 <= doff -> 0 <= n ->
  memcpy dst doff src n = Some dst' ->
  firstn (Z.to_nat (doff + n)) dst'
  = firstn (Z.to_nat doff) dst ++ firstn (Z.to_nat n) src.
Proof.
  intros Hd Hn. unfold memcpy, bytes_at.
  destruct (n <=? size_of src) eqn:E1; [|discriminate].
  destruct (doff + n <=? size_of dst) eqn:E2; [|discriminate].
  intros H. injection H as <-. unfold size_of in *.
  rewrite app_assoc. rewrite firstn_app.
  rewrite length_app, !length_firstn.
  replace (Z.to_nat (doff + n)
           - (Nat.min (Z.to_nat doff) (length dst)
              + Nat.min (Z.to_nat n) (length src)))%nat with 0%nat by lia.
  cbn [firstn]. rewrite app_nil_r.
  apply firstn_all2. rewrite length_app, !length_firstn. lia.
Qed.

Lemma skipn_cons_nth (l : list byte) :
  forall a : nat, (a < length l)%nat ->
    skipn a l = nth a l x00 :: skipn (S a) l.
Proof.
  induction l as [|x l IH]; intros a H; cbn [length] in H; [lia|].
  destruct a as [|a]; [reflexivity|].
  cbn [skipn nth]. apply IH. lia.
Qed.

Lemma map_seq_shift (A : Type) (n : nat) :
  forall (f : nat -> A) (a : nat),
    map f (seq a n) = map (fun k => f (a + k)%nat) (seq 0 n).
Proof.
  induction n as [|n IH]; intros f a; [reflexivity|].
  cbn [seq map]. rewrite Nat.add_0_r. f_equal.
  rewrite (IH f (S a)), (IH (fun k => f (a + k)%nat) 1%nat).
  apply map_ext. intros k. f_equal. lia.
Qed.

Lemma firstn_skipn_seq (l : list byte) (n : nat) :
  forall a : nat, (a + n <= length l)%nat ->
    firstn n (skipn a l) = map (fun k => nth (a + k) l x00) (seq 0 n).
Proof.
  induction n as [|n IH]; intros a H; [reflexivity|].
  rewrite skipn_cons_nth by lia. cbn [firstn seq map].
  rewrite Nat.add_0_r. f_equal.
  rewrite IH by lia. rewrite (map_seq_shift _ n _ 1%nat).
  apply map_ext. intros k. f_equal. lia.
Qed.

(** Reading the ring byte by byte is reading one range of the image, or two
    when the range crosses the end of the ring. *)
Lemma ring_read_pieces (data : list byte) (address len : Z) :
  RB_PROFILE_END <= size_of data ->
  RB_PROFILE_BEGIN <= address <= RB_PROFILE_END ->
  0 <= len <= RB_PROFILE_END - RB_PROFILE_BEGIN ->
  ring_read data address (Z.to_nat len)
  = if address + len >? RB_PROFILE_END
    then firstn (Z.to_nat (RB_PROFILE_END - address)) (ptr data address)
         ++ firstn (Z.to_nat (len - (RB_PROFILE_END - address)))
              (ptr data RB_PROFILE_BEGIN)
    else firstn (Z.to_nat len) (ptr data address).
Proof.
  unfold RB_PROFILE_END, RB_PROFILE_BEGIN, SZ_MEMORY, size_of, ring_read, ptr.
  intros Hs Ha Hl.
  destruct (address + len >? 32000) eqn:E.
  - replace (Z.to_nat len)
      with (Z.to_nat (32000 - address)
            + Z.to_nat (len - (32000 - address)))%nat by lia.
    rewrite seq_app, map_app. f_equal.
    + rewrite firstn_skipn_seq by lia. apply map_ext_in.
      intros k Hk. apply in_seq in Hk. f_equal.
      unfold ring_position, RB_PROFILE_END, RB_PROFILE_BEGIN, SZ_MEMORY.
      destruct (address + Z.of_nat k <? 32000) eqn:E1; lia.
    + rewrite firstn_skipn_seq by lia.
      rewrite (map_seq_shift _ _ _ (0 + Z.to_nat (32000 - address))%nat).
      apply map_ext_in.
      intros k Hk. apply in_seq in Hk. f_equal.
      unfold ring_position, RB_PROFILE_END, RB_PROFILE_BEGIN, SZ_MEMORY.
      remember (Z.to_nat 5176) as b eqn:Eb.
      assert (Eb' : Z.of_nat b = 5176) by (subst b; reflexivity).
      clear Eb.
      destruct (address
                + Z.of_nat (0 + Z.to_nat (32000 - address) + k) <? 32000)
        eqn:E1; [apply Z.ltb_lt in E1|apply Z.ltb_ge in E1]; lia.
  - rewrite firstn_skipn_seq by lia. apply map_ext_in.
    intros k Hk. apply in_seq in Hk. f_equal.
    unfold ring_position, RB_PROFILE_END, RB_PROFILE_BEGIN, SZ_MEMORY.
    destruct (address + Z.of_nat k <? 32000) eqn:E1; lia.
Qed.

(** The profile copy fills the buffer behind the logbook entry with the
    bytes of the ring. *)
Lemma copy_profile_content (data buf buf' : list byte) (h len : Z) :
  SZ_MEMORY <= size_of data ->
  5176 <= h -> h + 2 <= 32000 -> 0 <= len <= 26822 ->
  copy_profile buf data (h + 2) len = Some buf' ->
  firstn (Z.to_nat (RB_LOGBOOK_SIZE + len)) buf'
  = firstn (Z.to_nat RB_LOGBOOK_SIZE) buf
    ++ ring_read data (h + 2) (Z.to_nat len).
Proof.
  intros Hs Hh1 Hh2 Hl H.
  rewrite ring_read_pieces
    by (unfold RB_PROFILE_END, RB_PROFILE_BEGIN, SZ_MEMORY in *; lia).
  unfold copy_profile in H.
  rewrite (u32_small (h + 2 + len)) in H by lia.
  unfold RB_PROFILE_END, RB_PROFILE_BEGIN, SZ_MEMORY, RB_LOGBOOK_SIZE in *.
  destruct (h + 2 + len >? 32000) eqn:E.
  - rewrite (u32_small (len - (32000 - (h + 2)))) in H by lia.
    destruct (memcpy buf 82 (ptr data (h + 2)) (32000 - (h + 2)))
      as [b1|] eqn:Hb1; [|discriminate].
    apply memcpy_content in H; [|lia|lia].
    apply memcpy_content in Hb1; [|lia|lia].
    replace (82 + len)
      with (82 + (32000 - (h + 2)) + (len - (32000 - (h + 2)))) by lia.
    rewrite H, Hb1, <- app_assoc. reflexivity.
  - apply memcpy_content in H; [|lia|lia]. exact H.
Qed.

Lemma ident_of_prefix (a b : list byte) :
  firstn 82 a = firstn 82 b -> firstn 5 (ptr a 8) = firstn 5 (ptr b 8).
Proof.
  intros H. unfold ptr. change (Z.to_nat 8) with 8%nat.
  rewrite !firstn_skipn_comm. cbn [Nat.add].
  replace (firstn 13 a) with (firstn 13 (firstn 82 a))
    by (rewrite firstn_firstn; reflexivity).
  replace (firstn 13 b) with (firstn 13 (firstn 82 b))
    by (rewrite firstn_firstn; reflexivity).
  rewrite H. reflexivity.
Qed.

Lemma ident_of_slot (data buf : list byte) (idx : Z) :
  0 <= idx < 60 ->
  firstn (Z.to_nat RB_LOGBOOK_SIZE) buf = slot_bytes data idx ->
  firstn (Z.to_nat SZ_FINGERPRINT) (ptr buf 8) = slot_ident data idx.
Proof.
  intros Hi H. pose proof (slot_offset_range idx Hi) as Ho.
  unfold slot_ident. rewrite <- (ptr_ptr data (slot_offset idx) 8) by lia.
  apply ident_of_prefix. exact H.
Qed.

Section WithConsumer.

Variable U : Type.

(** X4.  What a record is made of.  When a slot passes the checks, does not carry
    the fingerprint and its profile still fits in what remains of the ring,
    the consumer is handed the 82 bytes of the slot followed by the bytes of
    the ring from two bytes behind the header pointer up to the footer
    pointer, read across the end of the ring if need be; the fingerprint it
    is handed is the identifier of the slot, and the remaining capacity
    drops by the distance between the pointers plus two. *)
Theorem record_is_slot_then_ring :
  forall (device : option cressi_leonardo_device_t) (data : list byte)
         (cb : dc_dive_callback_t U) (latest i : Z) (w : walk U) (h f : Z),
    SZ_MEMORY <= size_of data -> sound w ->
    slot_header data (visited latest i) = Some h ->
    slot_footer data (visited latest i) = Some f ->
    pointers_ok data (visited latest i) (previous U w) = true ->
    profile_ok data (visited latest i) = true ->
    fingerprint_matches device (ptr data (slot_offset (visited latest i) + 8))
    = Some false ->
    remaining U w <> 0 ->
    RB_PROFILE_DISTANCE h f + 2 <= remaining U w ->
    exists (fl : flow) (w' : walk U) (d : dive),
      walk_step U device data (Some cb) latest i w = (fl, w')
      /\ calls U w' = calls U w ++ [d]
      /\ dive_data d
         = slot_bytes data (visited latest i)
           ++ ring_read data (h + 2) (Z.to_nat (RB_PROFILE_DISTANCE h f - 2))
      /\ dive_fingerprint d = slot_ident data (visited latest i)
      /\ remaining U w' = remaining U w - (RB_PROFILE_DISTANCE h f + 2).
Proof.
  intros device data cb latest i w h f Hs [Hb Hr] Hh Hf Hp Hq Hfp Hr0 Hfit.
  pose proof (visited_range latest i) as Hi.
  rewrite walk_step_eq. cbv zeta.
  unfold pointers_ok in Hp. unfold profile_ok in Hq.
  rewrite Hh, Hf in *.
  apply andb_prop in Hp. destruct Hp as [Hp Hc].
  rewrite Hp. cbn [negb]. apply andb_prop in Hp. destruct Hp as [Ih If].
  apply in_profile_true in Ih, If.
  assert (Ec : negb (previous U w =? 0) && negb (previous U w =? f + 2)
               = false).
  { apply orb_prop in Hc. destruct Hc as [->| ->]; cbn [negb andb];
      [reflexivity|apply andb_false_r]. }
  rewrite Ec, Hfp.
  destruct (slot_copy data (buffer U w) (visited latest i) Hs Hi Hb)
    as (buf & Hbuf & Hsz & Hslot).
  rewrite Hbuf.
  apply andb_prop in Hq. destruct Hq as [Hd He].
  apply Z.leb_le in Hd.
  pose proof (distance_range h f ltac:(lia) ltac:(lia) ltac:(lia) ltac:(lia))
    as Hrange.
  rewrite (u32_small (RB_PROFILE_DISTANCE h f - 2)) by lia.
  rewrite (u32_small (RB_PROFILE_DISTANCE h f - 2 + 4)) by lia.
  assert (Eg : negb (remaining U w =? 0)
               && (remaining U w >=? RB_PROFILE_DISTANCE h f - 2 + 4) = true).
  { apply andb_true_intro. split.
    - apply negb_true_iff. apply Z.eqb_neq. exact Hr0.
    - apply Z.geb_le. lia. }
  rewrite Eg.
  destruct (array_uint16_le (ptr data f)) as [h2|]; [|discriminate].
  destruct (array_uint16_le (ptr data h)) as [f2|]; [|discriminate].
  apply andb_prop in He. destruct He as [E1 E2].
  rewrite E1, E2. cbn [negb orb].
  destruct (copy_profile_ok data buf h (RB_PROFILE_DISTANCE h f - 2))
    as (buf' & Hcp & Hsz' & Hpre); try assumption; try lia.
  rewrite Hcp.
  pose proof (copy_profile_content data buf buf' h
                (RB_PROFILE_DISTANCE h f - 2) Hs ltac:(lia) ltac:(lia)
                ltac:(lia) Hcp) as Hcontent.
  rewrite Hslot in Hcontent.
  assert (Hid : firstn (Z.to_nat SZ_FINGERPRINT) (ptr buf' 8)
                = slot_ident data (visited latest i)).
  { apply ident_of_slot; [exact Hi|]. rewrite Hpre. exact Hslot. }
  unfold RB_PROFILE_END, RB_PROFILE_BEGIN, SZ_MEMORY in Hr.
  rewrite (u32_small (remaining U w - (RB_PROFILE_DISTANCE h f - 2 + 4)))
    by lia.
  unfold deliver.
  rewrite (u32_small (RB_LOGBOOK_SIZE + (RB_PROFILE_DISTANCE h f - 2)))
    by (unfold RB_LOGBOOK_SIZE; lia).
  destruct (cb buf' (RB_LOGBOOK_SIZE + (RB_PROFILE_DISTANCE h f - 2))
              (ptr buf' 8) SZ_FINGERPRINT (user U w)) as [[|] u'].
  - eexists. eexists. eexists. split; [reflexivity|].
    cbn [calls dive_data dive_fingerprint remaining].
    split; [reflexivity|]. split; [exact Hcontent|]. split; [exact Hid|lia].
  - eexists. eexists. eexists. split; [reflexivity|].
    cbn [calls dive_data dive_fingerprint remaining].
    split; [reflexivity|]. split; [exact Hcontent|]. split; [exact Hid|lia].
Qed.

End WithConsumer.

End ContentProofs.

(** ** The fingerprint handed over with a dive *)

Module RoundTripProofs.

Import ArrayFacts ExtractProofs WalkProofs RobustProofs ScanProofs
  ContentProofs.
Import Ringbuffer CressiLeonardo Image ImageMore.

Lemma set_fingerprint_stores (d : cressi_leonardo_device_t) (fp : list byte) :
  size_of (fingerprint d) = SZ_FINGERPRINT -> size_of fp = SZ_FINGERPRINT ->
  cressi_leonardo_device_set_fingerprint d fp
  = (Returns DC_STATUS_SUCCESS, mk_leonardo fp).
Proof.
  intros Hd Hf. unfold cressi_leonardo_device_set_fingerprint.
  rewrite Hf. cbn [Z.eqb SZ_FINGERPRINT negb andb Pos.eqb].
  unfold memcpy. rewrite bytes_at_some by lia.
  rewrite Hd. cbn [Z.add Z.leb Z.compare Pos.compare Pos.compare_cont
                   SZ_FINGERPRINT].
  unfold size_of in *. unfold SZ_FINGERPRINT in *.
  cbn [Z.to_nat firstn app].
  rewrite skipn_all2 by lia. rewrite app_nil_r.
  rewrite firstn_all2 by lia. reflexivity.
Qed.

Lemma slot_ident_size (data : list byte) (idx : Z) :
  SZ_MEMORY <= size_of data -> 0 <= idx < 60 ->
  size_of (slot_ident data idx) = SZ_FINGERPRINT.
Proof.
  intros Hs Hi. pose proof (slot_offset_range idx Hi) as Ho.
  unfold SZ_MEMORY in Hs. unfold slot_ident.
  apply size_of_firstn. rewrite size_of_ptr by lia.
  unfold SZ_FINGERPRINT. lia.
Qed.

Section WithConsumer.

Variable U : Type.

(** A record is only handed over for a slot whose pointers passed the
    checks, and the fingerprint that comes with it is the identifier of the
    slot. *)
Lemma step_record (device : option cressi_leonardo_device_t)
    (data : list byte) (cb : dc_dive_callback_t U) (latest i : Z)
    (w w' : walk U) (fl : flow) (d : dive) :
  SZ_MEMORY <= size_of data -> sound w ->
  walk_step U device data (Some cb) latest i w = (fl, w') ->
  calls U w' = calls U w ++ [d] ->
  pointers_ok data (visited latest i) (previous U w) = true
  /\ dive_fingerprint d = slot_ident data (visited latest i).
Proof.
  intros Hs [Hb Hr] H Hc.
  pose proof (visited_range latest i) as Hi.
  assert (Hno : calls U w' = calls U w -> False).
  { intros E. rewrite E in Hc. apply (f_equal (@length dive)) in Hc.
    rewrite length_app in Hc. cbn [length] in Hc. lia. }
  rewrite walk_step_eq in H. cbv zeta in H. unfold pointers_ok.
  destruct (slot_header data (visited latest i)) as [h|];
    [|injection H as _ <-; exfalso; auto].
  destruct (slot_footer data (visited latest i)) as [f|];
    [|injection H as _ <-; exfalso; auto].
  destruct (in_profile h && in_profile f) eqn:Ein; cbn [negb] in H;
    [|injection H as _ <-; exfalso; auto].
  destruct (negb (previous U w =? 0) && negb (previous U w =? f + 2)) eqn:Ec;
    [injection H as _ <-; exfalso; auto|].
  assert (Hptr : true && ((previous U w =? 0) || (previous U w =? f + 2))
                 = true).
  { destruct (previous U w =? 0); [reflexivity|].
    destruct (previous U w =? f + 2); [reflexivity|discriminate]. }
  split; [exact Hptr|].
  apply andb_prop in Ein. destruct Ein as [Ih If].
  apply in_profile_true in Ih, If.
  destruct (fingerprint_matches device
              (ptr data (slot_offset (visited latest i) + 8))) as [[|]|];
    [injection H as _ <-; exfalso; auto| |injection H as _ <-; exfalso; auto].
  destruct (slot_copy data (buffer U w) (visited latest i) Hs Hi Hb)
    as (buf & Hbuf & Hsz & Hslot).
  rewrite Hbuf in H.
  assert (Hdel : forall b0 len rem,
            firstn (Z.to_nat RB_LOGBOOK_SIZE) b0
            = slot_bytes data (visited latest i) ->
            deliver U (Some cb) w b0 h len rem = (fl, w') ->
            dive_fingerprint d = slot_ident data (visited latest i)).
  { intros b0 len rem Hpre Hdl. unfold deliver in Hdl.
    destruct (cb b0 (u32 (RB_LOGBOOK_SIZE + len)) (ptr b0 8) SZ_FINGERPRINT
                (user U w)) as [[|] u'];
      injection Hdl as _ <-; cbn [calls] in Hc;
      apply app_inv_head in Hc; injection Hc as <-;
      cbn [dive_fingerprint]; apply ident_of_slot; assumption. }
  destruct (negb (remaining U w =? 0)
            && (remaining U w
                >=? u32 (u32 (RB_PROFILE_DISTANCE h f - 2) + 4))).
  - destruct (array_uint16_le (ptr data f)) as [h2|];
      [|injection H as _ <-; exfalso; auto].
    destruct (array_uint16_le (ptr data h)) as [f2|];
      [|injection H as _ <-; exfalso; auto].
    destruct (negb (h2 =? h) || negb (f2 =? f));
      [injection H as _ <-; exfalso; auto|].
    destruct (copy_profile buf data (h + 2)
                (u32 (RB_PROFILE_DISTANCE h f - 2))) as [buf'|] eqn:Hcp;
      [|injection H as _ <-; exfalso; auto].
    destruct (copy_profile_general buf data buf' (h + 2)
                (u32 (RB_PROFILE_DISTANCE h f - 2)))
      as (_ & Hpre & _).
    + unfold RB_PROFILE_END, SZ_MEMORY. lia.
    + apply u32_range.
    + exact Hcp.
    + eapply Hdel; [|exact H]. rewrite Hpre. exact Hslot.
  - eapply Hdel; [|exact H]. exact Hslot.
Qed.

(** The loop only ever adds to the records handed over. *)
Lemma walk_loop_extends (device : option cressi_leonardo_device_t)
    (data : list byte) (cb : dc_dive_callback_t U) (latest : Z) (n : nat) :
  forall (i : Z) (w w' : walk U) (fl : flow),
    sound w ->
    walk_loop U n device data (Some cb) latest i w = (fl, w') ->
    exists more, calls U w' = calls U w ++ more.
Proof.
  induction n as [|n IH]; intros i w w' fl Hw H.
  - cbn [walk_loop] in H. injection H as _ <-. exists [].
    rewrite app_nil_r. reflexivity.
  - cbn [walk_loop] in H.
    destruct (walk_step U device data (Some cb) latest i w) as [fl1 w1] eqn:E1.
    destruct (step_general U device data cb latest i w w1 fl1 Hw E1)
      as [Hw1 Hstep].
    destruct fl1 as [| |o].
    + destruct Hstep as (_ & d & Hc & _).
      destruct (IH (i + 1) w1 w' fl Hw1 H) as [more Hm].
      exists (d :: more). rewrite Hm, Hc, <- app_assoc. reflexivity.
    + injection H as _ <-. destruct Hstep as (_ & [Hc|(d & Hc & _)]).
      * exists []. rewrite app_nil_r. exact Hc.
      * exists [d]. exact Hc.
    + injection H as _ <-. exists []. rewrite app_nil_r.
      destruct o as [rc| |]; [apply Hstep|apply Hstep|contradiction].
Qed.

(** X5.  Round trip of the fingerprint.  The fingerprint that comes with the
    first record of an extraction is accepted by
    [cressi_leonardo_device_set_fingerprint], and once it is set an
    extraction from the same image succeeds without a single call of the
    consumer. *)
Theorem newest_fingerprint_stops_the_next_extraction :
  forall (data scratch scratch' : list byte) (d : cressi_leonardo_device_t)
         (cb : dc_dive_callback_t U) (cb' : option (dc_dive_callback_t U))
         (u u' : U) (first : dive) (rest : list dive),
    SZ_MEMORY <= size_of data ->
    size_of scratch = SZ_SCRATCH ->
    size_of (fingerprint d) = SZ_FINGERPRINT ->
    dives U (cressi_leonardo_extract_dives U (Some (LeonardoDevice d))
               (Some scratch) data (Some cb) u) = first :: rest ->
    cressi_leonardo_device_set_fingerprint d (dive_fingerprint first)
    = (Returns DC_STATUS_SUCCESS, mk_leonardo (dive_fingerprint first))
    /\ cressi_leonardo_extract_dives U
         (Some (LeonardoDevice (mk_leonardo (dive_fingerprint first))))
         (Some scratch') data cb' u'
       = mk_run U (Returns DC_STATUS_SUCCESS) [] u' true.
Proof.
  intros data scratch scratch' d cb cb' u u' first rest Hs Hb Hd Hdives.
  destruct (scan_logbook_some data Hs)
    as (count & latest & maximum & Hscan & Hcount).
  rewrite (extract_dives_eq U _ _ _ _ _ _ _ _ Hs Hscan) in Hdives.
  rewrite (extract_dives_eq U _ _ _ _ _ _ _ _ Hs Hscan).
  pose proof (visited_range latest 0) as Hi.
  assert (Hfirst :
            exists n, Z.to_nat count = S n
              /\ pointers_ok data (visited latest 0) 0 = true
              /\ dive_fingerprint first = slot_ident data (visited latest 0)).
  { destruct (walk_loop U (Z.to_nat count) (Some d) data (Some cb) latest 0
                (mk_walk U 0 (RB_PROFILE_END - RB_PROFILE_BEGIN) scratch false
                   u [])) as [fl w'] eqn:Eloop.
    assert (Hcalls : calls U w' = first :: rest)
      by (destruct fl; exact Hdives).
    clear Hdives.
    destruct (Z.to_nat count) as [|n].
    { cbn [walk_loop] in Eloop. injection Eloop as _ <-. discriminate. }
    exists n. split; [reflexivity|].
    cbn [walk_loop] in Eloop.
    destruct (walk_step U (Some d) data (Some cb) latest 0
                (mk_walk U 0 (RB_PROFILE_END - RB_PROFILE_BEGIN) scratch false
                   u [])) as [fl1 w1] eqn:E1.
    pose proof (sound_start U scratch u Hb) as Hw0.
    destruct (step_general U (Some d) data cb latest 0 _ w1 fl1 Hw0 E1)
      as [Hw1 Hstep].
    assert (Hone : calls U w1 = [] ++ [first]).
    { destruct fl1 as [| |o].
      - destruct Hstep as (_ & d0 & Hc & _). cbn [calls] in Hc.
        destruct (walk_loop_extends (Some d) data cb latest n _ w1 w' fl Hw1
                    Eloop) as [more Hm].
        rewrite Hc in Hm. rewrite Hm in Hcalls. cbn [app] in Hcalls.
        injection Hcalls as -> _. exact Hc.
      - injection Eloop as _ <-.
        destruct Hstep as (_ & [Hc|(d0 & Hc & _)]); cbn [calls] in Hc.
        + rewrite Hc in Hcalls. discriminate.
        + rewrite Hc in Hcalls. cbn [app] in Hcalls.
          injection Hcalls as -> _. exact Hc.
      - injection Eloop as _ <-.
        assert (Hc : calls U w1 = [])
          by (destruct o as [rc| |]; [apply Hstep|apply Hstep|contradiction]).
        rewrite Hc in Hcalls. discriminate. }
    exact (step_record (Some d) data cb latest 0 _ w1 fl1 first Hs Hw0 E1
             Hone). }
  destruct Hfirst as (n & Hn & Hptr & Hid).
  split.
  - apply set_fingerprint_stores; [exact Hd|].
    rewrite Hid. apply slot_ident_size; assumption.
  - rewrite Hn. cbn [walk_loop].
    rewrite (step_breaks U (Some (mk_leonardo (dive_fingerprint first))) data
               cb' latest 0
               (mk_walk U 0 (RB_PROFILE_END - RB_PROFILE_BEGIN) scratch' false
                  u' []) Hptr).
    + reflexivity.
    + rewrite fingerprint_matches_ident; try assumption.
      * f_equal. apply bytes_eqb_true. cbn [fingerprint]. symmetry. exact Hid.
      * cbn [fingerprint]. rewrite Hid. apply slot_ident_size; assumption.
Qed.

End WithConsumer.

End RoundTripProofs.

(** ** The Uwatec extractor on arbitrary and on well-formed streams *)

Module SmartMoreProofs.

Import ArrayFacts.
Import UwatecSmart SmartMore.
Import Image.

Lemma bytes_at_header : bytes_at header 4 = Some header.
Proof. reflexivity. Qed.

Lemma memcmp_marker (data : list byte) (p : Z) :
  0 <= p -> p + 4 <= size_of data ->
  memcmp_eq0 (ptr data p) header 4 = Some (marker_at data p).
Proof.
  intros H0 H4. unfold marker_at, memcmp_eq0.
  rewrite bytes_at_some by (rewrite size_of_ptr by lia; lia).
  rewrite bytes_at_header.
  destruct (bytes_eqb _ header); reflexivity.
Qed.

Lemma marker_in_bounds (data : list byte) (p : Z) :
  0 <= p -> marker_at data p = true -> p + 4 <= size_of data.
Proof.
  intros H0. unfold marker_at, memcmp_eq0, bytes_at.
  destruct (4 <=? size_of (ptr data p)) eqn:E; [|discriminate].
  intros _. apply Z.leb_le in E. unfold size_of, ptr in *.
  rewrite length_skipn in E. lia.
Qed.

Lemma marker_bytes (data : list byte) (p : Z) :
  marker_at data p = true ->
  exists rest, ptr data p = xa5 :: xa5 :: x5a :: x5a :: rest.
Proof.
  unfold marker_at, memcmp_eq0. rewrite bytes_at_header. unfold bytes_at.
  destruct (4 <=? size_of (ptr data p)) eqn:E; [|discriminate].
  destruct (bytes_eqb (firstn (Z.to_nat 4) (ptr data p)) header) eqn:Eb;
    [|discriminate].
  intros _. apply bytes_eqb_true in Eb.
  destruct (ptr data p) as [|b0 [|b1 [|b2 [|b3 rest]]]];
    try (cbn in Eb; discriminate).
  cbn in Eb. unfold header in Eb. injection Eb as -> -> -> ->.
  exists rest. reflexivity.
Qed.

(** Two markers cannot overlap. *)
Lemma markers_apart (data : list byte) (c p : Z) :
  0 <= c -> marker_at data c = true -> c < p <= c + 3 ->
  marker_at data p = false.
Proof.
  intros H0 Hm Hp. destruct (marker_bytes data c Hm) as [rest Hrest].
  assert (Hk : ptr data p = ptr (ptr data c) (p - c)).
  { unfold ptr. rewrite skipn_skipn. f_equal. lia. }
  unfold marker_at. rewrite Hk, Hrest.
  assert (Hcase : p - c = 1 \/ p - c = 2 \/ p - c = 3) by lia.
  unfold memcmp_eq0. rewrite bytes_at_header. unfold bytes_at.
  destruct Hcase as [->|[->| ->]]; cbn [ptr Z.to_nat Pos.to_nat Pos.iter_op
                                         Nat.add skipn];
    match goal with
    | |- context [4 <=? ?s] => destruct (4 <=? s); [|reflexivity]
    end;
    match goal with
    | |- context [bytes_eqb ?a ?b] => destruct (bytes_eqb a b) eqn:Eb
    end; try reflexivity;
    apply bytes_eqb_true in Eb; cbn in Eb; unfold header in Eb;
    discriminate.
Qed.

Lemma uint32_some (data : list byte) (off : Z) :
  0 <= off -> off + 4 <= size_of data ->
  exists v, array_uint32_le (ptr data off) = Some v.
Proof.
  intros H0 H4.
  assert (Hs : 4 <= size_of (ptr data off))
    by (rewrite size_of_ptr by lia; lia).
  destruct (ptr data off) as [|b0 [|b1 [|b2 [|b3 rest]]]];
    try (unfold size_of in Hs; cbn [length] in Hs; lia).
  eexists. reflexivity.
Qed.

Lemma uint32_none (data : list byte) (off : Z) :
  0 <= off -> size_of data < off + 4 ->
  array_uint32_le (ptr data off) = None.
Proof.
  intros H0 H4.
  assert (Hs : size_of (ptr data off) < 4).
  { unfold size_of, ptr in *. rewrite length_skipn. lia. }
  destruct (ptr data off) as [|b0 [|b1 [|b2 [|b3 rest]]]]; try reflexivity.
  unfold size_of in Hs. cbn [length] in Hs. lia.
Qed.

Lemma length_at_some (data : list byte) (c : Z) :
  0 <= c -> c + 8 <= size_of data ->
  array_uint32_le (ptr data (c + 4)) = Some (length_at data c).
Proof.
  intros H0 H8. unfold length_at.
  destruct (uint32_some data (c + 4)) as [v Hv]; [lia|lia|].
  rewrite Hv. reflexivity.
Qed.

Lemma u32_wrap_free (x : Z) : 0 <= x < 2 ^ 32 -> u32 x = x.
Proof. intros H. unfold u32. apply Z.mod_small. exact H. Qed.

(** Every record of a chain is a marker at a valid offset, with its length
    field, and ends below the bound of the chain. *)
Lemma records_below (data : list byte) (cs : list Z) :
  forall (previous c : Z),
    records_ok data previous cs = true -> In c cs ->
    0 <= c /\ marker_at data c = true /\ 8 <= length_at data c
    /\ c + length_at data c <= previous.
Proof.
  induction cs as [|c0 cs IH]; intros previous c Hok Hin; [contradiction|].
  cbn [records_ok] in Hok.
  apply andb_prop in Hok. destruct Hok as [Hok Hrest].
  apply andb_prop in Hok. destruct Hok as [Hok Hend].
  apply andb_prop in Hok. destruct Hok as [Hok Hlen].
  apply andb_prop in Hok. destruct Hok as [Hc0 Hcm].
  apply Z.leb_le in Hc0, Hlen, Hend.
  destruct Hin as [<-|Hin]; [auto|].
  destruct (IH c0 c Hrest Hin) as (H1 & H2 & H3 & H4).
  repeat split; try assumption; lia.
Qed.

Section WithConsumer.

Variable U : Type.

(** The search loop stays inside the data when the markers it can still
    meet leave room for their length field. *)
Lemma search_no_fault (fuel : nat) :
  forall (data : list byte) (callback : option (dc_dive_callback_t U))
         (previous current : Z) (u : U) (done : list call) (r : run U),
    0 <= current -> current + 3 <= size_of data \/ current = 0 ->
    (forall p, 0 <= p < current -> marker_at data p = true ->
               p + 8 <= size_of data) ->
    search_loop U fuel data callback previous current u done = Some r ->
    result U r <> Fault.
Proof.
  induction fuel as [|fuel IH];
    intros data callback previous current u done r H0 Hb Hm H;
    [discriminate|].
  cbn [search_loop] in H.
  destruct (current >? 0) eqn:Epos;
    [|injection H as <-; discriminate].
  rewrite memcmp_marker in H by lia.
  destruct (marker_at data (current - 1)) eqn:Em.
  - rewrite length_at_some in H by (try apply Hm; try assumption; lia).
    destruct (u32 (current - 1 + length_at data (current - 1)) >? previous);
      [injection H as <-; discriminate|].
    set (next := if current - 1 >=? 4 then current - 1 - 4 else 0) in *.
    assert (Hnext : 0 <= next /\ (next + 3 <= size_of data \/ next = 0)
                    /\ next <= current - 5 \/ next = 0).
    { subst next. destruct (current - 1 >=? 4) eqn:E4; [left|right]; lia. }
    assert (Hn0 : 0 <= next) by lia.
    assert (Hnb : next + 3 <= size_of data \/ next = 0) by lia.
    assert (Hnm : forall p, 0 <= p < next -> marker_at data p = true ->
                            p + 8 <= size_of data) by (intros p Hp _; lia).
    destruct callback as [cb|].
    + destruct (cb (ptr data (current - 1)) (length_at data (current - 1))
                  (ptr data (current - 1 + 8)) 4 u) as [[|] u'].
      * eapply IH; [exact Hn0|exact Hnb|exact Hnm|exact H].
      * injection H as <-. discriminate.
    + eapply IH; [exact Hn0|exact Hnb|exact Hnm|exact H].
  - eapply IH; [| | |exact H]; [lia|lia|].
    intros p Hp Hmp. apply Hm; [lia|exact Hmp].
Qed.

(** The search loop runs down to a marker that leaves no room for its
    length field, and reads beyond the data there. *)
Lemma search_reaches_late_marker (fuel : nat) :
  forall (data : list byte) (callback : option (dc_dive_callback_t U))
         (previous current c : Z) (u : U) (done : list call),
    0 <= c < current -> current + 3 <= size_of data ->
    current - c <= Z.of_nat fuel ->
    marker_at data c = true -> size_of data < c + 8 ->
    (forall p, c < p < current -> marker_at data p = false) ->
    search_loop U fuel data callback previous current u done
    = Some (mk_run U Fault done u).
Proof.
  induction fuel as [|fuel IH];
    intros data callback previous current c u done Hc Hb Hf Hm Hl Hno; [lia|].
  cbn [search_loop].
  destruct (current >? 0) eqn:Epos; [|lia].
  rewrite memcmp_marker by lia.
  destruct (Z.eq_dec (current - 1) c) as [E|E].
  - rewrite E, Hm. rewrite uint32_none by lia. reflexivity.
  - rewrite (Hno (current - 1)) by lia.
    apply (IH data callback previous (current - 1) c u done); try assumption;
      try lia.
    intros p Hp. apply Hno. lia.
Qed.

Lemma search_loop_result (fuel : nat) :
  forall (data : list byte) (callback : option (dc_dive_callback_t U))
         (previous current : Z) (u : U) (done : list call) (r : run U),
    search_loop U fuel data callback previous current u done = Some r ->
    result U r = Returns DC_STATUS_SUCCESS
    \/ result U r = Returns DC_STATUS_DATAFORMAT
    \/ result U r = Fault.
Proof.
  induction fuel as [|fuel IH];
    intros data callback previous current u done r H; [discriminate|].
  cbn [search_loop] in H.
  destruct (current >? 0); [|injection H as <-; auto].
  destruct (memcmp_eq0 (ptr data (current - 1)) header 4) as [[|]|];
    [| eapply IH; exact H | injection H as <-; auto].
  destruct (array_uint32_le (ptr data (current - 1 + 4))) as [len|];
    [|injection H as <-; auto].
  destruct (u32 (current - 1 + len) >? previous);
    [injection H as <-; auto|].
  destruct callback as [cb|]; [|eapply IH; exact H].
  destruct (cb (ptr data (current - 1)) len (ptr data (current - 1 + 8)) 4 u)
    as [[|] u']; [eapply IH; exact H|injection H as <-; auto].
Qed.

(** X6.  Whatever the stream holds, [uwatec_smart_extract_dives] returns.
    Every call of the consumer is for a marker that lies below the start of
    the record handed over before it (below the end of the data for the
    first), announces the length stored behind that marker, and has passed
    the comparison of the 32-bit sum of offset and length with that start.
    The status is success, [DataFormat], [InvalidArgs] or an access outside
    the data; a handle of another family gives [InvalidArgs] without a
    call. *)
Theorem smart_calls_descend_from_the_end :
  forall (abstract : option dc_device_t) (data : list byte)
         (callback : option (dc_dive_callback_t U)) (u : U),
    exists r,
      uwatec_smart_extract_dives U abstract data callback u = Some r
      /\ emitted_ok data (size_of data) (calls U r)
      /\ (result U r = Returns DC_STATUS_SUCCESS
          \/ result U r = Returns DC_STATUS_DATAFORMAT
          \/ result U r = Returns DC_STATUS_INVALIDARGS
          \/ result U r = Fault)
      /\ (result U r = Returns DC_STATUS_INVALIDARGS <->
          exists a, abstract = Some a /\ ISINSTANCE a = false)
      /\ (result U r = Returns DC_STATUS_INVALIDARGS ->
          calls U r = [] /\ userdata U r = u).
Proof.
  intros abstract data callback u.
  unfold uwatec_smart_extract_dives.
  destruct (match abstract with
            | Some a => negb (ISINSTANCE a)
            | None => false
            end) eqn:Ea.
  { eexists. split; [reflexivity|]. cbn [calls result userdata].
    split; [exact I|]. split; [auto|]. split; [|auto].
    split; [intros _|reflexivity].
    destruct abstract as [a|]; [|discriminate].
    exists a. split; [reflexivity|]. destruct (ISINSTANCE a);
      [discriminate|reflexivity]. }
  pose proof (size_of_nonneg data) as Hs.
  destruct (SmartProofs.search_loop_spec U
              (S (Z.to_nat (if size_of data >=? 4 then size_of data - 4 else 0)))
              data callback (size_of data)
              (if size_of data >=? 4 then size_of data - 4 else 0) u [])
    as (r & new & Hr & Hcalls & Hok).
  - destruct (size_of data >=? 4) eqn:E; lia.
  - destruct (size_of data >=? 4) eqn:E; lia.
  - exists r. split; [exact Hr|]. split; [rewrite Hcalls; exact Hok|].
    pose proof (search_loop_result _ _ _ _ _ _ _ _ Hr) as Hres.
    split; [tauto|]. split.
    + split.
      * intros E. rewrite E in Hres.
        destruct Hres as [H|[H|H]]; discriminate.
      * intros (a & -> & Ha). rewrite Ha in Ea. discriminate.
    + intros E. rewrite E in Hres. destruct Hres as [H|[H|H]]; discriminate.
Qed.

(** X7.  The extractor reads outside the data exactly when a marker starts
    in the last seven bytes but four: the four bytes of its length field are
    then read at an offset where fewer than four are left.  In that case no
    record was handed over before. *)
Theorem smart_reads_beyond_data_iff_late_marker :
  forall (dev : option uwatec_smart_device_t) (data : list byte)
         (callback : option (dc_dive_callback_t U)) (u : U),
    exists r,
      uwatec_smart_extract_dives U (option_map SmartDevice dev) data callback u
      = Some r
      /\ (result U r = Fault <->
          exists c, 0 <= c /\ size_of data - 7 <= c <= size_of data - 5
                    /\ marker_at data c = true)
      /\ (result U r = Fault -> calls U r = []).
Proof.
  intros dev data callback u.
  unfold uwatec_smart_extract_dives.
  assert (Ea : match option_map SmartDevice dev with
               | Some a => negb (ISINSTANCE a)
               | None => false
               end = false) by (destruct dev; reflexivity).
  rewrite Ea. clear Ea.
  pose proof (size_of_nonneg data) as Hs.
  set (s := size_of data) in *.
  set (current := if s >=? 4 then s - 4 else 0).
  assert (Hcur : 0 <= current /\ (current + 3 <= s \/ current = 0)
                 /\ (4 <= s -> current = s - 4) /\ (s < 4 -> current = 0)).
  { subst current. destruct (s >=? 4) eqn:E; lia. }
  destruct (late_marker data) eqn:El.
  - unfold late_marker in El. apply existsb_exists in El.
    destruct El as (c & Hin & Hc). apply andb_prop in Hc.
    destruct Hc as [Hc0 Hcm]. apply Z.leb_le in Hc0.
    assert (Hrange : s - 7 <= c <= s - 5).
    { unfold late_offsets in Hin. fold s in Hin. cbn [In] in Hin.
      destruct Hin as [<-|[<-|[<-|[]]]]; lia. }
    assert (Hrun : search_loop U (S (Z.to_nat current)) data callback s
                     current u [] = Some (mk_run U Fault [] u)).
    { apply search_reaches_late_marker with (c := c); try assumption;
        fold s; try lia.
      intros p Hp. apply (markers_apart data c p); [exact Hc0|exact Hcm|lia]. }
    eexists. split; [exact Hrun|]. cbn [result calls].
    split; [|reflexivity]. split; [intros _|reflexivity].
    exists c. auto.
  - destruct (SmartProofs.search_loop_spec U (S (Z.to_nat current)) data
                callback s current u [])
      as (r & new & Hr & _); [lia|lia|].
    exists r. split; [exact Hr|].
    assert (Hsafe : result U r <> Fault).
    { apply (search_no_fault (S (Z.to_nat current)) data callback s current u
               [] r); try tauto.
      intros p Hp Hpm.
      destruct (Z_le_gt_dec (p + 8) (size_of data)) as [|Hlate];
        [assumption|exfalso].
      fold s in Hlate.
      assert (Hex : late_marker data = true).
      { unfold late_marker. apply existsb_exists. exists p. split.
        - unfold late_offsets. fold s. cbn [In].
          assert (p = s - 5 \/ p = s - 6 \/ p = s - 7) by lia. intuition.
        - apply andb_true_intro. split; [apply Z.leb_le; lia|exact Hpm]. }
      rewrite Hex in El. discriminate. }
    split; [|intros E; contradiction].
    split; [intros E; contradiction|].
    intros (c & Hc0 & Hrange & Hcm). exfalso.
    assert (Hex : late_marker data = true).
    { unfold late_marker. apply existsb_exists. exists c. split.
      - unfold late_offsets. fold s. cbn [In].
        assert (c = s - 5 \/ c = s - 6 \/ c = s - 7) by lia. intuition.
      - apply andb_true_intro. split; [apply Z.leb_le; lia|exact Hcm]. }
    rewrite Hex in El. discriminate.
Qed.


(** The search loop on a stream of records: from any point of the scan at
    which the records still to come are [cs], it hands over exactly
    those. *)
Lemma search_complete (cb : dc_dive_callback_t U) (fuel : nat) :
  forall (data : list byte) (previous current : Z) (u : U)
         (done : list call) (cs : list Z),
    always_goes cb ->
    size_of data < 2 ^ 32 -> previous <= size_of data ->
    0 <= current -> current + 3 <= size_of data \/ current = 0 ->
    current < Z.of_nat fuel ->
    records_ok data previous cs = true ->
    (forall c, In c cs -> c < current) ->
    (forall p, 0 <= p < current -> marker_at data p = true -> In p cs) ->
    exists u',
      search_loop U fuel data (Some cb) previous current u done
      = Some (mk_run U (Returns DC_STATUS_SUCCESS)
                (done ++ map (fun c => mk_call c (length_at data c)) cs) u').
Proof.
  induction fuel as [|fuel IH];
    intros data previous current u done cs Hgo Hsz Hprev H0 Hb Hf Hok Hlt Hall;
    [lia|].
  cbn [search_loop].
  destruct (current >? 0) eqn:Epos.
  2:{ destruct cs as [|c cs'].
      - exists u. cbn [map]. rewrite app_nil_r. reflexivity.
      - exfalso. cbn [records_ok] in Hok.
        repeat (apply andb_prop in Hok; destruct Hok as [Hok ?]).
        assert (c < current) by (apply Hlt; left; reflexivity). lia. }
  rewrite memcmp_marker by lia.
  destruct (marker_at data (current - 1)) eqn:Em.
  - assert (Hin : In (current - 1) cs) by (apply Hall; [lia|exact Em]).
    destruct cs as [|c cs']; [contradiction|].
    cbn [records_ok] in Hok.
    apply andb_prop in Hok. destruct Hok as [Hok Hrest].
    apply andb_prop in Hok. destruct Hok as [Hok Hend].
    apply andb_prop in Hok. destruct Hok as [Hok Hlen].
    apply andb_prop in Hok. destruct Hok as [Hc0 Hcm].
    apply Z.leb_le in Hc0, Hlen, Hend.
    assert (Hbelow : forall c', In c' cs' -> 0 <= c' /\ c' + 8 <= c).
    { intros c' Hc'. destruct (records_below data cs' c c' Hrest Hc')
        as (H1 & _ & H3 & H4). lia. }
    assert (Ec : c = current - 1).
    { destruct Hin as [E|Hin]; [exact E|].
      assert (c < current) by (apply Hlt; left; reflexivity).
      destruct (Hbelow _ Hin). lia. }
    subst c.
    rewrite length_at_some by lia.
    rewrite (u32_wrap_free (current - 1 + length_at data (current - 1)))
      by lia.
    destruct (current - 1 + length_at data (current - 1) >? previous) eqn:Eo;
      [lia|].
    pose proof (Hgo (ptr data (current - 1)) (length_at data (current - 1))
                  (ptr data (current - 1 + 8)) 4 u) as Hcb.
    destruct (cb (ptr data (current - 1)) (length_at data (current - 1))
                (ptr data (current - 1 + 8)) 4 u) as [go u1].
    cbn [fst] in Hcb. subst go.
    set (next := if current - 1 >=? 4 then current - 1 - 4 else 0).
    assert (Hnext : 0 <= next /\ next <= current - 1
                    /\ (next = current - 5 \/ (next = 0 /\ current - 1 < 4))).
    { subst next. destruct (current - 1 >=? 4) eqn:E4; lia. }
    destruct (IH data (current - 1) next u1
                (done ++ [mk_call (current - 1)
                            (length_at data (current - 1))]) cs')
      as [u' Hu']; try assumption; try lia.
    + intros c' Hc'. destruct (Hbelow _ Hc'). lia.
    + intros p Hp Hpm.
      assert (Hin' : In p ((current - 1) :: cs')) by (apply Hall; [lia|exact Hpm]).
      destruct Hin' as [E|Hin']; [lia|exact Hin'].
    + exists u'. rewrite Hu'. cbn [map]. rewrite <- app_assoc. reflexivity.
  - destruct (IH data previous (current - 1) u done cs) as [u' Hu'];
      try assumption; try lia.
    + intros c Hc. assert (c < current) by (apply Hlt; exact Hc).
      assert (c <> current - 1).
      { intros ->.
        assert (Hmc : marker_at data (current - 1) = true)
          by (apply (records_below data cs previous _ Hok Hc)).
        rewrite Hmc in Em. discriminate. }
      lia.
    + intros p Hp Hpm. apply Hall; [lia|exact Hpm].
    + exists u'. exact Hu'.
Qed.

(** X8.  Completeness on a stream of records.  When the markers of the
    stream are exactly the starts [cs] of records that lie one behind the
    other, each at least eight bytes long and ending where the next one
    starts or before, and the consumer never asks to stop, the extractor
    succeeds and hands over every record with its stored length, the one at
    the highest offset first. *)
Theorem smart_hands_over_every_record :
  forall (dev : option uwatec_smart_device_t) (data : list byte)
         (cb : dc_dive_callback_t U) (u : U) (cs : list Z),
    size_of data < 2 ^ 32 ->
    records_ok data (size_of data) cs = true ->
    (forall p, 0 <= p -> marker_at data p = true -> In p cs) ->
    always_goes cb ->
    exists u',
      uwatec_smart_extract_dives U (option_map SmartDevice dev) data (Some cb) u
      = Some (mk_run U (Returns DC_STATUS_SUCCESS)
                (map (fun c => mk_call c (length_at data c)) cs) u').
Proof.
  intros dev data cb u cs Hsz Hok Hall Hgo.
  unfold uwatec_smart_extract_dives.
  assert (Ea : match option_map SmartDevice dev with
               | Some a => negb (ISINSTANCE a)
               | None => false
               end = false) by (destruct dev; reflexivity).
  rewrite Ea. clear Ea.
  pose proof (size_of_nonneg data) as Hs.
  set (s := size_of data) in *.
  set (current := if s >=? 4 then s - 4 else 0).
  assert (Hcur : 0 <= current /\ (current + 3 <= s \/ current = 0)
                 /\ (4 <= s -> current = s - 4) /\ (s < 4 -> current = 0)).
  { subst current. destruct (s >=? 4) eqn:E; lia. }
  destruct (search_complete cb (S (Z.to_nat current)) data s current u [] cs)
    as [u' Hu']; try assumption; try tauto; try lia.
  - intros c Hc.
    destruct (records_below data cs s c Hok Hc) as (H1 & _ & H3 & H4). lia.
  - intros p Hp Hpm. apply Hall; [lia|exact Hpm].
  - exists u'. exact Hu'.
Qed.

End WithConsumer.

End SmartMoreProofs.

(** ** Which attempt a transfer returns *)

Module AttemptProofs.

Import CressiLeonardo ProtocolMore.

Section WithHelpers.

Variable crc : list byte -> Z.
Variable hex2bin : list byte -> list byte.

Lemma first_final_attempt (command : list byte) (asize : Z) (m : nat) :
  forall (port : dc_serial_t) (answer : list byte),
    exists k,
      (k <= m)%nat
      /\ (forall j, (j < k)%nat ->
            failed_retriably
              (fst (fst (attempt crc hex2bin j port command answer asize)))
            = true)
      /\ (failed_retriably
            (fst (fst (attempt crc hex2bin k port command answer asize)))
          = false
          \/ k = m).
Proof.
  induction m as [|m IH]; intros port answer.
  - exists O. split; [lia|]. split; [intros j Hj; lia|right; reflexivity].
  - destruct (failed_retriably
                (fst (fst (attempt crc hex2bin 0 port command answer asize))))
      eqn:E0.
    + cbn [attempt] in E0.
      destruct (cressi_leonardo_packet crc hex2bin port command answer asize)
        as [[o a'] p'] eqn:Hp.
      destruct (IH p' a') as (k & Hk & Hbefore & Hlast).
      exists (S k). split; [lia|]. split.
      * intros [|j] Hj.
        -- cbn [attempt]. rewrite Hp. exact E0.
        -- cbn [attempt]. rewrite Hp. apply Hbefore. lia.
      * cbn [attempt]. rewrite Hp.
        destruct Hlast as [Hl|Hl]; [left; exact Hl|right; lia].
    + exists O. split; [lia|]. split; [intros j Hj; lia|left; exact E0].
Qed.

(** X9.  Which attempt [cressi_leonardo_transfer] returns.  The transfer
    always returns, with the status, the buffer and the line of one call of
    [cressi_leonardo_packet]: of the first call that does not fail with
    [Protocol] or [Timeout], or of the fifth call (four retries) when the
    first four all fail that way.  Every call before it failed with
    [Protocol] or [Timeout]. *)
Theorem transfer_returns_first_final_attempt :
  forall (port : dc_serial_t) (command answer : list byte) (asize : Z),
    exists k,
      Z.of_nat k <= MAXRETRIES
      /\ cressi_leonardo_transfer crc hex2bin port command answer asize
         = Some (attempt crc hex2bin k port command answer asize)
      /\ (forall j, (j < k)%nat ->
            failed_retriably
              (fst (fst (attempt crc hex2bin j port command answer asize)))
            = true)
      /\ (failed_retriably
            (fst (fst (attempt crc hex2bin k port command answer asize)))
          = false
          \/ Z.of_nat k = MAXRETRIES).
Proof.
  intros port command answer asize.
  destruct (first_final_attempt command asize (Z.to_nat MAXRETRIES) port
              answer) as (k & Hk & Hbefore & Hlast).
  assert (HM : Z.of_nat (Z.to_nat MAXRETRIES) = MAXRETRIES) by reflexivity.
  exists k. split; [lia|]. split; [|split; [exact Hbefore|]].
  - unfold cressi_leonardo_transfer, transfer_with.
    apply TransferProofs.loop_is_attempt; try assumption; try lia.
    destruct Hlast as [Hl|Hl]; [left; exact Hl|right; lia].
  - destruct Hlast as [Hl|Hl]; [left; exact Hl|right; lia].
Qed.

End WithHelpers.

End AttemptProofs.

(** ** Frames and reads of the Cressi protocol *)

Module FrameProofs.

Import ArrayFacts.
Import CressiLeonardo ProtocolMore.

Lemma firstn_exact (a b : list byte) (n : nat) :
  n = length a -> firstn n (a ++ b) = a.
Proof.
  intros ->. rewrite firstn_app, Nat.sub_diag, firstn_all. cbn [firstn].
  apply app_nil_r.
Qed.

Lemma skipn_exact (a b : list byte) (n : nat) :
  n = length a -> skipn n (a ++ b) = b.
Proof.
  intros ->. rewrite skipn_app, Nat.sub_diag, skipn_all. reflexivity.
Qed.

Lemma size_of_concat (a b : list byte) : size_of (a ++ b) = size_of a + size_of b.
Proof. unfold size_of. rewrite length_app. lia. Qed.

(** A copy that replaces the part [b] of a buffer [a ++ b ++ c]. *)
Lemma memcpy_app (a b c src : list byte) (doff n : Z) :
  size_of a = doff -> size_of b = n -> n <= size_of src ->
  memcpy (a ++ b ++ c) doff src n = Some (a ++ firstn (Z.to_nat n) src ++ c).
Proof.
  intros Ha Hb Hs. unfold memcpy. rewrite bytes_at_some by lia.
  pose proof (size_of_nonneg a). pose proof (size_of_nonneg b).
  destruct (doff + n <=? size_of (a ++ b ++ c)) eqn:E.
  - rewrite (firstn_exact a) by (unfold size_of in *; lia).
    rewrite (app_assoc a b c).
    rewrite (skipn_exact (a ++ b))
      by (rewrite length_app; unfold size_of in *; lia).
    reflexivity.
  - apply Z.leb_gt in E. rewrite !size_of_concat in E.
    pose proof (size_of_nonneg c). lia.
Qed.

Lemma b2z_z2b (x : Z) : b2z (z2b x) = x mod 256.
Proof.
  unfold b2z, z2b.
  assert (Hr : 0 <= x mod 256 < 256) by (apply Z.mod_pos_bound; lia).
  destruct (Byte.of_N (Z.to_N (x mod 256))) as [b|] eqn:E.
  - apply Byte.to_of_N in E. rewrite E. lia.
  - apply Byte.of_N_None_iff in E. lia.
Qed.

(** The two bytes of a 16-bit checksum give the checksum back. *)
Lemma uint16_be_checksum_bytes (c : Z) (rest : list byte) :
  0 <= c < 65536 ->
  array_uint16_be (checksum_bytes c ++ rest) = Some c.
Proof.
  intros Hc. unfold checksum_bytes. cbn [app array_uint16_be].
  rewrite !b2z_z2b. f_equal.
  change 0xFF with (Z.ones 8). rewrite !Z.land_ones by lia.
  rewrite Z.shiftr_div_pow2, Z.shiftl_mul_pow2 by lia.
  change (2 ^ 8) with 256.
  rewrite (Z.mod_small (c / 256 mod 256)) by (apply Z.mod_pos_bound; lia).
  rewrite (Z.mod_small (c mod 256)) by (apply Z.mod_pos_bound; lia).
  Z.div_mod_to_equations. lia.
Qed.

Section WithHelpers.

Variable crc : list byte -> Z.
Variable hex2bin : list byte -> list byte.
Variable bin2hex : list byte -> list byte.

(** What the code relies on from array.h and checksum.h. *)
Hypothesis bin2hex_length :
  forall l, length (bin2hex l) = (2 * length l)%nat.
Hypothesis hex2bin_bin2hex : forall l, hex2bin (bin2hex l) = l.
Hypothesis crc_range : forall l, 0 <= crc l < 65536.

Lemma bin2hex_size (l : list byte) : size_of (bin2hex l) = 2 * size_of l.
Proof. unfold size_of. rewrite bin2hex_length. lia. Qed.

(** The frame that [cressi_leonardo_make_ascii] builds in a buffer of the
    right size. *)
Lemma make_ascii_frame (raw ascii : list byte) :
  size_of ascii = 2 * (size_of raw + 3) ->
  cressi_leonardo_make_ascii crc bin2hex raw ascii
  = Some ([x7b] ++ bin2hex raw
          ++ bin2hex (checksum_bytes (crc (bin2hex raw) mod 2 ^ 16))
          ++ [x7d]).
Proof.
  intros Hsize. unfold cressi_leonardo_make_ascii.
  destruct (size_of ascii =? 2 * (size_of raw + 3)) eqn:E; [|lia].
  cbn [negb]. clear E.
  pose proof (size_of_nonneg raw) as Hr.
  set (r := size_of raw) in *.
  (* the four regions of the buffer *)
  assert (Hsplit : exists z1 z2 z3 z4,
            ascii = z1 ++ z2 ++ z3 ++ z4
            /\ size_of z1 = 1 /\ size_of z2 = 2 * r /\ size_of z3 = 4
            /\ size_of z4 = 1).
  { exists (firstn 1 ascii), (firstn (Z.to_nat (2 * r)) (skipn 1 ascii)),
      (firstn 4 (skipn (Z.to_nat (2 * r)) (skipn 1 ascii))),
      (skipn 4 (skipn (Z.to_nat (2 * r)) (skipn 1 ascii))).
    split.
    - rewrite !firstn_skipn. reflexivity.
    - unfold size_of in *.
      rewrite !length_firstn, !length_skipn. lia. }
  destruct Hsplit as (z1 & z2 & z3 & z4 & -> & H1 & H2 & H3 & H4).
  cbv zeta.
  remember (size_of (z1 ++ z2 ++ z3 ++ z4)) as asize eqn:Ea.
  set (hex := bin2hex raw).
  assert (Hhex : size_of hex = 2 * r) by (apply bin2hex_size).
  set (chk := bin2hex (checksum_bytes (crc hex mod 2 ^ 16))).
  assert (Hchk : size_of chk = 4) by (subst chk; rewrite bin2hex_size; reflexivity).
  assert (S1 : memcpy (z1 ++ z2 ++ z3 ++ z4) 0 [x7b] 1
               = Some ([x7b] ++ z2 ++ z3 ++ z4)).
  { apply (memcpy_app [] z1 (z2 ++ z3 ++ z4) [x7b] 0 1);
      [reflexivity|exact H1|unfold size_of; cbn; lia]. }
  assert (S2 : memcpy ([x7b] ++ z2 ++ z3 ++ z4) 1 hex (2 * r)
               = Some ([x7b] ++ hex ++ z3 ++ z4)).
  { rewrite (memcpy_app [x7b] z2 (z3 ++ z4) hex 1 (2 * r));
      [|reflexivity|exact H2|lia].
    rewrite (firstn_all2 hex) by (unfold size_of in Hhex; lia).
    reflexivity. }
  assert (S3 : bytes_at (ptr ([x7b] ++ hex ++ z3 ++ z4) 1) (2 * r) = Some hex).
  { change (ptr ([x7b] ++ hex ++ z3 ++ z4) 1) with (hex ++ z3 ++ z4).
    rewrite bytes_at_some
      by (rewrite size_of_concat; pose proof (size_of_nonneg (z3 ++ z4)); lia).
    rewrite firstn_exact; [reflexivity|]. unfold size_of in *. lia. }
  assert (S4 : memcpy ([x7b] ++ hex ++ z3 ++ z4) (1 + 2 * r) chk 4
               = Some ([x7b] ++ hex ++ chk ++ z4)).
  { replace ([x7b] ++ hex ++ z3 ++ z4) with (([x7b] ++ hex) ++ z3 ++ z4)
      by (rewrite <- app_assoc; reflexivity).
    rewrite (memcpy_app ([x7b] ++ hex) z3 z4 chk (1 + 2 * r) 4);
      [|rewrite size_of_concat, Hhex; reflexivity|exact H3|lia].
    rewrite (firstn_all2 chk) by (unfold size_of in Hchk; lia).
    rewrite <- app_assoc. reflexivity. }
  assert (S5 : memcpy ([x7b] ++ hex ++ chk ++ z4) (asize - 1) [x7d] 1
               = Some ([x7b] ++ hex ++ chk ++ [x7d])).
  { replace ([x7b] ++ hex ++ chk ++ z4)
      with ((([x7b] ++ hex) ++ chk) ++ z4 ++ [])
      by (rewrite app_nil_r, <- !app_assoc; reflexivity).
    rewrite (memcpy_app (([x7b] ++ hex) ++ chk) z4 [] [x7d] (asize - 1) 1).
    - change (firstn (Z.to_nat 1) [x7d]) with [x7d].
      rewrite <- !app_assoc. reflexivity.
    - rewrite !size_of_concat, Hhex, Hchk. rewrite Ea, !size_of_concat, H1, H2, H3, H4.
      unfold size_of. cbn [length]. lia.
    - exact H4.
    - unfold size_of. cbn. lia. }
  rewrite S1, S2, S3.
  fold chk. rewrite S4. exact S5.
Qed.

Lemma frame_of_eq (payload : list byte) :
  frame_of crc bin2hex payload
  = [x7b] ++ bin2hex payload
    ++ bin2hex (checksum_bytes (crc (bin2hex payload) mod 2 ^ 16)) ++ [x7d].
Proof.
  unfold frame_of. rewrite make_ascii_frame; [reflexivity|].
  unfold memset, size_of. rewrite repeat_length.
  pose proof (size_of_nonneg payload). unfold size_of in *. lia.
Qed.

Lemma frame_of_size (payload : list byte) :
  size_of (frame_of crc bin2hex payload) = 2 * (size_of payload + 3).
Proof.
  rewrite frame_of_eq, !size_of_concat, !bin2hex_size.
  unfold size_of. cbn [length checksum_bytes]. lia.
Qed.

(** The command that the read loop builds in its 14-byte buffer. *)
Lemma make_ascii_command (address len : Z) :
  cressi_leonardo_make_ascii crc bin2hex (raw_command address len)
    (memset x00 (2 * (4 + 3)))
  = Some (frame_of crc bin2hex (raw_command address len)).
Proof.
  rewrite frame_of_eq. apply make_ascii_frame. reflexivity.
Qed.

(** A frame that arrives whole passes the checks of
    [cressi_leonardo_packet], and its digits decode to the payload. *)
Lemma packet_accepts_frame (payload command answer : list byte)
    (rest : dc_serial_t) :
  let frame := frame_of crc bin2hex payload in
  let asize := 2 * (size_of payload + 3) in
  let answer' := frame ++ skipn (Z.to_nat asize) answer in
  cressi_leonardo_packet crc hex2bin
    (mk_exchange false DC_STATUS_SUCCESS DC_STATUS_SUCCESS frame :: rest)
    command answer asize
  = (Returns DC_STATUS_SUCCESS, answer', rest)
  /\ bytes_at (ptr answer' 1) (2 * size_of payload)
     = Some (bin2hex payload).
Proof.
  cbv zeta.
  pose proof (size_of_nonneg payload) as Hp.
  pose proof (frame_of_size payload) as Hsize.
  pose proof (frame_of_eq payload) as Hframe.
  pose proof (bin2hex_size payload) as Hhex.
  pose proof (hex2bin_bin2hex
                (checksum_bytes (crc (bin2hex payload) mod 2 ^ 16))) as Hdec.
  pose proof (bin2hex_size
                (checksum_bytes (crc (bin2hex payload) mod 2 ^ 16))) as Hchk.
  change (size_of (checksum_bytes (crc (bin2hex payload) mod 2 ^ 16)))
    with 2 in Hchk.
  pose proof (Z.mod_small _ _ (crc_range (bin2hex payload))) as Hc.
  change 65536 with (2 ^ 16) in Hc.
  assert (Hcr : 0 <= crc (bin2hex payload) mod 2 ^ 16 < 65536)
    by (apply Z.mod_pos_bound; lia).
  remember (frame_of crc bin2hex payload) as frame eqn:Ef.
  remember (bin2hex payload) as hex eqn:Eh.
  remember (crc hex mod 2 ^ 16) as c eqn:Ec.
  remember (bin2hex (checksum_bytes c)) as chk eqn:Ek.
  remember (2 * (size_of payload + 3)) as asize eqn:Ea.
  remember (skipn (Z.to_nat asize) answer) as tail eqn:Et.
  clear Ef Eh Ek.
  assert (Hbody : bytes_at (ptr (frame ++ tail) 1) (2 * size_of payload)
                  = Some hex).
  { rewrite Hframe.
    change (ptr (([x7b] ++ hex ++ chk ++ [x7d]) ++ tail) 1)
      with ((hex ++ chk ++ [x7d]) ++ tail).
    rewrite <- app_assoc.
    rewrite bytes_at_some
      by (rewrite size_of_concat;
          pose proof (size_of_nonneg ((chk ++ [x7d]) ++ tail)); lia).
    rewrite firstn_exact; [reflexivity|]. unfold size_of in *. lia. }
  split; [|exact Hbody].
  unfold cressi_leonardo_packet.
  cbn [next_exchange cancelled write_rc].
  unfold dc_serial_read. cbn [read_rc incoming].
  destruct (asize <=? size_of frame) eqn:E; [|lia].
  rewrite (firstn_all2 frame) by (unfold size_of in *; lia).
  cbv beta iota. rewrite <- Et. clear Et.
  assert (Hu1 : usub asize 1 = asize - 1)
    by (unfold usub; destruct (asize <? 1) eqn:E1; [lia|reflexivity]).
  assert (Hu6 : usub asize 6 = 2 * size_of payload)
    by (unfold usub; destruct (asize <? 6) eqn:E6; lia).
  assert (H0 : at_index (frame ++ tail) 0 = Some x7b).
  { rewrite Hframe. reflexivity. }
  assert (H1 : at_index (frame ++ tail) (usub asize 1) = Some x7d).
  { rewrite Hu1, Hframe. unfold at_index.
    replace ([x7b] ++ hex ++ chk ++ [x7d])
      with (([x7b] ++ hex ++ chk) ++ [x7d])
      by (rewrite <- !app_assoc; reflexivity).
    rewrite <- app_assoc.
    rewrite nth_error_app2
      by (rewrite !length_app; unfold size_of in *; cbn [length]; lia).
    replace (Z.to_nat (asize - 1) - length ([x7b] ++ hex ++ chk))%nat
      with 0%nat
      by (rewrite !length_app; unfold size_of in *; cbn [length]; lia).
    reflexivity. }
  rewrite H0.
  change (negb (Byte.eqb x7b x7b)) with false. cbv iota.
  rewrite H1.
  change (negb (Byte.eqb x7d x7d)) with false. cbv iota.
  destruct (asize <? 5) eqn:E5; [lia|].
  assert (Hdigits : bytes_at (ptr (frame ++ tail) (asize - 5)) 4 = Some chk).
  { rewrite Hframe.
    replace (([x7b] ++ hex ++ chk ++ [x7d]) ++ tail)
      with (([x7b] ++ hex) ++ chk ++ [x7d] ++ tail)
      by (rewrite <- !app_assoc; reflexivity).
    unfold ptr. rewrite skipn_exact
      by (rewrite length_app; unfold size_of in *; cbn [length]; lia).
    rewrite bytes_at_some
      by (rewrite size_of_concat; pose proof (size_of_nonneg ([x7d] ++ tail));
          lia).
    rewrite firstn_exact; [reflexivity|]. unfold size_of in *. lia. }
  rewrite Hdigits, Hu6, Hbody, Hdec.
  change (firstn 2 (checksum_bytes c ++ [x00; x00])) with (checksum_bytes c).
  rewrite <- (app_nil_r (checksum_bytes c)).
  rewrite uint16_be_checksum_bytes by exact Hcr.
  rewrite Hc, Z.eqb_refl. reflexivity.
Qed.

Lemma transfer_first_attempt (port port' : dc_serial_t)
    (command answer answer' : list byte) (asize : Z) :
  cressi_leonardo_packet crc hex2bin port command answer asize
  = (Returns DC_STATUS_SUCCESS, answer', port') ->
  cressi_leonardo_transfer crc hex2bin port command answer asize
  = Some (Returns DC_STATUS_SUCCESS, answer', port').
Proof.
  intros H. unfold cressi_leonardo_transfer, transfer_with.
  eapply TransferProofs.loop_success. exact H.
Qed.

(** The copy of a chunk into the buffer of the caller. *)
Lemma memcpy_chunk (data chunk : list byte) (nbytes : Z) :
  0 <= nbytes -> nbytes + size_of chunk <= size_of data ->
  memcpy data nbytes chunk (size_of chunk)
  = Some (firstn (Z.to_nat nbytes) data ++ chunk
          ++ skipn (Z.to_nat (nbytes + size_of chunk)) data).
Proof.
  intros H0 H1. unfold memcpy. rewrite bytes_at_some by lia.
  destruct (nbytes + size_of chunk <=? size_of data) eqn:E; [|lia].
  rewrite (firstn_all2 chunk) by (unfold size_of; lia). reflexivity.
Qed.

(** One pass of the read loop on a line that delivers the frame of the next
    chunk, and then the passes that follow. *)
Lemma read_loop_answers (n : nat) :
  forall (fuel : nat) (payload : list byte) (address : Z) (data : list byte)
         (size nbytes : Z) (requests : list (list byte)) (rest : dc_serial_t),
    size_of payload = size - nbytes -> 0 <= nbytes ->
    size <= size_of data -> size < 2 ^ 32 ->
    (length payload <= n)%nat -> (length payload < fuel)%nat ->
    exists reqs,
      read_loop crc hex2bin bin2hex fuel (answers crc bin2hex n payload rest)
        address data size nbytes requests
      = Some (mk_reading (Returns DC_STATUS_SUCCESS)
                (firstn (Z.to_nat nbytes) data ++ payload
                 ++ skipn (Z.to_nat size) data) rest reqs).
Proof.
  assert (Hdone : forall fuel address data size nbytes requests rest,
            size = nbytes -> 0 <= nbytes -> (0 < fuel)%nat ->
            exists reqs,
              read_loop crc hex2bin bin2hex fuel rest address data size nbytes
                requests
              = Some (mk_reading (Returns DC_STATUS_SUCCESS)
                        (firstn (Z.to_nat nbytes) data ++ []
                         ++ skipn (Z.to_nat size) data) rest reqs)).
  { intros fuel address data size nbytes requests rest -> H0 Hf.
    destruct fuel as [|fuel]; [lia|]. cbn [read_loop].
    rewrite Z.ltb_irrefl. exists requests. cbn [app].
    rewrite firstn_skipn. reflexivity. }
  induction n as [|n IH];
    intros fuel payload address data size nbytes requests rest Hp H0 Hd Hs Hn
      Hf.
  - destruct payload as [|b payload]; [|cbn [length] in Hn; lia].
    cbn [answers]. apply Hdone; [|exact H0|lia].
    unfold size_of in Hp. cbn [length] in Hp. lia.
  - destruct payload as [|b payload].
    { cbn [answers]. apply Hdone; [|exact H0|lia].
      unfold size_of in Hp. cbn [length] in Hp. lia. }
    remember (b :: payload) as p eqn:Ep.
    assert (Hpos : 0 < size_of p)
      by (subst p; unfold size_of; cbn [length]; lia).
    assert (Ea : answers crc bin2hex (S n) p rest
                 = mk_exchange false DC_STATUS_SUCCESS DC_STATUS_SUCCESS
                     (frame_of crc bin2hex (firstn (Z.to_nat PACKETSIZE) p))
                   :: answers crc bin2hex n (skipn (Z.to_nat PACKETSIZE) p)
                        rest)
      by (subst p; reflexivity).
    rewrite Ea. clear Ea Ep b payload.
    remember (firstn (Z.to_nat PACKETSIZE) p) as chunk eqn:Ec.
    remember (skipn (Z.to_nat PACKETSIZE) p) as later eqn:El.
    assert (Hsplit : p = chunk ++ later)
      by (subst chunk later; symmetry; apply firstn_skipn).
    assert (Hchunk : size_of chunk = Z.min PACKETSIZE (size_of p)).
    { subst chunk. unfold size_of, PACKETSIZE. rewrite length_firstn. lia. }
    assert (Hlater : size_of later = size_of p - size_of chunk).
    { rewrite Hsplit. rewrite size_of_concat. lia. }
    destruct fuel as [|fuel]; [lia|]. cbn [read_loop].
    destruct (nbytes <? size) eqn:Elt; [|lia].
    rewrite (ExtractProofs.u32_small (size - nbytes)) by lia.
    assert (Elen : (if size - nbytes >? PACKETSIZE then PACKETSIZE
                    else size - nbytes) = size_of chunk).
    { rewrite Hchunk. unfold PACKETSIZE in *.
      destruct (size - nbytes >? 32) eqn:E32; lia. }
    rewrite Elen. rewrite make_ascii_command.
    destruct (packet_accepts_frame chunk
                (frame_of crc bin2hex (raw_command address (size_of chunk)))
                (memset x00 (2 * (PACKETSIZE + 3)))
                (answers crc bin2hex n later rest)) as [Hpk Hbody].
    rewrite (transfer_first_attempt _ _ _ _ _ _ Hpk).
    rewrite Hbody, hex2bin_bin2hex.
    rewrite (firstn_all2 chunk) by (unfold size_of; lia).
    assert (Hfit : nbytes + size_of chunk <= size_of data)
      by (unfold PACKETSIZE in *; lia).
    rewrite (memcpy_chunk data chunk nbytes H0 Hfit).
    rewrite (ExtractProofs.u32_small (nbytes + size_of chunk))
      by (pose proof (size_of_nonneg chunk); lia).
    set (data' := firstn (Z.to_nat nbytes) data ++ chunk
                  ++ skipn (Z.to_nat (nbytes + size_of chunk)) data).
    assert (Hsize' : size_of data' = size_of data).
    { subst data'. unfold size_of in *.
      rewrite !length_app, length_firstn, length_skipn. lia. }
    destruct (IH fuel later (u32 (address + size_of chunk)) data' size
                (nbytes + size_of chunk)
                (requests
                 ++ [frame_of crc bin2hex
                       (raw_command address (size_of chunk))]) rest)
      as [reqs Hreqs].
    + lia.
    + pose proof (size_of_nonneg chunk). lia.
    + lia.
    + exact Hs.
    + assert (length p = length chunk + length later)%nat
        by (rewrite Hsplit at 1; apply length_app).
      unfold size_of, PACKETSIZE in *. lia.
    + assert (length p = length chunk + length later)%nat
        by (rewrite Hsplit at 1; apply length_app).
      unfold size_of, PACKETSIZE in *. lia.
    + exists reqs. rewrite Hreqs. f_equal. f_equal.
      subst data'.
      rewrite (app_assoc (firstn (Z.to_nat nbytes) data) chunk).
      rewrite (firstn_exact (firstn (Z.to_nat nbytes) data ++ chunk))
        by (rewrite length_app, length_firstn; unfold size_of in *; lia).
      rewrite (skipn_app (Z.to_nat size)).
      rewrite (skipn_all2 (firstn (Z.to_nat nbytes) data ++ chunk))
        by (rewrite length_app, length_firstn; unfold size_of in *; lia).
      rewrite skipn_skipn. cbn [app].
      replace (Z.to_nat size
               - length (firstn (Z.to_nat nbytes) data ++ chunk)
               + Z.to_nat (nbytes + size_of chunk))%nat
        with (Z.to_nat size)
        by (rewrite length_app, length_firstn; unfold size_of in *; lia).
      rewrite Hsplit, <- !app_assoc. reflexivity.
Qed.

(** The read loop from its pass number [i] on: the commands it hands to
    [cressi_leonardo_transfer] are the requests number [i], [i + 1], ... *)
Lemma read_loop_requests (address0 size : Z) (fuel : nat) :
  forall (port : dc_serial_t) (address : Z) (data : list byte) (nbytes : Z)
         (requests : list (list byte)) (i : nat),
    0 <= size < 2 ^ 32 ->
    nbytes = Z.min (32 * Z.of_nat i) size ->
    Z.of_nat i <= request_count size ->
    (nbytes < size -> address = u32 (address0 + 32 * Z.of_nat i)) ->
    size - nbytes < Z.of_nat fuel ->
    exists r k,
      read_loop crc hex2bin bin2hex fuel port address data size nbytes requests
      = Some r
      /\ read_requests r
         = requests ++ map (request crc bin2hex address0 size) (seq i k)
      /\ Z.of_nat (i + k) <= request_count size
      /\ (read_result r = Returns DC_STATUS_SUCCESS ->
          Z.of_nat (i + k) = request_count size)
      /\ size_of (read_data r) = size_of data.
Proof.
  unfold request_count, PACKETSIZE.
  induction fuel as [|fuel IH];
    intros port address data nbytes requests i Hs Hn Hi Ha Hf; [lia|].
  cbn [read_loop]. unfold PACKETSIZE.
  destruct (nbytes <? size) eqn:Elt.
  2:{ eexists. exists 0%nat. split; [reflexivity|].
      cbn [read_requests read_result read_data seq map].
      rewrite app_nil_r, Nat.add_0_r.
      split; [reflexivity|]. split; [exact Hi|]. split; [|reflexivity].
      intros _. apply Z.ltb_ge in Elt.
      revert Hi. Z.div_mod_to_equations. lia. }
  apply Z.ltb_lt in Elt.
  assert (Hnb : nbytes = 32 * Z.of_nat i) by lia.
  rewrite (ExtractProofs.u32_small (size - nbytes)) by lia.
  assert (Elen : (if size - nbytes >? 32 then 32 else size - nbytes)
                 = Z.min 32 (size - 32 * Z.of_nat i)).
  { destruct (size - nbytes >? 32) eqn:E32; lia. }
  rewrite Elen. clear Elen.
  rewrite make_ascii_command.
  rewrite (Ha Elt).
  change (frame_of crc bin2hex
            (raw_command (u32 (address0 + 32 * Z.of_nat i))
               (Z.min 32 (size - 32 * Z.of_nat i))))
    with (request crc bin2hex address0 size i).
  set (len := Z.min 32 (size - 32 * Z.of_nat i)).
  assert (Hlen : 0 < len <= 32 /\ nbytes + len = Z.min (32 * Z.of_nat (S i)) size)
    by (subst len; unfold PACKETSIZE; lia).
  assert (Hnext : Z.of_nat (S i) <= (size + 32 - 1) / 32)
    by (revert Elt; rewrite Hnb; Z.div_mod_to_equations; lia).
  assert (Hone : forall o d p,
            o <> Returns DC_STATUS_SUCCESS ->
            exists r k,
              Some (mk_reading o d p
                      (requests ++ [request crc bin2hex address0 size i]))
              = Some r
              /\ read_requests r
                 = requests
                   ++ map (request crc bin2hex address0 size) (seq i k)
              /\ Z.of_nat (i + k) <= (size + 32 - 1) / 32
              /\ (read_result r = Returns DC_STATUS_SUCCESS ->
                  Z.of_nat (i + k) = (size + 32 - 1) / 32)
              /\ size_of (read_data r) = size_of d).
  { intros o d p Ho. eexists. exists 1%nat. split; [reflexivity|].
    cbn [read_requests read_result read_data seq map].
    split; [reflexivity|]. split; [lia|]. split; [|reflexivity].
    intros E. contradiction. }
  destruct (TransferProofs.transfer_bounded crc hex2bin MAXRETRIES port
              (request crc bin2hex address0 size i)
              (memset x00 (2 * (32 + 3))) (2 * (len + 3)))
    as (o & answer' & kx & Ht & _); [unfold MAXRETRIES; lia|].
  unfold cressi_leonardo_transfer. rewrite Ht.
  destruct o as [rc| |]; [|apply Hone; discriminate|apply Hone; discriminate].
  destruct rc; try (apply Hone; discriminate).
  destruct (bytes_at (ptr answer' 1) (2 * len)) as [digits|];
    [|apply Hone; discriminate].
  set (out := firstn (Z.to_nat len) (hex2bin digits)).
  destruct (memcpy data nbytes out (size_of out)) as [data'|] eqn:Em;
    [|apply Hone; discriminate].
  assert (Hsize : size_of data' = size_of data).
  { eapply memcpy_size; [| |exact Em]; [lia|apply size_of_nonneg]. }
  rewrite (ExtractProofs.u32_small (nbytes + len)) by lia.
  destruct (IH (skipn kx port)
              (u32 (u32 (address0 + 32 * Z.of_nat i) + len)) data'
              (nbytes + len)
              (requests ++ [request crc bin2hex address0 size i]) (S i))
    as (r & k & Hr & Hq & Hk & Hok & Hsz); try assumption; try lia.
  - intros Hmore.
    assert (El : len = 32) by (subst len; unfold PACKETSIZE in *; lia).
    rewrite El. unfold u32, PACKETSIZE.
    rewrite Zplus_mod_idemp_l. f_equal. lia.
  - exists r, (S k). split; [exact Hr|]. split.
    + rewrite Hq, <- app_assoc. reflexivity.
    + replace (i + S k)%nat with (S i + k)%nat by lia.
      split; [exact Hk|]. split; [exact Hok|]. rewrite Hsz. exact Hsize.
Qed.

(** X12.  A frame built by [cressi_leonardo_make_ascii] passes every check
    of [cressi_leonardo_packet]: when it arrives whole, the packet is
    accepted, the answer buffer starts with the frame, and the digits behind
    the header byte decode to the bytes that were framed. *)
Theorem packet_accepts_what_make_ascii_builds :
  forall (raw ascii frame command answer : list byte) (rest : dc_serial_t),
    cressi_leonardo_make_ascii crc bin2hex raw ascii = Some frame ->
    size_of frame = 2 * (size_of raw + 3)
    /\ cressi_leonardo_packet crc hex2bin
         (mk_exchange false DC_STATUS_SUCCESS DC_STATUS_SUCCESS frame :: rest)
         command answer (size_of frame)
       = (Returns DC_STATUS_SUCCESS,
          frame ++ skipn (length frame) answer, rest)
    /\ option_map hex2bin (bytes_at (ptr frame 1) (2 * size_of raw))
       = Some raw.
Proof.
  intros raw ascii frame command answer rest H.
  assert (Hsize : size_of ascii = 2 * (size_of raw + 3)).
  { unfold cressi_leonardo_make_ascii in H.
    destruct (size_of ascii =? 2 * (size_of raw + 3)) eqn:E;
      [lia|discriminate]. }
  rewrite (make_ascii_frame raw ascii Hsize), <- frame_of_eq in H.
  injection H as <-.
  pose proof (frame_of_size raw) as Hf.
  destruct (packet_accepts_frame raw command answer rest) as [Hpk Hbody].
  split; [exact Hf|]. split.
  - rewrite Hf, Hpk. f_equal. f_equal. f_equal. f_equal.
    unfold size_of in *. lia.
  - pose proof (size_of_nonneg raw) as Hr.
    assert (Hb : bytes_at (ptr (frame_of crc bin2hex raw) 1)
                   (2 * size_of raw) = Some (bin2hex raw)).
    { rewrite frame_of_eq.
      change (ptr ([x7b] ++ bin2hex raw
                   ++ bin2hex (checksum_bytes (crc (bin2hex raw) mod 2 ^ 16))
                   ++ [x7d]) 1)
        with (bin2hex raw
              ++ bin2hex (checksum_bytes (crc (bin2hex raw) mod 2 ^ 16))
              ++ [x7d]).
      rewrite bytes_at_some
        by (rewrite size_of_concat, bin2hex_size;
            pose proof (size_of_nonneg
                          (bin2hex
                             (checksum_bytes (crc (bin2hex raw) mod 2 ^ 16))
                           ++ [x7d])); lia).
      rewrite firstn_exact; [reflexivity|].
      rewrite bin2hex_length. unfold size_of. lia. }
    rewrite Hb. cbn [option_map]. rewrite hex2bin_bin2hex. reflexivity.
Qed.

(** X10.  How [cressi_leonardo_device_read] cuts a read into requests.  The
    function always returns.  The commands it hands to
    [cressi_leonardo_transfer] are the frames for consecutive ranges of at
    most 32 bytes, the first at [address], each where the one before it
    ended; there are never more than the size of the read rounded up to
    packets, and exactly that many on success.  The buffer of the caller
    keeps its size. *)
Theorem read_requests_consecutive_packets :
  forall (port : dc_serial_t) (address : Z) (data : list byte) (size : Z),
    0 <= address < 2 ^ 32 -> 0 <= size < 2 ^ 32 ->
    exists r k,
      cressi_leonardo_device_read crc hex2bin bin2hex port address data size
      = Some r
      /\ read_requests r
         = map (request crc bin2hex address size) (seq 0 k)
      /\ Z.of_nat k <= request_count size
      /\ (read_result r = Returns DC_STATUS_SUCCESS ->
          Z.of_nat k = request_count size)
      /\ size_of (read_data r) = size_of data.
Proof.
  intros port address data size Ha Hs.
  unfold cressi_leonardo_device_read.
  destruct (read_loop_requests address size (S (Z.to_nat size)) port address
              data 0 [] 0%nat)
    as (r & k & Hr & Hq & Hk & Hok & Hsz); try assumption; try lia.
  - unfold request_count, PACKETSIZE. cbn [Z.of_nat].
    Z.div_mod_to_equations. lia.
  - intros _. unfold PACKETSIZE. cbn [Z.of_nat]. rewrite Z.mul_0_r, Z.add_0_r.
    symmetry. apply ExtractProofs.u32_small. exact Ha.
  - exists r, k. repeat split; assumption.
Qed.

(** X11.  Round trip of a read.  On a line on which the instrument answers
    every request with the frame that carries the next (at most 32) bytes of
    [payload], framed as [cressi_leonardo_make_ascii] frames a command,
    [cressi_leonardo_device_read] succeeds at the first attempt of every
    transfer, stores exactly [payload] at the start of the buffer of the
    caller, leaves the rest of the buffer and of the line as they were, and
    has sent one request for each packet. *)
Theorem read_returns_what_the_frames_carry :
  forall (payload : list byte) (address : Z) (data : list byte)
         (rest : dc_serial_t),
    0 <= address < 2 ^ 32 ->
    size_of payload <= size_of data -> size_of payload < 2 ^ 32 ->
    cressi_leonardo_device_read crc hex2bin bin2hex
      (answers crc bin2hex (length payload) payload rest) address data
      (size_of payload)
    = Some (mk_reading (Returns DC_STATUS_SUCCESS)
              (payload ++ skipn (length payload) data) rest
              (map (request crc bin2hex address (size_of payload))
                 (seq 0 (Z.to_nat (request_count (size_of payload)))))).
Proof.
  intros payload address data rest Ha Hd Hs.
  pose proof (size_of_nonneg payload) as Hp.
  unfold cressi_leonardo_device_read.
  destruct (read_loop_requests address (size_of payload)
              (S (Z.to_nat (size_of payload)))
              (answers crc bin2hex (length payload) payload rest) address data
              0 [] 0%nat)
    as (r & k & Hr & Hq & Hk & Hok & _); try lia.
  { unfold request_count, PACKETSIZE. cbn [Z.of_nat].
    Z.div_mod_to_equations. lia. }
  { intros _. unfold PACKETSIZE. cbn [Z.of_nat]. rewrite Z.mul_0_r, Z.add_0_r.
    symmetry. apply ExtractProofs.u32_small. exact Ha. }
  destruct (read_loop_answers (length payload)
              (S (Z.to_nat (size_of payload))) payload address data
              (size_of payload) 0 [] rest)
    as [reqs Hreqs]; try lia.
  { unfold size_of. lia. }
  rewrite Hreqs in Hr. injection Hr as <-.
  cbn [read_requests read_result app Nat.add] in Hq, Hok.
  rewrite Hreqs. f_equal.
  change (firstn (Z.to_nat 0) data) with (@nil byte). cbn [app].
  f_equal.
  - f_equal. f_equal. unfold size_of. lia.
  - rewrite Hq. f_equal. f_equal. rewrite <- (Hok eq_refl). lia.
Qed.

End WithHelpers.

End FrameProofs.

(** ** The instances of the helpers keep the contracts of array.h and
    checksum.h *)

Module HelperProofs.

Import Fixtures FixturesMore.

Lemma bin2hex_length (l : list byte) :
  length (bin2hex l) = (2 * length l)%nat.
Proof.
  induction l as [|b l IH]; [reflexivity|].
  cbn [bin2hex flat_map app length] in *. fold (bin2hex l). rewrite IH. lia.
Qed.

Lemma hex_byte (b : byte) :
  z2b (16 * hex_digit (hex_char (Z.shiftr (b2z b) 4))
       + hex_digit (hex_char (Z.land (b2z b) 0x0F))) = b.
Proof. destruct b; vm_compute; reflexivity. Qed.

Lemma hex2bin_bin2hex (l : list byte) : hex2bin (bin2hex l) = l.
Proof.
  induction l as [|b l IH]; [reflexivity|].
  cbn [bin2hex flat_map app hex2bin]. fold (bin2hex l).
  rewrite hex_byte, IH. reflexivity.
Qed.

Lemma lxor_range (a b n : Z) :
  0 < n -> 0 <= a < 2 ^ n -> 0 <= b < 2 ^ n -> 0 <= Z.lxor a b < 2 ^ n.
Proof.
  intros Hn Ha Hb.
  assert (H0 : 0 <= Z.lxor a b) by (apply Z.lxor_nonneg; lia).
  split; [exact H0|].
  destruct (Z.eq_dec (Z.lxor a b) 0) as [->|Hx]; [lia|].
  apply Z.log2_lt_pow2; [lia|].
  eapply Z.le_lt_trans; [apply Z.log2_lxor; lia|].
  apply Z.max_lub_lt.
  - destruct (Z.eq_dec a 0) as [->|]; [cbn; lia|].
    apply Z.log2_lt_pow2; lia.
  - destruct (Z.eq_dec b 0) as [->|]; [cbn; lia|].
    apply Z.log2_lt_pow2; lia.
Qed.

Lemma crc_bit_range (c : Z) : 0 <= crc_bit c < 65536.
Proof.
  unfold crc_bit.
  assert (Hl : 0 <= Z.land (Z.shiftl c 1) 0xFFFF < 2 ^ 16).
  { change 0xFFFF with (Z.ones 16). rewrite Z.land_ones by lia.
    apply Z.mod_pos_bound. lia. }
  destruct (Z.testbit c 15).
  - change 65536 with (2 ^ 16). apply lxor_range; [lia|exact Hl|lia].
  - exact Hl.
Qed.

Lemma crc_byte_range (c : Z) (b : byte) : 0 <= crc_byte c b < 65536.
Proof. unfold crc_byte. cbn [Nat.iter nat_rect]. apply crc_bit_range. Qed.

Lemma crc_range (l : list byte) : 0 <= crc_ccitt l < 65536.
Proof.
  unfold crc_ccitt.
  assert (H : forall init, 0 <= init < 65536 ->
                0 <= fold_left crc_byte l init < 65536).
  { induction l as [|b l IH]; intros init Hi; [exact Hi|].
    cbn [fold_left]. apply IH. apply crc_byte_range. }
  apply H. lia.
Qed.

End HelperProofs.

(** ** Receiving a download *)

Module LineProofs.

Import ArrayFacts.
Import Line.

Lemma get_available_facts (total : Z) (l l1 : line) (st : dc_status_t)
    (av : Z) :
  total < 2 ^ 32 -> sane_reports total l = true ->
  line_get_available l = (st, av, l1) ->
  0 <= av < 2 ^ 32 - total
  /\ arriving l1 = arriving l /\ write_script l1 = write_script l
  /\ read_script l1 = read_script l /\ sent l1 = sent l
  /\ sane_reports total l1 = true
  /\ (length (reports l1) <= length (reports l))%nat
  /\ (av = 0 \/ (length (reports l1) < length (reports l))%nat).
Proof.
  intros Ht Hsane H. unfold line_get_available, sane_reports in *.
  destruct (reports l) as [|[rc v] reps]; cbn [next] in H;
    injection H as <- <- <-; cbn [arriving write_script read_script sent
                                   reports length].
  - repeat split; try reflexivity; lia.
  - cbn [forallb snd] in Hsane. apply andb_prop in Hsane.
    destruct Hsane as [Hv Hrest]. apply andb_prop in Hv.
    destruct Hv as [Hv0 Hv1]. apply Z.leb_le in Hv0. apply Z.ltb_lt in Hv1.
    repeat split; try reflexivity; try assumption; lia.
Qed.

Lemma read_facts (l l2 : line) (len : Z) (st : dc_status_t)
    (bytes : list byte) :
  0 <= len -> line_read l len = (st, bytes, l2) ->
  reports l2 = reports l /\ write_script l2 = write_script l
  /\ sent l2 = sent l
  /\ size_of bytes <= len /\ size_of bytes <= size_of (arriving l)
  /\ (st = DC_STATUS_SUCCESS ->
      bytes = firstn (Z.to_nat len) (arriving l)
      /\ len <= size_of (arriving l)
      /\ arriving l2 = skipn (Z.to_nat len) (arriving l)
      /\ size_of bytes = len)
  /\ (read_script l = [] -> len <= size_of (arriving l) ->
      st = DC_STATUS_SUCCESS).
Proof.
  intros Hlen H. unfold line_read in H.
  pose proof (size_of_nonneg (arriving l)) as Ha.
  destruct (read_script l) as [|rc script] eqn:Es; cbn [next] in H.
  - destruct (len <=? size_of (arriving l)) eqn:E;
      injection H as <- <- <-; cbn [reports write_script sent arriving].
    + rewrite size_of_firstn by lia.
      repeat split; try reflexivity; lia.
    + repeat split; try reflexivity; try lia; intros; try discriminate; lia.
  - assert (Hfail : rc <> DC_STATUS_SUCCESS ->
              (rc, @nil byte,
               mk_line (arriving l) (write_script l) script (reports l)
                 (sent l)) = (st, bytes, l2) ->
              reports l2 = reports l /\ write_script l2 = write_script l
              /\ sent l2 = sent l
              /\ size_of bytes <= len /\ size_of bytes <= size_of (arriving l)
              /\ (st = DC_STATUS_SUCCESS ->
                  bytes = firstn (Z.to_nat len) (arriving l)
                  /\ len <= size_of (arriving l)
                  /\ arriving l2 = skipn (Z.to_nat len) (arriving l)
                  /\ size_of bytes = len)
              /\ (rc :: script = [] -> len <= size_of (arriving l) ->
                  st = DC_STATUS_SUCCESS)).
    { intros Hrc E. injection E as <- <- <-.
      cbn [reports write_script sent]. unfold size_of at 1 2. cbn [length].
      repeat split; try reflexivity; try lia; intros; try contradiction;
        discriminate. }
    destruct rc; try (apply Hfail; [discriminate|exact H]).
    destruct (len <=? size_of (arriving l)) eqn:E;
      injection H as <- <- <-; cbn [reports write_script sent arriving].
    + rewrite size_of_firstn by lia.
      repeat split; try reflexivity; try lia; intros; discriminate.
    + repeat split; try reflexivity; try lia; intros; try discriminate; lia.
Qed.

Lemma memcpy_bytes (data bytes : list byte) (nbytes : Z) :
  0 <= nbytes -> nbytes + size_of bytes <= size_of data ->
  memcpy data nbytes bytes (size_of bytes)
  = Some (firstn (Z.to_nat nbytes) data ++ bytes
          ++ skipn (Z.to_nat (nbytes + size_of bytes)) data).
Proof.
  intros H0 H1. unfold memcpy. rewrite bytes_at_some by lia.
  destruct (nbytes + size_of bytes <=? size_of data) eqn:E; [|lia].
  rewrite (firstn_all2 bytes) by (unfold size_of; lia). reflexivity.
Qed.

Lemma firstn_plus (l : list byte) (a b : nat) :
  firstn (a + b) l = firstn a l ++ firstn b (skipn a l).
Proof.
  rewrite <- (firstn_skipn a l) at 1.
  rewrite firstn_app.
  destruct (Nat.le_gt_cases a (length l)) as [Hle|Hgt].
  - rewrite length_firstn, Nat.min_l by lia.
    rewrite (firstn_all2 (firstn a l)) by (rewrite length_firstn; lia).
    f_equal. f_equal. lia.
  - rewrite (skipn_all2 l) by lia. rewrite !firstn_nil, !app_nil_r.
    rewrite !firstn_all2; try reflexivity; try lia.
    rewrite length_firstn. lia.
Qed.

Section Receive.

Variables minimum total maximum : Z.
Hypothesis minimum_pos : 1 <= minimum.
Hypothesis total_small : minimum + total < 2 ^ 32.

(** The loop that receives the data: it ends, stays inside the buffer, and
    when it succeeds the buffer holds the next bytes of the line, however
    the reads were cut. *)
Lemma receive_loop_spec (fuel : nat) :
  forall (l : line) (data : list byte) (nbytes current : Z)
         (events : list event),
    0 <= nbytes <= total -> total <= size_of data ->
    0 <= current < 2 ^ 32 ->
    sane_reports total l = true ->
    (length (reports l) + Z.to_nat (total - nbytes) < fuel)%nat ->
    exists d more,
      receive_loop fuel minimum total l data nbytes current maximum events
      = Some d
      /\ (exists rc, dl_result d = Returns rc)
      /\ size_of (dl_data d) = size_of data
      /\ sent (dl_line d) = sent l
      /\ write_script (dl_line d) = write_script l
      /\ dl_events d = events ++ more
      /\ Forall (fun e => exists c, e = Progress c maximum) more
      /\ (dl_result d = Returns DC_STATUS_SUCCESS ->
          total - nbytes <= size_of (arriving l)
          /\ dl_data d
             = firstn (Z.to_nat nbytes) data
               ++ firstn (Z.to_nat (total - nbytes)) (arriving l)
               ++ skipn (Z.to_nat total) data
          /\ arriving (dl_line d)
             = skipn (Z.to_nat (total - nbytes)) (arriving l)
          /\ dl_current d = u32 (current + (total - nbytes))
          /\ (nbytes < total ->
              exists more',
                more = more' ++ [Progress (dl_current d) maximum]))
      /\ (read_script l = [] -> total - nbytes <= size_of (arriving l) ->
          dl_result d = Returns DC_STATUS_SUCCESS).
Proof.
  induction fuel as [|fuel IH];
    intros l data nbytes current events Hn Hd Hc Hsane Hf; [lia|].
  cbn [receive_loop].
  destruct (nbytes <? total) eqn:Elt.
  2:{ apply Z.ltb_ge in Elt. assert (nbytes = total) by lia. subst nbytes.
      eexists. exists []. split; [reflexivity|].
      cbn [dl_result dl_data dl_line dl_events dl_current].
      rewrite Z.sub_diag, Z.add_0_r, app_nil_r.
      split; [eauto|]. split; [reflexivity|]. split; [reflexivity|].
      split; [reflexivity|]. split; [reflexivity|]. split; [constructor|].
      split; [|reflexivity].
      intros _. pose proof (size_of_nonneg (arriving l)).
      split; [lia|]. split.
      - cbn [Z.to_nat firstn app]. rewrite firstn_skipn. reflexivity.
      - split; [reflexivity|]. split.
        + symmetry. apply Z.mod_small. exact Hc.
        + intros. lia. }
  apply Z.ltb_lt in Elt.
  destruct (line_get_available l) as [[st av] l1] eqn:Eg.
  destruct (get_available_facts total l l1 st av ltac:(lia) Hsane Eg)
    as (Hav & Ha1 & Hw1 & Hr1 & Hs1 & Hsane1 & Hlen1 & Hdec).
  set (len1 := if status_eqb st DC_STATUS_SUCCESS && (av >? minimum)
               then u32 av else minimum).
  assert (Hlen1r : minimum <= len1 < 2 ^ 32 - total
                   /\ (len1 = minimum
                       \/ (length (reports l1) < length (reports l))%nat)).
  { subst len1. destruct (status_eqb st DC_STATUS_SUCCESS && (av >? minimum))
      eqn:E.
    - apply andb_prop in E. destruct E as [_ E].
      unfold u32. rewrite Z.mod_small by lia.
      split; [lia|]. right. destruct Hdec as [->|]; [lia|assumption].
    - split; [lia|]. left. reflexivity. }
  destruct Hlen1r as [Hl1 Hl1d].
  rewrite (ExtractProofs.u32_small (nbytes + len1)) by lia.
  set (len := if nbytes + len1 >? total then total - nbytes else len1).
  assert (Hlen : 1 <= len <= total - nbytes /\ len <= len1
                 /\ (len < total - nbytes -> len = len1)).
  { subst len. destruct (nbytes + len1 >? total) eqn:E; lia. }
  destruct Hlen as (Hlen & Hlenle & Hleneq).
  destruct (line_read l1 len) as [[st2 bytes] l2] eqn:Er.
  destruct (read_facts l1 l2 len st2 bytes ltac:(lia) Er)
    as (Hp2 & Hw2 & Hs2 & Hb2 & Hb2' & Hok2 & Hsure2).
  pose proof (size_of_nonneg bytes) as Hb0.
  rewrite (memcpy_bytes data bytes nbytes) by lia.
  set (data' := firstn (Z.to_nat nbytes) data ++ bytes
                ++ skipn (Z.to_nat (nbytes + size_of bytes)) data).
  assert (Hsize' : size_of data' = size_of data).
  { subst data'. unfold size_of in *.
    rewrite !length_app, length_firstn, length_skipn. lia. }
  assert (Hstop : st2 <> DC_STATUS_SUCCESS ->
            exists d more,
              Some (mk_download (Returns st2) data' l2 current events)
              = Some d
              /\ (exists rc, dl_result d = Returns rc)
              /\ size_of (dl_data d) = size_of data
              /\ sent (dl_line d) = sent l
              /\ write_script (dl_line d) = write_script l
              /\ dl_events d = events ++ more
              /\ Forall (fun e => exists c, e = Progress c maximum) more
              /\ (dl_result d = Returns DC_STATUS_SUCCESS ->
                  total - nbytes <= size_of (arriving l)
                  /\ dl_data d
                     = firstn (Z.to_nat nbytes) data
                       ++ firstn (Z.to_nat (total - nbytes)) (arriving l)
                       ++ skipn (Z.to_nat total) data
                  /\ arriving (dl_line d)
                     = skipn (Z.to_nat (total - nbytes)) (arriving l)
                  /\ dl_current d = u32 (current + (total - nbytes))
                  /\ (nbytes < total ->
                      exists more',
                        more = more' ++ [Progress (dl_current d) maximum]))
              /\ (read_script l = [] ->
                  total - nbytes <= size_of (arriving l) ->
                  dl_result d = Returns DC_STATUS_SUCCESS)).
  { intros Hne. eexists. exists []. split; [reflexivity|].
    cbn [dl_result dl_data dl_line dl_events dl_current].
    rewrite app_nil_r.
    split; [eauto|]. split; [exact Hsize'|].
    split; [congruence|]. split; [congruence|].
    split; [reflexivity|]. split; [constructor|]. split.
    - intros E. injection E as E. contradiction.
    - intros Hrs Hall. exfalso. apply Hne. apply Hsure2; [congruence|].
      rewrite Ha1. lia. }
  destruct st2; try (apply Hstop; discriminate).
  clear Hstop.
  destruct (Hok2 eq_refl) as (Hbytes & Hfit & Harr2 & Hbsize).
  rewrite (ExtractProofs.u32_small (nbytes + len)) by lia.
  destruct (IH l2 data' (nbytes + len) (u32 (current + len))
              (events ++ [Progress (u32 (current + len)) maximum]))
    as (d & more & Hd' & Hrc & Hsz & Hsent & Hws & Hev & Hall & Hsucc & Hsure);
    try lia.
  { unfold u32. apply Z.mod_pos_bound. lia. }
  { unfold sane_reports in *. rewrite Hp2. exact Hsane1. }
  { rewrite Hp2.
    destruct Hl1d as [Hmin|Hless]; [|lia].
    assert (Z.to_nat (total - (nbytes + len)) < Z.to_nat (total - nbytes))%nat
      by lia.
    lia. }
  exists d, (Progress (u32 (current + len)) maximum :: more).
  split; [exact Hd'|]. split; [exact Hrc|].
  split; [rewrite Hsz; exact Hsize'|].
  split; [congruence|]. split; [congruence|].
  split; [rewrite Hev, <- app_assoc; reflexivity|].
  split; [constructor; [eauto|exact Hall]|].
  split.
  - intros Hres. destruct (Hsucc Hres) as (Hq1 & Hq2 & Hq3 & Hq4 & Hq5).
    rewrite Harr2, Ha1 in Hq1, Hq2, Hq3.
    assert (Hsk : size_of (skipn (Z.to_nat len) (arriving l))
                  = size_of (arriving l) - len).
    { unfold size_of. rewrite length_skipn. rewrite Ha1 in Hfit.
      unfold size_of in Hfit. lia. }
    rewrite Hsk in Hq1.
    split; [lia|]. split; [|split; [|split]].
    + rewrite Hq2. subst data'. rewrite Hbsize.
      rewrite (app_assoc (firstn (Z.to_nat nbytes) data) bytes).
      rewrite (FrameProofs.firstn_exact
                 (firstn (Z.to_nat nbytes) data ++ bytes))
        by (rewrite length_app, length_firstn; unfold size_of in *; lia).
      rewrite (skipn_app (Z.to_nat total)).
      rewrite (skipn_all2 (firstn (Z.to_nat nbytes) data ++ bytes))
        by (rewrite length_app, length_firstn; unfold size_of in *; lia).
      rewrite skipn_skipn. cbn [app].
      replace (Z.to_nat total
               - length (firstn (Z.to_nat nbytes) data ++ bytes)
               + Z.to_nat (nbytes + len))%nat
        with (Z.to_nat total)
        by (rewrite length_app, length_firstn; unfold size_of in *; lia).
      rewrite <- !app_assoc. f_equal.
      rewrite app_assoc. f_equal.
      replace (Z.to_nat (total - nbytes))
        with (Z.to_nat len + Z.to_nat (total - (nbytes + len)))%nat by lia.
      rewrite firstn_plus. rewrite Hbytes, Ha1. reflexivity.
    + rewrite Hq3, skipn_skipn. f_equal. lia.
    + rewrite Hq4. unfold u32. rewrite Zplus_mod_idemp_l. f_equal. lia.
    + intros _. destruct (Z_lt_le_dec (nbytes + len) total) as [Hmore|Hlast].
      * destruct (Hq5 Hmore) as [more' Hm'].
        exists (Progress (u32 (current + len)) maximum :: more').
        rewrite Hm'. reflexivity.
      * exists []. cbn [app].
        assert (Hnil : more = []).
        { assert (Hfin : nbytes + len = total) by lia.
          clear - Hd' Hev Hfin Hf.
          destruct fuel as [|fuel]; [discriminate|].
          cbn [receive_loop] in Hd'. rewrite Hfin, Z.ltb_irrefl in Hd'.
          injection Hd' as <-. cbn [dl_events] in Hev.
          rewrite <- (app_nil_r (events ++ _)) in Hev at 1.
          apply app_inv_head in Hev. symmetry. exact Hev. }
        rewrite Hnil. f_equal. f_equal.
        rewrite Hq4. unfold u32. rewrite Zplus_mod_idemp_l.
        f_equal. lia.
  - intros Hrs Hall'. apply Hsure.
    + rewrite <- Hr1 in Hrs.
      clear - Er Hrs. unfold line_read in Er. rewrite Hrs in Er.
      cbn [next] in Er.
      destruct (len <=? size_of (arriving l1));
        [injection Er as _ <-; reflexivity|discriminate].
    + rewrite Harr2, Ha1. unfold size_of. rewrite length_skipn.
      unfold size_of in Hall'. lia.
Qed.

End Receive.

Lemma read_script_after (l l2 : line) (len : Z) (st : dc_status_t)
    (bytes : list byte) :
  line_read l len = (st, bytes, l2) -> read_script l2 = tl (read_script l).
Proof.
  unfold line_read. destruct (read_script l) as [|rc script]; cbn [next tl].
  - destruct (len <=? size_of (arriving l)); intros H;
      injection H as _ _ <-; reflexivity.
  - destruct rc; try (intros H; injection H as _ _ <-; reflexivity).
    destruct (len <=? size_of (arriving l)); intros H;
      injection H as _ _ <-; reflexivity.
Qed.

(** A line without scripted read failures has none after the loop. *)
Lemma receive_keeps_quiet (minimum total maximum : Z) (fuel : nat) :
  forall (l : line) (data : list byte) (nbytes current : Z)
         (events : list event) (d : download),
    receive_loop fuel minimum total l data nbytes current maximum events
    = Some d ->
    read_script l = [] -> read_script (dl_line d) = [].
Proof.
  induction fuel as [|fuel IH];
    intros l data nbytes current events d H Hq; [discriminate|].
  cbn [receive_loop] in H.
  destruct (nbytes <? total); [|injection H as <-; exact Hq].
  destruct (line_get_available l) as [[st av] l1] eqn:Eg.
  assert (Hq1 : read_script l1 = []).
  { unfold line_get_available in Eg.
    destruct (next (DC_STATUS_SUCCESS, 0) (reports l)) as [[rc v] script].
    injection Eg as _ _ <-. exact Hq. }
  match type of H with
  | context [line_read l1 ?len] =>
      destruct (line_read l1 len) as [[st2 bytes] l2] eqn:Er
  end.
  assert (Hq2 : read_script l2 = []).
  { rewrite (read_script_after _ _ _ _ _ Er), Hq1. reflexivity. }
  destruct (memcpy data nbytes bytes (size_of bytes)) as [data'|];
    [|injection H as <-; exact Hq2].
  destruct st2; try (injection H as <-; exact Hq2).
  eapply IH; [exact H|exact Hq2].
Qed.

End LineProofs.

(** ** The download of the Cressi memory *)

Module CressiDumpProofs.

Import ArrayFacts LineProofs.
Import CressiLeonardo Line CressiDump.

Lemma write_facts (l l1 : line) (data : list byte) (st : dc_status_t) :
  line_write l data = (st, l1) ->
  arriving l1 = arriving l /\ read_script l1 = read_script l
  /\ reports l1 = reports l
  /\ write_script l1 = tl (write_script l)
  /\ (st = DC_STATUS_SUCCESS -> sent l1 = sent l ++ [data])
  /\ (st <> DC_STATUS_SUCCESS -> sent l1 = sent l)
  /\ (write_script l = [] -> st = DC_STATUS_SUCCESS).
Proof.
  unfold line_write.
  destruct (write_script l) as [|rc script]; cbn [next tl].
  - intros H. injection H as <- <-.
    cbn [arriving read_script reports write_script sent].
    repeat split; try reflexivity. intros; contradiction.
  - destruct rc; intros H; injection H as <- <-;
      cbn [arriving read_script reports write_script sent];
      repeat split; try reflexivity; intros; try contradiction;
        try discriminate.
Qed.

Lemma fill_full (buf bytes : list byte) :
  length bytes = length buf -> fill buf bytes = bytes.
Proof.
  intros H. unfold fill. rewrite skipn_all2 by lia. apply app_nil_r.
Qed.

Lemma memcmp_full (a b : list byte) (n : Z) :
  size_of a = n -> size_of b = n ->
  memcmp_eq0 a b n = Some (bytes_eqb a b).
Proof.
  intros Ha Hb. unfold memcmp_eq0.
  rewrite !bytes_at_some by lia.
  rewrite !firstn_all2 by (unfold size_of in *; lia). reflexivity.
Qed.

Section WithHelpers.

Variable crc : list byte -> Z.
Variable hex2bin : list byte -> list byte.
Variable progress_initial : Z.

Hypothesis progress_range : 0 <= progress_initial < 2 ^ 32.

Local Notation "'dump'" :=
  (cressi_leonardo_device_dump crc hex2bin progress_initial).

(** The download from the point at which the header was accepted. *)
Lemma dump_after_header (l2 : line) :
  sane_reports SZ_MEMORY l2 = true ->
  exists d more,
    receive_loop (receive_fuel SZ_MEMORY l2) 1024 SZ_MEMORY l2
      (memset x00 SZ_MEMORY) 0 progress_initial SZ_MEMORY
      [Progress progress_initial SZ_MEMORY] = Some d
    /\ (exists rc, dl_result d = Returns rc)
    /\ size_of (dl_data d) = SZ_MEMORY
    /\ sent (dl_line d) = sent l2
    /\ write_script (dl_line d) = write_script l2
    /\ dl_events d = [Progress progress_initial SZ_MEMORY] ++ more
    /\ (dl_result d = Returns DC_STATUS_SUCCESS ->
        SZ_MEMORY <= size_of (arriving l2)
        /\ dl_data d = firstn (Z.to_nat SZ_MEMORY) (arriving l2)
        /\ arriving (dl_line d) = skipn (Z.to_nat SZ_MEMORY) (arriving l2)
        /\ dl_current d = u32 (progress_initial + SZ_MEMORY)
        /\ exists more',
             more = more' ++ [Progress (dl_current d) SZ_MEMORY])
    /\ (read_script l2 = [] -> SZ_MEMORY <= size_of (arriving l2) ->
        dl_result d = Returns DC_STATUS_SUCCESS).
Proof.
  intros Hsane.
  assert (Hz : size_of (memset x00 SZ_MEMORY) = SZ_MEMORY).
  { unfold memset, size_of. rewrite repeat_length. reflexivity. }
  destruct (receive_loop_spec 1024 SZ_MEMORY SZ_MEMORY ltac:(lia)
              ltac:(unfold SZ_MEMORY; lia)
              (receive_fuel SZ_MEMORY l2) l2 (memset x00 SZ_MEMORY) 0
              progress_initial [Progress progress_initial SZ_MEMORY])
    as (d & more & Hd & Hrc & Hsz & Hsent & Hws & Hev & _ & Hsucc & Hsure).
  - unfold SZ_MEMORY. lia.
  - rewrite Hz. lia.
  - exact progress_range.
  - exact Hsane.
  - unfold receive_fuel. rewrite Z.sub_0_r. lia.
  - exists d, more. split; [exact Hd|]. split; [exact Hrc|].
    split; [rewrite Hsz; exact Hz|]. split; [exact Hsent|].
    split; [exact Hws|]. split; [exact Hev|]. split.
    + intros Hres. destruct (Hsucc Hres) as (H1 & H2 & H3 & H4 & H5).
      rewrite Z.sub_0_r in *.
      split; [exact H1|]. split.
      * rewrite H2. cbn [Z.to_nat firstn app].
        rewrite skipn_all2
          by (unfold memset; rewrite repeat_length; lia).
        apply app_nil_r.
      * split; [exact H3|]. split; [exact H4|].
        apply H5. unfold SZ_MEMORY. lia.
    + intros Hrs Hall. apply Hsure; [exact Hrs|]. rewrite Z.sub_0_r.
      exact Hall.
Qed.

(** X13.  What a successful download means.  On every line whose reports of
    the bytes available are below 2^32 - 32000,
    [cressi_leonardo_device_dump] returns with a status.  When the status is
    success, the line delivered the expected 7-byte header, then the 32000
    bytes that are now in the buffer, then a 4-byte trailer whose digits
    convert to the CRC of those 32000 bytes; nothing but the dump command was
    written, and the last progress event reports 32000 of 32000 bytes. *)
Theorem dump_success_means_checked_image :
  forall (buffer : option (list byte)) (resize_ok : bool) (l : line),
    sane_reports SZ_MEMORY l = true ->
    exists d,
      dump buffer resize_ok l = Some d
      /\ (exists rc, dl_result d = Returns rc)
      /\ (dl_result d = Returns DC_STATUS_SUCCESS ->
          exists image trailer before,
            arriving l
            = dump_expected ++ image ++ trailer ++ arriving (dl_line d)
            /\ size_of image = SZ_MEMORY /\ size_of trailer = 4
            /\ dl_data d = image
            /\ array_uint16_be (firstn 2 (hex2bin trailer ++ [x00; x00]))
               = Some (crc image)
            /\ sent (dl_line d) = sent l ++ [dump_command]
            /\ dl_current d = u32 (progress_initial + SZ_MEMORY)
            /\ dl_events d
               = Progress progress_initial SZ_MEMORY
                 :: before ++ [Progress (dl_current d) SZ_MEMORY]).
Proof.
  intros buffer resize_ok l Hsane.
  unfold cressi_leonardo_device_dump.
  assert (Hfail : forall rc data l' c ev,
            rc <> DC_STATUS_SUCCESS ->
            exists d,
              Some (mk_download (Returns rc) data l' c ev) = Some d
              /\ (exists rc0, dl_result d = Returns rc0)
              /\ (dl_result d = Returns DC_STATUS_SUCCESS ->
                  exists image trailer before,
                    arriving l
                    = dump_expected ++ image ++ trailer
                      ++ arriving (dl_line d)
                    /\ size_of image = SZ_MEMORY /\ size_of trailer = 4
                    /\ dl_data d = image
                    /\ array_uint16_be
                         (firstn 2 (hex2bin trailer ++ [x00; x00]))
                       = Some (crc image)
                    /\ sent (dl_line d) = sent l ++ [dump_command]
                    /\ dl_current d = u32 (progress_initial + SZ_MEMORY)
                    /\ dl_events d
                       = Progress progress_initial SZ_MEMORY
                         :: before ++ [Progress (dl_current d) SZ_MEMORY])).
  { intros rc data l' c ev Hrc. eexists. split; [reflexivity|].
    cbn [dl_result]. split; [eauto|]. intros E. injection E as E.
    contradiction. }
  destruct buffer as [b|]; [|apply Hfail; discriminate].
  destruct resize_ok; cbn [negb]; [|apply Hfail; discriminate].
  destruct (line_write l dump_command) as [st l1] eqn:Ew.
  destruct (write_facts l l1 dump_command st Ew)
    as (Ha1 & Hr1 & Hp1 & _ & Hs1 & _ & _).
  destruct st; try (apply Hfail; discriminate).
  specialize (Hs1 eq_refl).
  destruct (line_read l1 7) as [[st2 bytes] l2] eqn:Er.
  destruct (read_facts l1 l2 7 st2 bytes ltac:(lia) Er)
    as (Hp2 & Hw2 & Hs2 & _ & _ & Hok2 & _).
  destruct st2; try (apply Hfail; discriminate).
  destruct (Hok2 eq_refl) as (Hbytes & Hfit & Harr2 & Hbsize).
  rewrite fill_full
    by (unfold memset; rewrite repeat_length; unfold size_of in Hbsize; lia).
  rewrite (memcmp_full bytes dump_expected 7 Hbsize eq_refl).
  destruct (bytes_eqb bytes dump_expected) eqn:Eh;
    [|apply Hfail; discriminate].
  apply bytes_eqb_true in Eh.
  assert (Hsane2 : sane_reports SZ_MEMORY l2 = true).
  { unfold sane_reports in *. rewrite Hp2, Hp1. exact Hsane. }
  destruct (dump_after_header l2 Hsane2)
    as (d & more & Hd & Hrc & Hsz & Hsent & Hws & Hev & Hsucc & _).
  rewrite Hd.
  destruct Hrc as [rc Hrc]. rewrite Hrc.
  assert (Hloopfail : rc <> DC_STATUS_SUCCESS ->
            exists d0,
              Some d = Some d0
              /\ (exists rc0, dl_result d0 = Returns rc0)
              /\ (dl_result d0 = Returns DC_STATUS_SUCCESS ->
                  exists image trailer before,
                    arriving l
                    = dump_expected ++ image ++ trailer
                      ++ arriving (dl_line d0)
                    /\ size_of image = SZ_MEMORY /\ size_of trailer = 4
                    /\ dl_data d0 = image
                    /\ array_uint16_be
                         (firstn 2 (hex2bin trailer ++ [x00; x00]))
                       = Some (crc image)
                    /\ sent (dl_line d0) = sent l ++ [dump_command]
                    /\ dl_current d0 = u32 (progress_initial + SZ_MEMORY)
                    /\ dl_events d0
                       = Progress progress_initial SZ_MEMORY
                         :: before ++ [Progress (dl_current d0) SZ_MEMORY])).
  { intros Hne. exists d. split; [reflexivity|]. split; [eauto|].
    intros E. rewrite Hrc in E. injection E as E. contradiction. }
  destruct rc; try (apply Hloopfail; discriminate).
  clear Hloopfail.
  destruct (Hsucc Hrc) as (Hlen & Hdata & Harr & Hcur & more' & Hmore).
  destruct (line_read (dl_line d) 4) as [[st3 tbytes] l3] eqn:Er3.
  destruct (read_facts (dl_line d) l3 4 st3 tbytes ltac:(lia) Er3)
    as (Hp3 & Hw3 & Hs3 & _ & _ & Hok3 & _).
  destruct st3; try (apply Hfail; discriminate).
  destruct (Hok3 eq_refl) as (Htb & Hfit3 & Harr3 & Htsize).
  rewrite fill_full
    by (unfold memset; rewrite repeat_length; unfold size_of in Htsize; lia).
  destruct (array_uint16_be (firstn 2 (hex2bin tbytes ++ [x00; x00])))
    as [csum1|] eqn:Ec.
  2:{ eexists. split; [reflexivity|]. cbn [dl_result].
      split; [|discriminate].
      exfalso. clear - Ec.
      destruct (hex2bin tbytes) as [|x [|y rest]]; discriminate. }
  rewrite bytes_at_some by lia.
  rewrite firstn_all2 by (unfold size_of in Hsz; lia).
  destruct (csum1 =? crc (dl_data d)) eqn:Ecs; cbn [negb];
    [|apply Hfail; discriminate].
  apply Z.eqb_eq in Ecs.
  eexists. split; [reflexivity|].
  cbn [dl_result dl_data dl_line dl_current dl_events].
  split; [eauto|]. intros _.
  exists (dl_data d), tbytes, more'.
  split.
  - rewrite Harr3, Htb, Harr, Hdata, Harr2, <- Eh, Hbytes, Ha1.
    rewrite !firstn_skipn. reflexivity.
  - split; [exact Hsz|]. split; [exact Htsize|]. split; [reflexivity|].
    split; [rewrite Ec, Ecs; reflexivity|].
    split; [rewrite Hs3, Hsent, Hs2; exact Hs1|].
    split; [exact Hcur|]. rewrite Hev, Hmore. reflexivity.
Qed.

(** The download on a line without failures that delivers the header, an
    image and a trailer. *)
Lemma dump_on_good_line (b : list byte) (l : line)
    (image trailer rest : list byte) :
  arriving l = dump_expected ++ image ++ trailer ++ rest ->
  size_of image = SZ_MEMORY -> size_of trailer = 4 ->
  write_script l = [] -> read_script l = [] ->
  sane_reports SZ_MEMORY l = true ->
  exists d csum,
    dump (Some b) true l = Some d
    /\ array_uint16_be (firstn 2 (hex2bin trailer ++ [x00; x00]))
       = Some csum
    /\ dl_result d
       = (if csum =? crc image then Returns DC_STATUS_SUCCESS
          else Returns DC_STATUS_PROTOCOL)
    /\ dl_data d = image
    /\ arriving (dl_line d) = rest
    /\ sent (dl_line d) = sent l ++ [dump_command].
Proof.
  intros Harr Hi Ht Hw Hr Hsane.
  unfold cressi_leonardo_device_dump. cbn [negb].
  destruct (line_write l dump_command) as [st l1] eqn:Ew.
  destruct (write_facts l l1 dump_command st Ew)
    as (Ha1 & Hr1 & Hp1 & _ & Hs1 & _ & Hsure1).
  rewrite (Hsure1 Hw) in *. specialize (Hs1 eq_refl).
  assert (Hexp : size_of dump_expected = 7) by reflexivity.
  assert (Hall : size_of (arriving l) = 7 + SZ_MEMORY + 4 + size_of rest).
  { rewrite Harr, !FrameProofs.size_of_concat. lia. }
  pose proof (size_of_nonneg rest) as Hrest.
  destruct (line_read l1 7) as [[st2 bytes] l2] eqn:Er.
  destruct (read_facts l1 l2 7 st2 bytes ltac:(lia) Er)
    as (Hp2 & Hw2 & Hs2 & _ & _ & Hok2 & Hsure2).
  pose proof (read_script_after _ _ _ _ _ Er) as Hq2.
  rewrite Hr1, Hr in Hq2. cbn [tl] in Hq2.
  rewrite (Hsure2 ltac:(congruence) ltac:(rewrite Ha1; unfold SZ_MEMORY in *; lia))
    in *.
  destruct (Hok2 eq_refl) as (Hbytes & _ & Harr2 & Hbsize).
  rewrite Ha1, Harr in Hbytes, Harr2.
  rewrite (FrameProofs.firstn_exact dump_expected) in Hbytes by reflexivity.
  rewrite (FrameProofs.skipn_exact dump_expected) in Harr2 by reflexivity.
  subst bytes.
  rewrite fill_full by reflexivity.
  rewrite (memcmp_full dump_expected dump_expected 7 eq_refl eq_refl).
  assert (Ee : bytes_eqb dump_expected dump_expected = true)
    by (apply bytes_eqb_true; reflexivity).
  rewrite Ee.
  assert (Hsane2 : sane_reports SZ_MEMORY l2 = true).
  { unfold sane_reports in *. rewrite Hp2, Hp1. exact Hsane. }
  destruct (dump_after_header l2 Hsane2)
    as (d & more & Hd & _ & Hsz & Hsent & _ & _ & Hsucc & Hsure).
  rewrite Hd.
  pose proof (size_of_nonneg (trailer ++ rest)) as Htr.
  assert (Hres : dl_result d = Returns DC_STATUS_SUCCESS).
  { apply Hsure; [exact Hq2|]. rewrite Harr2, FrameProofs.size_of_concat. lia. }
  rewrite Hres.
  destruct (Hsucc Hres) as (_ & Hdata & Harrd & _ & _).
  rewrite Harr2 in Hdata, Harrd.
  rewrite (FrameProofs.firstn_exact image) in Hdata
    by (unfold size_of in Hi; lia).
  rewrite (FrameProofs.skipn_exact image) in Harrd
    by (unfold size_of in Hi; lia).
  pose proof (receive_keeps_quiet _ _ _ _ _ _ _ _ _ _ Hd Hq2) as Hq3.
  destruct (line_read (dl_line d) 4) as [[st3 tbytes] l3] eqn:Er3.
  destruct (read_facts (dl_line d) l3 4 st3 tbytes ltac:(lia) Er3)
    as (_ & _ & Hs3 & _ & _ & Hok3 & Hsure3).
  rewrite (Hsure3 Hq3
             ltac:(rewrite Harrd, FrameProofs.size_of_concat; lia)) in *.
  destruct (Hok3 eq_refl) as (Htb & _ & Harr3 & Htsize).
  rewrite Harrd in Htb, Harr3.
  rewrite (FrameProofs.firstn_exact trailer) in Htb
    by (unfold size_of in Ht; lia).
  rewrite (FrameProofs.skipn_exact trailer) in Harr3
    by (unfold size_of in Ht; lia).
  subst tbytes.
  rewrite fill_full
    by (unfold memset; rewrite repeat_length; unfold size_of in Ht; lia).
  destruct (array_uint16_be (firstn 2 (hex2bin trailer ++ [x00; x00])))
    as [csum|] eqn:Ec.
  2:{ exfalso. clear - Ec.
      destruct (hex2bin trailer) as [|x [|y r]]; discriminate. }
  rewrite bytes_at_some by lia.
  rewrite firstn_all2 by (unfold size_of in Hsz; lia).
  rewrite Hdata.
  destruct (csum =? crc image) eqn:Ecs; cbn [negb];
    (eexists; exists csum; split; [reflexivity|]; split; [reflexivity|];
     cbn [dl_result dl_data dl_line];
     split; [rewrite Ecs; reflexivity|]; split; [reflexivity|];
     split; [exact Harr3|];
     rewrite Hs3, Hsent, Hs2; exact Hs1).
Qed.

(** X14.  The download does not depend on how the reads are cut.  On a
    line without failures that delivers the expected header, 32000 bytes and
    a 4-byte trailer, the buffer ends up holding exactly those 32000 bytes
    whatever the line reports as available (below 2^32 - 32000), the bytes
    behind the trailer stay on the line, and the status is success when the
    digits of the trailer convert to the CRC of the image and [Protocol]
    otherwise. *)
Theorem dump_delivers_the_image :
  forall (b : list byte) (l : line) (image trailer rest : list byte),
    arriving l = dump_expected ++ image ++ trailer ++ rest ->
    size_of image = SZ_MEMORY -> size_of trailer = 4 ->
    write_script l = [] -> read_script l = [] ->
    sane_reports SZ_MEMORY l = true ->
    exists d csum,
      dump (Some b) true l = Some d
      /\ array_uint16_be (firstn 2 (hex2bin trailer ++ [x00; x00]))
         = Some csum
      /\ dl_result d
         = (if csum =? crc image then Returns DC_STATUS_SUCCESS
            else Returns DC_STATUS_PROTOCOL)
      /\ dl_data d = image
      /\ arriving (dl_line d) = rest
      /\ sent (dl_line d) = sent l ++ [dump_command].
Proof.
  intros b l image trailer rest Harr Hi Ht Hw Hr Hsane.
  destruct (dump_on_good_line b l image trailer rest Harr Hi Ht Hw Hr Hsane)
    as (d & csum & H).
  exists d, csum. exact H.
Qed.

(** X15.  [cressi_leonardo_device_foreach] is the download followed by the
    extraction.  On a line without failures that delivers the header, an
    image of 32000 bytes and the trailer with its CRC, the consumer is
    called exactly as [cressi_leonardo_extract_dives] calls it on that
    image, the status and the user data are those of the extraction, and a
    device information event with the first byte of the image as model and
    the next three as serial number is emitted before. *)
Theorem foreach_extracts_the_downloaded_image :
  forall (U : Type) (device : cressi_leonardo_device_t)
         (scratch : option (list byte)) (l : line)
         (callback : option (dc_dive_callback_t U)) (u : U)
         (image trailer rest : list byte),
    arriving l = dump_expected ++ image ++ trailer ++ rest ->
    size_of image = SZ_MEMORY -> size_of trailer = 4 ->
    write_script l = [] -> read_script l = [] ->
    sane_reports SZ_MEMORY l = true ->
    array_uint16_be (firstn 2 (hex2bin trailer ++ [x00; x00]))
    = Some (crc image) ->
    exists v serial before,
      cressi_leonardo_device_foreach crc hex2bin progress_initial U device
        true true scratch l callback u = Some v
      /\ visit_result U v
         = result U (cressi_leonardo_extract_dives U
                       (Some (LeonardoDevice device)) scratch image callback u)
      /\ visit_dives U v
         = dives U (cressi_leonardo_extract_dives U
                      (Some (LeonardoDevice device)) scratch image callback u)
      /\ visit_userdata U v
         = userdata U (cressi_leonardo_extract_dives U
                         (Some (LeonardoDevice device)) scratch image callback
                         u)
      /\ arriving (visit_line U v) = rest
      /\ array_uint24_le (ptr image 1) = Some serial
      /\ visit_events U v
         = before ++ [Devinfo (b2z (nth 0 image x00)) 0 serial].
Proof.
  intros U device scratch l callback u image trailer rest Harr Hi Ht Hw Hr
    Hsane Hcsum.
  unfold cressi_leonardo_device_foreach. cbn [negb].
  destruct (dump_on_good_line [] l image trailer rest Harr Hi Ht Hw Hr Hsane)
    as (d & csum & Hd & Hc & Hres & Hdata & Harrd & _).
  rewrite Hd. rewrite Hcsum in Hc. injection Hc as <-.
  rewrite Z.eqb_refl in Hres. rewrite Hres, Hdata.
  destruct image as [|model [|s0 [|s1 [|s2 image']]]];
    try (unfold size_of, SZ_MEMORY in Hi; cbn [length] in Hi; lia).
  change (ptr (model :: s0 :: s1 :: s2 :: image') 1)
    with (s0 :: s1 :: s2 :: image').
  cbn [array_uint24_le].
  eexists. eexists. exists (dl_events d).
  split; [reflexivity|].
  cbn [visit_result visit_dives visit_userdata visit_line visit_events nth].
  repeat split; try reflexivity. exact Harrd.
Qed.

End WithHelpers.

End CressiDumpProofs.

(** ** The Uwatec handshake and download *)

Module SmartDumpProofs.

Import ArrayFacts LineProofs.
Import UwatecSmart Line SmartDump.

(** What a transfer does to the line, whatever the line does. *)
Lemma transfer_facts (l l' : line) (command answer answer' : list byte)
    (csize asize : Z) (o : outcome) :
  0 <= asize ->
  uwatec_smart_transfer l command csize answer asize = (o, answer', l') ->
  reports l' = reports l
  /\ (exists k, (k <= 1)%nat
                /\ sent l' = sent l ++ firstn k [firstn (Z.to_nat csize) command]
                /\ (o = Returns DC_STATUS_SUCCESS -> k = 1%nat))
  /\ (o = Returns DC_STATUS_SUCCESS ->
      asize <= size_of (arriving l)
      /\ arriving l' = skipn (Z.to_nat asize) (arriving l)
      /\ (size_of answer = asize ->
          answer' = firstn (Z.to_nat asize) (arriving l))).
Proof.
  intros Has H. unfold uwatec_smart_transfer in H.
  assert (Hnone : forall k : nat, (k <= 1)%nat ->
            sent l' = sent l ++ firstn k [firstn (Z.to_nat csize) command] ->
            o <> Returns DC_STATUS_SUCCESS -> reports l' = reports l ->
            reports l' = reports l
            /\ (exists k, (k <= 1)%nat
                  /\ sent l'
                     = sent l ++ firstn k [firstn (Z.to_nat csize) command]
                  /\ (o = Returns DC_STATUS_SUCCESS -> k = 1%nat))
            /\ (o = Returns DC_STATUS_SUCCESS ->
                asize <= size_of (arriving l)
                /\ arriving l' = skipn (Z.to_nat asize) (arriving l)
                /\ (size_of answer = asize ->
                    answer' = firstn (Z.to_nat asize) (arriving l)))).
  { intros k Hk Hs Ho Hr. split; [exact Hr|]. split.
    - exists k. split; [exact Hk|]. split; [exact Hs|].
      intros E. contradiction.
    - intros E. contradiction. }
  unfold bytes_at in H.
  destruct (csize <=? size_of command).
  2:{ injection H as <- <- <-.
      apply (Hnone 0%nat); [lia| |discriminate|reflexivity].
      cbn [firstn]. rewrite app_nil_r. reflexivity. }
  destruct (line_write l (firstn (Z.to_nat csize) command)) as [st l1] eqn:Ew.
  destruct (CressiDumpProofs.write_facts l l1 _ st Ew)
    as (Ha1 & Hr1 & Hp1 & _ & Hs1 & Hs1' & _).
  assert (Hwfail : st <> DC_STATUS_SUCCESS ->
            (Returns st, answer, l1) = (o, answer', l') ->
            reports l' = reports l
            /\ (exists k, (k <= 1)%nat
                  /\ sent l'
                     = sent l ++ firstn k [firstn (Z.to_nat csize) command]
                  /\ (o = Returns DC_STATUS_SUCCESS -> k = 1%nat))
            /\ (o = Returns DC_STATUS_SUCCESS ->
                asize <= size_of (arriving l)
                /\ arriving l' = skipn (Z.to_nat asize) (arriving l)
                /\ (size_of answer = asize ->
                    answer' = firstn (Z.to_nat asize) (arriving l)))).
  { intros Hst E. injection E as <- <- <-.
    apply (Hnone 0%nat); [lia| | |exact Hp1].
    - cbn [firstn]. rewrite app_nil_r. apply Hs1'. exact Hst.
    - intros E. injection E as E. contradiction. }
  destruct st; try (apply Hwfail; [discriminate|exact H]).
  clear Hwfail. specialize (Hs1 eq_refl).
  destruct (line_read l1 asize) as [[st2 bytes] l2] eqn:Er.
  destruct (read_facts l1 l2 asize st2 bytes Has Er)
    as (Hp2 & Hw2 & Hs2 & Hb2 & _ & Hok2 & _).
  assert (Hsent2 : sent l2
                   = sent l ++ firstn 1 [firstn (Z.to_nat csize) command]).
  { rewrite Hs2, Hs1. reflexivity. }
  destruct (memcpy answer 0 bytes (size_of bytes)) as [a2|] eqn:Em.
  2:{ injection H as <- <- <-.
      apply (Hnone 1%nat); [lia|exact Hsent2|discriminate|congruence]. }
  assert (Hrfail : st2 <> DC_STATUS_SUCCESS ->
            (Returns st2, a2, l2) = (o, answer', l') ->
            reports l' = reports l
            /\ (exists k, (k <= 1)%nat
                  /\ sent l'
                     = sent l ++ firstn k [firstn (Z.to_nat csize) command]
                  /\ (o = Returns DC_STATUS_SUCCESS -> k = 1%nat))
            /\ (o = Returns DC_STATUS_SUCCESS ->
                asize <= size_of (arriving l)
                /\ arriving l' = skipn (Z.to_nat asize) (arriving l)
                /\ (size_of answer = asize ->
                    answer' = firstn (Z.to_nat asize) (arriving l)))).
  { intros Hst E. injection E as <- <- <-.
    apply (Hnone 1%nat); [lia|exact Hsent2| |congruence].
    intros E. injection E as E. contradiction. }
  destruct st2; try (apply Hrfail; [discriminate|exact H]).
  clear Hrfail. injection H as <- <- <-.
  destruct (Hok2 eq_refl) as (Hbytes & Hfit & Harr2 & Hbsize).
  split; [congruence|]. split.
  - exists 1%nat. split; [lia|]. split; [exact Hsent2|reflexivity].
  - intros _. rewrite <- Ha1. split; [exact Hfit|]. split; [exact Harr2|].
    intros Hsa. rewrite <- Hbytes.
    unfold memcpy in Em. rewrite bytes_at_some in Em by lia.
    destruct (0 + size_of bytes <=? size_of answer); [|discriminate].
    injection Em as <-. cbn [Z.to_nat firstn app].
    rewrite firstn_all2 by (unfold size_of; lia).
    rewrite skipn_all2 by (unfold size_of in *; lia).
    apply app_nil_r.
Qed.

(** A transfer on a line without failures. *)
Lemma transfer_quiet (arr : list byte) (reps : list (dc_status_t * Z))
    (snt : list (list byte)) (command answer : list byte) (csize asize : Z) :
  csize <= size_of command -> size_of answer = asize ->
  0 <= asize <= size_of arr ->
  uwatec_smart_transfer (mk_line arr [] [] reps snt) command csize answer
    asize
  = (Returns DC_STATUS_SUCCESS, firstn (Z.to_nat asize) arr,
     mk_line (skipn (Z.to_nat asize) arr) [] [] reps
       (snt ++ [firstn (Z.to_nat csize) command])).
Proof.
  intros Hc Ha Hs. unfold uwatec_smart_transfer.
  rewrite bytes_at_some by exact Hc.
  unfold line_write, line_read.
  cbn [write_script read_script next arriving reports sent].
  destruct (asize <=? size_of arr) eqn:E; [|lia].
  rewrite size_of_firstn by lia.
  unfold memcpy. rewrite bytes_at_some by (rewrite size_of_firstn; lia).
  destruct (0 + asize <=? size_of answer) eqn:E2; [|lia].
  cbn [Z.to_nat firstn app].
  rewrite (firstn_all2 (firstn (Z.to_nat asize) arr))
    by (rewrite length_firstn; lia).
  rewrite skipn_all2 by (unfold size_of in *; lia).
  rewrite app_nil_r. reflexivity.
Qed.

(** X16.  The handshake.  When [uwatec_smart_handshake] succeeds, the line
    delivered the byte 0x01 twice and the two commands 1B and
    1C 10 27 00 00 were written, in this order and nothing else.  On a line
    without failures that delivers 0x01 twice it succeeds. *)
Theorem handshake_needs_two_acknowledgements :
  forall (l : line),
    (forall l',
        uwatec_smart_handshake l = (Returns DC_STATUS_SUCCESS, l') ->
        arriving l = x01 :: x01 :: arriving l'
        /\ sent l' = sent l ++ [[x1b]; [x1c; x10; x27; x00; x00]])
    /\ (forall rest,
          arriving l = x01 :: x01 :: rest ->
          write_script l = [] -> read_script l = [] ->
          exists l',
            uwatec_smart_handshake l = (Returns DC_STATUS_SUCCESS, l')
            /\ arriving l' = rest).
Proof.
  intros l. split.
  - intros l' H. unfold uwatec_smart_handshake in H. cbn [tl] in H.
    destruct (uwatec_smart_transfer l [x1b; x10; x27; x00; x00] 1 [x00] 1)
      as [[o1 a1] l1] eqn:E1.
    destruct (transfer_facts l l1 _ _ a1 _ 1 o1 ltac:(lia) E1)
      as (_ & (k1 & _ & Hs1 & Hk1) & Hok1).
    destruct o1 as [rc1| |]; try discriminate.
    destruct rc1; try discriminate.
    destruct (Hok1 eq_refl) as (Hfit1 & Harr1 & Ha1).
    specialize (Ha1 eq_refl). rewrite (Hk1 eq_refl) in Hs1.
    destruct (negb (Byte.eqb (nth 0 a1 x00) x01)) eqn:Eb1; [discriminate|].
    destruct (uwatec_smart_transfer l1 [x1c; x10; x27; x00; x00] 5 a1 1)
      as [[o2 a2] l2] eqn:E2.
    destruct (transfer_facts l1 l2 _ _ a2 _ 1 o2 ltac:(lia) E2)
      as (_ & (k2 & _ & Hs2 & Hk2) & Hok2).
    destruct o2 as [rc2| |]; try discriminate.
    destruct rc2; try discriminate.
    destruct (Hok2 eq_refl) as (Hfit2 & Harr2 & Ha2).
    rewrite (Hk2 eq_refl) in Hs2.
    destruct (negb (Byte.eqb (nth 0 a2 x00) x01)) eqn:Eb2; [discriminate|].
    injection H as <-.
    assert (Hsa1 : size_of a1 = 1).
    { rewrite Ha1. apply size_of_firstn. lia. }
    specialize (Ha2 Hsa1).
    apply negb_false_iff in Eb1, Eb2. apply Byte.byte_dec_bl in Eb1, Eb2.
    split.
    + destruct (arriving l) as [|b0 arr0] eqn:Earr;
        [unfold size_of in Hfit1; cbn [length] in Hfit1; lia|].
      change (firstn (Z.to_nat 1) (b0 :: arr0)) with [b0] in Ha1.
      change (skipn (Z.to_nat 1) (b0 :: arr0)) with arr0 in Harr1.
      subst a1. cbn [nth] in Eb1. subst b0.
      rewrite Harr1 in *.
      destruct arr0 as [|b1 arr1];
        [unfold size_of in Hfit2; cbn [length] in Hfit2; lia|].
      change (firstn (Z.to_nat 1) (b1 :: arr1)) with [b1] in Ha2.
      change (skipn (Z.to_nat 1) (b1 :: arr1)) with arr1 in Harr2.
      subst a2. cbn [nth] in Eb2. subst b1. rewrite Harr2. reflexivity.
    + rewrite Hs2, Hs1, <- app_assoc. reflexivity.
  - intros rest Harr Hw Hr.
    destruct l as [arr ws rs reps snt].
    cbn [arriving write_script read_script] in *. subst arr ws rs.
    unfold uwatec_smart_handshake. cbn [tl].
    rewrite transfer_quiet;
      [|unfold size_of; cbn [length]; lia|reflexivity
       |unfold size_of; cbn [length]; lia].
    change (firstn (Z.to_nat 1) (x01 :: x01 :: rest)) with [x01].
    change (skipn (Z.to_nat 1) (x01 :: x01 :: rest)) with (x01 :: rest).
    cbn [nth Byte.eqb negb].
    change (negb (Byte.eqb x01 x01)) with false. cbv iota.
    rewrite transfer_quiet;
      [|unfold size_of; cbn [length]; lia|reflexivity
       |unfold size_of; cbn [length]; lia].
    change (firstn (Z.to_nat 1) (x01 :: rest)) with [x01].
    cbn [nth]. change (negb (Byte.eqb x01 x01)) with false. cbv iota.
    eexists. split; [reflexivity|]. reflexivity.
Qed.

Lemma z2b_land (x : Z) : z2b (Z.land x 0xFF) = z2b x.
Proof.
  unfold z2b. change 0xFF with (Z.ones 8). rewrite Z.land_ones by lia.
  change (2 ^ 8) with 256. rewrite Z.mod_mod by lia. reflexivity.
Qed.

(** The command template holds the four bytes of the timestamp, least
    significant first. *)
Lemma dump_command_bytes (code : byte) (timestamp : Z) :
  dump_command code timestamp
  = code :: uint32_le_bytes timestamp ++ [x10; x27; x00; x00].
Proof.
  unfold dump_command, uint32_le_bytes. rewrite !z2b_land. reflexivity.
Qed.

Lemma uint32_le_of_bytes (x : Z) (rest : list byte) :
  0 <= x < 2 ^ 32 -> array_uint32_le (uint32_le_bytes x ++ rest) = Some x.
Proof.
  intros Hx. unfold uint32_le_bytes. cbn [app array_uint32_le].
  rewrite !FrameProofs.b2z_z2b. f_equal.
  rewrite !Z.shiftr_div_pow2, !Z.shiftl_mul_pow2 by lia.
  change (2 ^ 8) with 256. change (2 ^ 16) with 65536.
  change (2 ^ 24) with 16777216. change (2 ^ 32) with 4294967296 in Hx.
  Z.div_mod_to_equations. lia.
Qed.

Lemma resize_size (buffer : list byte) (size : Z) :
  0 <= size -> size_of (dc_buffer_resize buffer size) = size.
Proof.
  intros H. unfold dc_buffer_resize, size_of.
  rewrite length_app, length_firstn, repeat_length. lia.
Qed.

(** The loop that receives the data writes nothing. *)
Lemma receive_keeps_sent (minimum total maximum : Z) (fuel : nat) :
  forall (l : line) (data : list byte) (nbytes current : Z)
         (events : list event) (d : download),
    receive_loop fuel minimum total l data nbytes current maximum events
    = Some d ->
    sent (dl_line d) = sent l.
Proof.
  induction fuel as [|fuel IH];
    intros l data nbytes current events d H; [discriminate|].
  cbn [receive_loop] in H.
  destruct (nbytes <? total); [|injection H as <-; reflexivity].
  destruct (line_get_available l) as [[st av] l1] eqn:Eg.
  assert (Hs1 : sent l1 = sent l).
  { unfold line_get_available in Eg.
    destruct (next (DC_STATUS_SUCCESS, 0) (reports l)) as [[rc v] script].
    injection Eg as _ _ <-. reflexivity. }
  match type of H with
  | context [line_read l1 ?len] =>
      destruct (line_read l1 len) as [[st2 bytes] l2] eqn:Er
  end.
  assert (Hs2 : sent l2 = sent l).
  { rewrite <- Hs1. clear - Er. unfold line_read in Er.
    destruct (next DC_STATUS_SUCCESS (read_script l1)) as [rc script].
    destruct rc; try (injection Er as _ _ <-; reflexivity).
    match type of Er with
    | context [if ?c then _ else _] => destruct c
    end; injection Er as _ _ <-; reflexivity. }
  destruct (memcpy data nbytes bytes (size_of bytes)) as [data'|];
    [|injection H as <-; exact Hs2].
  destruct st2; try (injection H as <-; exact Hs2).
  rewrite (IH _ _ _ _ _ _ H). exact Hs2.
Qed.

Section WithInitializer.

Variable progress_initial : Z.
Variable progress_maximum : Z.

Hypothesis progress_range : 0 <= progress_initial < 2 ^ 32.

Local Notation "'dump'" :=
  (uwatec_smart_device_dump progress_initial progress_maximum).

(** The download on a line without failures that delivers the model, the
    serial number, the clock, the length twice and the data. *)
Lemma smart_dump_on_good_line (device : uwatec_smart_device_t) (now : Z)
    (buffer : list byte) (l : line) (model : byte)
    (serial devtime payload rest : list byte) (len : Z) :
  arriving l
  = [model] ++ serial ++ devtime ++ uint32_le_bytes len
    ++ uint32_le_bytes (len + 4) ++ payload ++ rest ->
  size_of serial = 4 -> size_of devtime = 4 -> size_of payload = len ->
  0 < len -> len + 32 < 2 ^ 32 ->
  write_script l = [] -> read_script l = [] ->
  sane_reports len l = true ->
  exists d sv dv before,
    dump device now buffer true l
    = Some (mk_dumped d (mk_smart (timestamp device) dv now))
    /\ array_uint32_le serial = Some sv
    /\ array_uint32_le devtime = Some dv
    /\ dl_result d = Returns DC_STATUS_SUCCESS
    /\ dl_data d = payload
    /\ arriving (dl_line d) = rest
    /\ sent (dl_line d)
       = sent l ++ [[x10]; [x14]; [x1a];
                    dump_command xc6 (timestamp device);
                    dump_command xc4 (timestamp device)]
    /\ dl_current d = u32 (progress_initial + 17 + len)
    /\ dl_events d
       = Progress progress_initial progress_maximum
         :: Progress (u32 (progress_initial + 9)) progress_maximum
         :: Clock now dv
         :: Devinfo (b2z model) 0 sv
         :: Progress (u32 (progress_initial + 13)) (17 + len)
         :: Progress (u32 (progress_initial + 17)) (17 + len)
         :: before ++ [Progress (dl_current d) (17 + len)].
Proof.
  intros Harr Hs Hd Hp Hlen Hsmall Hw Hr Hsane.
  destruct l as [arr ws rs reps snt].
  cbn [arriving write_script read_script sent] in *. subst arr ws rs.
  destruct (SmartMoreProofs.uint32_some serial 0 ltac:(lia) ltac:(lia))
    as [sv Hsv].
  destruct (SmartMoreProofs.uint32_some devtime 0 ltac:(lia) ltac:(lia))
    as [dv Hdv].
  change (ptr serial 0) with serial in Hsv.
  change (ptr devtime 0) with devtime in Hdv.
  pose proof (size_of_nonneg rest) as Hrest.
  assert (HL : size_of (uint32_le_bytes len) = 4) by reflexivity.
  assert (HT : size_of (uint32_le_bytes (len + 4)) = 4) by reflexivity.
  assert (HvL : array_uint32_le (uint32_le_bytes len) = Some len).
  { rewrite <- (app_nil_r (uint32_le_bytes len)).
    apply uint32_le_of_bytes. lia. }
  assert (HvT : array_uint32_le (uint32_le_bytes (len + 4)) = Some (len + 4)).
  { rewrite <- (app_nil_r (uint32_le_bytes (len + 4))).
    apply uint32_le_of_bytes. lia. }
  set (ts := timestamp device).
  set (cmds := [[x10]; [x14]; [x1a]; dump_command xc6 ts;
                dump_command xc4 ts]).
  set (l5 := mk_line (payload ++ rest) [] [] reps (snt ++ cmds)).
  set (cur3 := u32 (u32 (u32 (progress_initial + 9) + 4) + 4)).
  set (events3 :=
         [Progress progress_initial progress_maximum;
          Progress (u32 (progress_initial + 9)) progress_maximum;
          Clock now dv;
          Devinfo (b2z model) 0 sv;
          Progress (u32 (u32 (progress_initial + 9) + 4)) (17 + len);
          Progress cur3 (17 + len)]).
  assert (E : dump device now buffer true
                (mk_line ([model] ++ serial ++ devtime ++ uint32_le_bytes len
                          ++ uint32_le_bytes (len + 4) ++ payload ++ rest)
                   [] [] reps snt)
              = match receive_loop (receive_fuel len l5) 32 len l5
                        (dc_buffer_resize buffer len) 0 cur3 (17 + len)
                        events3 with
                | None => None
                | Some d => Some (mk_dumped d (mk_smart ts dv now))
                end).
  { unfold uwatec_smart_device_dump.
    rewrite transfer_quiet;
      [|unfold size_of; cbn [length]; lia|reflexivity
       |rewrite !FrameProofs.size_of_concat; unfold size_of at 1; cbn [length];
        pose proof (size_of_nonneg payload); lia].
    change (firstn (Z.to_nat 1)
              ([model] ++ serial ++ devtime ++ uint32_le_bytes len
               ++ uint32_le_bytes (len + 4) ++ payload ++ rest))
      with [model].
    change (skipn (Z.to_nat 1)
              ([model] ++ serial ++ devtime ++ uint32_le_bytes len
               ++ uint32_le_bytes (len + 4) ++ payload ++ rest))
      with (serial ++ devtime ++ uint32_le_bytes len
            ++ uint32_le_bytes (len + 4) ++ payload ++ rest).
    rewrite transfer_quiet;
      [|unfold size_of; cbn [length]; lia|reflexivity
       |rewrite !FrameProofs.size_of_concat; pose proof (size_of_nonneg payload);
        lia].
    rewrite (FrameProofs.firstn_exact serial) by (unfold size_of in *; lia).
    rewrite (FrameProofs.skipn_exact serial) by (unfold size_of in *; lia).
    rewrite transfer_quiet;
      [|unfold size_of; cbn [length]; lia|reflexivity
       |rewrite !FrameProofs.size_of_concat; pose proof (size_of_nonneg payload);
        lia].
    rewrite (FrameProofs.firstn_exact devtime) by (unfold size_of in *; lia).
    rewrite (FrameProofs.skipn_exact devtime) by (unfold size_of in *; lia).
    rewrite Hdv, Hsv. cbn [timestamp nth]. fold ts.
    rewrite transfer_quiet;
      [|unfold dump_command, size_of; cbn [length]; lia|reflexivity
       |rewrite !FrameProofs.size_of_concat; pose proof (size_of_nonneg payload);
        lia].
    rewrite (FrameProofs.firstn_exact (uint32_le_bytes len)) by reflexivity.
    rewrite (FrameProofs.skipn_exact (uint32_le_bytes len)) by reflexivity.
    rewrite HvL.
    destruct (len =? 0) eqn:E0; [lia|]. cbn [negb].
    rewrite transfer_quiet;
      [|unfold dump_command, size_of; cbn [length]; lia|exact HL
       |rewrite !FrameProofs.size_of_concat; pose proof (size_of_nonneg payload);
        lia].
    rewrite (FrameProofs.firstn_exact (uint32_le_bytes (len + 4)))
      by reflexivity.
    rewrite (FrameProofs.skipn_exact (uint32_le_bytes (len + 4)))
      by reflexivity.
    rewrite HvT.
    rewrite (ExtractProofs.u32_small (len + 4)) by lia.
    rewrite Z.eqb_refl. cbn [negb].
    rewrite (ExtractProofs.u32_small (4 + 9 + (len + 4))) by lia.
    replace (4 + 9 + (len + 4)) with (17 + len) by lia.
    change (firstn (Z.to_nat 1) [x10]) with [x10].
    change (firstn (Z.to_nat 1) [x14]) with [x14].
    change (firstn (Z.to_nat 1) [x1a]) with [x1a].
    change (firstn (Z.to_nat 9) (dump_command xc6 ts))
      with (dump_command xc6 ts).
    change (firstn (Z.to_nat 9) (dump_command xc4 ts))
      with (dump_command xc4 ts).
    rewrite <- !app_assoc. reflexivity. }
  rewrite E. clear E.
  destruct (receive_loop_spec 32 len (17 + len) ltac:(lia) ltac:(lia)
              (receive_fuel len l5) l5 (dc_buffer_resize buffer len) 0 cur3
              events3)
    as (d & more & Hd' & _ & Hsz & Hsent & _ & Hev & _ & Hsucc & Hsure).
  - lia.
  - rewrite resize_size by lia. lia.
  - unfold cur3, u32. apply Z.mod_pos_bound. lia.
  - exact Hsane.
  - unfold receive_fuel. rewrite Z.sub_0_r. lia.
  - rewrite Hd'.
    assert (Hres : dl_result d = Returns DC_STATUS_SUCCESS).
    { apply Hsure; [reflexivity|]. rewrite Z.sub_0_r.
      unfold l5. cbn [arriving]. rewrite FrameProofs.size_of_concat. lia. }
    destruct (Hsucc Hres) as (_ & Hdata & Harrd & Hcur & Hlast).
    rewrite Z.sub_0_r in *. unfold l5 in Hdata, Harrd, Hsent.
    cbn [arriving sent] in Hdata, Harrd, Hsent.
    rewrite (FrameProofs.firstn_exact payload) in Hdata
      by (unfold size_of in *; lia).
    rewrite (FrameProofs.skipn_exact payload) in Harrd
      by (unfold size_of in *; lia).
    rewrite skipn_all2 in Hdata
      by (pose proof (resize_size buffer len ltac:(lia)) as Hx;
          unfold size_of in Hx; lia).
    cbn [Z.to_nat firstn app] in Hdata. rewrite app_nil_r in Hdata.
    destruct (Hlast Hlen) as [more' Hmore].
    assert (Hc : dl_current d = u32 (progress_initial + 17 + len)).
    { rewrite Hcur. unfold cur3, u32.
      change (2 ^ 32) with 4294967296. Z.div_mod_to_equations. lia. }
    exists d, sv, dv, more'.
    split; [reflexivity|]. split; [exact Hsv|]. split; [exact Hdv|].
    split; [exact Hres|]. split; [exact Hdata|]. split; [exact Harrd|].
    split; [exact Hsent|]. split; [exact Hc|].
    assert (E13 : u32 (u32 (progress_initial + 9) + 4)
                  = u32 (progress_initial + 13)).
    { unfold u32. change (2 ^ 32) with 4294967296.
      Z.div_mod_to_equations. lia. }
    assert (E17 : cur3 = u32 (progress_initial + 17)).
    { unfold cur3, u32. change (2 ^ 32) with 4294967296.
      Z.div_mod_to_equations. lia. }
    rewrite Hev, Hmore. unfold events3. rewrite E13, E17. reflexivity.
Qed.

(** X17.  The Uwatec download does not depend on how the reads are cut.  On
    a line without failures that delivers the model, the serial number, the
    clock, the length [len] > 0, the total [len + 4] and [len] bytes of data,
    [uwatec_smart_device_dump] succeeds whatever the line reports as
    available (below 2^32 - [len]); the buffer holds exactly those [len]
    bytes, the clock of the instrument and the system time are stored in the
    device, the bytes behind the data stay on the line, and the progress
    counter has advanced by the announced maximum of 17 + [len]. *)
Theorem smart_dump_delivers_the_data :
  forall (device : uwatec_smart_device_t) (now : Z) (buffer : list byte)
         (l : line) (model : byte) (serial devtime payload rest : list byte)
         (len : Z),
    arriving l
    = [model] ++ serial ++ devtime ++ uint32_le_bytes len
      ++ uint32_le_bytes (len + 4) ++ payload ++ rest ->
    size_of serial = 4 -> size_of devtime = 4 -> size_of payload = len ->
    0 < len -> len + 32 < 2 ^ 32 ->
    write_script l = [] -> read_script l = [] ->
    sane_reports len l = true ->
    exists d dv before,
      dump device now buffer true l
      = Some (mk_dumped d (mk_smart (timestamp device) dv now))
      /\ array_uint32_le devtime = Some dv
      /\ dl_result d = Returns DC_STATUS_SUCCESS
      /\ dl_data d = payload
      /\ arriving (dl_line d) = rest
      /\ dl_current d = u32 (progress_initial + (17 + len))
      /\ dl_events d = before ++ [Progress (dl_current d) (17 + len)].
Proof.
  intros device now buffer l model serial devtime payload rest len
    Harr Hs Hd Hp Hlen Hsmall Hw Hr Hsane.
  destruct (smart_dump_on_good_line device now buffer l model serial devtime
              payload rest len Harr Hs Hd Hp Hlen Hsmall Hw Hr Hsane)
    as (d & sv & dv & before & Hdump & _ & Hdv & Hres & Hdata & Harrd & _
        & Hcur & Hev).
  exists d, dv.
  eexists. split; [exact Hdump|]. split; [exact Hdv|].
  split; [exact Hres|]. split; [exact Hdata|]. split; [exact Harrd|].
  split; [rewrite Hcur; f_equal; lia|].
  rewrite Hev.
  change (?a :: ?b :: ?c :: ?e :: ?f :: ?g :: before ++ ?z)
    with ([a; b; c; e; f; g] ++ before ++ z).
  rewrite app_assoc. reflexivity.
Qed.

(** X18.  The commands of the download.  Whatever the line does,
    [uwatec_smart_device_dump] writes nothing but a prefix of its five
    commands, in their order: 10, 14, 1A, then C6 and C4 each followed by the
    four bytes of the timestamp, least significant first, and 10 27 00 00.
    A download that succeeds has written at least the first four.  The
    timestamp bytes are the fingerprint as it was given to
    [uwatec_smart_device_set_fingerprint]. *)
Theorem smart_dump_writes_only_its_commands :
  forall (device : uwatec_smart_device_t) (now : Z) (buffer : list byte)
         (resize_ok : bool) (l : line) (dd : dumped),
    dump device now buffer resize_ok l = Some dd ->
    (exists k,
        sent (dl_line (dumped_download dd))
        = sent l
          ++ firstn k
               [[x10]; [x14]; [x1a];
                xc6 :: uint32_le_bytes (timestamp device)
                ++ [x10; x27; x00; x00];
                xc4 :: uint32_le_bytes (timestamp device)
                ++ [x10; x27; x00; x00]]
        /\ (dl_result (dumped_download dd) = Returns DC_STATUS_SUCCESS ->
            (4 <= k)%nat))
    /\ (forall (device0 : uwatec_smart_device_t) (fp : list byte),
          size_of fp = 4 ->
          uwatec_smart_device_set_fingerprint device0 fp
          = (Returns DC_STATUS_SUCCESS, device) ->
          uint32_le_bytes (timestamp device) = fp).
Proof.
  intros device now buffer resize_ok l dd H.
  split.
  2:{ intros device0 fp Hfp Hset.
      unfold uwatec_smart_device_set_fingerprint in Hset. rewrite Hfp in Hset.
      cbn [Z.eqb negb andb Pos.eqb] in Hset.
      destruct fp as [|b0 [|b1 [|b2 [|b3 [|b4 fp]]]]];
        try (unfold size_of in Hfp; cbn [length] in Hfp; lia).
      destruct (array_uint32_le [b0; b1; b2; b3]) as [t|] eqn:Et;
        [|discriminate].
      injection Hset as <-. cbn [timestamp].
      apply (uint32_le_bytes_array b0 b1 b2 b3 [] t Et). }
  set (ts := timestamp device) in *.
  set (cmds := [[x10]; [x14]; [x1a];
                xc6 :: uint32_le_bytes ts ++ [x10; x27; x00; x00];
                xc4 :: uint32_le_bytes ts ++ [x10; x27; x00; x00]]).
  unfold uwatec_smart_device_dump in H.
  (* a stop after [i] commands, the last transfer having written [k] *)
  assert (Hstop : forall (i k : nat) (l0 l' : line) (cmd : list byte)
                         (o : outcome) data c ev dev,
            (i < 5)%nat -> (k <= 1)%nat ->
            sent l0 = sent l ++ firstn i cmds ->
            nth i cmds [] = cmd ->
            sent l' = sent l0 ++ firstn k [firstn (length cmd) cmd] ->
            (o = Returns DC_STATUS_SUCCESS -> (4 <= i + k)%nat) ->
            Some (mk_dumped (mk_download o data l' c ev) dev) = Some dd ->
            exists k0,
              sent (dl_line (dumped_download dd)) = sent l ++ firstn k0 cmds
              /\ (dl_result (dumped_download dd)
                  = Returns DC_STATUS_SUCCESS -> (4 <= k0)%nat)).
  { intros i k l0 l' cmd o data c ev dev Hi Hk Hacc Hcmd Hs Ho E.
    injection E as <-. cbn [dumped_download dl_line dl_result].
    exists (i + k)%nat. split; [|exact Ho].
    rewrite Hs, Hacc, <- app_assoc. f_equal.
    rewrite firstn_all in Hs |- *.
    destruct k as [|[|k]]; [| |lia].
    - cbn [firstn]. rewrite app_nil_r, Nat.add_0_r. reflexivity.
    - subst cmd.
      destruct i as [|[|[|[|[|i]]]]]; try lia; reflexivity. }
  destruct (uwatec_smart_transfer l [x10] 1 [x00] 1) as [[o1 a1] l1] eqn:E1.
  destruct (transfer_facts l l1 _ _ a1 _ 1 o1 ltac:(lia) E1)
    as (_ & (k1 & Hk1 & Hs1 & Hk1') & _).
  assert (H1 : o1 <> Returns DC_STATUS_SUCCESS ->
               Some (mk_dumped
                       (mk_download o1 buffer l1 progress_initial
                          [Progress progress_initial progress_maximum])
                       device) = Some dd ->
               exists k0,
                 sent (dl_line (dumped_download dd))
                 = sent l ++ firstn k0 cmds
                 /\ (dl_result (dumped_download dd)
                     = Returns DC_STATUS_SUCCESS -> (4 <= k0)%nat)).
  { intros Ho E.
    eapply (Hstop 0%nat k1 l l1 [x10]); [lia|exact Hk1| |reflexivity
                                         |exact Hs1| |exact E].
    - cbn [firstn]. rewrite app_nil_r. reflexivity.
    - intros Eo. contradiction. }
  destruct o1 as [rc1| |]; [|apply H1; [discriminate|exact H]
                            |apply H1; [discriminate|exact H]].
  destruct rc1; try (apply H1; [discriminate|exact H]).
  clear H1. rewrite (Hk1' eq_refl) in Hs1.
  assert (Hacc1 : sent l1 = sent l ++ firstn 1 cmds) by exact Hs1.
  clear Hs1 Hk1 Hk1' k1 E1.
  destruct (uwatec_smart_transfer l1 [x14] 1 [x00; x00; x00; x00] 4)
    as [[o2 a2] l2] eqn:E2.
  destruct (transfer_facts l1 l2 _ _ a2 _ 4 o2 ltac:(lia) E2)
    as (_ & (k2 & Hk2 & Hs2 & Hk2') & _).
  assert (H2 : o2 <> Returns DC_STATUS_SUCCESS ->
               Some (mk_dumped
                       (mk_download o2 buffer l2 progress_initial
                          [Progress progress_initial progress_maximum])
                       device) = Some dd ->
               exists k0,
                 sent (dl_line (dumped_download dd))
                 = sent l ++ firstn k0 cmds
                 /\ (dl_result (dumped_download dd)
                     = Returns DC_STATUS_SUCCESS -> (4 <= k0)%nat)).
  { intros Ho E.
    eapply (Hstop 1%nat k2 l1 l2 [x14]); [lia|exact Hk2|exact Hacc1
                                          |reflexivity|exact Hs2| |exact E].
    intros Eo. contradiction. }
  destruct o2 as [rc2| |]; [|apply H2; [discriminate|exact H]
                            |apply H2; [discriminate|exact H]].
  destruct rc2; try (apply H2; [discriminate|exact H]).
  clear H2. rewrite (Hk2' eq_refl) in Hs2.
  assert (Hacc2 : sent l2 = sent l ++ firstn 2 cmds)
    by (rewrite Hs2, Hacc1, <- app_assoc; reflexivity).
  clear Hs2 Hk2 Hk2' k2 E2 Hacc1.
  destruct (uwatec_smart_transfer l2 [x1a] 1 [x00; x00; x00; x00] 4)
    as [[o3 a3] l3] eqn:E3.
  destruct (transfer_facts l2 l3 _ _ a3 _ 4 o3 ltac:(lia) E3)
    as (_ & (k3 & Hk3 & Hs3 & Hk3') & _).
  assert (H3 : o3 <> Returns DC_STATUS_SUCCESS ->
               Some (mk_dumped
                       (mk_download o3 buffer l3 progress_initial
                          [Progress progress_initial progress_maximum])
                       device) = Some dd ->
               exists k0,
                 sent (dl_line (dumped_download dd))
                 = sent l ++ firstn k0 cmds
                 /\ (dl_result (dumped_download dd)
                     = Returns DC_STATUS_SUCCESS -> (4 <= k0)%nat)).
  { intros Ho E.
    eapply (Hstop 2%nat k3 l2 l3 [x1a]); [lia|exact Hk3|exact Hacc2
                                          |reflexivity|exact Hs3| |exact E].
    intros Eo. contradiction. }
  destruct o3 as [rc3| |]; [|apply H3; [discriminate|exact H]
                            |apply H3; [discriminate|exact H]].
  destruct rc3; try (apply H3; [discriminate|exact H]).
  clear H3. rewrite (Hk3' eq_refl) in Hs3.
  assert (Hacc3 : sent l3 = sent l ++ firstn 3 cmds)
    by (rewrite Hs3, Hacc2, <- app_assoc; reflexivity).
  clear Hs3 Hk3 Hk3' k3 E3 Hacc2.
  (* a stop at a line on which [i] commands were written *)
  assert (Hat : forall (i : nat) (l' : line) (o : outcome) data c ev dev,
            (i <= 5)%nat -> sent l' = sent l ++ firstn i cmds ->
            (o = Returns DC_STATUS_SUCCESS -> (4 <= i)%nat) ->
            Some (mk_dumped (mk_download o data l' c ev) dev) = Some dd ->
            exists k0,
              sent (dl_line (dumped_download dd)) = sent l ++ firstn k0 cmds
              /\ (dl_result (dumped_download dd)
                  = Returns DC_STATUS_SUCCESS -> (4 <= k0)%nat)).
  { intros i l' o data c ev dev Hi Hs Ho E. injection E as <-.
    cbn [dumped_download dl_line dl_result]. exists i. split; assumption. }
  destruct (array_uint32_le a3) as [dv|];
    [|(eapply (Hat 3%nat); [|exact Hacc3| |exact H]; [lia|discriminate])].
  destruct (array_uint32_le a2) as [sv|];
    [|(eapply (Hat 3%nat); [|exact Hacc3| |exact H]; [lia|discriminate])].
  cbn [timestamp] in H. fold ts in H.
  rewrite (dump_command_bytes xc6 ts) in H.
  match type of H with
  | context [uwatec_smart_transfer l3 ?cmd 9 ?ans 4] =>
      destruct (uwatec_smart_transfer l3 cmd 9 ans 4) as [[o4 a4] l4] eqn:E4;
      destruct (transfer_facts l3 l4 cmd ans a4 9 4 o4 ltac:(lia) E4)
        as (_ & (k4 & Hk4 & Hs4 & Hk4') & _)
  end.
  assert (H4 : forall c ev dev,
               o4 <> Returns DC_STATUS_SUCCESS ->
               Some (mk_dumped (mk_download o4 buffer l4 c ev) dev)
               = Some dd ->
               exists k0,
                 sent (dl_line (dumped_download dd))
                 = sent l ++ firstn k0 cmds
                 /\ (dl_result (dumped_download dd)
                     = Returns DC_STATUS_SUCCESS -> (4 <= k0)%nat)).
  { intros c ev dev Ho E.
    eapply (Hstop 3%nat k4 l3 l4
              (xc6 :: uint32_le_bytes ts ++ [x10; x27; x00; x00]));
      [lia|exact Hk4|exact Hacc3|reflexivity|exact Hs4| |exact E].
    intros Eo. contradiction. }
  destruct o4 as [rc4| |]; [|(eapply H4; [|exact H]; discriminate)
                            |(eapply H4; [|exact H]; discriminate)].
  destruct rc4; try ((eapply H4; [|exact H]; discriminate)).
  clear H4. rewrite (Hk4' eq_refl) in Hs4.
  assert (Hacc4 : sent l4 = sent l ++ firstn 4 cmds)
    by (rewrite Hs4, Hacc3, <- app_assoc; reflexivity).
  clear Hs4 Hk4 Hk4' k4 E4 Hacc3.
  destruct (array_uint32_le a4) as [len|];
    [|(eapply (Hat 4%nat); [|exact Hacc4| |exact H]; [lia|discriminate])].
  destruct (len =? 0);
    [(eapply (Hat 4%nat); [|exact Hacc4| |exact H]; [lia|intros _; lia])|].
  destruct (negb resize_ok);
    [(eapply (Hat 4%nat); [|exact Hacc4| |exact H]; [lia|discriminate])|].
  rewrite (dump_command_bytes xc4 ts) in H.
  match type of H with
  | context [uwatec_smart_transfer l4 ?cmd 9 ?ans 4] =>
      destruct (uwatec_smart_transfer l4 cmd 9 ans 4) as [[o5 a5] l5] eqn:E5;
      destruct (transfer_facts l4 l5 cmd ans a5 9 4 o5 ltac:(lia) E5)
        as (_ & (k5 & Hk5 & Hs5 & Hk5') & _)
  end.
  assert (H5 : forall data c ev dev,
               o5 <> Returns DC_STATUS_SUCCESS ->
               Some (mk_dumped (mk_download o5 data l5 c ev) dev)
               = Some dd ->
               exists k0,
                 sent (dl_line (dumped_download dd))
                 = sent l ++ firstn k0 cmds
                 /\ (dl_result (dumped_download dd)
                     = Returns DC_STATUS_SUCCESS -> (4 <= k0)%nat)).
  { intros data c ev dev Ho E.
    eapply (Hstop 4%nat k5 l4 l5
              (xc4 :: uint32_le_bytes ts ++ [x10; x27; x00; x00]));
      [lia|exact Hk5|exact Hacc4|reflexivity|exact Hs5| |exact E].
    intros Eo. contradiction. }
  destruct o5 as [rc5| |]; [|(eapply H5; [|exact H]; discriminate)
                            |(eapply H5; [|exact H]; discriminate)].
  destruct rc5; try ((eapply H5; [|exact H]; discriminate)).
  clear H5. rewrite (Hk5' eq_refl) in Hs5.
  assert (Hacc5 : sent l5 = sent l ++ firstn 5 cmds)
    by (rewrite Hs5, Hacc4, <- app_assoc; reflexivity).
  clear Hs5 Hk5 Hk5' k5 E5 Hacc4.
  destruct (array_uint32_le a5) as [total|];
    [|(eapply (Hat 5%nat); [|exact Hacc5| |exact H]; [lia|discriminate])].
  destruct (negb (total =? u32 (len + 4)));
    [(eapply (Hat 5%nat); [|exact Hacc5| |exact H]; [lia|discriminate])|].
  match type of H with
  | context [receive_loop ?f ?m ?t ?l0 ?d0 ?n ?c ?mx ?ev] =>
      destruct (receive_loop f m t l0 d0 n c mx ev) as [d|] eqn:Eloop;
      [|discriminate]
  end.
  injection H as <-. cbn [dumped_download].
  exists 5%nat. split; [|intros _; lia].
  rewrite (receive_keeps_sent _ _ _ _ _ _ _ _ _ _ Eloop). exact Hacc5.
Qed.

(** X19.  A download of nothing.  When the instrument announces a length of
    zero, [uwatec_smart_device_dump] succeeds after four commands without
    asking for the data and without touching the buffer, whether memory could
    be allocated or not; the announced maximum is 13 and the progress counter
    has advanced by 13. *)
Theorem smart_dump_of_nothing :
  forall (device : uwatec_smart_device_t) (now : Z) (buffer : list byte)
         (resize_ok : bool) (l : line) (model : byte)
         (serial devtime rest : list byte),
    arriving l
    = [model] ++ serial ++ devtime ++ [x00; x00; x00; x00] ++ rest ->
    size_of serial = 4 -> size_of devtime = 4 ->
    write_script l = [] -> read_script l = [] ->
    exists d dv before,
      dump device now buffer resize_ok l
      = Some (mk_dumped d (mk_smart (timestamp device) dv now))
      /\ array_uint32_le devtime = Some dv
      /\ dl_result d = Returns DC_STATUS_SUCCESS
      /\ dl_data d = buffer
      /\ arriving (dl_line d) = rest
      /\ sent (dl_line d)
         = sent l ++ [[x10]; [x14]; [x1a];
                      dump_command xc6 (timestamp device)]
      /\ dl_events d
         = before ++ [Progress (u32 (progress_initial + 13)) 13].
Proof.
  intros device now buffer resize_ok l model serial devtime rest
    Harr Hs Hd Hw Hr.
  destruct l as [arr ws rs reps snt].
  cbn [arriving write_script read_script sent] in *. subst arr ws rs.
  destruct (SmartMoreProofs.uint32_some serial 0 ltac:(lia) ltac:(lia))
    as [sv Hsv].
  destruct (SmartMoreProofs.uint32_some devtime 0 ltac:(lia) ltac:(lia))
    as [dv Hdv].
  change (ptr serial 0) with serial in Hsv.
  change (ptr devtime 0) with devtime in Hdv.
  pose proof (size_of_nonneg rest) as Hrest.
  set (ts := timestamp device).
  unfold uwatec_smart_device_dump.
  rewrite transfer_quiet;
    [|unfold size_of; cbn [length]; lia|reflexivity
     |rewrite !FrameProofs.size_of_concat; unfold size_of at 1 4;
      cbn [length]; lia].
  change (firstn (Z.to_nat 1)
            ([model] ++ serial ++ devtime ++ [x00; x00; x00; x00] ++ rest))
    with [model].
  change (skipn (Z.to_nat 1)
            ([model] ++ serial ++ devtime ++ [x00; x00; x00; x00] ++ rest))
    with (serial ++ devtime ++ [x00; x00; x00; x00] ++ rest).
  rewrite transfer_quiet;
    [|unfold size_of; cbn [length]; lia|reflexivity
     |rewrite !FrameProofs.size_of_concat; unfold size_of at 3; cbn [length];
      lia].
  rewrite (FrameProofs.firstn_exact serial) by (unfold size_of in *; lia).
  rewrite (FrameProofs.skipn_exact serial) by (unfold size_of in *; lia).
  rewrite transfer_quiet;
    [|unfold size_of; cbn [length]; lia|reflexivity
     |rewrite !FrameProofs.size_of_concat; unfold size_of at 2; cbn [length];
      lia].
  rewrite (FrameProofs.firstn_exact devtime) by (unfold size_of in *; lia).
  rewrite (FrameProofs.skipn_exact devtime) by (unfold size_of in *; lia).
  rewrite Hdv, Hsv. cbn [timestamp nth]. fold ts.
  rewrite transfer_quiet;
    [|unfold dump_command, size_of; cbn [length]; lia|reflexivity
     |rewrite !FrameProofs.size_of_concat; unfold size_of at 1; cbn [length];
      lia].
  change (firstn (Z.to_nat 4) ([x00; x00; x00; x00] ++ rest))
    with [x00; x00; x00; x00].
  change (skipn (Z.to_nat 4) ([x00; x00; x00; x00] ++ rest)) with rest.
  change (array_uint32_le [x00; x00; x00; x00]) with (Some 0).
  cbv iota. change (0 =? 0) with true. cbv iota.
  eexists. exists dv. eexists.
  split; [reflexivity|]. split; [reflexivity|].
  cbn [dl_result dl_data dl_line dl_events arriving sent].
  split; [reflexivity|]. split; [reflexivity|]. split; [reflexivity|].
  split.
  - change (firstn (Z.to_nat 1) [x10]) with [x10].
    change (firstn (Z.to_nat 1) [x14]) with [x14].
    change (firstn (Z.to_nat 1) [x1a]) with [x1a].
    change (firstn (Z.to_nat 9) (dump_command xc6 ts))
      with (dump_command xc6 ts).
    rewrite <- !app_assoc. reflexivity.
  - cbn [negb]. change (u32 (4 + 9 + 0)) with 13.
    assert (E13 : u32 (u32 (progress_initial + 9) + 4)
                  = u32 (progress_initial + 13)).
    { unfold u32. change (2 ^ 32) with 4294967296.
      Z.div_mod_to_equations. lia. }
    rewrite E13. reflexivity.
Qed.

(** X20.  [uwatec_smart_device_foreach] is the download followed by the
    extraction.  On a line as in [smart_dump_delivers_the_data], the
    consumer is called exactly as [uwatec_smart_extract_dives] calls it on
    the data received, and the status and the user data are those of the
    extraction. *)
Theorem smart_foreach_extracts_the_download :
  forall (U : Type) (device : uwatec_smart_device_t) (now : Z) (l : line)
         (callback : option (dc_dive_callback_t U)) (u : U) (model : byte)
         (serial devtime payload rest : list byte) (len : Z),
    arriving l
    = [model] ++ serial ++ devtime ++ uint32_le_bytes len
      ++ uint32_le_bytes (len + 4) ++ payload ++ rest ->
    size_of serial = 4 -> size_of devtime = 4 -> size_of payload = len ->
    0 < len -> len + 32 < 2 ^ 32 ->
    write_script l = [] -> read_script l = [] ->
    sane_reports len l = true ->
    exists v r dv,
      uwatec_smart_device_foreach progress_initial progress_maximum U device
        now true true l callback u = Some v
      /\ array_uint32_le devtime = Some dv
      /\ uwatec_smart_extract_dives U
           (Some (SmartDevice (mk_smart (timestamp device) dv now))) payload
           callback u = Some r
      /\ visit_result U v = UwatecSmart.result U r
      /\ visit_calls U v = UwatecSmart.calls U r
      /\ visit_userdata U v = UwatecSmart.userdata U r
      /\ visit_device U v = mk_smart (timestamp device) dv now
      /\ arriving (visit_line U v) = rest.
Proof.
  intros U device now l callback u model serial devtime payload rest len
    Harr Hs Hd Hp Hlen Hsmall Hw Hr Hsane.
  destruct (smart_dump_on_good_line device now [] l model serial devtime
              payload rest len Harr Hs Hd Hp Hlen Hsmall Hw Hr Hsane)
    as (d & sv & dv & before & Hdump & _ & Hdv & Hres & Hdata & Harrd & _).
  destruct (SmartProofs.search_loop_spec U
              (S (Z.to_nat (if size_of payload >=? 4 then size_of payload - 4
                            else 0)))
              payload callback (size_of payload)
              (if size_of payload >=? 4 then size_of payload - 4 else 0) u [])
    as (r & new & Hrun & _).
  { destruct (size_of payload >=? 4) eqn:E; lia. }
  { destruct (size_of payload >=? 4) eqn:E; lia. }
  assert (Hext : uwatec_smart_extract_dives U
                   (Some (SmartDevice (mk_smart (timestamp device) dv now)))
                   payload callback u = Some r).
  { unfold uwatec_smart_extract_dives. cbn [ISINSTANCE negb]. exact Hrun. }
  unfold uwatec_smart_device_foreach. cbn [negb].
  rewrite Hdump. cbn [dumped_download dumped_device].
  rewrite Hres, Hdata, Hext.
  eexists. exists r, dv. split; [reflexivity|].
  cbn [visit_result visit_calls visit_userdata visit_device visit_line].
  repeat split; try reflexivity; assumption.
Qed.

End WithInitializer.

End SmartDumpProofs.

(** ** What the socket transfers count *)

Module SocketMoreProofs.

Import ArrayFacts.
Import Socket.

Lemma syserror_not_success (e : s_errcode_t) :
  dc_socket_syserror e <> DC_STATUS_SUCCESS.
Proof. destruct e; discriminate. Qed.

Lemma read_pass_moved (socket : dc_socket_t) (size nbytes : Z)
    (t : turn (list byte)) (bs : list byte) :
  read_pass socket size nbytes t = Moved bs ->
  0 < size_of bs <= size - nbytes.
Proof.
  unfold read_pass.
  destruct (select (ready t) (read_wait socket)) as [[e| |]|];
    try discriminate; [destruct e; discriminate|].
  destruct (moves t) as [e|got]; cbn [recv];
    [destruct e; discriminate|].
  destruct (firstn (Z.to_nat (size - nbytes)) got) as [|b bs'] eqn:E;
    [discriminate|].
  intros H. injection H as <-.
  assert (Hl : (length (b :: bs') <= Z.to_nat (size - nbytes))%nat)
    by (rewrite <- E; apply firstn_le_length).
  unfold size_of. cbn [length] in *. lia.
Qed.

Lemma read_pass_fail (socket : dc_socket_t) (size nbytes : Z)
    (t : turn (list byte)) (st : dc_status_t) :
  read_pass socket size nbytes t = Fail st -> st <> DC_STATUS_SUCCESS.
Proof.
  unfold read_pass.
  destruct (select (ready t) (read_wait socket)) as [[e| |]|];
    try discriminate.
  - destruct e; try discriminate; intros H; injection H as <-; discriminate.
  - destruct (recv (moves t) (size - nbytes)) as [e|[|b bs]];
      try discriminate.
    destruct e; try discriminate; intros H; injection H as <-; discriminate.
Qed.

(** What holds of a run of the read loop that is entered with [nbytes]
    bytes in [data]. *)
Definition read_counted (want_actual : bool) (size : Z) (data : list byte)
    (budget : nat) (r : run) : Prop :=
  size_of (moved r) <= size
  /\ (result r = Returns DC_STATUS_SUCCESS <-> size_of (moved r) = size)
  /\ (result r <> Hangs ->
      actual_out r
      = if want_actual then Some (size_of (moved r)) else None)
  /\ (exists more, moved r = data ++ more)
  /\ (length (waits r) <= budget)%nat.

Lemma finish_counted (want_actual : bool) (size nbytes : Z)
    (data : list byte) (ws : list (option timeval))
    (jumped : option dc_status_t) (budget : nat) :
  nbytes = size_of data -> nbytes <= size ->
  (forall st, jumped = Some st -> st <> DC_STATUS_SUCCESS /\ nbytes < size) ->
  (length ws <= budget)%nat ->
  read_counted want_actual size data budget
    (finish want_actual size nbytes data ws jumped).
Proof.
  intros Hn Hle Hj Hb. unfold read_counted, finish.
  cbn [moved result actual_out waits]. rewrite <- Hn.
  split; [exact Hle|]. split; [|split; [|split]].
  - destruct jumped as [st|].
    + destruct (Hj st eq_refl) as [Hst Hlt]. split.
      * intros E. injection E as E. contradiction.
      * intros E. lia.
    + destruct (nbytes =? size) eqn:E; cbn [negb]; split; intros H;
        try reflexivity; try discriminate; lia.
  - intros _. reflexivity.
  - exists []. rewrite app_nil_r. reflexivity.
  - exact Hb.
Qed.

Lemma hangs_counted (want_actual : bool) (size : Z) (data : list byte)
    (ws : list (option timeval)) (budget : nat) :
  size_of data < size -> (length ws <= budget)%nat ->
  read_counted want_actual size data budget (mk_run Hangs None data ws).
Proof.
  intros Hlt Hb. unfold read_counted. cbn [moved result actual_out waits].
  split; [lia|]. split; [|split; [|split]].
  - split; [discriminate|lia].
  - intros H. contradiction.
  - exists []. rewrite app_nil_r. reflexivity.
  - exact Hb.
Qed.

Lemma read_loop_counted (socket : dc_socket_t) (want_actual : bool)
    (size : Z) (script : list (turn (list byte))) :
  forall (nbytes : Z) (data : list byte) (ws : list (option timeval)),
    nbytes = size_of data -> nbytes <= size ->
    read_counted want_actual size data (length ws + S (length script))
      (read_loop socket want_actual size script nbytes data ws).
Proof.
  induction script as [|t script IH]; intros nbytes data ws Hn Hle.
  - cbn [read_loop]. destruct (nbytes <? size) eqn:Elt.
    + apply Z.ltb_lt in Elt.
      destruct (read_pass socket size nbytes (quiet [])) as [| bs | | st |]
        eqn:Ep;
        try (apply hangs_counted; [lia|rewrite length_app; cbn [length]; lia]).
      * apply finish_counted; try assumption;
          [discriminate|rewrite length_app; cbn [length]; lia].
      * apply finish_counted; try assumption;
          [|rewrite length_app; cbn [length]; lia].
        intros st0 E. injection E as <-.
        split; [eapply read_pass_fail; exact Ep|exact Elt].
    + apply finish_counted; try assumption; [discriminate|lia].
  - cbn [read_loop]. destruct (nbytes <? size) eqn:Elt.
    + apply Z.ltb_lt in Elt.
      destruct (read_pass socket size nbytes t) as [| bs | | st |] eqn:Ep.
      * specialize (IH nbytes data (ws ++ [read_wait socket]) Hn Hle).
        rewrite length_app in IH. cbn [length] in *.
        replace (length ws + S (S (length script)))%nat
          with (length ws + 1 + S (length script))%nat by lia.
        exact IH.
      * destruct (read_pass_moved _ _ _ _ _ Ep) as [Hpos Hfit].
        specialize (IH (nbytes + size_of bs) (data ++ bs)
                      (ws ++ [read_wait socket])).
        rewrite length_app in IH. cbn [length] in *.
        replace (length ws + S (S (length script)))%nat
          with (length ws + 1 + S (length script))%nat by lia.
        destruct IH as (H1 & H2 & H3 & (more & H4) & H5).
        { unfold size_of. rewrite length_app. unfold size_of in Hn. lia. }
        { lia. }
        split; [exact H1|]. split; [exact H2|]. split; [exact H3|].
        split; [|exact H5].
        exists (bs ++ more). rewrite H4, <- app_assoc. reflexivity.
      * apply finish_counted; try assumption;
          [discriminate|rewrite length_app; cbn [length]; lia].
      * apply finish_counted; try assumption;
          [|rewrite length_app; cbn [length]; lia].
        intros st0 E. injection E as <-.
        split; [eapply read_pass_fail; exact Ep|exact Elt].
      * apply hangs_counted; [lia|rewrite length_app; cbn [length]; lia].
    + apply finish_counted; try assumption; [discriminate|cbn [length]; lia].
Qed.

(** X21.  What [dc_socket_read] counts.  Whatever the peer does, the read
    never receives more than [size] bytes; it reports success exactly when
    it received [size] bytes; when it returns, the value stored through
    [actual] is the number of bytes received; and it waits at most once per
    turn of the peer and once more. *)
Theorem socket_read_counts_what_it_received :
  forall (socket : dc_socket_t) (size : Z) (want_actual : bool)
         (script : list (turn (list byte))),
    0 <= size ->
    let r := dc_socket_read socket size want_actual script in
    size_of (moved r) <= size
    /\ (result r = Returns DC_STATUS_SUCCESS <-> size_of (moved r) = size)
    /\ (result r <> Hangs ->
        actual_out r
        = if want_actual then Some (size_of (moved r)) else None)
    /\ (length (waits r) <= S (length script))%nat.
Proof.
  intros socket size want_actual script Hs r. subst r.
  unfold dc_socket_read.
  destruct (read_loop_counted socket want_actual size script 0 [] []
              eq_refl Hs) as (H1 & H2 & H3 & _ & H5).
  cbn [length Nat.add] in H5. auto.
Qed.

Lemma write_pass_moved (socket : dc_socket_t) (size nbytes : Z)
    (t : turn nat) (n : Z) :
  nbytes < size ->
  write_pass socket size nbytes t = Moved n -> 0 < n <= size - nbytes.
Proof.
  intros Hlt. unfold write_pass.
  destruct (select (ready t) (write_wait socket)) as [[e| |]|];
    try discriminate; [destruct e; discriminate|].
  destruct (moves t) as [e|room]; cbn [send];
    [destruct e; discriminate|].
  destruct (Z.min (Z.of_nat room) (size - nbytes) =? 0) eqn:E;
    [discriminate|].
  intros H. injection H as <-. lia.
Qed.

Lemma write_pass_fail (socket : dc_socket_t) (size nbytes : Z)
    (t : turn nat) (st : dc_status_t) :
  write_pass socket size nbytes t = Fail st -> st <> DC_STATUS_SUCCESS.
Proof.
  unfold write_pass.
  destruct (select (ready t) (write_wait socket)) as [[e| |]|];
    try discriminate.
  - destruct e; try discriminate; intros H; injection H as <-; discriminate.
  - destruct (send (moves t) (size - nbytes)) as [e|n].
    + destruct e; try discriminate; intros H; injection H as <-;
        discriminate.
    + destruct (n =? 0); discriminate.
Qed.

(** What holds of a run of the write loop. *)
Definition write_counted (want_actual : bool) (data : list byte)
    (budget : nat) (r : run) : Prop :=
  moved r = firstn (length (moved r)) data
  /\ (result r = Returns DC_STATUS_SUCCESS <-> moved r = data)
  /\ (result r <> Hangs ->
      actual_out r
      = if want_actual then Some (size_of (moved r)) else None)
  /\ (length (waits r) <= budget)%nat.

Lemma sent_prefix (data : list byte) (nbytes : Z) :
  0 <= nbytes <= size_of data ->
  size_of (firstn (Z.to_nat nbytes) data) = nbytes
  /\ firstn (Z.to_nat nbytes) data
     = firstn (length (firstn (Z.to_nat nbytes) data)) data
  /\ (firstn (Z.to_nat nbytes) data = data <-> nbytes = size_of data).
Proof.
  intros H. unfold size_of in *.
  assert (Hl : length (firstn (Z.to_nat nbytes) data) = Z.to_nat nbytes)
    by (rewrite length_firstn; lia).
  split; [lia|]. split; [rewrite Hl; reflexivity|].
  split.
  - intros E. rewrite E in Hl. lia.
  - intros E. apply firstn_all2. lia.
Qed.

Lemma write_finish_counted (want_actual : bool) (data : list byte)
    (nbytes : Z) (ws : list (option timeval)) (jumped : option dc_status_t)
    (budget : nat) :
  0 <= nbytes <= size_of data ->
  (forall st, jumped = Some st ->
              st <> DC_STATUS_SUCCESS /\ nbytes < size_of data) ->
  (length ws <= budget)%nat ->
  write_counted want_actual data budget
    (finish want_actual (size_of data) nbytes
       (firstn (Z.to_nat nbytes) data) ws jumped).
Proof.
  intros Hn Hj Hb. destruct (sent_prefix data nbytes Hn) as (Hs & Hp & Hall).
  unfold write_counted, finish. cbn [moved result actual_out waits].
  split; [exact Hp|]. split; [|split].
  - destruct jumped as [st|].
    + destruct (Hj st eq_refl) as [Hst Hlt]. split.
      * intros E. injection E as E. contradiction.
      * intros E. apply Hall in E. lia.
    + destruct (nbytes =? size_of data) eqn:E; cbn [negb]; split; intros H;
        try reflexivity; try discriminate.
      * apply Hall. lia.
      * apply Hall in H. lia.
  - intros _. rewrite Hs. reflexivity.
  - exact Hb.
Qed.

Lemma write_hangs_counted (want_actual : bool) (data : list byte)
    (nbytes : Z) (ws : list (option timeval)) (budget : nat) :
  0 <= nbytes < size_of data -> (length ws <= budget)%nat ->
  write_counted want_actual data budget
    (mk_run Hangs None (firstn (Z.to_nat nbytes) data) ws).
Proof.
  intros Hn Hb.
  destruct (sent_prefix data nbytes ltac:(lia)) as (Hs & Hp & Hall).
  unfold write_counted. cbn [moved result actual_out waits].
  split; [exact Hp|]. split; [|split].
  - split; [discriminate|]. intros E. apply Hall in E. lia.
  - intros H. contradiction.
  - exact Hb.
Qed.

Lemma write_loop_counted (socket : dc_socket_t) (want_actual : bool)
    (data : list byte) (script : list (turn nat)) :
  forall (nbytes : Z) (ws : list (option timeval)),
    0 <= nbytes <= size_of data ->
    write_counted want_actual data (length ws + S (length script))
      (write_loop socket want_actual data script nbytes ws).
Proof.
  induction script as [|t script IH]; intros nbytes ws Hn.
  - cbn [write_loop]. destruct (nbytes <? size_of data) eqn:Elt.
    + apply Z.ltb_lt in Elt.
      destruct (write_pass socket (size_of data) nbytes (quiet O))
        as [| n | | st |] eqn:Ep;
        try (apply write_hangs_counted;
             [lia|rewrite length_app; cbn [length]; lia]).
      * apply write_finish_counted; try assumption;
          [discriminate|rewrite length_app; cbn [length]; lia].
      * apply write_finish_counted; try assumption;
          [|rewrite length_app; cbn [length]; lia].
        intros st0 E. injection E as <-.
        split; [eapply write_pass_fail; exact Ep|exact Elt].
    + apply write_finish_counted; try assumption; [discriminate|lia].
  - cbn [write_loop]. destruct (nbytes <? size_of data) eqn:Elt.
    + apply Z.ltb_lt in Elt.
      destruct (write_pass socket (size_of data) nbytes t)
        as [| n | | st |] eqn:Ep.
      * specialize (IH nbytes (ws ++ [write_wait socket]) Hn).
        rewrite length_app in IH. cbn [length] in *.
        replace (length ws + S (S (length script)))%nat
          with (length ws + 1 + S (length script))%nat by lia.
        exact IH.
      * destruct (write_pass_moved _ _ _ _ _ Elt Ep) as [Hpos Hfit].
        specialize (IH (nbytes + n) (ws ++ [write_wait socket])).
        rewrite length_app in IH. cbn [length] in *.
        replace (length ws + S (S (length script)))%nat
          with (length ws + 1 + S (length script))%nat by lia.
        apply IH. lia.
      * apply write_finish_counted; try assumption;
          [discriminate|rewrite length_app; cbn [length]; lia].
      * apply write_finish_counted; try assumption;
          [|rewrite length_app; cbn [length]; lia].
        intros st0 E. injection E as <-.
        split; [eapply write_pass_fail; exact Ep|exact Elt].
      * apply write_hangs_counted;
          [lia|rewrite length_app; cbn [length]; lia].
    + apply write_finish_counted; try assumption;
        [discriminate|cbn [length]; lia].
Qed.

(** X22.  What [dc_socket_write] counts.  Whatever the peer does, the bytes
    sent are a prefix of [data]; the write reports success exactly when all
    of [data] was sent; when it returns, the value stored through [actual]
    is the number of bytes sent; and it waits at most once per turn of the
    peer and once more. *)
Theorem socket_write_counts_what_it_sent :
  forall (socket : dc_socket_t) (data : list byte) (want_actual : bool)
         (script : list (turn nat)),
    let r := dc_socket_write socket data want_actual script in
    moved r = firstn (length (moved r)) data
    /\ (result r = Returns DC_STATUS_SUCCESS <-> moved r = data)
    /\ (result r <> Hangs ->
        actual_out r
        = if want_actual then Some (size_of (moved r)) else None)
    /\ (length (waits r) <= S (length script))%nat.
Proof.
  intros socket data want_actual script r. subst r.
  unfold dc_socket_write.
  pose proof (size_of_nonneg data) as Hs.
  destruct (write_loop_counted socket want_actual data script 0 []
              ltac:(lia)) as (H1 & H2 & H3 & H5).
  cbn [length Nat.add] in H5. auto.
Qed.

End SocketMoreProofs.

(** ** Opening a device: what is held afterwards *)

Module OpeningProofs.

Import CressiLeonardo Line Opening.

Lemma name_eqb_refl (n : option String.string) : name_eqb n n = true.
Proof. destruct n as [s|]; [apply String.eqb_refl|reflexivity]. Qed.

Lemma resource_eqb_refl (r : resource) : resource_eqb r r = true.
Proof.
  destruct r; cbn [resource_eqb];
    [reflexivity|apply name_eqb_refl|reflexivity|apply Nat.eqb_refl
    |apply Z.eqb_refl].
Qed.

Lemma balance_asks (name : option String.string) (cs : list serial_call)
    (t : list event) :
  balance [Device; Port name] (asks cs ++ t)
  = balance [Device; Port name] t.
Proof.
  induction cs as [|c cs IH]; [reflexivity|].
  cbn [asks map app balance existsb is_port orb]. exact IH.
Qed.

(** The port is opened, asked and closed, and the handle given back. *)
Lemma balance_closed (name : option String.string) (cs : list serial_call) :
  balance []
    ([Acquire Device; Acquire (Port name)] ++ asks cs
     ++ [Release (Port name); Release Device]) = Some [].
Proof.
  cbn [app balance existsb resource_eqb orb].
  rewrite balance_asks.
  cbn [balance existsb resource_eqb orb filter negb].
  rewrite name_eqb_refl. cbn [orb negb filter balance existsb resource_eqb].
  reflexivity.
Qed.

Tactic Notation "first_success" int_or_var(n) :=
  intros j Hj;
  do n (destruct j as [|j]; [reflexivity|]);
  exfalso; lia.

Tactic Notation "failing" int_or_var(n) constr(i) constr(cs) :=
  split;
  [ intros H; discriminate H
  | intros _; split; [reflexivity|]; split;
    [ exact (balance_closed _ cs)
    | intros _ _; exists i; split; [lia|]; split;
      [reflexivity|first_success n] ] ].

(** X23.  [cressi_leonardo_device_open] gives all or nothing.  When it
    succeeds, every checked call on the serial port succeeded, the handle
    carries an empty fingerprint, and the port has been opened, set to
    115200 8N1 with a timeout of 1000 ms, had RTS set, DTR set and cleared
    after 200 ms, and was purged after another 100 ms, in this order.  When
    it fails, there is no handle, and what had been taken was given back:
    the port closed if it had been opened, then the memory of the handle;
    the status is that of the first call that failed. *)
Theorem leonardo_open_all_or_nothing :
  forall (out_given alloc_ok : bool) (name : option String.string)
         (script : list dc_status_t),
    let r := cressi_leonardo_device_open out_given alloc_ok name script in
    (lo_result r = DC_STATUS_SUCCESS ->
     lo_device r = Some (mk_leonardo (memset x00 SZ_FINGERPRINT))
     /\ lo_trace r
        = [Acquire Device; Acquire (Port name);
           Ask (Configure 115200 8 DC_PARITY_NONE DC_STOPBITS_ONE
                  DC_FLOWCONTROL_NONE);
           Ask (SetTimeout 1000); Ask (SetRts 1); Ask (SetDtr 1);
           Ask (Sleep 200); Ask (SetDtr 0); Ask (Sleep 100);
           Ask (Purge DC_DIRECTION_ALL)]
     /\ (forall i, (i < 6)%nat -> answer script i = DC_STATUS_SUCCESS))
    /\ (lo_result r <> DC_STATUS_SUCCESS ->
        lo_device r = None
        /\ balance [] (lo_trace r) = Some []
        /\ (out_given = true -> alloc_ok = true ->
            exists i, (i < 6)%nat
              /\ lo_result r = answer script i
              /\ forall j, (j < i)%nat ->
                   answer script j = DC_STATUS_SUCCESS)).
Proof.
  intros out_given alloc_ok name script r. subst r.
  destruct out_given;
    [|split; [discriminate|intros _; repeat split; discriminate]].
  destruct alloc_ok;
    [|split; [discriminate|intros _; repeat split; discriminate]].
  destruct script as [|s0 script].
  { split; [intros _; repeat split; first_success 6
           |intros H; exfalso; apply H; reflexivity]. }
  destruct s0.
  2-12: split;
    [ intros H; discriminate H
    | intros _; split; [reflexivity|]; split;
      [ reflexivity
      | intros _ _; exists 0%nat; split; [lia|]; split;
        [reflexivity|first_success 0] ] ].
  destruct script as [|s1 script].
  { split; [intros _; repeat split; first_success 6
           |intros H; exfalso; apply H; reflexivity]. }
  destruct s1;
    try (failing 1 1%nat
           [Configure 115200 8 DC_PARITY_NONE DC_STOPBITS_ONE
              DC_FLOWCONTROL_NONE]; fail).
  destruct script as [|s2 script].
  { split; [intros _; repeat split; first_success 6
           |intros H; exfalso; apply H; reflexivity]. }
  destruct s2;
    try (failing 2 2%nat
           [Configure 115200 8 DC_PARITY_NONE DC_STOPBITS_ONE
              DC_FLOWCONTROL_NONE; SetTimeout 1000]; fail).
  destruct script as [|s3 script].
  { split; [intros _; repeat split; first_success 6
           |intros H; exfalso; apply H; reflexivity]. }
  destruct s3;
    try (failing 3 3%nat
           [Configure 115200 8 DC_PARITY_NONE DC_STOPBITS_ONE
              DC_FLOWCONTROL_NONE; SetTimeout 1000; SetRts 1]; fail).
  destruct script as [|s4 script].
  { split; [intros _; repeat split; first_success 6
           |intros H; exfalso; apply H; reflexivity]. }
  destruct s4;
    try (failing 4 4%nat
           [Configure 115200 8 DC_PARITY_NONE DC_STOPBITS_ONE
              DC_FLOWCONTROL_NONE; SetTimeout 1000; SetRts 1; SetDtr 1];
         fail).
  destruct script as [|s5 script].
  { split; [intros _; repeat split; first_success 6
           |intros H; exfalso; apply H; reflexivity]. }
  destruct s5;
    try (failing 5 5%nat
           [Configure 115200 8 DC_PARITY_NONE DC_STOPBITS_ONE
              DC_FLOWCONTROL_NONE; SetTimeout 1000; SetRts 1; SetDtr 1;
              Sleep 200; SetDtr 0]; fail).
  split; [intros _; repeat split; first_success 6
         |intros H; exfalso; apply H; reflexivity].
Qed.

Lemma passed_S (k n : nat) :
  passed k (S n) = Acquire (Entry k) :: Release (Entry k) :: passed (S k) n.
Proof. reflexivity. Qed.

(** The enumeration stops at the first entry that passes the filter. *)
Lemma enumerate_spec (found : list dc_irda_device_t) :
  forall (k : nat) (t : list event),
    match first_match found with
    | Some dev =>
        exists j,
          nth_error found j = Some dev
          /\ uwatec_smart_filter (irda_name dev) = true
          /\ (forall i d, (i < j)%nat -> nth_error found i = Some d ->
                uwatec_smart_filter (irda_name d) = false)
          /\ enumerate found k t
             = Picked (k + j) dev
                 (t ++ passed k j ++ [Acquire (Entry (k + j))])
    | None =>
        enumerate found k t = Exhausted (t ++ passed k (length found))
    end.
Proof.
  induction found as [|d found IH]; intros k t.
  - cbn [first_match find enumerate length]. unfold passed.
    cbn [seq flat_map]. rewrite app_nil_r. reflexivity.
  - unfold first_match in *. cbn [find enumerate].
    destruct (uwatec_smart_filter (irda_name d)) eqn:Ed.
    + exists 0%nat. split; [reflexivity|]. split; [exact Ed|].
      split; [intros i d' Hi; lia|].
      rewrite Nat.add_0_r. reflexivity.
    + specialize (IH (S k)
                    ((t ++ [Acquire (Entry k)]) ++ [Release (Entry k)])).
      destruct (find (fun d0 => uwatec_smart_filter (irda_name d0)) found)
        as [dev|].
      * destruct IH as (j & Hn & Hf & Hbefore & He).
        exists (S j). split; [exact Hn|]. split; [exact Hf|].
        split.
        { intros i d' Hi Hd'. destruct i as [|i].
          - cbn [nth_error] in Hd'. injection Hd' as <-. exact Ed.
          - cbn [nth_error] in Hd'. apply (Hbefore i d'); [lia|exact Hd']. }
        rewrite He, passed_S, <- !app_assoc.
        replace (S k + j)%nat with (k + S j)%nat by lia. reflexivity.
      * rewrite IH. cbn [length]. rewrite passed_S, <- !app_assoc.
        reflexivity.
Qed.

Lemma existsb_entry (k : nat) (held : list resource) :
  (forall r, In r held -> resource_eqb (Entry k) r = false) ->
  existsb (resource_eqb (Entry k)) held = false.
Proof.
  intros H. induction held as [|r held IH]; [reflexivity|].
  cbn [existsb]. rewrite (H r) by (left; reflexivity).
  cbn [orb]. apply IH. intros r' Hr'. apply H. right. exact Hr'.
Qed.

(** Entries that are taken and given back leave what is held as it was. *)
Lemma balance_passed (t : list event) :
  forall (n k : nat),
    balance [Device; Iterator] (passed k n ++ t)
    = balance [Device; Iterator] t.
Proof.
  induction n as [|n IH]; intros k; [reflexivity|].
  rewrite passed_S.
  cbn [app balance existsb resource_eqb orb filter negb Nat.eqb].
  rewrite Nat.eqb_refl. cbn [orb negb filter]. apply IH.
Qed.

Lemma balance_enumeration (n k : nat) (t : list event) :
  balance [] (([Acquire Device] ++ [Acquire Iterator]) ++ passed k n ++ t)
  = balance [Device; Iterator] t.
Proof.
  cbn [app balance existsb resource_eqb orb]. apply balance_passed.
Qed.

(** X24.  Which entry [uwatec_smart_device_open] connects to.  The open
    succeeds exactly when [out] is given, the handle and the iterator can be
    created, an entry of the enumeration passes [uwatec_smart_filter], the
    socket opens and the handshake succeeds; the entry is the first one that
    passes the filter, the socket is opened to its address, and the handle
    starts with a timestamp of 0.  When no entry passes, the result is
    [NoDevice] at the end of the enumeration and the error of the iterator
    otherwise. *)
Theorem smart_open_connects_to_first_match :
  forall (out_given alloc_ok : bool) (iterator_rc : dc_status_t)
         (found : list dc_irda_device_t) (stop open_rc : dc_status_t)
         (l : line),
    let r := uwatec_smart_device_open out_given alloc_ok iterator_rc found
               stop open_rc l in
    (so_result r = Returns DC_STATUS_SUCCESS <->
     out_given = true /\ alloc_ok = true
     /\ iterator_rc = DC_STATUS_SUCCESS
     /\ first_match found <> None
     /\ open_rc = DC_STATUS_SUCCESS
     /\ fst (SmartDump.uwatec_smart_handshake l) = Returns DC_STATUS_SUCCESS)
    /\ (so_result r = Returns DC_STATUS_SUCCESS ->
        exists dev,
          first_match found = Some dev
          /\ In (Acquire (Stream (irda_address dev))) (so_trace r)
          /\ (forall a, In (Acquire (Stream a)) (so_trace r) ->
                a = irda_address dev)
          /\ so_device r = Some (mk_smart 0 0 (-1))
          /\ so_line r = snd (SmartDump.uwatec_smart_handshake l))
    /\ (out_given = true -> alloc_ok = true ->
        iterator_rc = DC_STATUS_SUCCESS -> first_match found = None ->
        stop <> DC_STATUS_SUCCESS ->
        so_result r
        = Returns (if status_eqb stop DC_STATUS_DONE
                   then DC_STATUS_NODEVICE else stop)).
Proof.
  intros out_given alloc_ok iterator_rc found stop open_rc l r. subst r.
  unfold uwatec_smart_device_open.
  destruct out_given; cbn [negb];
    [|cbn [so_result]; split; [split; [discriminate|intros (H & _);
                                                      discriminate H]|];
      split; [discriminate|intros H; discriminate H]].
  destruct alloc_ok; cbn [negb];
    [|cbn [so_result]; split; [split; [discriminate|intros (_ & H & _);
                                                      discriminate H]|];
      split; [discriminate|intros _ H; discriminate H]].
  destruct (status_eqb iterator_rc DC_STATUS_SUCCESS) eqn:Eit; cbn [negb].
  2:{ cbn [so_result].
      assert (Hne : iterator_rc <> DC_STATUS_SUCCESS)
        by (intros ->; discriminate Eit).
      split; [split; [intros H; injection H as H; contradiction
                     |intros (_ & _ & H & _); contradiction]|].
      split; [intros H; injection H as H; contradiction
             |intros _ _ H; contradiction]. }
  assert (Hit : iterator_rc = DC_STATUS_SUCCESS)
    by (destruct iterator_rc; try discriminate Eit; reflexivity).
  pose proof (enumerate_spec found 0 ([Acquire Device] ++ [Acquire Iterator]))
    as He.
  destruct (first_match found) as [dev|] eqn:Ef.
  - destruct He as (j & Hn & Hf & Hbefore & He). rewrite He.
    destruct (status_eqb open_rc DC_STATUS_SUCCESS) eqn:Eop; cbn [negb].
    2:{ cbn [so_result].
        assert (Hne : open_rc <> DC_STATUS_SUCCESS)
          by (intros ->; discriminate Eop).
        split; [split; [intros H; injection H as H; contradiction
                       |intros (_ & _ & _ & _ & H & _); contradiction]|].
        split; [intros H; injection H as H; contradiction
               |intros _ _ _ H; discriminate H]. }
    assert (Hop : open_rc = DC_STATUS_SUCCESS)
      by (destruct open_rc; try discriminate Eop; reflexivity).
    destruct (SmartDump.uwatec_smart_handshake l) as [o l'] eqn:Eh.
    cbn [fst snd].
    destruct o as [rc| |]; [destruct rc|..];
      cbn [so_result so_device so_trace so_line];
      try (split; [split; [discriminate
                          |intros (_ & _ & _ & _ & _ & H); discriminate H]|];
           split; [discriminate|intros _ _ _ H; discriminate H]).
    {
      cbn [so_result so_device so_trace so_line].
      split; [split; [intros _; repeat split; try assumption; discriminate
                     |reflexivity]|].
      split; [|intros _ _ _ H; discriminate H].
      intros _. exists dev. split; [reflexivity|].
      split; [apply in_or_app; right; left; reflexivity|].
      split; [|split; reflexivity].
      intros a Ha.
      apply in_app_or in Ha. destruct Ha as [Ha|[Ha|[]]];
        [|injection Ha as <-; reflexivity].
      exfalso. apply in_app_or in Ha. destruct Ha as [[Ha|[Ha|[]]]|Ha];
        try discriminate Ha.
      apply in_app_or in Ha. destruct Ha as [Ha|[Ha|[]]];
        [|discriminate Ha].
      unfold passed in Ha. apply in_flat_map in Ha.
      destruct Ha as (i & _ & [Ha|[Ha|[]]]); discriminate Ha. }
  - rewrite He.
    assert (Hres : stop <> DC_STATUS_SUCCESS ->
              so_result
                (if status_eqb stop DC_STATUS_SUCCESS
                 then mk_smart_opened Fault None
                        (([Acquire Device] ++ [Acquire Iterator])
                         ++ passed 0 (length found)) l
                 else if status_eqb stop DC_STATUS_DONE
                 then mk_smart_opened (Returns DC_STATUS_NODEVICE) None
                        (((([Acquire Device] ++ [Acquire Iterator])
                           ++ passed 0 (length found))
                          ++ [Release Iterator]) ++ [Release Device]) l
                 else mk_smart_opened (Returns stop) None
                        (((([Acquire Device] ++ [Acquire Iterator])
                           ++ passed 0 (length found))
                          ++ [Release Iterator]) ++ [Release Device]) l)
              = Returns (if status_eqb stop DC_STATUS_DONE
                         then DC_STATUS_NODEVICE else stop)).
    { intros Hs. destruct stop; try reflexivity. contradiction. }
    split; [split|split].
    + intros H. exfalso.
      destruct stop; cbn [status_eqb so_result] in H; discriminate H.
    + intros (_ & _ & _ & H & _). contradiction.
    + intros H. exfalso.
      destruct stop; cbn [status_eqb so_result] in H; discriminate H.
    + intros _ _ _ _ Hs. exact (Hres Hs).
Qed.

(** X25.  What [uwatec_smart_device_open] holds when it returns.  When it
    fails there is no handle and everything it had taken has been given
    back, each thing once: the socket, the entry, the iterator and the
    memory of the handle, in this order.  When it succeeds it still holds,
    besides the handle and the socket, the iterator and the entry it
    connected to: neither is given back.  The entries before that one have
    been given back. *)
Theorem smart_open_holds_or_releases :
  forall (out_given alloc_ok : bool) (iterator_rc : dc_status_t)
         (found : list dc_irda_device_t) (stop open_rc : dc_status_t)
         (l : line),
    stop <> DC_STATUS_SUCCESS ->
    let r := uwatec_smart_device_open out_given alloc_ok iterator_rc found
               stop open_rc l in
    (so_result r <> Returns DC_STATUS_SUCCESS ->
     so_device r = None /\ balance [] (so_trace r) = Some [])
    /\ (so_result r = Returns DC_STATUS_SUCCESS ->
        exists k dev,
          nth_error found k = Some dev
          /\ first_match found = Some dev
          /\ balance [] (so_trace r)
             = Some [Device; Iterator; Entry k;
                     Stream (irda_address dev)]).
Proof.
  intros out_given alloc_ok iterator_rc found stop open_rc l Hstop r. subst r.
  unfold uwatec_smart_device_open.
  destruct out_given; cbn [negb];
    [|split; [intros _; split; reflexivity|discriminate]].
  destruct alloc_ok; cbn [negb];
    [|split; [intros _; split; reflexivity|discriminate]].
  destruct (status_eqb iterator_rc DC_STATUS_SUCCESS) eqn:Eit; cbn [negb].
  2:{ cbn [so_result so_device so_trace].
      split; [intros _; split; reflexivity|].
      intros H. injection H as ->. discriminate Eit. }
  pose proof (enumerate_spec found 0 ([Acquire Device] ++ [Acquire Iterator]))
    as He.
  destruct (first_match found) as [dev|] eqn:Ef.
  - destruct He as (j & Hn & Hf & Hbefore & He). rewrite He.
    cbn [Nat.add].
    destruct (status_eqb open_rc DC_STATUS_SUCCESS) eqn:Eop; cbn [negb].
    2:{ cbn [so_result so_device so_trace].
        split; [|intros H; injection H as ->; discriminate Eop].
        intros _. split; [reflexivity|].
        rewrite <- !app_assoc.
        rewrite (app_assoc [Acquire Device] [Acquire Iterator]).
        rewrite balance_enumeration.
        cbn [app balance existsb resource_eqb orb filter negb Nat.eqb].
        rewrite Nat.eqb_refl.
        cbn [orb negb filter balance existsb resource_eqb]. reflexivity. }
    destruct (SmartDump.uwatec_smart_handshake l) as [o l'] eqn:Eh.
    assert (Hheld :
              balance []
                ((([Acquire Device] ++ [Acquire Iterator])
                  ++ passed 0 j ++ [Acquire (Entry j)])
                 ++ [Acquire (Stream (irda_address dev))])
              = Some [Device; Iterator; Entry j; Stream (irda_address dev)]).
    { rewrite <- !app_assoc.
      rewrite (app_assoc [Acquire Device] [Acquire Iterator]).
      rewrite balance_enumeration. reflexivity. }
    assert (Hback :
              balance []
                ((((((([Acquire Device] ++ [Acquire Iterator])
                      ++ passed 0 j ++ [Acquire (Entry j)])
                     ++ [Acquire (Stream (irda_address dev))])
                    ++ [Release (Stream (irda_address dev))])
                   ++ [Release (Entry j)])
                  ++ [Release Iterator]) ++ [Release Device])
              = Some []).
    { rewrite <- !app_assoc.
      rewrite (app_assoc [Acquire Device] [Acquire Iterator]).
      rewrite balance_enumeration.
      cbn [app balance existsb resource_eqb orb filter negb Nat.eqb].
      repeat (rewrite ?Z.eqb_refl, ?Nat.eqb_refl;
              cbn [orb negb filter balance existsb resource_eqb]).
      reflexivity. }
    destruct o as [rc| |].
    + destruct rc; cbn [so_result so_device so_trace];
        try (split; [intros _; split; [reflexivity|exact Hback]
                    |discriminate]).
      split; [intros H; exfalso; apply H; reflexivity|].
      intros _. exists j, dev. split; [exact Hn|].
      split; [reflexivity|exact Hheld].
    + cbn [so_result so_device so_trace].
      split; [intros _; split; [reflexivity|exact Hback]|discriminate].
    + cbn [so_result so_device so_trace].
      split; [intros _; split; [reflexivity|exact Hback]|discriminate].
  - rewrite He.
    assert (Hback :
              balance []
                (((([Acquire Device] ++ [Acquire Iterator])
                   ++ passed 0 (length found))
                  ++ [Release Iterator]) ++ [Release Device]) = Some []).
    { rewrite <- !app_assoc.
      rewrite (app_assoc [Acquire Device] [Acquire Iterator]).
      rewrite balance_enumeration. reflexivity. }
    destruct stop; cbn [status_eqb so_result so_device so_trace];
      try (split; [intros _; split; [reflexivity|exact Hback]
                  |discriminate]).
    contradiction.
Qed.

Lemma tolower_idem (c : Ascii.ascii) : tolower (tolower c) = tolower c.
Proof.
  assert (H : forallb
                (fun n => Ascii.eqb
                            (tolower (tolower (Ascii.ascii_of_nat n)))
                            (tolower (Ascii.ascii_of_nat n)))
                (seq 0 256) = true) by (vm_compute; reflexivity).
  rewrite forallb_forall in H.
  specialize (H (Ascii.nat_of_ascii c)).
  rewrite Ascii.ascii_nat_embedding in H.
  apply Ascii.eqb_eq, H, in_seq.
  pose proof (Ascii.nat_ascii_bounded c). lia.
Qed.

Lemma strcasecmp_lower (a b : String.string) :
  strcasecmp_eq0 a b = String.eqb (lower a) (lower b).
Proof.
  revert b. induction a as [|x a IH]; intros [|y b]; try reflexivity.
  cbn [strcasecmp_eq0 lower String.eqb]. rewrite IH.
  destruct (Ascii.eqb (tolower x) (tolower y)); reflexivity.
Qed.

(** X26.  [uwatec_smart_filter] looks at a name only up to the case of its
    letters: two names that [strcasecmp] takes for equal are both accepted
    or both rejected; and a missing name is rejected. *)
Theorem smart_filter_ignores_case :
  forall (a b : String.string),
    (strcasecmp_eq0 a b = true ->
     uwatec_smart_filter (Some a) = uwatec_smart_filter (Some b))
    /\ uwatec_smart_filter None = false.
Proof.
  intros a b. split; [|reflexivity].
  intros H. rewrite strcasecmp_lower in H. apply String.eqb_eq in H.
  unfold uwatec_smart_filter.
  induction names as [|n ns IH]; [reflexivity|].
  cbn [existsb]. rewrite IH, !strcasecmp_lower, H. reflexivity.
Qed.

End OpeningProofs.

(** ** The theorems at concrete inputs *)

Module MoreExamples.

Import ArrayFacts.
Import CressiLeonardo Image ImageMore ProtocolMore Line FixturesLine.

(** The dive of [image_wrapped]: its profile lies across the end of the
    ring. *)
Lemma record_is_slot_then_ring_witness :
  let w := mk_walk nat 0 (RB_PROFILE_END - RB_PROFILE_BEGIN)
             Fixtures.scratch0 false O [] in
  exists (fl : flow) (w' : walk nat) (d : dive),
    walk_step nat None image_wrapped (Some Fixtures.counting) 0 0 w = (fl, w')
    /\ calls nat w' = calls nat w ++ [d]
    /\ dive_data d
       = slot_bytes image_wrapped (visited 0 0)
         ++ ring_read image_wrapped (31990 + 2)
              (Z.to_nat (RB_PROFILE_DISTANCE 31990 5180 - 2))
    /\ dive_fingerprint d = slot_ident image_wrapped (visited 0 0)
    /\ remaining nat w'
       = remaining nat w - (RB_PROFILE_DISTANCE 31990 5180 + 2).
Proof.
  apply (ContentProofs.record_is_slot_then_ring nat None image_wrapped
           Fixtures.counting 0 0
           (mk_walk nat 0 (RB_PROFILE_END - RB_PROFILE_BEGIN)
              Fixtures.scratch0 false O []) 31990 5180).
  - apply Z.leb_le. vm_compute. reflexivity.
  - split; [vm_compute; reflexivity|].
    split; apply Z.leb_le; vm_compute; reflexivity.
  - vm_compute. reflexivity.
  - vm_compute. reflexivity.
  - vm_compute. reflexivity.
  - vm_compute. reflexivity.
  - vm_compute. reflexivity.
  - vm_compute. discriminate.
  - apply Z.leb_le. vm_compute. reflexivity.
Defined.

(** The fingerprint of the newest dive of [image_567], set and used. *)
Lemma newest_fingerprint_stops_the_next_extraction_witness :
  exists (first : dive) (rest : list dive),
    dives nat
      (cressi_leonardo_extract_dives nat
         (Some (LeonardoDevice Fixtures.empty_fingerprint))
         (Some Fixtures.scratch0) Fixtures.image_567
         (Some Fixtures.counting) O) = first :: rest
    /\ cressi_leonardo_device_set_fingerprint Fixtures.empty_fingerprint
         (dive_fingerprint first)
       = (Returns DC_STATUS_SUCCESS, mk_leonardo (dive_fingerprint first))
    /\ cressi_leonardo_extract_dives nat
         (Some (LeonardoDevice (mk_leonardo (dive_fingerprint first))))
         (Some Fixtures.scratch0) Fixtures.image_567
         (Some Fixtures.counting) O
       = mk_run nat (Returns DC_STATUS_SUCCESS) [] O true.
Proof.
  assert (H : length
                (dives nat
                   (cressi_leonardo_extract_dives nat
                      (Some (LeonardoDevice Fixtures.empty_fingerprint))
                      (Some Fixtures.scratch0) Fixtures.image_567
                      (Some Fixtures.counting) O)) = 3%nat)
    by (vm_compute; reflexivity).
  destruct (dives nat
              (cressi_leonardo_extract_dives nat
                 (Some (LeonardoDevice Fixtures.empty_fingerprint))
                 (Some Fixtures.scratch0) Fixtures.image_567
                 (Some Fixtures.counting) O)) as [|first rest] eqn:E;
    [discriminate H|].
  exists first, rest. split; [reflexivity|].
  apply (RoundTripProofs.newest_fingerprint_stops_the_next_extraction nat
           Fixtures.image_567 Fixtures.scratch0 Fixtures.scratch0
           Fixtures.empty_fingerprint Fixtures.counting
           (Some Fixtures.counting) O O first rest).
  - apply Z.leb_le. vm_compute. reflexivity.
  - vm_compute. reflexivity.
  - vm_compute. reflexivity.
  - exact E.
Defined.

Lemma markers_of_smart_two (p : Z) :
  0 <= p -> SmartMore.marker_at Fixtures.smart_two p = true -> In p [12; 0].
Proof.
  intros Hp Hm.
  assert (Hb : p < 24).
  { destruct (Z.ltb_spec p 24) as [H|H]; [exact H|].
    unfold SmartMore.marker_at, ptr in Hm.
    rewrite skipn_all2 in Hm by (cbn [length Fixtures.smart_two]; lia).
    discriminate Hm. }
  assert (E : forallb (fun q => negb (SmartMore.marker_at Fixtures.smart_two q)
                                || (q =? 12) || (q =? 0))
                (map Z.of_nat (seq 0 24)) = true) by (vm_compute; reflexivity).
  rewrite forallb_forall in E.
  specialize (E p). rewrite Hm in E. cbn [negb orb] in E.
  assert (Hin : In p (map Z.of_nat (seq 0 24))).
  { apply in_map_iff. exists (Z.to_nat p). split; [lia|].
    apply in_seq. lia. }
  apply E in Hin. apply orb_prop in Hin.
  destruct Hin as [H|H]; apply Z.eqb_eq in H; subst p; cbn [In]; auto.
Qed.

(** The two dives of [smart_two]. *)
Lemma smart_hands_over_every_record_witness :
  exists u' : nat,
    UwatecSmart.uwatec_smart_extract_dives nat
      (option_map SmartDevice (Some smart_device)) Fixtures.smart_two
      (Some Fixtures.counting) O
    = Some (UwatecSmart.mk_run nat (Returns DC_STATUS_SUCCESS)
              (map (fun c => UwatecSmart.mk_call c
                               (SmartMore.length_at Fixtures.smart_two c))
                 [12; 0]) u').
Proof.
  apply (SmartMoreProofs.smart_hands_over_every_record nat
           (Some smart_device) Fixtures.smart_two Fixtures.counting O
           [12; 0]).
  - vm_compute. reflexivity.
  - vm_compute. reflexivity.
  - exact markers_of_smart_two.
  - intros p n q m u. reflexivity.
Defined.

(** The frame of a read request for 32 bytes at address 0. *)
Lemma packet_accepts_what_make_ascii_builds_witness :
  exists frame : list byte,
    cressi_leonardo_make_ascii Fixtures.crc_ccitt FixturesMore.bin2hex
      (raw_command 0 32) (Fixtures.zeroed 14) = Some frame
    /\ size_of frame = 2 * (size_of (raw_command 0 32) + 3)
    /\ cressi_leonardo_packet Fixtures.crc_ccitt Fixtures.hex2bin
         [mk_exchange false DC_STATUS_SUCCESS DC_STATUS_SUCCESS frame]
         Fixtures.command (Fixtures.zeroed 14) (size_of frame)
       = (Returns DC_STATUS_SUCCESS,
          frame ++ skipn (length frame) (Fixtures.zeroed 14), [])
    /\ option_map Fixtures.hex2bin
         (bytes_at (ptr frame 1) (2 * size_of (raw_command 0 32)))
       = Some (raw_command 0 32).
Proof.
  destruct (cressi_leonardo_make_ascii Fixtures.crc_ccitt FixturesMore.bin2hex
              (raw_command 0 32) (Fixtures.zeroed 14)) as [frame|] eqn:E.
  - exists frame. split; [reflexivity|].
    exact (FrameProofs.packet_accepts_what_make_ascii_builds
             Fixtures.crc_ccitt Fixtures.hex2bin FixturesMore.bin2hex
             HelperProofs.bin2hex_length HelperProofs.hex2bin_bin2hex
             HelperProofs.crc_range (raw_command 0 32) (Fixtures.zeroed 14)
             frame Fixtures.command (Fixtures.zeroed 14) [] E).
  - exfalso. revert E. vm_compute. discriminate.
Defined.

(** A read of forty bytes on a line that answers nothing. *)
Lemma read_requests_consecutive_packets_witness :
  exists (r : reading) (k : nat),
    cressi_leonardo_device_read Fixtures.crc_ccitt Fixtures.hex2bin
      FixturesMore.bin2hex [] 0x100 (Fixtures.zeroed 40) 40 = Some r
    /\ read_requests r
       = map (request Fixtures.crc_ccitt FixturesMore.bin2hex 0x100 40)
           (seq 0 k)
    /\ Z.of_nat k <= request_count 40
    /\ (read_result r = Returns DC_STATUS_SUCCESS ->
        Z.of_nat k = request_count 40)
    /\ size_of (read_data r) = size_of (Fixtures.zeroed 40).
Proof.
  apply (FrameProofs.read_requests_consecutive_packets Fixtures.crc_ccitt
           Fixtures.hex2bin FixturesMore.bin2hex HelperProofs.bin2hex_length
           [] 0x100 (Fixtures.zeroed 40) 40); lia.
Defined.

(** A read of the forty bytes of [forty]: two packets. *)
Lemma read_returns_what_the_frames_carry_witness :
  cressi_leonardo_device_read Fixtures.crc_ccitt Fixtures.hex2bin
    FixturesMore.bin2hex
    (answers Fixtures.crc_ccitt FixturesMore.bin2hex
       (length FixturesMore.forty) FixturesMore.forty [])
    0x100 (Fixtures.zeroed 48) (size_of FixturesMore.forty)
  = Some (mk_reading (Returns DC_STATUS_SUCCESS)
            (FixturesMore.forty
             ++ skipn (length FixturesMore.forty) (Fixtures.zeroed 48)) []
            (map (request Fixtures.crc_ccitt FixturesMore.bin2hex 0x100
                    (size_of FixturesMore.forty))
               (seq 0 (Z.to_nat (request_count (size_of FixturesMore.forty)))))).
Proof.
  apply (FrameProofs.read_returns_what_the_frames_carry Fixtures.crc_ccitt
           Fixtures.hex2bin FixturesMore.bin2hex HelperProofs.bin2hex_length
           HelperProofs.hex2bin_bin2hex HelperProofs.crc_range
           FixturesMore.forty 0x100 (Fixtures.zeroed 48) []).
  - lia.
  - vm_compute. discriminate.
  - vm_compute. reflexivity.
Defined.

(** The download of [image_567] with its checksum. *)
Lemma dump_success_means_checked_image_witness :
  exists d : download,
    CressiDump.cressi_leonardo_device_dump Fixtures.crc_ccitt Fixtures.hex2bin
      0 (Some []) true leonardo_line = Some d
    /\ (exists rc : dc_status_t, dl_result d = Returns rc)
    /\ (dl_result d = Returns DC_STATUS_SUCCESS ->
        exists (image trailer : list byte) (before : list event),
          arriving leonardo_line
          = CressiDump.dump_expected ++ image ++ trailer
            ++ arriving (dl_line d)
          /\ size_of image = SZ_MEMORY
          /\ size_of trailer = 4
          /\ dl_data d = image
          /\ array_uint16_be
               (firstn 2 (Fixtures.hex2bin trailer ++ [x00; x00]))
             = Some (Fixtures.crc_ccitt image)
          /\ sent (dl_line d)
             = sent leonardo_line ++ [CressiDump.dump_command]
          /\ dl_current d = u32 (0 + SZ_MEMORY)
          /\ dl_events d
             = Progress 0 SZ_MEMORY
               :: before ++ [Progress (dl_current d) SZ_MEMORY]).
Proof.
  apply (CressiDumpProofs.dump_success_means_checked_image Fixtures.crc_ccitt
           Fixtures.hex2bin 0 ltac:(lia) (Some []) true leonardo_line).
  vm_compute. reflexivity.
Defined.

(** The same download with a checksum that does not fit: the image is
    delivered, the result is a protocol error. *)
Lemma dump_delivers_the_image_witness :
  exists (d : download) (csum : Z),
    CressiDump.cressi_leonardo_device_dump Fixtures.crc_ccitt Fixtures.hex2bin
      0 (Some [x01; x02]) true leonardo_line_corrupt = Some d
    /\ array_uint16_be
         (firstn 2 (Fixtures.hex2bin [x30; x30; x30; x30] ++ [x00; x00]))
       = Some csum
    /\ dl_result d
       = (if csum =? Fixtures.crc_ccitt Fixtures.image_567
          then Returns DC_STATUS_SUCCESS
          else Returns DC_STATUS_PROTOCOL)
    /\ dl_data d = Fixtures.image_567
    /\ arriving (dl_line d) = [x7d]
    /\ sent (dl_line d)
       = sent leonardo_line_corrupt ++ [CressiDump.dump_command].
Proof.
  apply (CressiDumpProofs.dump_delivers_the_image Fixtures.crc_ccitt
           Fixtures.hex2bin 0 ltac:(lia) [x01; x02] leonardo_line_corrupt
           Fixtures.image_567 [x30; x30; x30; x30] [x7d]).
  - reflexivity.
  - vm_compute. reflexivity.
  - reflexivity.
  - reflexivity.
  - reflexivity.
  - reflexivity.
Defined.

(** The three dives of [image_567], downloaded and extracted. *)
Lemma foreach_extracts_the_downloaded_image_witness :
  exists (v : CressiDump.visit nat) (serial : Z) (before : list event),
    CressiDump.cressi_leonardo_device_foreach Fixtures.crc_ccitt
      Fixtures.hex2bin 0 nat Fixtures.empty_fingerprint true true
      (Some Fixtures.scratch0) leonardo_line (Some Fixtures.counting) O
    = Some v
    /\ CressiDump.visit_result nat v
       = result nat
           (cressi_leonardo_extract_dives nat
              (Some (LeonardoDevice Fixtures.empty_fingerprint))
              (Some Fixtures.scratch0) Fixtures.image_567
              (Some Fixtures.counting) O)
    /\ CressiDump.visit_dives nat v
       = dives nat
           (cressi_leonardo_extract_dives nat
              (Some (LeonardoDevice Fixtures.empty_fingerprint))
              (Some Fixtures.scratch0) Fixtures.image_567
              (Some Fixtures.counting) O)
    /\ CressiDump.visit_userdata nat v
       = userdata nat
           (cressi_leonardo_extract_dives nat
              (Some (LeonardoDevice Fixtures.empty_fingerprint))
              (Some Fixtures.scratch0) Fixtures.image_567
              (Some Fixtures.counting) O)
    /\ arriving (CressiDump.visit_line nat v) = []
    /\ CressiDump.array_uint24_le (ptr Fixtures.image_567 1) = Some serial
    /\ CressiDump.visit_events nat v
       = before ++ [Devinfo (b2z (nth 0 Fixtures.image_567 x00)) 0 serial].
Proof.
  apply (CressiDumpProofs.foreach_extracts_the_downloaded_image
           Fixtures.crc_ccitt Fixtures.hex2bin 0 ltac:(lia) nat
           Fixtures.empty_fingerprint (Some Fixtures.scratch0) leonardo_line
           (Some Fixtures.counting) O Fixtures.image_567
           (trailer_of Fixtures.image_567) []).
  - reflexivity.
  - vm_compute. reflexivity.
  - vm_compute. reflexivity.
  - reflexivity.
  - reflexivity.
  - reflexivity.
  - vm_compute. reflexivity.
Defined.

(** On [leonardo_line] the download succeeds. *)
Lemma leonardo_line_downloads :
  option_map dl_result
    (CressiDump.cressi_leonardo_device_dump Fixtures.crc_ccitt
       Fixtures.hex2bin 0 (Some []) true leonardo_line)
  = Some (Returns DC_STATUS_SUCCESS).
Proof. vm_compute. reflexivity. Qed.

(** The download of the two dives of [smart_two]. *)
Lemma smart_dump_delivers_the_data_witness :
  exists (d : download) (dv : Z) (before : list event),
    SmartDump.uwatec_smart_device_dump 0 0 smart_device 1000 [x01] true
      smart_line
    = Some (SmartDump.mk_dumped d
              (mk_smart (timestamp smart_device) dv 1000))
    /\ array_uint32_le smart_devtime = Some dv
    /\ dl_result d = Returns DC_STATUS_SUCCESS
    /\ dl_data d = Fixtures.smart_two
    /\ arriving (dl_line d) = []
    /\ dl_current d = u32 (0 + (17 + 24))
    /\ dl_events d = before ++ [Progress (dl_current d) (17 + 24)].
Proof.
  apply (SmartDumpProofs.smart_dump_delivers_the_data 0 0 ltac:(lia)
           smart_device 1000 [x01] smart_line x10 smart_serial smart_devtime
           Fixtures.smart_two [] 24).
  - reflexivity.
  - reflexivity.
  - reflexivity.
  - reflexivity.
  - lia.
  - lia.
  - reflexivity.
  - reflexivity.
  - reflexivity.
Defined.

(** The commands of that download, with the fingerprint 04 03 02 01. *)
Lemma smart_dump_writes_only_its_commands_witness :
  exists dd : SmartDump.dumped,
    SmartDump.uwatec_smart_device_dump 0 0 smart_device 1000 [] true
      smart_line = Some dd
    /\ (exists k : nat,
          sent (dl_line (SmartDump.dumped_download dd))
          = sent smart_line
            ++ firstn k
                 [[x10]; [x14]; [x1a];
                  xc6 :: uint32_le_bytes (timestamp smart_device)
                         ++ [x10; x27; x00; x00];
                  xc4 :: uint32_le_bytes (timestamp smart_device)
                         ++ [x10; x27; x00; x00]]
          /\ (dl_result (SmartDump.dumped_download dd)
              = Returns DC_STATUS_SUCCESS -> (4 <= k)%nat))
    /\ (forall (device0 : uwatec_smart_device_t) (fp : list byte),
          size_of fp = 4 ->
          UwatecSmart.uwatec_smart_device_set_fingerprint device0 fp
          = (Returns DC_STATUS_SUCCESS, smart_device) ->
          uint32_le_bytes (timestamp smart_device) = fp).
Proof.
  assert (H : option_map (fun _ => tt)
                (SmartDump.uwatec_smart_device_dump 0 0 smart_device 1000 []
                   true smart_line) = Some tt) by (vm_compute; reflexivity).
  destruct (SmartDump.uwatec_smart_device_dump 0 0 smart_device 1000 [] true
              smart_line) as [dd|] eqn:E; [|discriminate H].
  exists dd. split; [reflexivity|].
  exact (SmartDumpProofs.smart_dump_writes_only_its_commands 0 0 smart_device
           1000 [] true smart_line dd E).
Defined.

(** An instrument with nothing new. *)
Lemma smart_dump_of_nothing_witness :
  exists (d : download) (dv : Z) (before : list event),
    SmartDump.uwatec_smart_device_dump 0 0 smart_device 1000 [x01; x02] false
      smart_line_empty
    = Some (SmartDump.mk_dumped d
              (mk_smart (timestamp smart_device) dv 1000))
    /\ array_uint32_le smart_devtime = Some dv
    /\ dl_result d = Returns DC_STATUS_SUCCESS
    /\ dl_data d = [x01; x02]
    /\ arriving (dl_line d) = []
    /\ sent (dl_line d)
       = sent smart_line_empty
         ++ [[x10]; [x14]; [x1a];
             SmartDump.dump_command xc6 (timestamp smart_device)]
    /\ dl_events d = before ++ [Progress (u32 (0 + 13)) 13].
Proof.
  apply (SmartDumpProofs.smart_dump_of_nothing 0 0 ltac:(lia) smart_device
           1000 [x01; x02] false smart_line_empty x10 smart_serial
           smart_devtime []); reflexivity.
Defined.

(** The two dives of [smart_two], downloaded and extracted. *)
Lemma smart_foreach_extracts_the_download_witness :
  exists (v : SmartDump.visit nat) (r : UwatecSmart.run nat) (dv : Z),
    SmartDump.uwatec_smart_device_foreach 0 0 nat smart_device 1000 true true
      smart_line (Some Fixtures.counting) O = Some v
    /\ array_uint32_le smart_devtime = Some dv
    /\ UwatecSmart.uwatec_smart_extract_dives nat
         (Some (SmartDevice (mk_smart (timestamp smart_device) dv 1000)))
         Fixtures.smart_two (Some Fixtures.counting) O = Some r
    /\ SmartDump.visit_result nat v = UwatecSmart.result nat r
    /\ SmartDump.visit_calls nat v = UwatecSmart.calls nat r
    /\ SmartDump.visit_userdata nat v = UwatecSmart.userdata nat r
    /\ SmartDump.visit_device nat v
       = mk_smart (timestamp smart_device) dv 1000
    /\ arriving (SmartDump.visit_line nat v) = [].
Proof.
  apply (SmartDumpProofs.smart_foreach_extracts_the_download 0 0 ltac:(lia)
           nat smart_device 1000 smart_line (Some Fixtures.counting) O x10
           smart_serial smart_devtime Fixtures.smart_two [] 24).
  - reflexivity.
  - reflexivity.
  - reflexivity.
  - reflexivity.
  - lia.
  - lia.
  - reflexivity.
  - reflexivity.
  - reflexivity.
Defined.

(** A read of four bytes from a peer that sends three and falls silent. *)
Lemma socket_read_counts_what_it_received_witness :
  let r := Socket.dc_socket_read (Socket.mk_socket 3 1000) 4 true
             [Socket.mk_turn (Socket.ReadyAfter 10)
                (Socket.IoMoves [x01; x02]);
              Socket.mk_turn (Socket.ReadyAfter 0) (Socket.IoMoves [x03])] in
  size_of (Socket.moved r) <= 4
  /\ (Socket.result r = Returns DC_STATUS_SUCCESS
      <-> size_of (Socket.moved r) = 4)
  /\ (Socket.result r <> Hangs ->
      Socket.actual_out r = Some (size_of (Socket.moved r)))
  /\ (length (Socket.waits r) <= 3)%nat.
Proof.
  apply (SocketMoreProofs.socket_read_counts_what_it_received
           (Socket.mk_socket 3 1000) 4 true
           [Socket.mk_turn (Socket.ReadyAfter 10)
              (Socket.IoMoves [x01; x02]);
            Socket.mk_turn (Socket.ReadyAfter 0) (Socket.IoMoves [x03])]).
  lia.
Defined.

(** An enumeration of four entries, the third one a Galileo. *)
Lemma smart_open_holds_or_releases_witness :
  let r := Opening.uwatec_smart_device_open true true DC_STATUS_SUCCESS
             Opening.neighbourhood DC_STATUS_DONE DC_STATUS_SUCCESS
             Opening.acknowledging in
  (Opening.so_result r <> Returns DC_STATUS_SUCCESS ->
   Opening.so_device r = None
   /\ Opening.balance [] (Opening.so_trace r) = Some [])
  /\ (Opening.so_result r = Returns DC_STATUS_SUCCESS ->
      exists k dev,
        nth_error Opening.neighbourhood k = Some dev
        /\ Opening.first_match Opening.neighbourhood = Some dev
        /\ Opening.balance [] (Opening.so_trace r)
           = Some [Opening.Device; Opening.Iterator; Opening.Entry k;
                   Opening.Stream (Opening.irda_address dev)]).
Proof.
  apply (OpeningProofs.smart_open_holds_or_releases true true
           DC_STATUS_SUCCESS Opening.neighbourhood DC_STATUS_DONE
           DC_STATUS_SUCCESS Opening.acknowledging).
  discriminate.
Defined.

(** On that enumeration the open succeeds. *)
Lemma neighbourhood_opens :
  Opening.so_result
    (Opening.uwatec_smart_device_open true true DC_STATUS_SUCCESS
       Opening.neighbourhood DC_STATUS_DONE DC_STATUS_SUCCESS
       Opening.acknowledging) = Returns DC_STATUS_SUCCESS
  /\ Opening.first_match Opening.neighbourhood
     = Some (Opening.mk_irda 7 (nth 2 (map Opening.irda_name
                                         Opening.neighbourhood) None)).
Proof. split; vm_compute; reflexivity. Qed.

End MoreExamples.

(** ** The checks of the walk over whole extractions *)

Module CheckProofs.

Import ArrayFacts ExtractProofs.
Import Ringbuffer CressiLeonardo Image.

Section WithConsumer.

Variable U : Type.

(** What the walk has recorded after [n] iterations that all continue: the
    header pointer of the dive visited last, which is never 0. *)
Lemma walk_loop_records (device : option cressi_leonardo_device_t)
    (data : list byte) (callback : option (dc_dive_callback_t U))
    (latest : Z) (n : nat) :
  forall (i : Z) (w w' : walk U),
    walk_loop U n device data callback latest i w = (Continue, w') ->
    previous U w'
    = match n with
      | O => previous U w
      | S m => header_or_0 data (visited latest (i + Z.of_nat m))
      end
    /\ (n <> O -> previous U w' <> 0).
Proof.
  induction n as [|n IH]; intros i w w' H.
  - cbn [walk_loop] in H. injection H as <-. split; [reflexivity|].
    intros Hn. contradiction.
  - cbn [walk_loop] in H.
    destruct (walk_step U device data callback latest i w) as [fl w1] eqn:E1.
    destruct fl as [| |o]; try discriminate.
    destruct (StepProofs.step_continues U device data callback latest i w w1
                E1) as (h & f & Hh & Hf & Ih & If & _ & Hp).
    apply in_profile_true in Ih.
    destruct (IH (i + 1) w1 w' H) as [Hprev Hnz].
    destruct n as [|n].
    + cbn [walk_loop] in H. injection H as <-.
      rewrite Z.add_0_r. unfold header_or_0. rewrite Hh.
      split; [exact Hp|]. intros _. lia.
    + split; [|intros _; apply Hnz; discriminate].
      rewrite Hprev. f_equal. f_equal. lia.
Qed.

(** The extraction as the walk over the discovered slots, with or without
    a device. *)
Lemma extract_dives_walk (device : option cressi_leonardo_device_t)
    (scratch data : list byte) (callback : option (dc_dive_callback_t U))
    (u : U) (count latest maximum : Z) :
  SZ_MEMORY <= size_of data ->
  scan_logbook data = Some (count, latest, maximum) ->
  cressi_leonardo_extract_dives U (option_map LeonardoDevice device)
    (Some scratch) data callback u
  = match walk_loop U (Z.to_nat count) device data callback latest 0
            (mk_walk U 0 (RB_PROFILE_END - RB_PROFILE_BEGIN) scratch false u [])
    with
    | (Exit o, w) => mk_run U o (calls U w) (user U w) (freed U w)
    | (_, w) => mk_run U (Returns DC_STATUS_SUCCESS) (calls U w) (user U w) true
    end.
Proof.
  intros Hs Hscan. destruct device as [d|].
  - apply (extract_dives_eq U d scratch data callback u count latest maximum);
      assumption.
  - unfold cressi_leonardo_extract_dives. cbn [option_map].
    destruct (size_of data <? SZ_MEMORY) eqn:E; [lia|].
    rewrite Hscan. reflexivity.
Qed.

(** C2, as the code has it.  On a complete image, let the first [n]
    iterations of the walk all continue and the pointers of the slot of
    iteration [n] lie in the profile area.  What iteration [n] finds as the
    previous value is 0 in the first iteration and otherwise the HEADER
    pointer of the dive of iteration [n - 1] (never 0, so that from the
    second iteration on a previous value exists).  If it is not 0 and
    differs from the footer pointer of the current dive plus 2, the
    iteration frees the scratch buffer and the extractor returns
    [DataFormat]; the consumer has been handed the dives of the iterations
    before and not the current one.  An iteration that continues, the first
    one included, records the header pointer of its dive. *)
Theorem continuity_check :
  forall (device : option cressi_leonardo_device_t)
         (data scratch : list byte)
         (callback : option (dc_dive_callback_t U)) (u : U),
    SZ_MEMORY <= size_of data ->
    exists count latest maximum,
      scan_logbook data = Some (count, latest, maximum)
      /\ forall (n : nat) (w : walk U) (h f : Z),
           (n < Z.to_nat count)%nat ->
           walk_loop U n device data callback latest 0
             (mk_walk U 0 (RB_PROFILE_END - RB_PROFILE_BEGIN) scratch false u
                [])
           = (Continue, w) ->
           slot_header data (visited latest (Z.of_nat n)) = Some h ->
           slot_footer data (visited latest (Z.of_nat n)) = Some f ->
           in_profile h = true -> in_profile f = true ->
           previous U w
           = match n with
             | O => 0
             | S m => header_or_0 data (visited latest (Z.of_nat m))
             end
           /\ (n <> O -> previous U w <> 0)
           /\ (previous U w <> 0 -> previous U w <> f + 2 ->
               walk_step U device data callback latest (Z.of_nat n) w
               = (Exit (Returns DC_STATUS_DATAFORMAT), free U w)
               /\ cressi_leonardo_extract_dives U
                    (option_map LeonardoDevice device) (Some scratch) data
                    callback u
                  = mk_run U (Returns DC_STATUS_DATAFORMAT) (calls U w)
                      (user U w) true)
           /\ (forall w' : walk U,
                 walk_step U device data callback latest (Z.of_nat n) w
                 = (Continue, w') ->
                 previous U w' = h
                 /\ (previous U w = 0 \/ previous U w = f + 2)).
Proof.
  intros device data scratch callback u Hs.
  destruct (ScanProofs.scan_logbook_some data Hs)
    as (count & latest & maximum & Hscan & Hcount).
  exists count, latest, maximum. split; [exact Hscan|].
  intros n w h f Hn Hloop Hh Hf Ih If.
  destruct (walk_loop_records device data callback latest n 0 _ w Hloop)
    as [Hprev Hnz].
  cbn [previous] in Hprev.
  split; [destruct n; [exact Hprev|]; rewrite Hprev, Z.add_0_l;
          reflexivity|].
  split; [exact Hnz|]. split.
  - intros H0 Hne.
    pose proof (step_discontinuous U device data callback latest
                  (Z.of_nat n) w h f Hh Hf Ih If H0 Hne) as Hstep.
    split; [exact Hstep|].
    rewrite (extract_dives_walk device scratch data callback u count latest
               maximum Hs Hscan).
    replace (Z.to_nat count) with (n + S (Z.to_nat count - S n))%nat by lia.
    rewrite (walk_loop_exits U device data latest callback n _ 0 _ w
               (free U w) (Returns DC_STATUS_DATAFORMAT) Hloop);
      [reflexivity|].
    rewrite Z.add_0_l. exact Hstep.
  - intros w' Hstep.
    destruct (StepProofs.step_continues U device data callback latest
                (Z.of_nat n) w w' Hstep)
      as (h' & f' & Hh' & Hf' & _ & _ & Hor & Hp).
    rewrite Hh in Hh'. rewrite Hf in Hf'.
    injection Hh' as <-. injection Hf' as <-. auto.
Qed.


(** The test of the remaining capacity on a profile shorter than its two
    pointers: the 32-bit length plus 4 wraps around to the distance plus
    2. *)
Lemma wrapped_capacity_test (distance : Z) :
  0 <= distance < 2 ->
  u32 (distance - 2) = 2 ^ 32 - 2 + distance
  /\ u32 (u32 (distance - 2) + 4) = distance + 2.
Proof.
  intros H. assert (E : distance = 0 \/ distance = 1) by lia.
  destruct E as [-> | ->]; split; reflexivity.
Qed.

(** C6, and where the code breaks it.  An iteration reaches the copy of the
    profile (its pointers pass the checks and its slot does not carry the
    fingerprint) and the remaining capacity cannot hold the profile: it is 0
    or smaller than the length of the profile, as the code computes it (the
    distance from header to footer minus 2, in 32 bits), plus 4.  When the
    profile holds its two pointers (the distance is at least 2), or the
    capacity is below the distance plus 2, the iteration does not fail: the
    consumer is called with the bytes of the logbook slot alone, the
    remaining capacity becomes 0, and the loop goes on (or ends in success
    if the consumer asks to stop).  When the footer pointer is the header
    pointer or the byte after it, the length wraps around to 0xFFFFFFFE or
    0xFFFFFFFF and the length plus 4, which the code compares the capacity
    with, to 2 or 3: with that much capacity left the iteration does not
    degrade but leaves the loop, with [DataFormat] or, when the profile
    repeats its pointers, by copying 4 GiB out of the image. *)
Theorem slot_only_unless_length_wraps :
  forall (device : option cressi_leonardo_device_t) (data : list byte)
         (callback : option (dc_dive_callback_t U)) (latest i : Z)
         (w : walk U) (h f : Z),
    SZ_MEMORY <= size_of data ->
    size_of (buffer U w) = SZ_SCRATCH ->
    slot_header data (visited latest i) = Some h ->
    slot_footer data (visited latest i) = Some f ->
    pointers_ok data (visited latest i) (previous U w) = true ->
    fingerprint_matches device (ptr data (slot_offset (visited latest i) + 8))
    = Some false ->
    remaining U w = 0
    \/ remaining U w < u32 (RB_PROFILE_DISTANCE h f - 2) + 4 ->
    (2 <= RB_PROFILE_DISTANCE h f
     \/ remaining U w < RB_PROFILE_DISTANCE h f + 2 ->
     exists (fl : flow) (w' : walk U),
       walk_step U device data callback latest i w = (fl, w')
       /\ (fl = Continue \/ fl = Break)
       /\ remaining U w' = 0
       /\ freed U w' = freed U w
       /\ match callback with
          | Some cb =>
              calls U w'
              = calls U w
                ++ [mk_dive (slot_bytes data (visited latest i))
                      (firstn (Z.to_nat SZ_FINGERPRINT)
                         (ptr (buffer U w') 8))]
              /\ (always_goes cb -> fl = Continue)
          | None => calls U w' = calls U w /\ fl = Continue
          end)
    /\ (RB_PROFILE_DISTANCE h f < 2 ->
        RB_PROFILE_DISTANCE h f + 2 <= remaining U w ->
        u32 (RB_PROFILE_DISTANCE h f - 2)
        = 2 ^ 32 - 2 + RB_PROFILE_DISTANCE h f
        /\ exists (o : outcome) (w' : walk U),
             walk_step U device data callback latest i w = (Exit o, w')
             /\ calls U w' = calls U w
             /\ (o = Fault \/ o = Returns DC_STATUS_DATAFORMAT)
             /\ (array_uint16_le (ptr data f) = Some h ->
                 array_uint16_le (ptr data h) = Some f ->
                 o = Fault /\ w' = w)).
Proof.
  intros device data callback latest i w h f Hs Hb Hh Hf Hp Hm Hrem.
  assert (Hin : in_profile h = true /\ in_profile f = true).
  { unfold pointers_ok in Hp. rewrite Hh, Hf in Hp.
    apply andb_prop in Hp. destruct Hp as [Hp _].
    apply andb_prop in Hp. exact Hp. }
  destruct Hin as [Ih If].
  pose proof (in_profile_true _ Ih) as Hhr.
  pose proof (in_profile_true _ If) as Hfr.
  pose proof (distance_range h f ltac:(lia) ltac:(lia) ltac:(lia) ltac:(lia))
    as Hd.
  split.
  - intros Hcase.
    apply (StepProofs.step_degrades U device data callback latest i w h f);
      try assumption.
    destruct Hrem as [H0|Hlt]; [left; exact H0|].
    destruct (Z_lt_le_dec (RB_PROFILE_DISTANCE h f) 2) as [Hsmall|Hbig].
    + right.
      destruct (wrapped_capacity_test (RB_PROFILE_DISTANCE h f) ltac:(lia)) as [_ E]. rewrite E.
      destruct Hcase as [Hc|Hc]; lia.
    + right. rewrite (u32_small (RB_PROFILE_DISTANCE h f - 2)) in * by lia.
      rewrite u32_small by lia. exact Hlt.
  - intros Hsmall Hfit.
    destruct (wrapped_capacity_test (RB_PROFILE_DISTANCE h f) ltac:(lia)) as [Elen Etest].
    split; [exact Elen|].
    pose proof (visited_range latest i) as Hi.
    rewrite walk_step_eq. cbv zeta. rewrite Hh, Hf, Ih, If.
    cbn [andb negb].
    assert (Ec : negb (previous U w =? 0) && negb (previous U w =? f + 2)
                 = false).
    { unfold pointers_ok in Hp. rewrite Hh, Hf in Hp.
      apply andb_prop in Hp. destruct Hp as [_ Hc].
      apply orb_prop in Hc. destruct Hc as [->| ->]; cbn [negb andb];
        [reflexivity|apply andb_false_r]. }
    rewrite Ec, Hm.
    destruct (slot_copy data (buffer U w) (visited latest i) Hs Hi Hb)
      as (buf & Hbuf & Hsz & _).
    rewrite Hbuf, Etest.
    assert (Etaken : negb (remaining U w =? 0)
                     && (remaining U w >=? RB_PROFILE_DISTANCE h f + 2)
                     = true).
    { apply andb_true_intro. split; [apply negb_true_iff|]; lia. }
    rewrite Etaken.
    assert (Hs' : 32000 <= size_of data) by exact Hs.
    destruct (ScanProofs.uint16_some data f ltac:(lia) ltac:(lia))
      as (h2 & Hh2 & _).
    destruct (ScanProofs.uint16_some data h ltac:(lia) ltac:(lia))
      as (f2 & Hf2 & _).
    rewrite Hh2, Hf2.
    assert (Hcopy : copy_profile buf data (h + 2)
                      (u32 (RB_PROFILE_DISTANCE h f - 2)) = None).
    { rewrite Elen. unfold copy_profile.
      assert (HE : RB_PROFILE_END = 32000) by reflexivity.
      assert (HL : RB_LOGBOOK_SIZE = 82) by reflexivity.
      rewrite HE, HL.
      rewrite RobustProofs.u32_wrapped
        by (change (2 ^ 32) with 4294967296; lia).
      destruct (h + 2 + (2 ^ 32 - 2 + RB_PROFILE_DISTANCE h f) - 2 ^ 32
                >? 32000) eqn:E; [lia|].
      destruct (memcpy buf 82 (ptr data (h + 2))
                  (2 ^ 32 - 2 + RB_PROFILE_DISTANCE h f)) as [b|] eqn:Em;
        [|reflexivity].
      apply RobustProofs.memcpy_bounds in Em.
      unfold SZ_SCRATCH in Hsz. rewrite HE, HL in Hsz.
      change RB_PROFILE_BEGIN with 5176 in Hsz.
      change (2 ^ 32) with 4294967296 in Em. lia. }
    destruct (negb (h2 =? h) || negb (f2 =? f)) eqn:Erep.
    + exists (Returns DC_STATUS_DATAFORMAT), (free U w).
      split; [reflexivity|]. split; [reflexivity|]. split; [right; reflexivity|].
      intros E1 E2. injection E1 as ->. injection E2 as ->.
      rewrite !Z.eqb_refl in Erep. discriminate Erep.
    + rewrite Hcopy. exists Fault, w.
      split; [reflexivity|]. split; [reflexivity|]. split; [left; reflexivity|].
      intros _ _. split; reflexivity.
Qed.

End WithConsumer.

End CheckProofs.

(** ** The checks of the walk on concrete images *)

Module CheckExamples.

Import CressiLeonardo Image ImageMore Fixtures.

(** On [image_576] the first iteration (slot 1, dive 7) continues and
    records the header pointer 5200; the second (slot 0, dive 5) finds the
    footer pointer 5186: 5200 is not 5186 + 2 and the extractor returns
    [DataFormat] after the one call. *)
Lemma continuity_check_witness :
  exists w : walk nat,
    walk_loop nat 1 (Some empty_fingerprint) image_576 (Some counting) 1 0
      (mk_walk nat 0 (RB_PROFILE_END - RB_PROFILE_BEGIN) scratch0 false O [])
    = (Continue, w)
    /\ previous nat w = header_or_0 image_576 (visited 1 (Z.of_nat 0))
    /\ previous nat w <> 0
    /\ walk_step nat (Some empty_fingerprint) image_576 (Some counting) 1
         (Z.of_nat 1) w
       = (Exit (Returns DC_STATUS_DATAFORMAT), free nat w)
    /\ cressi_leonardo_extract_dives nat (Some (LeonardoDevice empty_fingerprint))
         (Some scratch0) image_576 (Some counting) O
       = mk_run nat (Returns DC_STATUS_DATAFORMAT) (calls nat w) (user nat w)
           true.
Proof.
  destruct (CheckProofs.continuity_check nat (Some empty_fingerprint)
              image_576 scratch0 (Some counting) O)
    as (count & latest & maximum & Hscan & Hall).
  { apply Z.leb_le. vm_compute. reflexivity. }
  assert (E : scan_logbook image_576 = Some (3, 1, 7))
    by (vm_compute; reflexivity).
  rewrite E in Hscan. injection Hscan as Ec El Em. subst count latest maximum.
  assert (Hfl : fst (walk_loop nat 1 (Some empty_fingerprint) image_576
                       (Some counting) 1 0
                       (mk_walk nat 0 (RB_PROFILE_END - RB_PROFILE_BEGIN)
                          scratch0 false O [])) = Continue)
    by (vm_compute; reflexivity).
  destruct (walk_loop nat 1 (Some empty_fingerprint) image_576
              (Some counting) 1 0
              (mk_walk nat 0 (RB_PROFILE_END - RB_PROFILE_BEGIN) scratch0
                 false O [])) as [fl w] eqn:Eloop.
  cbn [fst] in Hfl. subst fl.
  destruct (Hall 1%nat w hA fA) as (Hprev & Hnz & Hmis & _).
  - vm_compute. lia.
  - exact Eloop.
  - vm_compute. reflexivity.
  - vm_compute. reflexivity.
  - vm_compute. reflexivity.
  - vm_compute. reflexivity.
  - exists w. split; [reflexivity|]. split; [exact Hprev|].
    split; [apply Hnz; discriminate|].
    apply Hmis; [apply Hnz; discriminate|].
    rewrite Hprev. vm_compute. discriminate.
Defined.



(** The dive of [image_degenerate] has its footer pointer at its header
    pointer, 6000, and its profile repeats that pointer.  The capacity of
    26824 bytes cannot hold the 4294967294 bytes that the code computes as
    the length of the profile, and the iteration does not degrade: the copy
    of the profile leaves the image. *)
Lemma slot_only_unless_length_wraps_witness :
  let w := mk_walk nat 0 (RB_PROFILE_END - RB_PROFILE_BEGIN) scratch0 false O
             [] in
  remaining nat w < u32 (RB_PROFILE_DISTANCE 6000 6000 - 2) + 4
  /\ u32 (RB_PROFILE_DISTANCE 6000 6000 - 2) = 4294967294
  /\ walk_step nat (Some empty_fingerprint) image_degenerate (Some counting)
       0 0 w = (Exit Fault, w).
Proof.
  intros w.
  assert (Hrem : remaining nat w < u32 (RB_PROFILE_DISTANCE 6000 6000 - 2) + 4)
    by (vm_compute; reflexivity).
  split; [exact Hrem|].
  destruct (CheckProofs.slot_only_unless_length_wraps nat
              (Some empty_fingerprint) image_degenerate (Some counting) 0 0 w
              6000 6000) as [_ Hbug].
  - apply Z.leb_le. vm_compute. reflexivity.
  - vm_compute. reflexivity.
  - vm_compute. reflexivity.
  - vm_compute. reflexivity.
  - vm_compute. reflexivity.
  - vm_compute. reflexivity.
  - right. exact Hrem.
  - destruct Hbug as (Elen & o & w' & Hstep & _ & _ & Hrep).
    + vm_compute. reflexivity.
    + vm_compute. discriminate.
    + split; [exact Elen|].
      destruct Hrep as [-> ->]; [vm_compute; reflexivity..|exact Hstep].
Defined.

(** The capacity test in its ordinary case: [image_overwritten] holds two
    dives that together claim more than the ring; the older one is handed
    over as its logbook slot alone and the walk goes on. *)
Lemma overwritten_dive_degrades :
  let r := cressi_leonardo_extract_dives nat
             (Some (LeonardoDevice empty_fingerprint)) (Some scratch0)
             image_overwritten (Some counting) O in
  result nat r = Returns DC_STATUS_SUCCESS
  /\ map (fun d => size_of (dive_data d)) (dives nat r) = [26894; 82].
Proof. split; vm_compute; reflexivity. Qed.

End CheckExamples.
